(* ===== verification/_CoqProject ===== *)
-Q . S2P
Prelude.v
GoMonad.v
Mem.v
Scu.v
Pwm.v
Flash.v
GoStrings.v
GpioReg.v
GpioWatcher.v
Lpc.v
HostMem.v
Rdnss.v
Network.v
Ncsi.v
Mtd.v
Uart.v
Gpio.v
FakeGpio.v
Buttons.v
GpioSystem.v
Quanta.v
BoardGpio.v
Drivers.v
Boards.v
Fan.v
Dns.v
Time.v
Cert.v
Encoding.v
GpioAbi.v
Config.v
Json.v
AcmeTypes.v
Jws.v
Acme.v
AcmeFacts.v
AcmeSpec.v
AcmeRenew.v
System.v
Console.v
I2cWatcher.v
Server.v
Boot.v
Shell.v
Logger.v
Ubmcctl.v
Programs.v
BuildRoot.v
Loader.v
BootImage.v
IntegrationTests.v
AcmeTest.v
