(* ===== verification/Prelude.v ===== *)
(** * u-bmc: a verification library

    u-bmc is the firmware of a baseboard management controller, written in Go.  A
    loader finds and checks the next kernel and starts it (boot/loader); the
    started system initialises the board, the network, trusted time and a TLS
    certificate and serves consoles, buttons and fans over gRPC (pkg/bmc,
    platform); underneath are drivers for the ASPEED SoC (pkg/aspeed) and for
    flash partitions (pkg/mtd), and tools built on them (pkg/gpiowatcher, cmd).
    Certificates come from a server through the ACME client (pkg/acme).
    This library models the Go code as executable functions and step relations and
    proves what makes it correct.

    ** How Go is modelled

    - Integers: a Go integer of [w] bits is a [Z]; [uint w] and [sint w] (below)
      are its wrap-around, written wherever the source can overflow.  [int] and
      [uintptr] have a width that the models take as an argument where it matters
      (32 on the ARM core, 64 on a host).  Bytes are [Z] in 0..255.
    - Effects: [GoMonad].  Stateful code is in a state monad whose [outcome] is a
      return, a panic, the end of the process ([log.Fatal]) or [Blocked].  [wp] is
      total correctness: the call returns and its result satisfies the
      postcondition.  Errors are values of [result].
    - Loops: a loop over a slice is a structural recursion.  A loop that polls or
      scans takes fuel, and [Blocked] is the answer of one that ran out of it or of
      a channel operation that can never proceed.  The theorems state the fuel that
      is enough: one more than the number of polls that the device needs
      ([Flash.responsive], [Pwm.TachHardware]); the length of the message for the
      parser of [Rdnss]; the number of erase blocks and of write chunks for [Mtd];
      one more than the number of failed attempts for the certificate loop of
      [System]; for [Acme], [fuel] bounds how often a request is repeated after a
      rejected nonce (one is enough when the server does not reject them) and
      [rounds] how often an order or authorization is polled (one more than the
      polls that find it undecided); for [Ubmcctl], a depth greater than the nesting
      of the messages; for [I2cWatcher] the number of samples that is followed.
    - Maps: iteration order is an argument, and the theorems hold for every
      permutation of the map's entries.
    - Goroutines and channels: step relations ([Buttons], [Uart]) and step functions
      over program counters ([Console], [Shell]) with invariants over all
      executions, or the order of completion as an argument ([Time]).
    - Code outside the repository is a parameter with stated laws: the kernel, the
      device registers, the ACME server, and the X.509, OpenPGP, PEM, DNS, netlink,
      gRPC, HTTP, roughtime and NTP packages.  Every set of laws has a concrete model (the modules named [Sim...]), on
      which the theorems are instantiated.

    ** The parts

    Drivers.  Every ASPEED driver reaches the SoC through the interface
    [Mem.memProvider] (pkg/aspeed/mem.go), which has two implementations.
    - [Mem]: the interface, the handle of ast.go, and [Recorder], a provider that
      also keeps the accesses, with which bus traffic is specified.
    - [HostMem] (host_mem.go): /dev/mem one page at a time.  Over the contract
      [DevMem] of mmap each access is one physical access at its address, and
      nothing stays mapped.
    - [Lpc] (lpc_mem.go): the iLPC2AHB bridge of the SuperIO.  Over the contract
      [AhbBridge], in which /dev/port works, each access is one access of the bus behind
      the bridge; the register cache, which is off by default, stays coherent if byte reads
      leave F4 to F6 alone.  Errors of /dev/port ([PortFile]) are logged only.
    - [Scu] (scu.go, wdt.go, cmd/socreset): over the write protection [ScuHardware],
      the bits that each operation changes and that the SCU is locked again.
    - [Pwm] (pwm.go, cmd/fan): tachometer and duty cycle, and the division by zero
      on a 32-bit [int].
    - [Flash] (flash.go): the SPI NOR driver.  Its accesses are cut into frames and
      decoded into the commands of the chip; over the contract [NorArray], a write
      leaves exactly the buffer in its range, and a read is one Fast Read.  Two
      theorems show what the guards of WriteAt let through.
    - [GpioReg] (gpio_reg.go): line names, register snapshots; [Diff] is exact.
    - [Mtd] (pkg/mtd/mtd.go): Erase, Write and Verify of a partition.
    - [Drivers]: a relation between programs on two memory providers, proved for every
      driver call; so /dev/mem and the bridge cannot be told from the bus of the SoC.

    Tools.
    - [GpioWatcher] (pkg/gpiowatcher): the binary log plays back to the recorded
      snapshots, and the textual log follows the directions of the lines.
    - [I2cWatcher] (cmd/i2cwatcher): transactions are reassembled from samples of a
      register that show every state at least once.
    - [Ubmcctl] (cmd/ubmcctl): the target, the requests that are sent, a call with its
      responses and its exit, and the usage text.
    - [BuildRoot] (u-bmc.go): the links and directories of the root file system.
    - [Logger] (pkg/logger/logger.go): the cores, and the log file that programs share
      through offsets of their own.

    The BMC system (pkg/bmc).
    - [Rdnss] (rdnss.go): the parser of neighbour discovery messages at slice level, and
      the goroutine around it: round trip with an encoder, termination, and the message on
      which it panics.
    - [Network] (interface.go): configuration of links and addresses and the IPv6
      link fixer over [Netlink].
    - [Ncsi] (ncsi.go): the packages and channels that nested netlink attributes
      describe are logged.
    - [Uart] (uart.go): the console multiplexer.  A reader sees an ordered
      subsequence of the input, bounded by its channel.
    - [Console] (grpc.go StreamConsole and streamIn, uart.go): any number of console
      sessions over the UART, each with its goroutines and channels.  What clients
      send is written in order, the system settles, and what is left behind when a
      session ends or a write fails.
    - [Gpio] (gpio.go, gpio_linux.go): kernel requests, monitoring and
      hogging over the interface [GpioPlatform], which the boards implement.
    - [GpioAbi] (gpio_linux.go): the same requests as Go structures in memory that ioctl gets
      through unsafe pointers, and the events of a line's file.  It refines [Gpio].
    - [FakeGpio] (gpio_fake.go): the test double with its unbuffered channels.
    - [Buttons] (gpio.go, the handlers of the board): the goroutines of the button
      protocol as a step relation: pushes are served one at a time and complete,
      and the interleaving that wedges the power button.
    - [GpioSystem] (gpio.go, PressButton of grpc.go): all buttons with the read-write
      lock they share, their managers, handlers and RPC calls.  Each button is one of [Buttons].
    - [BoardGpio] (gpio.go): the start of the system on the Quanta board, from which
      [GpioSystem] runs.
    - [Fan] (fan.go, GetFans of grpc.go): hwmon values, the percentage in binary32.
    - [Dns] (dns.go): the responder for the dns-01 challenge.
    - [Time] (ttime/roughtime.go, acquireTime of system.go): roughtime for every
      order of answers over a channel of the given capacity, and the NTP window.
    - [Cert] (cert/load.go): validity, renewal and storage of the certificate over
      [Fs] and [Crypto].  A renewal calls the challenge handlers that [Dns]
      implements.
    - [AcmeRenew] (cert/load.go): the same renewal over the ACME client and the
      handlers; with the responder of [Dns] the challenge is answered.
    - [Server] (grpc.go, metric.go): the listeners and their options, composed with the
      renewal: the remote port is encrypted.
    - [Shell] (system.go): the shell with its signal handler, the background time
      loop, the configuration file and the reboot.
    - [Config] (config/config.go, integration/utils/roughtime.go): the default
      configuration, its base64 keys, and the roughtime server of the tests.
    - [System] (system.go): the order of startup over the results of its calls; remote
      access needs trusted time and a valid certificate.
    - [Boot] (system.go): the startup as one run of [System], [Server], [Cert], [AcmeRenew]
      and [Dns] on one state, after the goroutine that acquires time ([System], [Time]), and
      the startups after it.

    The ACME client (pkg/acme), over an HTTP server, a clock and a random source, the
    class [AcmeTypes.AcmeEnv]:
    - [Encoding], [Json]: base64url, number and string formats, and JSON values with
      their printer and parser, as encoding/json has them.
    - [AcmeTypes] (types.go): the documents and their decoding; errors.
    - [Jws] (jws.go): keys, thumbprints and signed requests down to the bytes, which a
      server that follows the standards reads back.
    - [Acme] (acme.go): every operation of the client with its nonces, mutexes,
      retries and response bodies.
    - [AcmeFacts]: the invariant of the client under any sequence of operations.
    - [AcmeSpec]: what the operations return.

    Boards.  [Quanta] (platform/quanta-f06-leopard-ddr3): names, GPIO set-up, button
    handlers, register programming.  [Boards]: the tables of the three others.

    Boot.  [Loader] (boot/loader/main.go, platform/cmd/boot-config,
    platform/cmd/flash-layout): only verified files are started in kexec mode; the
    memory and flash layouts.  [BootImage] (boot/signer, boot/cpio): the programs that make
    the image, joined with the loader.

    Programs.  [Programs] (platform/*/cmd/uinit, cmd/login): the first process of a board,
    which runs [System] and then one [Shell] after the other; on two of the four boards an error
    of the startup ends it.  [IntegrationTests] and [AcmeTest]
    (integration/testcmd, integration/utils): the programs that test a machine from inside, the
    network helpers, and the certificate authority of the tests, over [System], [GpioReg], [Boot]
    and [Config].

    [GoStrings] has what is used of strings, strconv and fmt.

    ** Theorems

    - Refinement: the two implementations of the memory interface
      ([HostMem.hostMem_refines_phys], [Lpc.lpc_refines_bus]), any sequence of driver calls
      on them ([Drivers.drivers_backend_independent]), and the kernel requests in bytes
      ([GpioAbi.gpio_abi_refines]).
    - Types: the addresses, values and results of driver calls
      ([Drivers.drivers_well_typed]).
    - Data and devices: [Flash.WriteAt_correct], [Flash.ReadAt_correct],
      [Mtd.Erase_covers], [Mtd.Write_Verify], [Scu.SetSpiMaster_correct],
      [Scu.scu_always_relocked], [Pwm.MeasureFanRpm_correct],
      [Quanta.quanta_InitializeSystem_correct].
    - Round trips, exactness, equivalence: [Rdnss.rdnss_delivers],
      [Jws.jwsEncodeJSON_reads], [GpioWatcher.playback_roundtrip],
      [GpioAbi.monitor_reports_edges], [GpioReg.Diff_exact], [Ncsi.ncsi_reports], [I2cWatcher.i2c_watch_reports].
    - Concurrency: [Buttons.button_one_press_at_a_time],
      [Buttons.button_pushes_complete], [Uart.uart_reader_guarantee],
      [Console.console_delivers], [Console.console_settles],
      [GpioSystem.gpio_presses_kept], [GpioSystem.gpio_comes_to_rest], [FakeGpio.fake_channels],
      [Time.getOneRoughtime_correct], [Shell.shell_returns],
      [Programs.uinit_serves_shells].
    - The ACME client: [AcmeFacts.acme_client_invariant] (no nonce signs twice, no
      mutex stays held, every body is closed), [AcmeFacts.acme_ops_return],
      [AcmeSpec.WaitOrder_correct], [AcmeSpec.WaitAuthorization_correct],
      [AcmeSpec.GetCertificate_correct], [AcmeSpec.timeSleeper_backoff].
    - Security of the startup: [Loader.loader_kexec_verified], [Cert.renew_correct],
      [AcmeRenew.renew_answers_challenge], [System.asyncStartup_correct],
      [System.remote_certificate_valid], [Server.EnableRemote_encrypted].
    - Compositions: an image that the signer and cpio made is booted
      ([BootImage.signed_image_boots]); a startup from the local servers to the remote
      port, and the next one ([Boot.boot_end_to_end], [Boot.reboot_reuses_certificate]);
      trusted time with the default configuration ([Config.default_time_acquired]).
    - What the tests on the machine show when they pass: [AcmeTest.acme_test_booted],
      [AcmeTest.test_ca_trusted], [IntegrationTests.metrics_test_verdict],
      [IntegrationTests.temp_test_verdict], [IntegrationTests.boot_test_verdict].
    - What the code does not do: [Flash.WriteAt_unaligned_erases],
      [Buttons.power_second_press_wedges], [System.startSsh_keeps_revoked_keys],
      [Time.getOneRoughtime_deadlock], [Loader.loader_no_fallback],
      [AcmeSpec.undiscovered_panics], [AcmeSpec.sleeper_retryAfter],
      [Console.stream_in_leaks], [Console.console_hangs_after_write_error],
      [Lpc.lpc_read_without_port], [Shell.shell_interrupt_panics], [Server.remote_without_interceptors],
      [GpioSystem.gpio_lock_hangs], [Boot.hostname_acme_locks_out].

    ** Not modelled

    - The opening of the serial port, the generation of the SSH host key, flag parsing,
      banners and progress displays.
    - The libraries for gRPC, HTTP, TLS and logging; generated protocol buffers; of the
      integration tests the Go tests that start the virtual machines, and pebble.
    - [Drivers] covers the calls of the drivers; the commands that open and close the
      memory around them are in [Scu], [Pwm] and [GpioWatcher].

    What is left of the repository is glue around these libraries.

    This file holds the vocabulary that the others share: machine integers and
    bytes with their lemmas, and the hints and tactics for them. *)

From Stdlib Require Export ZArith Lia.
From stdpp Require Export base tactics numbers strings gmap list.

#[global] Open Scope Z_scope.

(** Lemmas that the components use to discharge side conditions on machine
    integers and bytes. *)
Create HintDb ubmc.

(** ** Machine integers

    A Go unsigned integer of [w] bits is a [Z] in [0 .. 2^w); conversions and
    arithmetic wrap around with [uint w].  A signed integer of [w] bits is a
    [Z] in [-2^(w-1) .. 2^(w-1)); [sint w] is the two's complement wrap. *)

Definition uint (w x : Z) : Z := x mod 2 ^ w.

Definition sint (w x : Z) : Z := (x + 2 ^ (w - 1)) mod 2 ^ w - 2 ^ (w - 1).

(** [x] is a value of Go's [uint]_w. *)
Definition is_uint (w x : Z) : Prop := 0 <= x < 2 ^ w.

(** [x] is a value of Go's [int]_w. *)
Definition is_sint (w x : Z) : Prop := - 2 ^ (w - 1) <= x < 2 ^ (w - 1).

#[export] Instance is_uint_dec w x : Decision (is_uint w x).
Proof. unfold is_uint. apply _. Defined.

#[export] Instance is_sint_dec w x : Decision (is_sint w x).
Proof. unfold is_sint. apply _. Defined.

(** Go's bitwise complement [^x] of an unsigned [w]-bit integer. *)
Definition unot (w x : Z) : Z := Z.lxor x (Z.ones w).

(** Go's [x << k] on an unsigned [w]-bit integer (shift counts of [w] or
    more give 0). *)
Definition ushl (w x k : Z) : Z := uint w (Z.shiftl x k).

Lemma uint_range w x : 0 <= w -> is_uint w (uint w x).
Proof. intros. apply Z.mod_pos_bound. by apply Z.pow_pos_nonneg. Qed.

Lemma uint_id w x : is_uint w x -> uint w x = x.
Proof. intros. by apply Z.mod_small. Qed.

Lemma uint_land w x : 0 <= w -> uint w x = Z.land x (Z.ones w).
Proof. intros. unfold uint. by rewrite Z.land_ones. Qed.

Lemma uint_uint w x : 0 <= w -> uint w (uint w x) = uint w x.
Proof. intros. by apply uint_id, uint_range. Qed.

Lemma sint_id w x : 0 < w -> is_sint w x -> sint w x = x.
Proof.
  unfold is_sint, sint. intros Hw Hx.
  assert (2 ^ w = 2 * 2 ^ (w - 1)).
  { replace w with (1 + (w - 1)) at 1 by lia. by rewrite Z.pow_add_r by lia. }
  rewrite Z.mod_small by lia. lia.
Qed.

Lemma sint_mod w x : sint w x mod 2 ^ w = x mod 2 ^ w.
Proof.
  unfold sint. rewrite Zminus_mod_idemp_l. f_equal. lia.
Qed.

Lemma sint_congr w x y : x mod 2 ^ w = y mod 2 ^ w -> sint w x = sint w y.
Proof.
  intros E. unfold sint. by rewrite (Zplus_mod x), E, <- Zplus_mod.
Qed.

Lemma sint_mul_l w x y : sint w (sint w x * y) = sint w (x * y).
Proof.
  apply sint_congr. by rewrite Zmult_mod, sint_mod, <- Zmult_mod.
Qed.

Lemma sint_0_multiple w x : 0 < w -> x mod 2 ^ w = 0 -> sint w x = 0.
Proof.
  intros Hw Hx. rewrite (sint_congr w x 0) by (by rewrite Hx, Zmod_0_l).
  apply sint_id; [done|]. unfold is_sint.
  pose proof (Z.pow_pos_nonneg 2 (w - 1)). lia.
Qed.

Lemma uint_testbit w x i :
  0 <= w -> 0 <= i ->
  Z.testbit (uint w x) i = bool_decide (i < w) && Z.testbit x i.
Proof.
  intros. rewrite uint_land, Z.land_spec, Z.testbit_ones_nonneg by lia.
  case_bool_decide; destruct (Z.testbit x i); cbn; lia.
Qed.

(** A [w]-bit value has no bit set at position [w] or above. *)
Lemma uint_testbit_high w x i :
  is_uint w x -> w <= i -> Z.testbit x i = false.
Proof.
  intros Hx Hi. destruct (decide (w < 0)).
  { unfold is_uint in Hx. rewrite Z.pow_neg_r in Hx; lia. }
  rewrite <- (uint_id w x Hx), uint_testbit by lia.
  by rewrite bool_decide_eq_false_2 by lia.
Qed.

Lemma testbit_uint w x :
  0 <= w -> 0 <= x ->
  (forall i, w <= i -> Z.testbit x i = false) -> is_uint w x.
Proof.
  intros Hw Hx Hb. assert (uint w x = x) as <-; [|by apply uint_range].
  apply Z.bits_inj'. intros i Hi. rewrite uint_testbit by lia.
  case_bool_decide; [done|]. by rewrite Hb by lia.
Qed.

Lemma is_uint_land w x y : 0 <= w -> 0 <= x -> is_uint w y -> is_uint w (Z.land x y).
Proof.
  intros Hw Hx Hy. apply testbit_uint; [done|apply Z.land_nonneg; auto|].
  intros i Hi. by rewrite Z.land_spec, (uint_testbit_high w y), andb_false_r.
Qed.

Lemma is_uint_lor w x y : 0 <= w -> is_uint w x -> is_uint w y -> is_uint w (Z.lor x y).
Proof.
  intros Hw Hx Hy. apply testbit_uint; [done| |].
  { unfold is_uint in *. apply Z.lor_nonneg. lia. }
  intros i Hi. by rewrite Z.lor_spec, (uint_testbit_high w x), (uint_testbit_high w y).
Qed.

Lemma is_uint_le w w' x : 0 <= w <= w' -> is_uint w x -> is_uint w' x.
Proof.
  unfold is_uint. intros Hw Hx. split; [lia|].
  eapply Z.lt_le_trans; [apply Hx|]. apply Z.pow_le_mono_r; lia.
Qed.

Lemma is_uint_shiftr w x k : 0 <= w -> 0 <= k -> is_uint w x -> is_uint w (Z.shiftr x k).
Proof.
  intros Hw Hk Hx. apply testbit_uint; [done| |].
  { unfold is_uint in Hx. apply Z.shiftr_nonneg. lia. }
  intros i Hi. rewrite Z.shiftr_spec by lia. apply (uint_testbit_high w); [done|lia].
Qed.

Lemma unot_testbit w x i :
  0 <= w -> 0 <= i ->
  Z.testbit (unot w x) i = xorb (Z.testbit x i) (bool_decide (i < w)).
Proof.
  intros. unfold unot. rewrite Z.lxor_spec, Z.testbit_ones_nonneg by lia.
  f_equal. case_bool_decide; lia.
Qed.

(** Testing one bit with a mask. *)
Lemma land_pow2 x k : 0 <= k -> Z.land x (2 ^ k) = if Z.testbit x k then 2 ^ k else 0.
Proof.
  intros Hk. apply Z.bits_inj'. intros i Hi. rewrite Z.land_spec.
  destruct (decide (i = k)) as [->|Hne].
  - destruct (Z.testbit x k); by rewrite ?Z.pow2_bits_true, ?Z.bits_0.
  - rewrite (Z.pow2_bits_false k i), andb_false_r by lia.
    by destruct (Z.testbit x k); rewrite ?Z.bits_0, ?Z.pow2_bits_false by lia.
Qed.

Lemma bool_decide_land_pow2 x k :
  0 <= k -> bool_decide (Z.land x (2 ^ k) > 0) = Z.testbit x k.
Proof.
  intros Hk. rewrite land_pow2 by done. assert (0 < 2 ^ k) by by apply Z.pow_pos_nonneg.
  destruct (Z.testbit x k); [apply bool_decide_eq_true_2|apply bool_decide_eq_false_2]; lia.
Qed.

Lemma bool_decide_land_pow2_ne x k :
  0 <= k -> bool_decide (Z.land x (2 ^ k) <> 0) = Z.testbit x k.
Proof.
  intros Hk. rewrite land_pow2 by done. assert (0 < 2 ^ k) by by apply Z.pow_pos_nonneg.
  destruct (Z.testbit x k); [apply bool_decide_eq_true_2|apply bool_decide_eq_false_2]; lia.
Qed.

(** Decide an equation between bit expressions position by position. *)
Ltac zbits :=
  apply Z.bits_inj'; let i := fresh "i" in let Hi := fresh "Hi" in intros i Hi;
  repeat first
    [ rewrite Z.land_spec | rewrite Z.lor_spec | rewrite Z.lxor_spec
    | rewrite Z.shiftr_spec by lia | rewrite Z.shiftl_spec by lia
    | rewrite uint_testbit by lia | rewrite unot_testbit by lia
    | rewrite Z.testbit_ones_nonneg by lia ].

(** [lia] with the quotients and remainders of the goal written out. *)
Ltac dlia := Z.to_euclidean_division_equations; lia.

#[export] Hint Resolve uint_range is_uint_lor is_uint_shiftr : ubmc.

(** ** Bytes *)

(** Byte [n] of a word: Go's [byte(x >> (8*n) & 0xff)]. *)
Definition byte_of (n x : Z) : Z := Z.land (Z.shiftr x (8 * n)) 0xff.

(** The first [n] bytes of [x], least significant first. *)
Fixpoint le_bytes (n : nat) (x : Z) : list Z :=
  match n with
  | O => []
  | S n => Z.land x 0xff :: le_bytes n (Z.shiftr x 8)
  end.

(** The integer whose bytes, least significant first, are [l]. *)
Fixpoint le_int (l : list Z) : Z :=
  match l with
  | [] => 0
  | b :: l => Z.lor b (Z.shiftl (le_int l) 8)
  end.

(** The integer whose bytes, most significant first, are [l]. *)
Definition be_int (l : list Z) : Z := le_int (reverse l).

Definition is_byte (b : Z) : Prop := is_uint 8 b.

Lemma byte_of_range n x : is_byte (byte_of n x).
Proof.
  unfold byte_of, is_byte. change 0xff with (Z.ones 8).
  rewrite Z.land_ones by lia. by apply uint_range.
Qed.

Lemma length_le_bytes n x : length (le_bytes n x) = n.
Proof. revert x. induction n; intros; simpl; auto. Qed.

Lemma le_bytes_range n x : Forall is_byte (le_bytes n x).
Proof.
  revert x. induction n; intros; simpl; constructor; [|done].
  apply (byte_of_range 0).
Qed.

Lemma le_int_le_bytes n x : le_int (le_bytes n x) = uint (8 * Z.of_nat n) x.
Proof.
  revert x. induction n as [|n IH]; intros x.
  { unfold uint. simpl. by rewrite Z.mod_1_r. }
  cbn [le_bytes le_int]. rewrite IH. change 0xff with (Z.ones 8). zbits.
  destruct (decide (i < 8)).
  - rewrite (Z.testbit_neg_r _ (i - 8)), orb_false_r by lia.
    rewrite uint_testbit, bool_decide_eq_true_2 by lia.
    replace (i <? 8) with true by lia. by rewrite andb_true_r.
  - rewrite !uint_testbit, Z.shiftr_spec by lia.
    replace (i - 8 + 8) with i by lia.
    replace (i <? 8) with false by lia. rewrite andb_false_r; simpl.
    f_equal. apply bool_decide_ext. lia.
Qed.

Lemma le_int_cons b l : is_byte b -> le_int (b :: l) = b + 256 * le_int l.
Proof.
  intros Hb. cbn [le_int]. rewrite <- Z.add_nocarry_lor.
  - rewrite Z.shiftl_mul_pow2 by lia. change (2 ^ 8) with 256. lia.
  - zbits. rewrite Z.bits_0. destruct (decide (i < 8)).
    + by rewrite (Z.testbit_neg_r _ (i - 8)), andb_false_r by lia.
    + by rewrite (uint_testbit_high 8 b) by (done || lia).
Qed.

Lemma byte_of_mod n x : 0 <= n -> byte_of n x = x / 2 ^ (8 * n) mod 256.
Proof.
  intros Hn. unfold byte_of. change 0xff with (Z.ones 8).
  rewrite Z.land_ones, Z.shiftr_div_pow2 by lia. done.
Qed.

Lemma le_int_nonneg l : Forall is_byte l -> 0 <= le_int l.
Proof.
  induction 1 as [|b l Hb _ IH]; simpl; [lia|].
  unfold is_byte, is_uint in Hb. apply Z.lor_nonneg. split; [lia|].
  by apply Z.shiftl_nonneg.
Qed.

Lemma le_bytes_le_int l : Forall is_byte l -> le_bytes (length l) (le_int l) = l.
Proof.
  induction 1 as [|b l Hb Hl IH]; [done|]. cbn [length le_bytes le_int]. f_equal.
  - change 0xff with (Z.ones 8). zbits.
    destruct (decide (i < 8)).
    + rewrite (Z.testbit_neg_r _ (i - 8)), orb_false_r by lia.
      replace (i <? 8) with true by lia. by rewrite andb_true_r.
    + replace (i <? 8) with false by lia.
      rewrite andb_false_r. symmetry. apply (uint_testbit_high 8); [done|lia].
  - transitivity (le_bytes (length l) (le_int l)); [|done]. f_equal. zbits.
    rewrite (uint_testbit_high 8 b) by (done || lia). simpl. f_equal. lia.
Qed.

Lemma le_int_range l : Forall is_byte l -> is_uint (8 * Z.of_nat (length l)) (le_int l).
Proof.
  intros Hl. pose proof (le_int_le_bytes (length l) (le_int l)) as H.
  rewrite le_bytes_le_int in H by done. rewrite H. by apply uint_range; lia.
Qed.

#[export] Hint Resolve byte_of_range le_bytes_range le_int_range : ubmc.

(** ** Sums over maps *)

Definition msum {K A} `{Countable K} (f : A -> nat) (m : gmap K A) : nat := map_fold (fun _ x n => f x + n)%nat O m.

Lemma msum_new {K A} `{Countable K} (f : A -> nat) (m : gmap K A) k x :
  m !! k = None -> msum f (<[k := x]> m) = (f x + msum f m)%nat.
Proof. intros Hk. unfold msum. rewrite map_fold_insert_L; [done|lia|done]. Qed.

Lemma msum_update {K A} `{Countable K} (f : A -> nat) (m : gmap K A) k x y :
  m !! k = Some y -> (msum f (<[k := x]> m) + f y = msum f m + f x)%nat.
Proof.
  intros Hk. rewrite <- insert_delete_eq, msum_new by apply lookup_delete_eq.
  unfold msum. rewrite (map_fold_delete_L _ O k y m); [lia|lia|done].
Qed.

Lemma msum_ge {K A} `{Countable K} (f : A -> nat) (m : gmap K A) k x : m !! k = Some x -> (f x <= msum f m)%nat.
Proof. intros Hk. unfold msum. rewrite (map_fold_delete_L _ O k x m); [lia|lia|done]. Qed.

(** ** Lists *)

(** Consecutive groups of [n] elements; the last one may be shorter. *)
Fixpoint chunks_fuel {A} (fuel n : nat) (l : list A) : list (list A) :=
  match fuel, l with
  | O, _ | _, [] => []
  | S fuel, _ => take n l :: chunks_fuel fuel n (drop n l)
  end.

Lemma take_drop_mid {A} (n m : nat) (l : list A) :
  take (n + m) l = take n l ++ take m (drop n l).
Proof.
  revert l. induction n as [|n IH]; intros [|x l]; simpl; try done.
  - by rewrite take_nil.
  - by rewrite IH.
Qed.

(** An error value of Go: only whether it is nil, and which message made it,
    is observable. *)
Definition error := string.

(** A Go result pair [(v, err)] whose value is meaningful only when the error
    is nil. *)
Inductive result (A : Type) : Type :=
| Err (e : error)
| Ok (a : A).
Arguments Err {A} e.
Arguments Ok {A} a.

#[export] Instance result_eq_dec {A} `{EqDecision A} : EqDecision (result A).
Proof. solve_decision. Defined.

#[export] Instance result_ret : MRet result := @Ok.
#[export] Instance result_bind : MBind result := fun A B f m =>
  match m with Ok a => f a | Err e => Err e end.

(** A word assembled from its bytes with shifts. *)
Lemma ushl_byte b k : is_byte b -> 0 <= k <= 24 -> ushl 32 b k = Z.shiftl b k.
Proof.
  intros Hb Hk. apply uint_id. apply testbit_uint; [lia| |].
  - apply Z.shiftl_nonneg. unfold is_byte, is_uint in Hb. lia.
  - intros i Hi. rewrite Z.shiftl_spec by lia. apply (uint_testbit_high 8); [done|lia].
Qed.

Lemma word_le_int b0 b1 b2 b3 :
  is_byte b1 -> is_byte b2 -> is_byte b3 ->
  Z.lor (Z.lor (Z.lor b0 (ushl 32 b1 8)) (ushl 32 b2 16)) (ushl 32 b3 24) =
  le_int [b0; b1; b2; b3].
Proof.
  intros H1 H2 H3. rewrite !ushl_byte by (done || lia). cbn [le_int].
  rewrite Z.shiftl_0_l, Z.lor_0_r.
  rewrite !Z.shiftl_lor, !Z.shiftl_shiftl, !Z.lor_assoc by lia. done.
Qed.

Lemma word_be_int b0 b1 b2 b3 :
  is_byte b1 -> is_byte b2 -> is_byte b3 ->
  Z.lor (Z.lor (Z.lor (ushl 32 b3 24) (ushl 32 b2 16)) (ushl 32 b1 8)) b0 =
  be_int [b3; b2; b1; b0].
Proof.
  intros H1 H2 H3. change (be_int [b3; b2; b1; b0]) with (le_int [b0; b1; b2; b3]).
  rewrite <- word_le_int by done. apply Z.bits_inj'. intros i _. rewrite !Z.lor_spec.
  repeat match goal with |- context [Z.testbit ?x i] => destruct (Z.testbit x i) end; done.
Qed.

Lemma be_int_word a : be_int [byte_of 3 a; byte_of 2 a; byte_of 1 a; byte_of 0 a] = uint 32 a.
Proof.
  unfold be_int. change (reverse _) with (le_bytes 4 a). by rewrite le_int_le_bytes.
Qed.

(** ** Finite checks by evaluation *)

Lemma forall_range (P : Z -> Prop) `{!forall x, Decision (P x)} (lo n : Z) :
  forallb (fun x => bool_decide (P x)) (seqZ lo n) = true ->
  forall x, lo <= x < lo + n -> P x.
Proof.
  intros Hc x Hx. rewrite forallb_forall in Hc. apply (bool_decide_eq_true_1 (P x)), Hc.
  apply list_elem_of_In, elem_of_seqZ. lia.
Qed.

Lemma forall_list {A} (P : A -> Prop) `{!forall x, Decision (P x)} (l : list A) :
  forallb (fun x => bool_decide (P x)) l = true -> forall x, x ∈ l -> P x.
Proof.
  intros Hc x Hx. rewrite forallb_forall in Hc. apply (bool_decide_eq_true_1 (P x)), Hc.
  by apply list_elem_of_In.
Qed.
