(* ===== verification/GoMonad.v ===== *)
(** * Effects of the Go code

    The stateful functions of u-bmc are written in a small state monad whose
    outcomes are the ways a Go call can end: a return, a panic (deferred calls
    run while it unwinds), the end of the process ([log.Fatal]: deferred calls
    do not run), or a polling loop that did not finish within its fuel.

    [wp m Q s] is total correctness: [m] started in [s] returns, and its
    result and final state satisfy [Q]. *)

From S2P Require Import Prelude.

Inductive outcome (A : Type) : Type :=
| Ret (a : A)
| Panic
| Exit
| Blocked.
Arguments Ret {A} a.
Arguments Panic {A}.
Arguments Exit {A}.
Arguments Blocked {A}.

#[export] Instance outcome_eq_dec {A} `{EqDecision A} : EqDecision (outcome A).
Proof. solve_decision. Defined.

Definition M (S A : Type) : Type := S -> outcome A * S.

#[export] Instance M_ret {S} : MRet (M S) := fun A a s => (Ret a, s).

#[export] Instance M_bind {S} : MBind (M S) := fun A B f m s =>
  match m s with
  | (Ret a, s') => f a s'
  | (Panic, s') => (Panic, s')
  | (Exit, s') => (Exit, s')
  | (Blocked, s') => (Blocked, s')
  end.

Section Combinators.
Context {S : Type}.

(** [log.Panic] and the run-time panics. *)
Definition go_panic {A} : M S A := fun s => (Panic, s).

(** [log.Fatal]. *)
Definition go_fatal {A} : M S A := fun s => (Exit, s).

Definition get : M S S := fun s => (Ret s, s).
Definition put (s : S) : M S unit := fun _ => (Ret tt, s).
Definition gets {A} (f : S -> A) : M S A := fun s => (Ret (f s), s).
Definition modify (f : S -> S) : M S unit := fun s => (Ret tt, f s).

(** [defer d; m]: [d] runs when [m] returns and when it panics. *)
Definition deferring {A} (d : M S unit) (m : M S A) : M S A := fun s =>
  match m s with
  | (Ret a, s') => (_ ← d; mret a) s'
  | (Panic, s') => (_ ← d; go_panic) s'
  | (o, s') => (o, s')
  end.

(** [for c { body }], with at most [fuel] evaluations of the condition. *)
Fixpoint while (fuel : nat) (c : M S bool) (body : M S unit) : M S unit :=
  match fuel with
  | O => fun s => (Blocked, s)
  | Datatypes.S fuel =>
      b ← c;
      if (b : bool) then _ ← body; while fuel c body else mret tt
  end.

(** [for _, x := range l { body }]. *)
Fixpoint for_each {A} (l : list A) (body : A -> M S unit) : M S unit :=
  match l with
  | [] => mret tt
  | x :: l => _ ← body x; for_each l body
  end.

(** The values computed by [body] for each element, in order. *)
Fixpoint collect {A B} (l : list A) (body : A -> M S B) : M S (list B) :=
  match l with
  | [] => mret []
  | x :: l => y ← body x; ys ← collect l body; mret (y :: ys)
  end.
End Combinators.

(** ** Total correctness *)

Definition wp {S A} (m : M S A) (Q : A -> S -> Prop) (s : S) : Prop :=
  match m s with
  | (Ret a, s') => Q a s'
  | _ => False
  end.

Section Wp.
Context {S : Type}.
Implicit Types s : S.

Lemma wp_ret {A} (a : A) Q s : Q a s -> wp (mret a) Q s.
Proof. done. Qed.

Lemma wp_bind {A B} (m : M S A) (f : A -> M S B) Q s :
  wp m (fun a s' => wp (f a) Q s') s -> wp (m ≫= f) Q s.
Proof.
  unfold wp, mbind, M_bind. destruct (m s) as [[a| | |] s']; done.
Qed.

Lemma wp_mono {A} (m : M S A) (P Q : A -> S -> Prop) s :
  wp m P s -> (forall a s', P a s' -> Q a s') -> wp m Q s.
Proof. unfold wp. destruct (m s) as [[a| | |] s']; auto. Qed.

Lemma wp_gets {A} (f : S -> A) Q s : Q (f s) s -> wp (gets f) Q s.
Proof. done. Qed.

Lemma wp_modify (f : S -> S) Q s : Q tt (f s) -> wp (modify f) Q s.
Proof. done. Qed.

Lemma wp_defer {A} (d : M S unit) (m : M S A) Q s :
  wp m (fun a s' => wp d (fun _ s'' => Q a s'') s') s -> wp (deferring d m) Q s.
Proof.
  unfold deferring, wp. destruct (m s) as [[a| | |] s']; try done.
  unfold mbind, M_bind. destruct (d s') as [[[]| | |] s'']; done.
Qed.

Lemma wp_run {A} (m : M S A) Q s :
  wp m Q s <-> exists a s', m s = (Ret a, s') /\ Q a s'.
Proof.
  unfold wp. split.
  - destruct (m s) as [[a| | |] s']; naive_solver.
  - intros (a & s' & -> & HQ). done.
Qed.

Lemma wp_for_each {A} (I : list A -> S -> Prop) (l : list A) body s :
  I [] s ->
  (forall done_ x rest s', l = done_ ++ x :: rest -> I done_ s' ->
     wp (body x) (fun _ s'' => I (done_ ++ [x]) s'') s') ->
  wp (for_each l body) (fun _ s' => I l s') s.
Proof.
  intros H0 Hstep.
  cut (forall done_ rest s', l = done_ ++ rest -> I done_ s' ->
         wp (for_each rest body) (fun _ s'' => I l s'') s').
  { intros H. by apply (H []). }
  intros done_ rest. revert done_.
  induction rest as [|x rest IH]; intros done_ s' El HI; simpl.
  - apply wp_ret. by rewrite El, app_nil_r.
  - apply wp_bind. eapply wp_mono; [by apply (Hstep done_ x rest)|].
    intros ? s'' HI'. apply (IH (done_ ++ [x])); [|done].
    by rewrite <- app_assoc.
Qed.
End Wp.

#[export] Hint Resolve wp_ret wp_gets wp_modify : ubmc.

(** Symbolic execution of the administrative steps of a goal [wp m Q s]. *)
Ltac wp_pure_step :=
  lazymatch goal with
  | |- wp (mbind _ _) _ _ => apply wp_bind
  | |- wp (mret _) _ _ => apply wp_ret
  | |- wp (gets _) _ _ => apply wp_gets
  | |- wp (modify _) _ _ => apply wp_modify
  | |- wp (deferring _ _) _ _ => apply wp_defer
  end; cbn beta.

Ltac wp_pure := repeat wp_pure_step.

(** ** Polling loops *)

(** A loop whose iterations decrease a measure finishes within that much fuel
    (plus the last evaluation of the condition). *)
Lemma wp_while {S} (I : nat -> S -> Prop) (Q : S -> Prop) c body fuel n s :
  (forall n s, I n s ->
     wp c (fun (b : bool) s' =>
       if b then wp body (fun _ s'' => exists n', (n' < n)%nat /\ I n' s'') s'
       else Q s') s) ->
  I n s -> (n < fuel)%nat -> wp (while fuel c body) (fun _ s' => Q s') s.
Proof.
  intros Hstep. revert n s. induction fuel as [|fuel IH]; intros n s HI Hn; [lia|].
  simpl. apply wp_bind. eapply wp_mono; [by apply Hstep|].
  intros [] s' Hs'; [|by apply wp_ret].
  apply wp_bind. eapply wp_mono; [exact Hs'|].
  intros [] s'' (n' & Hn' & HI'). apply (IH n'); [done|lia].
Qed.
