(* ===== verification/Mem.v ===== *)
(** * Physical memory access (pkg/aspeed/mem.go, ast.go)

    [memProvider] is the Go interface through which every ASPEED driver reaches
    the SoC's physical address space.  Its implementations are the operations of
    [HostMem] (/dev/mem) and [Lpc] (the iLPC2AHB bridge).  [Recorder] turns any
    provider into one that also keeps the sequence of accesses, which is how the
    drivers' bus traffic is specified. *)

From S2P Require Import Prelude GoMonad.

(** The interface [memProvider]: 32 and 8 bit reads and writes at an address,
    and [Close]. *)
Class memProvider (S : Type) : Type := {
  MustRead32 : Z -> M S Z;
  MustRead8 : Z -> M S Z;
  MustWrite32 : Z -> Z -> M S unit;
  MustWrite8 : Z -> Z -> M S unit;
  Close : M S unit;
}.

(** A provider whose accesses all succeed and return values of the access
    width. *)
Class live (S : Type) `{memProvider S} : Prop := {
  live_read32 : forall a (s : S), exists v s', MustRead32 a s = (Ret v, s') /\ is_uint 32 v;
  live_read8 : forall a (s : S), exists v s', MustRead8 a s = (Ret v, s') /\ is_uint 8 v;
  live_write32 : forall a v (s : S), exists s', MustWrite32 a v s = (Ret tt, s');
  live_write8 : forall a v (s : S), exists s', MustWrite8 a v s = (Ret tt, s');
}.

(** ** Recording the accesses *)

(** One access to the bus, with the value written or read. *)
Inductive access : Type :=
| W32 (a v : Z)
| W8 (a v : Z)
| R32 (a v : Z)
| R8 (a v : Z).

#[export] Instance access_eq_dec : EqDecision access.
Proof. solve_decision. Defined.

Module Recorder.
Section Recorder.
Context {E : Type} `{memProvider E}.

(** The state of the underlying provider and the accesses made so far. *)
Definition bus : Type := E * list access.

Definition record_read (w : Z -> Z -> access) (a : Z) (m : M E Z) : M bus Z :=
  fun '(e, t) =>
    match m e with
    | (Ret v, e') => (Ret v, (e', t ++ [w a v]))
    | (o, e') => (o, (e', t))
    end.

Definition record_write (ev : access) (m : M E unit) : M bus unit :=
  fun '(e, t) =>
    match m e with
    | (Ret _, e') => (Ret tt, (e', t ++ [ev]))
    | (o, e') => (o, (e', t))
    end.

#[global] Instance bus_provider : memProvider bus := {
  MustRead32 a := record_read R32 a (MustRead32 a);
  MustRead8 a := record_read R8 a (MustRead8 a);
  MustWrite32 a v := record_write (W32 a v) (MustWrite32 a v);
  MustWrite8 a v := record_write (W8 a v) (MustWrite8 a v);
  Close := fun '(e, t) => let '(o, e') := Close e in (o, (e', t));
}.

Context `{!live E}.

Lemma wp_read32 a Q (s : bus) :
  (forall v e', is_uint 32 v -> MustRead32 a s.1 = (Ret v, e') ->
     Q v (e', s.2 ++ [R32 a v])) ->
  wp (MustRead32 a) Q s.
Proof.
  destruct s as [e t]. intros HQ. destruct (live_read32 a e) as (v & e' & Hr & Hv).
  unfold wp. simpl. rewrite Hr. by apply HQ.
Qed.

Lemma wp_read8 a Q (s : bus) :
  (forall v e', is_uint 8 v -> MustRead8 a s.1 = (Ret v, e') ->
     Q v (e', s.2 ++ [R8 a v])) ->
  wp (MustRead8 a) Q s.
Proof.
  destruct s as [e t]. intros HQ. destruct (live_read8 a e) as (v & e' & Hr & Hv).
  unfold wp. simpl. rewrite Hr. by apply HQ.
Qed.

Lemma wp_write32 a v Q (s : bus) :
  (forall e', MustWrite32 a v s.1 = (Ret tt, e') -> Q tt (e', s.2 ++ [W32 a v])) ->
  wp (MustWrite32 a v) Q s.
Proof.
  destruct s as [e t]. intros HQ. destruct (live_write32 a v e) as (e' & Hr).
  unfold wp. simpl. rewrite Hr. by apply HQ.
Qed.

Lemma wp_write8 a v Q (s : bus) :
  (forall e', MustWrite8 a v s.1 = (Ret tt, e') -> Q tt (e', s.2 ++ [W8 a v])) ->
  wp (MustWrite8 a v) Q s.
Proof.
  destruct s as [e t]. intros HQ. destruct (live_write8 a v e) as (e' & Hr).
  unfold wp. simpl. rewrite Hr. by apply HQ.
Qed.
End Recorder.
End Recorder.

(** Symbolic execution over a recorded provider: every access is appended to
    the trace; the trace is kept as one right-nested append. *)
Ltac bus_step :=
  first
    [ progress wp_pure
    | apply Recorder.wp_read32; let v := fresh "v" in let e := fresh "e" in
      let Hv := fresh "Hv" in let He := fresh "He" in intros v e Hv He; cbn [fst snd] in *
    | apply Recorder.wp_read8; let v := fresh "v" in let e := fresh "e" in
      let Hv := fresh "Hv" in let He := fresh "He" in intros v e Hv He; cbn [fst snd] in *
    | apply Recorder.wp_write32; let e := fresh "e" in let He := fresh "He" in
      intros e He; cbn [fst snd] in *
    | apply Recorder.wp_write8; let e := fresh "e" in let He := fresh "He" in
      intros e He; cbn [fst snd] in * ].

Ltac bus_run := repeat bus_step; rewrite <- ?app_assoc; cbn [app].

(** ** The [Ast] handle *)

Module Ast.
Section Ast.
Context {S : Type} `{memProvider S}.

(** [(a *Ast) Close()]. *)
Definition Close : M S unit := Mem.Close.
End Ast.
End Ast.

(** ** A memory *)

(** A provider that is plain memory, for concrete runs: registers hold what was
    last written to them, cut to the access width when read. *)
Module SimBus.
Definition ram : Type := gmap Z Z.

#[global] Instance ram_provider : memProvider ram := {
  MustRead32 a := fun m => (Ret (uint 32 (default 0 (m !! a))), m);
  MustRead8 a := fun m => (Ret (uint 8 (default 0 (m !! a))), m);
  MustWrite32 a v := fun m => (Ret tt, <[a := v]> m);
  MustWrite8 a v := fun m => (Ret tt, <[a := v]> m);
  Close := mret tt;
}.

#[global] Instance ram_live : live ram.
Proof.
  split; simpl; eauto; intros a s; eexists _, _; split; try done; by apply uint_range.
Qed.
End SimBus.
