(* ===== verification/Scu.v ===== *)
(** * System control unit and watchdog (pkg/aspeed/scu.go, wdt.go, ast.go;
    cmd/socreset)

    The operations are translated over an arbitrary [memProvider].  Their effect
    is stated against [ScuHardware], the contract of the SCU's write protection
    that scu.go relies on: writing [SCU_PASSWORD] to SCU00 opens the block for
    writes, writing any other value closes it, and writes to a closed block are
    dropped. *)

From S2P Require Import Prelude GoMonad Mem.

(** ** Register tables *)

Definition scuRegs_list : list (Z * string) :=
  [ (0x00, "Protection Key Register"%string);
    (0x04, "System Reset Control Register"%string);
    (0x08, "Clock Selection Register"%string);
    (0x0c, "Clock Stop Control Register"%string);
    (0x10, "Frequency Counter Control Register"%string);
    (0x14, "Frequency Counter Measurement Register"%string);
    (0x18, "Interrupt Control and Status Register"%string);
    (0x1c, "D2-PLL Parameter Register"%string);
    (0x20, "M-PLL Parameter Register"%string);
    (0x24, "H-PLL Parameter Register"%string);
    (0x28, "Frequency counter comparison range"%string);
    (0x2c, "Misc. Control Register"%string);
    (0x30, "PCI Configuration Setting Register #1"%string);
    (0x34, "PCI Configuration Setting Register #2"%string);
    (0x38, "PCI Configuration Setting Register #3"%string);
    (0x3c, "System Reset Control/Status Register"%string);
    (0x40, "SOC Scratch Register #1"%string);
    (0x44, "SOC Scratch Register #2"%string);
    (0x48, "MAC Interface Clock Delay Setting"%string);
    (0x4c, "Misc. 2 Control Register"%string);
    (0x50, "VGA Scratch Register #1"%string);
    (0x54, "VGA Scratch Register #2"%string);
    (0x58, "VGA Scratch Register #3"%string);
    (0x5c, "VGA Scratch Register #4"%string);
    (0x60, "VGA Scratch Register #5"%string);
    (0x64, "VGA Scratch Register #6"%string);
    (0x68, "VGA Scratch Register #7"%string);
    (0x6c, "VGA Scratch Register #8"%string);
    (0x70, "Hardware Strapping Register"%string);
    (0x74, "Random Number Generator Control"%string);
    (0x78, "Random Number Generator Data Output"%string);
    (0x7c, "Silicon Revision ID Register"%string);
    (0x80, "Multi-function Pin Control #1"%string);
    (0x84, "Multi-function Pin Control #2"%string);
    (0x88, "Multi-function Pin Control #3"%string);
    (0x8c, "Multi-function Pin Control #4"%string);
    (0x90, "Multi-function Pin Control #5"%string);
    (0x94, "Multi-function Pin Control #6"%string);
    (0x9c, "Watchdog Reset Selection"%string);
    (0xa0, "Multi-function Pin Control #7"%string);
    (0xa4, "Multi-function Pin Control #8"%string);
    (0xa8, "Multi-function Pin Control #9"%string);
    (0xc0, "Power Saving Wakeup Enable Register"%string);
    (0xc4, "Power Saving Wakeup Control Register"%string);
    (0xd0, "Hardware Strapping Register Set 2"%string);
    (0xe0, "SCU Free Run Counter Read Back #4"%string);
    (0xe4, "SCU Free Run Counter Extended Read Back #4"%string);
    (0x100, "Coprocessor (CPU2) Control Register"%string) ].

(** [scuRegs]: the names of the SCU registers, by offset. *)
Definition scuRegs : gmap Z string := list_to_map scuRegs_list.

Definition model_names_list : list (Z * string) :=
  [ (0x00000102, "AST2200-A0/A1"%string);
    (0x00000200, "AST1100-A0 or AST2050-A0"%string);
    (0x00000201, "AST1100-A1 or AST2050-A1"%string);
    (0x00000202, "AST1100-A2/3 or AST2050-A2/3 or AST2150-A0/1"%string);
    (0x00000300, "AST2100-A0"%string);
    (0x00000301, "AST2100-A1"%string);
    (0x00000302, "AST2100-A2/3"%string);
    (0x01000003, "AST2300-A0"%string);
    (0x01010003, "AST1300-A1"%string);
    (0x01010203, "AST1050-A1"%string);
    (0x01010303, "AST2300-A1"%string);
    (0x02000303, "AST2400-A0"%string);
    (0x02010103, "AST1400-A1"%string);
    (0x02010303, "AST1250-A1 or AST2400-A1"%string);
    (0x04000303, "AST2500-A0"%string);
    (0x04000103, "AST2510-A0"%string);
    (0x04000203, "AST2520-A0"%string);
    (0x04000403, "AST2530-A0"%string);
    (0x04010303, "AST2500-A1"%string);
    (0x04010103, "AST2510-A1"%string);
    (0x04010203, "AST2520-A1"%string);
    (0x04010403, "AST2530-A1"%string);
    (0x04030303, "AST2500-A2"%string);
    (0x04030103, "AST2510-A2"%string);
    (0x04030203, "AST2520-A2"%string);
    (0x04030403, "AST2530-A2"%string) ].

(** The map [names] of [ModelName]: silicon revisions and their SoC models. *)
Definition model_names : gmap Z string := list_to_map model_names_list.

Definition SCU_PASSWORD : Z := 0x1688A8A8.
Definition SCU_BASE : Z := 0x1E6E2000.
Definition SCU_DEFAULT_RESET : Z := 0xFFCFFEDC.

Definition WDT1_RLD_CTR : Z := 0x1e785004.
Definition WDT1_RESTART : Z := 0x1e785008.
Definition WDT1_CTRL : Z := 0x1e78500c.
Definition WDT2_CTRL : Z := 0x1e78502c.
Definition WDT2_TMOUT_CLR : Z := 0x1e785034.
Definition WDT_RESTART_PASSWORD : Z := 0x4755.

(** [ScuRegisterToFunction]: Go's map read gives "" for a missing key. *)
Definition ScuRegisterToFunction (r : Z) : string :=
  default ""%string (scuRegs !! r).

(** ** Operations *)

Section Operations.
Context {S : Type} `{memProvider S}.

Definition unlockScuWriteAccess : M S unit :=
  MustWrite32 (SCU_BASE + 0) SCU_PASSWORD.

Definition lockScuWriteAccess : M S unit :=
  MustWrite32 (SCU_BASE + 0) 0x0.

Definition GetHardwareStrapping : M S Z := MustRead32 (SCU_BASE + 0x70).

Definition GetSiliconRevision : M S Z := MustRead32 (SCU_BASE + 0x7C).

Definition ModelName : M S (result string) :=
  rev ← GetSiliconRevision;
  match model_names !! rev with
  | Some name => mret (Ok name)
  | None => mret (Err "unknown revision"%string)
  end.

(** [Open] after [openMem]: panics when the SoC is not a known one. *)
Definition Open : M S unit :=
  r ← ModelName;
  match r with
  | Ok _ => mret tt
  | Err _ => go_panic
  end.

Definition IsSpiMaster : M S bool :=
  v ← GetHardwareStrapping;
  mret (bool_decide (Z.land v (Z.shiftl 1 12) > 0)).

Definition SetSpiMaster (master : bool) : M S unit :=
  _ ← unlockScuWriteAccess;
  deferring lockScuWriteAccess (
    v0 ← GetHardwareStrapping;
    let v := Z.land v0 (unot 32 (Z.shiftl 1 12)) in
    let v := if master then Z.lor v (Z.shiftl 1 12) else v in
    MustWrite32 (SCU_BASE + 0x70) v).

Definition setCpuEnable (en : bool) : M S unit :=
  _ ← unlockScuWriteAccess;
  deferring lockScuWriteAccess (
    v0 ← GetHardwareStrapping;
    let v := Z.land v0 (unot 32 3) in
    let v := if en then Z.lor v 2 else Z.lor v 3 in
    MustWrite32 (SCU_BASE + 0x70) v).

Definition DisableWdt : M S unit :=
  _ ← MustWrite32 WDT1_CTRL 0;
  MustWrite32 WDT2_CTRL 0.

Definition EnableWdt : M S unit :=
  _ ← MustWrite32 WDT2_TMOUT_CLR 0x1;
  MustWrite32 WDT2_CTRL 0x82.

Definition ResetCpu : M S unit :=
  _ ← MustWrite32 WDT1_RLD_CTR 16;
  _ ← MustWrite32 WDT1_RESTART WDT_RESTART_PASSWORD;
  MustWrite32 WDT1_CTRL 0x3.

Definition FreezeCpu : M S unit :=
  _ ← setCpuEnable false;
  DisableWdt.

Definition UnfreezeCpu : M S unit :=
  _ ← setCpuEnable true;
  EnableWdt.

Definition SetResetControl (v : Z) : M S unit :=
  _ ← unlockScuWriteAccess;
  deferring lockScuWriteAccess (MustWrite32 (SCU_BASE + 0x4) v).

(** [main] of cmd/socreset; it returns the value it prints. *)
Definition socreset_main : M S Z :=
  _ ← Open;
  deferring Close (
    _ ← SetResetControl SCU_DEFAULT_RESET;
    v ← MustRead32 (SCU_BASE + 0x4);
    _ ← ResetCpu;
    _ ← UnfreezeCpu;
    mret v).
End Operations.

(** ** The hardware contract *)

(** Registers outside the SCU that the code writes and that keep the value
    last written. *)
Definition plain_regs : list Z :=
  [WDT1_RLD_CTR; WDT1_CTRL; WDT2_CTRL; WDT2_TMOUT_CLR; 0x1E789000 + 0x9c].

(** An address inside the SCU block other than its protection key. *)
Definition in_scu (a : Z) : Prop := SCU_BASE < a < SCU_BASE + 0x1000.

(** What the drivers rely on of the SoC: [reg] is the content of the registers
    and [unlocked] the state of the SCU's write protection. *)
Class ScuHardware (S : Type) `{memProvider S} : Type := {
  reg : S -> Z -> Z;
  unlocked : S -> bool;
  reg_range : forall s a, is_uint 32 (reg s a);
  hw_read : forall a s, in_scu a -> MustRead32 a s = (Ret (reg s a), s);
  hw_key : forall v s, exists s', MustWrite32 SCU_BASE v s = (Ret tt, s') /\
    unlocked s' = bool_decide (v = SCU_PASSWORD) /\
    (forall b, b <> SCU_BASE -> reg s' b = reg s b);
  hw_scu : forall a v s, in_scu a -> is_uint 32 v ->
    exists s', MustWrite32 a v s = (Ret tt, s') /\ unlocked s' = unlocked s /\
    (forall b, reg s' b = if decide (b = a /\ unlocked s = true) then v else reg s b);
  hw_plain : forall a v s, a ∈ plain_regs -> is_uint 32 v ->
    exists s', MustWrite32 a v s = (Ret tt, s') /\ unlocked s' = unlocked s /\
    (forall b, reg s' b = if decide (b = a) then v else reg s b);
}.

(** The state of the SoC changed only in the registers of [l] (and the
    protection key). *)
Definition only_changes {S} `{ScuHardware S} (l : list Z) (s s' : S) : Prop :=
  forall a, a <> SCU_BASE -> a ∉ l -> reg s' a = reg s a.

Section HardwareRules.
Context {S : Type} `{ScuHardware S}.

Lemma wp_hw_read a Q s : in_scu a -> Q (reg s a) s -> wp (MustRead32 a) Q s.
Proof. intros Ha HQ. unfold wp. by rewrite hw_read. Qed.

Lemma wp_hw_key v Q s :
  (forall s', unlocked s' = bool_decide (v = SCU_PASSWORD) ->
     (forall b, b <> SCU_BASE -> reg s' b = reg s b) -> Q tt s') ->
  wp (MustWrite32 (SCU_BASE + 0) v) Q s.
Proof.
  intros HQ. unfold wp. rewrite Z.add_0_r.
  destruct (hw_key v s) as (s' & -> & ? & ?). auto.
Qed.

Lemma wp_hw_scu a v Q s :
  in_scu a -> is_uint 32 v -> unlocked s = true ->
  (forall s', unlocked s' = true ->
     (forall b, reg s' b = if decide (b = a) then v else reg s b) -> Q tt s') ->
  wp (MustWrite32 a v) Q s.
Proof.
  intros Ha Hv Hu HQ. unfold wp.
  destruct (hw_scu a v s Ha Hv) as (s' & -> & Hu' & Hb). apply HQ; [congruence|].
  intros b. rewrite Hb, Hu. destruct (decide (b = a)); by repeat case_decide; try tauto.
Qed.

Lemma wp_hw_plain a v Q s :
  a ∈ plain_regs -> is_uint 32 v ->
  (forall s', unlocked s' = unlocked s ->
     (forall b, reg s' b = if decide (b = a) then v else reg s b) -> Q tt s') ->
  wp (MustWrite32 a v) Q s.
Proof.
  intros Ha Hv HQ. unfold wp. destruct (hw_plain a v s Ha Hv) as (s' & -> & ? & ?). auto.
Qed.
End HardwareRules.

(** Solves the side conditions of the hardware rules on concrete addresses. *)
Ltac hw_side :=
  solve [ unfold in_scu, SCU_BASE; lia
        | by apply (bool_decide_unpack _)
        | apply list_elem_of_In; cbn; tauto
        | done ].

(** The strapping register after [land]ing out [mask] and [lor]ing in [bits]. *)
Definition strap_update (mask bits v : Z) : Z :=
  Z.lor (Z.land v (unot 32 mask)) bits.

Lemma strap_update_range mask bits v :
  is_uint 32 v -> is_uint 32 mask -> is_uint 32 bits -> is_uint 32 (strap_update mask bits v).
Proof.
  intros Hv Hm Hb. apply is_uint_lor; [lia| |done].
  rewrite Z.land_comm. apply is_uint_land; [lia| |done].
  apply Z.lxor_nonneg. unfold is_uint in Hm. split; intros _; [by vm_compute|lia].
Qed.

Lemma strap_update_testbit mask bits v i :
  0 <= i < 32 ->
  Z.testbit (strap_update mask bits v) i =
    Z.testbit bits i || (Z.testbit v i && negb (Z.testbit mask i)).
Proof.
  intros Hi. unfold strap_update. rewrite Z.lor_spec, Z.land_spec, unot_testbit by lia.
  rewrite (bool_decide_eq_true_2 (i < 32)) by lia.
  by destruct (Z.testbit v i), (Z.testbit mask i), (Z.testbit bits i).
Qed.

(** Setting both CPU strap bits needs no masking; clearing them afterwards gives
    what clearing them at first would have given. *)
Lemma strap_set v : is_uint 32 v -> strap_update 3 3 v = Z.lor v 3.
Proof.
  intros Hv. unfold strap_update. zbits.
  destruct (decide (i < 32)).
  - rewrite bool_decide_eq_true_2 by done. by destruct (Z.testbit v i), (Z.testbit 3 i).
  - by rewrite (uint_testbit_high 32 v) by (done || lia).
Qed.

Lemma strap_reset v : strap_update 3 2 (Z.lor v 3) = Z.lor (Z.land v (unot 32 3)) 2.
Proof.
  unfold strap_update. zbits. destruct (decide (i < 32)).
  - rewrite bool_decide_eq_true_2 by done.
    by destruct (Z.testbit v i), (Z.testbit 3 i), (Z.testbit 2 i).
  - by rewrite (uint_testbit_high 2 3), orb_false_r by (done || lia).
Qed.

(** Both writers of SCU70 are a read-modify-write under the key. *)
Lemma wp_strap_rmw {S} `{ScuHardware S} (f : Z -> Z) (Q : unit -> S -> Prop) s :
  (forall v, is_uint 32 v -> is_uint 32 (f v)) ->
  (forall s', unlocked s' = false ->
     reg s' (SCU_BASE + 0x70) = f (reg s (SCU_BASE + 0x70)) ->
     only_changes [SCU_BASE + 0x70] s s' -> Q tt s') ->
  wp (_ ← unlockScuWriteAccess;
      deferring lockScuWriteAccess
        (v ← GetHardwareStrapping; MustWrite32 (SCU_BASE + 0x70) (f v))) Q s.
Proof.
  intros Hf HQ. apply wp_bind, wp_hw_key. intros s1 Hu1 Hr1.
  apply wp_defer, wp_bind, wp_hw_read; [hw_side|].
  apply wp_hw_scu; [hw_side|by apply Hf, reg_range|by rewrite Hu1; vm_compute|].
  intros s2 Hu2 Hr2. apply wp_hw_key. intros s3 Hu3 Hr3. apply HQ.
  - by rewrite Hu3.
  - rewrite Hr3, Hr2, decide_True by done. f_equal. by apply Hr1.
  - intros a Ha Hnot. apply not_elem_of_cons in Hnot as [Hne _].
    by rewrite Hr3, Hr2, decide_False, Hr1.
Qed.

(** What a writer of SCU70 leaves: the protection is closed again, the strap
    bits of [mask] have the values of [bits], every other strap bit and every
    other register is as before. *)
Definition strap_written {S} `{ScuHardware S} (mask bits : Z) (s s' : S) : Prop :=
  unlocked s' = false /\
  reg s' (SCU_BASE + 0x70) = strap_update mask bits (reg s (SCU_BASE + 0x70)) /\
  only_changes [SCU_BASE + 0x70] s s'.

Lemma SetSpiMaster_strap {S} `{ScuHardware S} master (s : S) :
  wp (SetSpiMaster master)
     (fun _ s' => strap_written (Z.shiftl 1 12) (if master then Z.shiftl 1 12 else 0) s s') s.
Proof.
  unfold SetSpiMaster.
  apply (wp_strap_rmw (fun v => if master
           then Z.lor (Z.land v (unot 32 (Z.shiftl 1 12))) (Z.shiftl 1 12)
           else Z.land v (unot 32 (Z.shiftl 1 12)))).
  - intros v Hv. pose proof (strap_update_range (Z.shiftl 1 12)
      (if master then Z.shiftl 1 12 else 0) v Hv) as R.
    unfold strap_update in R. destruct master; rewrite ?Z.lor_0_r in R; apply R; hw_side.
  - intros s' Hu Hr Ho. split_and!; [done| |done].
    rewrite Hr. unfold strap_update. destruct master; by rewrite ?Z.lor_0_r.
Qed.

Lemma setCpuEnable_strap {S} `{ScuHardware S} en (s : S) :
  wp (setCpuEnable en) (fun _ s' => strap_written 3 (if en then 2 else 3) s s') s.
Proof.
  unfold setCpuEnable.
  apply (wp_strap_rmw (fun v => if en then Z.lor (Z.land v (unot 32 3)) 2
                                else Z.lor (Z.land v (unot 32 3)) 3)).
  - intros v Hv. pose proof (strap_update_range 3 (if en then 2 else 3) v Hv) as R.
    unfold strap_update in R. destruct en; apply R; hw_side.
  - intros s' Hu Hr Ho. split_and!; [done| |done].
    rewrite Hr. unfold strap_update. by destruct en.
Qed.

(** ** Theorems *)

(** [SetSpiMaster] sets strap bit 12 to its argument, keeps the other 31
    strap bits and every other register, leaves the SCU write protected, and
    [IsSpiMaster] then reports the value that was set. *)
Theorem SetSpiMaster_correct {S} `{ScuHardware S} (master : bool) (s : S) :
  wp (_ ← SetSpiMaster master; IsSpiMaster)
     (fun b s' =>
        b = master /\
        unlocked s' = false /\
        (forall i, 0 <= i < 32 ->
           Z.testbit (reg s' (SCU_BASE + 0x70)) i =
             if decide (i = 12) then master else Z.testbit (reg s (SCU_BASE + 0x70)) i) /\
        only_changes [SCU_BASE + 0x70] s s') s.
Proof.
  apply wp_bind. eapply wp_mono; [apply SetSpiMaster_strap|].
  intros [] s' (Hu & Hr & Ho). apply wp_bind, wp_hw_read; [hw_side|]. apply wp_ret.
  assert (Hbits : forall i, 0 <= i < 32 ->
     Z.testbit (reg s' (SCU_BASE + 0x70)) i =
       if decide (i = 12) then master else Z.testbit (reg s (SCU_BASE + 0x70)) i).
  { intros i Hi. rewrite Hr, strap_update_testbit, Z.shiftl_1_l by lia.
    case_decide as E.
    - subst i. rewrite Z.pow2_bits_true, andb_false_r, orb_false_r by lia. by destruct master.
    - rewrite (Z.pow2_bits_false 12 i), andb_true_r by lia. by destruct master; rewrite ?Z.bits_0, ?Z.pow2_bits_false. }
  split_and!; [|done|exact Hbits|done].
  rewrite Z.shiftl_1_l, bool_decide_land_pow2, Hbits by lia. by rewrite decide_True.
Qed.

(** [FreezeCpu] stops the ARM core (strap bits 1:0 become 3) and disables
    both watchdogs; [UnfreezeCpu] selects boot from SPI flash (bits 1:0 become
    2) and arms the second watchdog with reset-on-timeout and second boot
    source.  Both leave the SCU write protected and touch no other register, so
    freezing and unfreezing preserves the upper 30 strap bits. *)
Theorem Freeze_Unfreeze_correct {S} `{ScuHardware S} (s : S) :
  let strap := SCU_BASE + 0x70 in
  wp FreezeCpu (fun _ s1 =>
    unlocked s1 = false /\
    reg s1 strap = Z.lor (reg s strap) 3 /\
    reg s1 WDT1_CTRL = 0 /\ reg s1 WDT2_CTRL = 0 /\
    only_changes [strap; WDT1_CTRL; WDT2_CTRL] s s1 /\
    wp UnfreezeCpu (fun _ s2 =>
      unlocked s2 = false /\
      reg s2 strap = Z.lor (Z.land (reg s strap) (unot 32 3)) 2 /\
      reg s2 WDT1_CTRL = 0 /\ reg s2 WDT2_CTRL = 0x82 /\ reg s2 WDT2_TMOUT_CLR = 1 /\
      only_changes [strap; WDT1_CTRL; WDT2_CTRL; WDT2_TMOUT_CLR] s s2) s1) s.
Proof.
  intros strap. apply wp_bind. eapply wp_mono; [apply setCpuEnable_strap|].
  intros [] s1 (Hu1 & Hr1 & Ho1). apply wp_bind, wp_hw_plain; [hw_side|hw_side|].
  intros s2 Hu2 Hr2. apply wp_hw_plain; [hw_side|hw_side|]. intros s3 Hu3 Hr3.
  assert (Hstrap : reg s3 strap = Z.lor (reg s strap) 3).
  { rewrite Hr3, Hr2, !decide_False by done. fold strap in Hr1. rewrite Hr1. apply strap_set. apply reg_range. }
  split_and!; [congruence|done|by rewrite Hr3, Hr2|by rewrite Hr3| |].
  { intros a Ha Hn. rewrite !not_elem_of_cons in Hn. destruct_and! Hn.
    rewrite Hr3, Hr2, !decide_False by done. apply Ho1; [done|by apply not_elem_of_cons]. }
  apply wp_bind. eapply wp_mono; [apply setCpuEnable_strap|].
  intros [] s4 (Hu4 & Hr4 & Ho4). apply wp_bind, wp_hw_plain; [hw_side|hw_side|].
  intros s5 Hu5 Hr5. apply wp_hw_plain; [hw_side|hw_side|]. intros s6 Hu6 Hr6.
  assert (Hkeep : forall a, a <> SCU_BASE -> a <> strap -> reg s4 a = reg s3 a).
  { intros a Ha Hs. apply Ho4; [done|]. apply not_elem_of_cons. by split; [|apply not_elem_of_nil]. }
  split_and!.
  - congruence.
  - rewrite Hr6, Hr5, !decide_False by done. fold strap in Hr4. rewrite Hr4, Hstrap.
    apply strap_reset.
  - rewrite Hr6, Hr5, !decide_False, Hkeep, Hr3 by done. by rewrite Hr2.
  - by rewrite Hr6.
  - by rewrite Hr6, Hr5.
  - intros a Ha Hn. rewrite !not_elem_of_cons in Hn. destruct_and! Hn.
    rewrite Hr6, Hr5, !decide_False, Hkeep, Hr3, Hr2, !decide_False by done.
    apply Ho1; [done|by apply not_elem_of_cons].
Qed.

(** A deferred write that succeeds is the last access, whether the body
    returned or panicked. *)
Lemma deferred_write_last {E A} `{memProvider E} a v (m : M (@Recorder.bus E) A) b o b' :
  (forall e, exists e', MustWrite32 a v e = (Ret tt, e')) ->
  deferring (MustWrite32 a v) m b = (o, b') ->
  (exists r, o = Ret r) \/ o = Panic ->
  last b'.2 = Some (W32 a v).
Proof.
  intros Hw. unfold deferring. destruct (m b) as [o' [e t]] eqn:E1.
  destruct (Hw e) as [e' He'].
  assert (Hd : MustWrite32 (S:=@Recorder.bus E) a v (e, t) = (Ret tt, (e', t ++ [W32 a v]))).
  { simpl. by rewrite He'. }
  destruct o'; unfold mbind, M_bind; rewrite ?Hd; intros [= <- <-]; simpl;
    rewrite ?last_snoc; try done; intros [[? ?]|?]; done.
Qed.

(** C36: the SCU is never left open: whatever the accesses inside
    [SetSpiMaster], [setCpuEnable] and [SetResetControl] do (including a panic
    in the middle of the read-modify-write), the last access on the bus before
    control leaves the operation is the write that closes the protection key. *)
Theorem scu_always_relocked {E} `{memProvider E} (op : M (@Recorder.bus E) unit) b o b' :
  (forall v e, exists e', MustWrite32 SCU_BASE v e = (Ret tt, e')) ->
  (exists m, op = SetSpiMaster m) \/ (exists en, op = setCpuEnable en) \/
    (exists v, op = SetResetControl v) ->
  op b = (o, b') ->
  o = Ret tt \/ o = Panic ->
  last b'.2 = Some (W32 SCU_BASE 0).
Proof.
  intros Hw Hop Hrun Ho.
  assert (exists body, op = (_ ← unlockScuWriteAccess; deferring lockScuWriteAccess body))
    as [body ->].
  { destruct Hop as [[m ->]|[[en ->]|[v ->]]]; by eexists. }
  destruct b as [e t]. destruct (Hw SCU_PASSWORD e) as [e1 He1].
  unfold mbind, M_bind, unlockScuWriteAccess in Hrun. rewrite Z.add_0_r in Hrun.
  simpl in Hrun. rewrite He1 in Hrun.
  eapply deferred_write_last; [intros e2; apply (Hw 0)|exact Hrun|].
  destruct Ho as [->| ->]; eauto.
Qed.

(** [Open] succeeds exactly on the SoCs of the revision table, reads one
    register, and panics on any other revision. *)
Theorem Open_detects_model {S} `{ScuHardware S} (s : S) :
  let rev := reg s (SCU_BASE + 0x7c) in
  ModelName s = (Ret match model_names !! rev with
                     | Some n => Ok n
                     | None => Err "unknown revision"%string
                     end, s) /\
  Open s = (if decide (rev ∈ model_names_list.*1) then Ret tt else Panic, s).
Proof.
  intros rev.
  assert (Hm : ModelName s = (Ret match model_names !! rev with
                     | Some n => Ok n
                     | None => Err "unknown revision"%string
                     end, s)).
  { unfold ModelName, GetSiliconRevision, mbind, M_bind. rewrite hw_read by hw_side.
    unfold rev. by destruct (model_names !! _). }
  split; [done|]. unfold Open, mbind, M_bind. rewrite Hm.
  destruct (model_names !! rev) as [n|] eqn:E; case_decide as D; try done; exfalso.
  - apply D. apply elem_of_list_to_map_2 in E. by apply (list_elem_of_fmap_2' fst _ (rev, n)).
  - by apply not_elem_of_list_to_map in E.
Qed.

(** ** A concrete SoC *)

(** A register file with the SCU's write protection: it satisfies the contract
    [ScuHardware], and the theorems are evaluated on it. *)
Module SimSoc.
Record soc : Type := mk_soc { regs : gmap Z Z; open : bool }.

Definition sim_reg (s : soc) (a : Z) : Z := uint 32 (default 0 (regs s !! a)).

Definition sim_write (a v : Z) (s : soc) : soc :=
  if decide (a = SCU_BASE) then mk_soc (regs s) (bool_decide (v = SCU_PASSWORD))
  else if decide (SCU_BASE < a < SCU_BASE + 0x1000 /\ open s = false) then s
  else mk_soc (<[a := v]> (regs s)) (open s).

#[export] Instance soc_provider : memProvider soc := {
  MustRead32 a := gets (fun s => sim_reg s a);
  MustRead8 a := gets (fun s => uint 8 (sim_reg s a));
  MustWrite32 a v := modify (sim_write a v);
  MustWrite8 a v := modify (sim_write a (uint 8 v));
  Close := mret tt;
}.

Lemma sim_reg_write a v s b :
  is_uint 32 v -> a <> SCU_BASE ->
  ~ (SCU_BASE < a < SCU_BASE + 0x1000 /\ open s = false) ->
  sim_reg (sim_write a v s) b = if decide (b = a) then v else sim_reg s b.
Proof.
  intros Hv Ha Ho. unfold sim_write. rewrite !decide_False by done.
  unfold sim_reg; simpl. rewrite lookup_insert. case_decide; case_decide; try congruence.
  simpl. by rewrite uint_id.
Qed.

#[export] Program Instance soc_hardware : ScuHardware soc := {
  reg := sim_reg;
  unlocked := open;
}.
Next Obligation. intros. by apply uint_range. Qed.
Next Obligation. done. Qed.
Next Obligation.
  intros v s. exists (mk_soc (regs s) (bool_decide (v = SCU_PASSWORD))).
  split_and!; [|done|done]. simpl. unfold modify, sim_write. by rewrite decide_True.
Qed.
Next Obligation.
  unfold in_scu. intros a v s Ha Hv. exists (sim_write a v s). split; [done|].
  assert (Hne : a <> SCU_BASE) by lia. destruct (open s) eqn:Ho; split.
  - unfold sim_write. rewrite !decide_False; [done| |done]. intros [_ ?]. congruence.
  - intros b. rewrite sim_reg_write; [|done|done|intros [_ ?]; congruence].
    repeat case_decide; naive_solver.
  - unfold sim_write. by rewrite decide_False, decide_True.
  - intros b. unfold sim_write. rewrite decide_False, decide_True by done.
    by rewrite decide_False by naive_solver.
Qed.
Next Obligation.
  intros a v s Ha Hv. exists (sim_write a v s). split; [done|].
  assert (Hplain : a <> SCU_BASE /\ ~ (SCU_BASE < a < SCU_BASE + 0x1000)).
  { revert Ha. unfold plain_regs. rewrite !elem_of_cons, elem_of_nil.
    unfold WDT1_RLD_CTR, WDT1_CTRL, WDT2_CTRL, WDT2_TMOUT_CLR, SCU_BASE. lia. }
  destruct Hplain as [Hne Hout]. split.
  - unfold sim_write. rewrite !decide_False; [done| |done]. tauto.
  - intros b. apply sim_reg_write; tauto.
Qed.

(** An AST2400 with the SCU closed. *)
Definition ast2400 : soc :=
  mk_soc (list_to_map [(SCU_BASE + 0x7c, 0x02010303); (SCU_BASE + 0x70, 0x80001000)]) false.
End SimSoc.

(** ** Witnesses *)

Import SimSoc.

Lemma SetSpiMaster_correct_witness :
  wp (_ ← SetSpiMaster false; IsSpiMaster)
     (fun b s' => b = false /\ unlocked s' = false /\
        (forall i, 0 <= i < 32 ->
           Z.testbit (reg s' (SCU_BASE + 0x70)) i =
             if decide (i = 12) then false else Z.testbit (reg ast2400 (SCU_BASE + 0x70)) i) /\
        only_changes [SCU_BASE + 0x70] ast2400 s') ast2400.
Proof. apply (SetSpiMaster_correct false ast2400). Defined.

Lemma Freeze_Unfreeze_correct_witness :
  wp FreezeCpu (fun _ s1 =>
    unlocked s1 = false /\ reg s1 (SCU_BASE + 0x70) = 0x80001003) ast2400.
Proof.
  eapply wp_mono; [apply (Freeze_Unfreeze_correct ast2400)|].
  intros [] s1 (Hu & Hr & _). split; [exact Hu|]. rewrite Hr. reflexivity.
Defined.

Lemma scu_always_relocked_witness :
  last (SetSpiMaster true (ast2400, [] : list access)).2.2 = Some (W32 SCU_BASE 0).
Proof.
  eapply (scu_always_relocked (SetSpiMaster true) (ast2400, [])
            (SetSpiMaster true (ast2400, [])).1).
  - intros v e. eexists. reflexivity.
  - left. exists true. reflexivity.
  - vm_compute. reflexivity.
  - left. vm_compute. reflexivity.
Defined.

Lemma Open_detects_model_witness :
  Open ast2400 = (Ret tt, ast2400) /\
  ModelName ast2400 = (Ret (Ok "AST1250-A1 or AST2400-A1"%string), ast2400).
Proof.
  destruct (Open_detects_model ast2400) as [H1 H2].
  split; [rewrite H2|rewrite H1]; vm_compute; reflexivity.
Defined.
