(* ===== verification/Pwm.v ===== *)
(** * Fan control and tachometer (pkg/aspeed/pwm.go, cmd/fan)

    [w] is the width of Go's [int]: 32 on the BMC's ARM core, 64 on a host that
    reaches the SoC over LPC.  [fuel] bounds the polls of the tachometer. *)

From S2P Require Import Prelude GoMonad Mem Scu.

Definition PWM_BASE : Z := 0x1e786000.

(** The offsets that [DumpPwm] prints, in order. *)
Definition dump_offsets : list Z :=
  [0x0; 0x4; 0x8; 0xc; 0x10; 0x14; 0x18; 0x1c; 0x20; 0x28; 0x2c; 0x30; 0x34; 0x38;
   0x3C; 0x40; 0x44; 0x48; 0x4C; 0x50; 0x54; 0x60; 0x78].

(** The divider of the tachometer clock, from PTCR10. *)
Definition tach_div (w ctrl : Z) : Z :=
  let div := sint w (Z.shiftl 4 (Z.land (Z.shiftr ctrl 1) 0x7 * 2)) in
  if bool_decide (Z.land ctrl 0x20 <> 0) then sint w (div * 2) else div.

(** Go's integer division of [int]s of width [w]: truncated, panics on 0. *)
Definition int_div {S} (w a b : Z) : M S Z :=
  if decide (b = 0) then go_panic else mret (sint w (Z.quot a b)).

Section Operations.
Context {S : Type} `{memProvider S}.

(** [DumpPwm]: the register values in the order they are printed. *)
Definition DumpPwm : M S (list Z) :=
  collect dump_offsets (fun o => MustRead32 (PWM_BASE + o)).

(** The loop of [MeasureFanRpm] that waits for the valid bit. *)
Fixpoint wait_result (fuel : nat) (v : Z) : M S Z :=
  if decide (Z.land v (Z.shiftl 1 31) = 0) then
    match fuel with
    | O => fun s => (Blocked, s)
    | Datatypes.S fuel => v' ← MustRead32 (PWM_BASE + 0x2c); wait_result fuel v'
    end
  else mret v.

Definition MeasureFanRpm (w : Z) (fuel : nat) (fan : Z) : M S Z :=
  _ ← MustWrite32 (PWM_BASE + 0x28) 0;
  _ ← MustWrite32 (PWM_BASE + 0x28) (ushl 32 1 fan);
  ctrl ← MustRead32 (PWM_BASE + 0x10);
  let div := tach_div w ctrl in
  v0 ← wait_result fuel 0;
  let v := Z.land v0 (unot 32 (Z.shiftl 1 31)) in
  int_div w (24 * 1000 * 1000 * 60) (sint w (sint w (2 * v) * div)).

Definition SetFanDutyCycle (fan p : Z) : M S unit :=
  v ← MustRead32 (PWM_BASE + 0x8);
  if decide (fan >= 2) then go_panic
  else
    let v :=
      if decide (fan = 0) then Z.lor (Z.land v 0xffff00ff) (ushl 32 p 8)
      else if decide (fan = 1) then Z.lor (Z.land v 0x00ffffff) (ushl 32 p 24)
      else v in
    MustWrite32 (PWM_BASE + 0x8) v.

(** [main] of cmd/fan with its flags [fan] and [speed]: the two measured
    speeds it prints. *)
Definition fan_main (w : Z) (fuel : nat) (fan speed : Z) : M S (Z * Z) :=
  _ ← Open;
  deferring Close (
    _ ← DumpPwm;
    r0 ← MeasureFanRpm w fuel 0;
    r1 ← MeasureFanRpm w fuel 2;
    _ ← (if decide (fan > -1) then SetFanDutyCycle (uint w fan) (uint 8 speed)
         else mret tt);
    mret (r0, r1)).
End Operations.

(** ** The hardware contract *)

(** The PWM/tachometer block: [sample s m] is the count that a measurement
    triggered with mask [m] gives, [pending] the number of further reads of the
    result register that will find the measurement not ready, [count] the
    measurement in progress, [pwm] the content of the control registers. *)
Class TachHardware (S : Type) `{memProvider S} : Type := {
  sample : S -> Z -> Z;
  pending : S -> nat;
  count : S -> Z;
  pwm : S -> Z -> Z;
  max_pending : nat;
  count_range : forall s, is_uint 31 (count s);
  pwm_range : forall s a, is_uint 32 (pwm s a);
  tach_trigger : forall v s, exists s', MustWrite32 (PWM_BASE + 0x28) v s = (Ret tt, s') /\
    (pending s' <= max_pending)%nat /\ count s' = sample s v /\
    sample s' = sample s /\ pwm s' = pwm s;
  tach_ctrl : forall s, MustRead32 (PWM_BASE + 0x10) s = (Ret (pwm s (PWM_BASE + 0x10)), s);
  tach_duty : forall s, MustRead32 (PWM_BASE + 0x8) s = (Ret (pwm s (PWM_BASE + 0x8)), s);
  tach_set_duty : forall v s, is_uint 32 v ->
    exists s', MustWrite32 (PWM_BASE + 0x8) v s = (Ret tt, s') /\
    forall a, pwm s' a = if decide (a = PWM_BASE + 0x8) then v else pwm s a;
  tach_busy : forall n s, pending s = Datatypes.S n -> exists v s',
    MustRead32 (PWM_BASE + 0x2c) s = (Ret v, s') /\ is_uint 31 v /\
    pending s' = n /\ count s' = count s;
  tach_ready : forall s, pending s = O -> exists s',
    MustRead32 (PWM_BASE + 0x2c) s = (Ret (Z.lor (Z.shiftl 1 31) (count s)), s') /\
    count s' = count s;
}.

(** The divider as the datasheet has it: 4, 16, ..., doubled in both-edge
    mode. *)
Definition divider (ctrl : Z) : Z :=
  2 ^ (2 + 2 * Z.land (Z.shiftr ctrl 1) 7 + Z.b2z (Z.testbit ctrl 5)).

Lemma field3_range ctrl : 0 <= Z.land (Z.shiftr ctrl 1) 7 <= 7.
Proof.
  change 7 with (Z.ones 3) at 1 2. rewrite Z.land_ones by lia.
  pose proof (Z.mod_pos_bound (Z.shiftr ctrl 1) (2 ^ 3)). lia.
Qed.

Lemma divider_range ctrl : 4 <= divider ctrl <= 131072.
Proof.
  unfold divider. pose proof (field3_range ctrl) as Hf.
  assert (0 <= Z.b2z (Z.testbit ctrl 5) <= 1) by (destruct (Z.testbit ctrl 5); cbn; lia).
  change 4 with (2 ^ 2) at 1.
  change 131072 with (2 ^ 17). split; apply Z.pow_le_mono_r; lia.
Qed.

Lemma tach_div_divider w ctrl : 32 <= w -> tach_div w ctrl = divider ctrl.
Proof.
  intros Hw. unfold tach_div, divider. pose proof (field3_range ctrl) as Hf.
  set (f := Z.land (Z.shiftr ctrl 1) 7) in *.
  assert (Hlim : 2 ^ 31 <= 2 ^ (w - 1)) by (apply Z.pow_le_mono_r; lia).
  assert (Hp : Z.shiftl 4 (f * 2) = 2 ^ (2 + 2 * f)).
  { rewrite Z.shiftl_mul_pow2 by lia. change 4 with (2 ^ 2). rewrite <- Z.pow_add_r by lia.
    f_equal. lia. }
  assert (Hr : 4 <= 2 ^ (2 + 2 * f) <= 65536).
  { change 4 with (2 ^ 2) at 1. change 65536 with (2 ^ 16). split; apply Z.pow_le_mono_r; lia. }
  rewrite Hp, (sint_id w (2 ^ (2 + 2 * f))) by (unfold is_sint; lia).
  change 0x20 with (2 ^ 5). rewrite bool_decide_land_pow2_ne by lia.
  destruct (Z.testbit ctrl 5); cbn [Z.b2z]; [|by rewrite Z.add_0_r].
  rewrite sint_id by (unfold is_sint; lia). rewrite (Z.pow_add_r 2 (2 + 2 * f) 1) by lia. lia.
Qed.

Section Measurement.
Context {S : Type} `{TachHardware S}.

Lemma wp_wait_result fuel v (Q : Z -> S -> Prop) s :
  is_uint 31 v -> (pending s < fuel)%nat ->
  (forall s', Q (Z.lor (Z.shiftl 1 31) (count s)) s') ->
  wp (wait_result fuel v) Q s.
Proof.
  revert v s. induction fuel as [|fuel IH]; intros v s Hv Hp HQ; [lia|].
  simpl. rewrite decide_True.
  2:{ rewrite Z.shiftl_1_l, land_pow2 by lia. by rewrite (uint_testbit_high 31 v). }
  apply wp_bind. unfold wp. destruct (pending s) as [|n] eqn:Hn.
  - destruct (tach_ready s Hn) as (s' & -> & Hc).
    destruct fuel; simpl; rewrite decide_False; try (by apply HQ);
      rewrite Z.shiftl_1_l, land_pow2, Z.lor_spec, Z.pow2_bits_true by lia; done.
  - destruct (tach_busy n s Hn) as (v' & s' & -> & Hv' & Hn' & Hc').
    apply IH; [done|lia|]. by rewrite Hc'.
Qed.

Lemma clear_valid c : is_uint 31 c -> Z.land (Z.lor (Z.shiftl 1 31) c) (unot 32 (Z.shiftl 1 31)) = c.
Proof.
  intros Hc. rewrite !Z.shiftl_1_l. zbits.
  destruct (decide (i = 31)) as [->|].
  - rewrite Z.pow2_bits_true, (uint_testbit_high 31 c) by (done || lia). done.
  - rewrite Z.pow2_bits_false by lia. destruct (decide (i < 32)).
    + rewrite bool_decide_eq_true_2 by done. by destruct (Z.testbit c i).
    + by rewrite (uint_testbit_high 31 c) by (done || lia).
Qed.

(** The value that [MeasureFanRpm] divides by. *)
Definition rpm_divisor (w fan : Z) (s : S) : Z :=
  sint w (2 * sample s (ushl 32 1 fan) * divider (pwm s (PWM_BASE + 0x10))).

Lemma MeasureFanRpm_run w fuel fan s :
  32 <= w -> (max_pending < fuel)%nat ->
  exists s', MeasureFanRpm w fuel fan s =
    (if decide (rpm_divisor w fan s = 0) then Panic
     else Ret (sint w (Z.quot 1440000000 (rpm_divisor w fan s))), s').
Proof.
  intros Hw Hfuel. unfold MeasureFanRpm.
  destruct (tach_trigger 0 s) as (s1 & E1 & _ & _ & Hs1 & Hp1).
  destruct (tach_trigger (ushl 32 1 fan) s1) as (s2 & E2 & Hpend & Hc2 & _ & Hp2).
  pose proof (count_range s2) as Hr.
  assert (Hwait : wp (wait_result fuel 0)
    (fun v _ => v = Z.lor (Z.shiftl 1 31) (count s2)) s2).
  { apply wp_wait_result; [done|lia|done]. }
  apply wp_run in Hwait as (v & s3 & E3 & ->).
  unfold mbind, M_bind. rewrite E1, E2, tach_ctrl, E3.
  rewrite clear_valid, tach_div_divider, sint_mul_l by done.
  rewrite Hc2, Hs1, Hp2, Hp1. fold (rpm_divisor w fan s). exists s3.
  unfold int_div. by case_decide.
Qed.
End Measurement.

(** ** Theorems *)

(** when the product of twice the count and the divider fits in an [int],
    [MeasureFanRpm] terminates within the polls the hardware needs and returns
    24 MHz * 60 / (2 * count * divider), truncated. *)
Theorem MeasureFanRpm_correct {S} `{TachHardware S} (w fan : Z) (fuel : nat) (s : S) :
  let c := sample s (ushl 32 1 fan) in
  let d := divider (pwm s (PWM_BASE + 0x10)) in
  32 <= w -> (max_pending < fuel)%nat -> 0 < c -> 2 * c * d < 2 ^ (w - 1) ->
  exists s', MeasureFanRpm w fuel fan s = (Ret (1440000000 / (2 * c * d)), s').
Proof.
  intros c d Hw Hfuel Hc Hfit. pose proof (divider_range (pwm s (PWM_BASE + 0x10))) as Hd.
  fold d in Hd. destruct (MeasureFanRpm_run w fuel fan s Hw Hfuel) as [s' ->].
  assert (2 ^ 31 <= 2 ^ (w - 1)) by (apply Z.pow_le_mono_r; lia).
  assert (rpm_divisor w fan s = 2 * c * d) as ->.
  { apply sint_id; [lia|]. unfold is_sint. nia. }
  exists s'. rewrite decide_False by nia. do 2 f_equal.
  rewrite Z.quot_div_nonneg by nia. apply sint_id; [lia|]. unfold is_sint.
  assert (0 <= 1440000000 / (2 * c * d) <= 1440000000); [|lia].
  split; [apply Z.div_pos; nia|]. apply Z.div_le_upper_bound; nia.
Qed.

(** with the 32-bit [int] of the BMC's own CPU the divisor wraps: when
    2 * count * divider is a multiple of 2^32 it becomes 0 and the measurement
    panics with a division by zero, although the quotient is well defined. *)
Theorem MeasureFanRpm_int32_panics {S} `{TachHardware S} (fan : Z) (fuel : nat) (s : S) :
  (max_pending < fuel)%nat ->
  (2 * sample s (ushl 32 1 fan) * divider (pwm s (PWM_BASE + 0x10))) mod 2 ^ 32 = 0 ->
  exists s', MeasureFanRpm 32 fuel fan s = (Panic, s').
Proof.
  intros Hfuel Hwrap. destruct (MeasureFanRpm_run 32 fuel fan s) as [s' ->]; [lia|done|].
  exists s'. unfold rpm_divisor. by rewrite sint_0_multiple by done.
Qed.

(** The duty field of a fan in PTCR08. *)
Definition duty_field (fan : Z) : Z := 8 + 16 * fan.

Lemma duty_bits (fan p v i : Z) :
  0 <= fan < 2 -> is_uint 8 p -> 0 <= i < 32 ->
  Z.testbit (if decide (fan = 0) then Z.lor (Z.land v 0xffff00ff) (ushl 32 p 8)
             else if decide (fan = 1) then Z.lor (Z.land v 0x00ffffff) (ushl 32 p 24)
             else v) i =
    if decide (duty_field fan <= i < duty_field fan + 8)
    then Z.testbit p (i - duty_field fan) else Z.testbit v i.
Proof.
  intros Hf Hp Hi. unfold duty_field.
  assert (fan = 0 \/ fan = 1) as [-> | ->] by lia.
  - rewrite decide_True by done. change 0xffff00ff with (Z.lxor (Z.ones 32) (Z.shiftl (Z.ones 8) 8)).
    unfold ushl. rewrite Z.lor_spec, Z.land_spec, Z.lxor_spec, uint_testbit, !Z.shiftl_spec by lia.
    rewrite Z.testbit_ones_nonneg, bool_decide_eq_true_2 by lia.
    replace (i <? 32) with true by lia. case_decide.
    + rewrite Z.testbit_ones_nonneg by lia. replace (i - 8 <? 8) with true by lia.
      simpl. by rewrite andb_false_r.
    + destruct (decide (i < 8)).
      * rewrite !(Z.testbit_neg_r _ (i - 8)) by lia. simpl.
        by rewrite andb_true_r, orb_false_r.
      * rewrite Z.testbit_ones_nonneg, (uint_testbit_high 8 p) by (done || lia).
        replace (i - 8 <? 8) with false by lia. simpl. by rewrite andb_true_r, orb_false_r.
  - rewrite decide_False, decide_True by done. change 0x00ffffff with (Z.ones 24).
    unfold ushl. rewrite Z.lor_spec, Z.land_spec, uint_testbit, Z.shiftl_spec by lia.
    rewrite Z.testbit_ones_nonneg, bool_decide_eq_true_2 by lia.
    change (8 + 16 * 1) with 24. case_decide.
    + replace (i <? 24) with false by lia. by rewrite andb_false_r.
    + replace (i <? 24) with true by lia.
      rewrite (Z.testbit_neg_r p) by lia. simpl. by rewrite andb_true_r, orb_false_r.
Qed.

Lemma duty_range (fan p v : Z) :
  0 <= fan < 2 -> is_uint 8 p -> is_uint 32 v ->
  is_uint 32 (if decide (fan = 0) then Z.lor (Z.land v 0xffff00ff) (ushl 32 p 8)
              else if decide (fan = 1) then Z.lor (Z.land v 0x00ffffff) (ushl 32 p 24)
              else v).
Proof.
  intros Hf Hp Hv. assert (0 <= v) by (unfold is_uint in Hv; lia).
  repeat case_decide; [| |done]; apply is_uint_lor; try lia;
    try (apply uint_range; lia); apply is_uint_land; (done || lia).
Qed.

(** [SetFanDutyCycle] stores the duty byte in the fan's field of PTCR08
    and keeps the other 24 bits and every other register; a fan number of 2 or
    more panics and writes nothing. *)
Theorem SetFanDutyCycle_correct {S} `{TachHardware S} (fan p : Z) (s : S) :
  0 <= fan -> is_uint 8 p ->
  (fan < 2 -> wp (SetFanDutyCycle fan p) (fun _ s' =>
     (forall i, 0 <= i < 32 ->
        Z.testbit (pwm s' (PWM_BASE + 0x8)) i =
          if decide (duty_field fan <= i < duty_field fan + 8)
          then Z.testbit p (i - duty_field fan)
          else Z.testbit (pwm s (PWM_BASE + 0x8)) i) /\
     (forall a, a <> PWM_BASE + 0x8 -> pwm s' a = pwm s a)) s) /\
  (2 <= fan -> SetFanDutyCycle fan p s = (Panic, s)).
Proof.
  intros Hfan Hp. unfold SetFanDutyCycle. split.
  - intros Hlt. apply wp_bind. unfold wp. rewrite tach_duty, decide_False by lia.
    set (v := pwm s (PWM_BASE + 0x8)).
    destruct (tach_set_duty _ s (duty_range fan p v ltac:(lia) Hp (pwm_range _ _)))
      as (s' & -> & Hw).
    split.
    + intros i Hi. rewrite Hw, decide_True by done. apply duty_bits; (done || lia).
    + intros a Ha. by rewrite Hw, decide_False.
  - intros Hge. unfold mbind, M_bind. by rewrite tach_duty, decide_True by lia.
Qed.

(** ** A concrete tachometer *)

Module SimTach.
Record tach : Type := mk_tach { smp : Z -> Z; pend : nat; cnt : Z; pw : gmap Z Z }.

Definition polls : nat := 3.

#[export] Instance tach_provider : memProvider tach := {
  MustRead32 a := fun s =>
    if decide (a = PWM_BASE + 0x2c) then
      match pend s with
      | O => (Ret (Z.lor (Z.shiftl 1 31) (uint 31 (cnt s))), s)
      | Datatypes.S n => (Ret 0, mk_tach (smp s) n (cnt s) (pw s))
      end
    else (Ret (uint 32 (default 0 (pw s !! a))), s);
  MustRead8 a := mret 0;
  MustWrite32 a v := fun s =>
    if decide (a = PWM_BASE + 0x28) then (Ret tt, mk_tach (smp s) polls (smp s v) (pw s))
    else (Ret tt, mk_tach (smp s) (pend s) (cnt s) (<[a := v]> (pw s)));
  MustWrite8 a v := mret tt;
  Close := mret tt;
}.

#[export] Program Instance tach_hardware : TachHardware tach := {
  sample s m := uint 31 (smp s m);
  pending := pend;
  count s := uint 31 (cnt s);
  pwm s a := uint 32 (default 0 (pw s !! a));
  max_pending := polls;
}.
Next Obligation. intros. by apply uint_range. Qed.
Next Obligation. intros. by apply uint_range. Qed.
Next Obligation. intros v s. by eexists. Qed.
Next Obligation. done. Qed.
Next Obligation. done. Qed.
Next Obligation.
  intros v s Hv. eexists. split; [reflexivity|]. intros a. simpl. rewrite lookup_insert.
  case_decide; case_decide; try congruence. simpl. by rewrite uint_id.
Qed.
Next Obligation. intros n s Hn. simpl in *. rewrite Hn. exists 0. by eexists. Qed.
Next Obligation. intros s Hn. simpl in *. rewrite Hn. by eexists. Qed.

(** A fan that turns at 2005 RPM with divider 4, as in pwm_test.go. *)
Definition fan0 (c ctrl : Z) : tach := mk_tach (fun _ => c) 0 0 {[PWM_BASE + 0x10 := ctrl]}.
End SimTach.

Import SimTach.

Lemma MeasureFanRpm_correct_witness :
  exists s', MeasureFanRpm 64 10 0 (fan0 0x15e87 0x10000001) = (Ret 2005, s').
Proof.
  destruct (MeasureFanRpm_correct 64 0 10 (fan0 0x15e87 0x10000001)) as [s' E];
    [lia|vm_compute; lia|vm_compute; done|vm_compute; done|].
  exists s'. rewrite E. by do 2 f_equal.
Defined.

Lemma MeasureFanRpm_int32_panics_witness :
  exists s', MeasureFanRpm 32 10 0 (fan0 0x4000 0x2e) = (Panic, s').
Proof.
  apply (MeasureFanRpm_int32_panics 0 10 (fan0 0x4000 0x2e)); [vm_compute; lia|].
  vm_compute. reflexivity.
Defined.

Lemma SetFanDutyCycle_correct_witness :
  wp (SetFanDutyCycle 1 0x80) (fun _ s' =>
     (forall i, 0 <= i < 32 ->
        Z.testbit (pwm s' (PWM_BASE + 0x8)) i =
          if decide (24 <= i < 32) then Z.testbit 0x80 (i - 24)
          else Z.testbit (pwm (fan0 0 0) (PWM_BASE + 0x8)) i) /\
     (forall a, a <> PWM_BASE + 0x8 -> pwm s' a = pwm (fan0 0 0) a)) (fan0 0 0) /\
  SetFanDutyCycle 2 0x80 (fan0 0 0) = (Panic, fan0 0 0).
Proof.
  split.
  - apply (SetFanDutyCycle_correct 1 0x80 (fan0 0 0)); vm_compute; done.
  - apply (SetFanDutyCycle_correct 2 0x80 (fan0 0 0)); vm_compute; done.
Defined.
