(* ===== verification/Flash.v ===== *)
(** * SPI NOR flash driver (pkg/aspeed/flash.go)

    The driver of the MX25L256 behind the SPI controller, translated over an
    arbitrary [memProvider].  Its bus traffic is specified with [Recorder]: the
    accesses are cut into SPI frames at the chip-select edges ([spi_frames]),
    decoded into commands ([decode]) and executed on [NorArray], the contract of
    a NOR flash array (erase sets a 64 KiB block to 0xff, page program clears
    bits, nothing else changes).

    [fuel] bounds the status polls of one wait. *)

From S2P Require Import Prelude GoMonad Mem.

Definition CS0_CTRL : Z := 0x1e620010.
Definition CS0_SEGMENT_ADDR : Z := 0x1e620030.
Definition FLASH_START : Z := 0x20000000.
Definition SPI_READ_TIMINGS : Z := 0x1e620094.

Definition MX25L256_ID : Z := 0x1920c2.

Definition OP_ID : Z := 0x9f.
Definition OP_READ_STATUS : Z := 0x05.
Definition MX25_OP_WREN : Z := 0x06.
Definition MX25_OP_BLOCK_ERASE : Z := 0xd8.
Definition MX25_OP_PAGE_PROGRAM : Z := 0x02.
Definition MX25_OP_EN4B : Z := 0xb7.
Definition MX25_OP_EX4B : Z := 0xe9.
Definition MX25_OP_FAST_READ : Z := 0x0b.

(** [spiflash] (and [mx25l256], which embeds it) without its [mem] field, which
    is the provider the operations run on. *)
Record spiflash : Type := mk_spiflash { tCK : Z }.

(** [for i := lo; i < hi; i += step]: the values of [i]. *)
Definition go_range (lo hi step : Z) : list Z :=
  (fun k => lo + step * Z.of_nat k) <$> seq 0 (Z.to_nat ((hi - lo + step - 1) / step)).

Section Driver.
Context {S : Type} `{memProvider S}.

Definition cs (f : spiflash) (h : Z) : M S unit :=
  let cr := uint 32 (Z.lor (Z.lor (Z.shiftl (Z.land (tCK f) 0x0f) 8) 0x3) (Z.shiftl h 2)) in
  MustWrite32 CS0_CTRL cr.

Definition cmd8 (f : spiflash) (cmd : Z) : M S unit :=
  _ ← cs f 0;
  deferring (cs f 1) (MustWrite8 FLASH_START (Z.land cmd 0xff)).

Definition cmd8Read32 (f : spiflash) (cmd : Z) : M S Z :=
  _ ← cs f 0;
  deferring (cs f 1) (
    _ ← MustWrite8 FLASH_START (Z.land cmd 0xff);
    MustRead32 FLASH_START).

Definition cmd8Read8 (f : spiflash) (cmd : Z) : M S Z :=
  _ ← cs f 0;
  deferring (cs f 1) (
    _ ← MustWrite8 FLASH_START (Z.land cmd 0xff);
    MustRead8 FLASH_START).

Definition status (f : spiflash) : M S Z := cmd8Read8 f OP_READ_STATUS.

Definition isReady (f : spiflash) : M S bool :=
  st ← status f;
  mret (bool_decide (Z.land st 0x1 = 0)).

Definition Id (f : spiflash) : M S Z :=
  v ← cmd8Read32 f OP_ID;
  mret (Z.land v 0xffffff).

(** [for !f.isReady() { time.Sleep(..) }]; the sleeps have no effect on the
    bus. *)
Definition wait_ready (fuel : nat) (f : spiflash) : M S unit :=
  while fuel (b ← isReady f; mret (negb b)) (mret tt).

Definition newMX25L256Flash : M S spiflash :=
  let f := mk_spiflash 6 in
  _ ← cmd8 f MX25_OP_EN4B;
  mret f.

Definition SystemFlash (fuel : nat) : M S (result spiflash) :=
  _ ← MustWrite32 CS0_CTRL 0;
  _ ← MustWrite32 CS0_SEGMENT_ADDR 0x48400000;
  _ ← MustWrite32 SPI_READ_TIMINGS 0;
  let f := mk_spiflash 0 in
  _ ← wait_ready fuel f;
  id ← Id f;
  if decide (id = MX25L256_ID) then f ← newMX25L256Flash; mret (Ok f)
  else mret (Err "unknown flash ID"%string).

(** [(f *mx25l256) Close()]. *)
Definition Close (f : spiflash) : M S unit := cmd8 f MX25_OP_EX4B.

(** The first loop of [ReadAt]: whole words while [i < l-3].  Returns [b] and
    [i] as the loop leaves them. *)
Fixpoint read_words (fuel : nat) (b : list Z) (i : Z) : M S (list Z * Z) :=
  if decide (i < Z.of_nat (length b) - 3) then
    match fuel with
    | O => fun s => (Blocked, s)
    | Datatypes.S fuel =>
        d ← MustRead32 FLASH_START;
        let b := <[Z.to_nat i := Z.land d 0xff]> b in
        let b := <[Z.to_nat (i + 1) := Z.land (Z.shiftr d 8) 0xff]> b in
        let b := <[Z.to_nat (i + 2) := Z.land (Z.shiftr d 16) 0xff]> b in
        let b := <[Z.to_nat (i + 3) := Z.land (Z.shiftr d 24) 0xff]> b in
        read_words fuel b (i + 4)
    end
  else mret (b, i).

(** One [if i < l { b[i] = x; i += 1 }] of the second loop. *)
Definition put_if (x : Z) (bi : list Z * Z) : list Z * Z :=
  let '(b, i) := bi in
  if decide (i < Z.of_nat (length b)) then (<[Z.to_nat i := x]> b, i + 1) else (b, i).

(** The second loop of [ReadAt]: the remaining bytes, out of one word read
    per iteration. *)
Fixpoint read_tail (fuel : nat) (b : list Z) (i : Z) : M S (list Z * Z) :=
  if decide (i < Z.of_nat (length b)) then
    match fuel with
    | O => fun s => (Blocked, s)
    | Datatypes.S fuel =>
        d ← MustRead32 FLASH_START;
        let '(b, i) := (<[Z.to_nat i := Z.land d 0xff]> b, i + 1) in
        let '(b, i) := put_if (Z.land (Z.shiftr d 8) 0xff) (b, i) in
        let '(b, i) := put_if (Z.land (Z.shiftr d 16) 0xff) (b, i) in
        let '(b, i) := put_if (Z.land (Z.shiftr d 24) 0xff) (b, i) in
        read_tail fuel b i
    end
  else mret (b, i).

(** [ReadAt(b, off)]: the content of [b] after the call, and the pair it
    returns. *)
Definition ReadAt (f : spiflash) (b : list Z) (off : Z) : M S (list Z * result Z) :=
  let l := Z.of_nat (length b) in
  if decide (sint 64 (off + l) > 32 * 1024 * 1024) then
    mret (b, Err "read would have overflown chip"%string)
  else
    _ ← cs f 0;
    deferring (cs f 1) (
      _ ← MustWrite8 FLASH_START (Z.land MX25_OP_FAST_READ 0xff);
      _ ← MustWrite8 FLASH_START (Z.land (Z.shiftr off 24) 0xff);
      _ ← MustWrite8 FLASH_START (Z.land (Z.shiftr off 16) 0xff);
      _ ← MustWrite8 FLASH_START (Z.land (Z.shiftr off 8) 0xff);
      _ ← MustWrite8 FLASH_START (Z.land off 0xff);
      _ ← MustWrite8 FLASH_START 0;
      r ← read_words (length b) b 0;
      r' ← read_tail (length b) r.1 r.2;
      mret (r'.1, Ok r'.2)).

Definition Read (f : spiflash) (b : list Z) : M S (list Z * result Z) := ReadAt f b 0.

Definition eraseBlock (fuel : nat) (f : spiflash) (b : Z) : M S unit :=
  _ ← cmd8 f MX25_OP_WREN;
  _ ← cs f 0;
  _ ← MustWrite8 FLASH_START (Z.land MX25_OP_BLOCK_ERASE 0xff);
  _ ← MustWrite8 FLASH_START (Z.land (Z.shiftr b 24) 0xff);
  _ ← MustWrite8 FLASH_START (Z.land (Z.shiftr b 16) 0xff);
  _ ← MustWrite8 FLASH_START 0;
  _ ← MustWrite8 FLASH_START 0;
  _ ← cs f 1;
  wait_ready fuel f.

(** The data phase of [programPage], four bytes per 32-bit write; an index out
    of range panics. *)
Fixpoint write_words (d : list Z) : M S unit :=
  match d with
  | [] => mret tt
  | b0 :: b1 :: b2 :: b3 :: d =>
      let v := b0 in
      let v := Z.lor v (ushl 32 b1 8) in
      let v := Z.lor v (ushl 32 b2 16) in
      let v := Z.lor v (ushl 32 b3 24) in
      _ ← MustWrite32 FLASH_START v;
      write_words d
  | _ => go_panic
  end.

Definition programPage (fuel : nat) (f : spiflash) (p : Z) (d : list Z) : M S unit :=
  if decide (length d <> 256%nat) then go_panic
  else
    _ ← cmd8 f MX25_OP_WREN;
    _ ← cs f 0;
    _ ← MustWrite8 FLASH_START (Z.land MX25_OP_PAGE_PROGRAM 0xff);
    _ ← MustWrite8 FLASH_START (Z.land (Z.shiftr p 24) 0xff);
    _ ← MustWrite8 FLASH_START (Z.land (Z.shiftr p 16) 0xff);
    _ ← MustWrite8 FLASH_START (Z.land (Z.shiftr p 8) 0xff);
    _ ← MustWrite8 FLASH_START 0;
    _ ← write_words d;
    _ ← cs f 1;
    wait_ready fuel f.

(** The slice expression [b[lo:hi]] on a slice without spare capacity. *)
Definition slice (b : list Z) (lo hi : Z) : M S (list Z) :=
  if decide (0 <= lo <= hi /\ hi <= Z.of_nat (length b)) then
    mret (take (Z.to_nat (hi - lo)) (drop (Z.to_nat lo) b))
  else go_panic.

(** [WriteAt(b, off)].  [%] and [*] associate to the left in Go. *)
Definition WriteAt (fuel : nat) (f : spiflash) (b : list Z) (off : Z) : M S (result Z) :=
  let l := Z.of_nat (length b) in
  if decide (Z.rem l 1024 * 64 <> 0) then
    mret (Err "buffer needs to be multiple of 64KB"%string)
  else if decide (off < 0 \/ Z.rem off 1024 * 64 <> 0) then
    mret (Err "offset needs to be positive multiple of 64KB"%string)
  else if decide (sint 64 (off + l) > 32 * 1024 * 1024) then
    mret (Err "write would have overflown chip"%string)
  else
    _ ← for_each (go_range off (sint 64 (off + l)) (64 * 1024)) (fun i =>
          eraseBlock fuel f (sint 32 i));
    _ ← for_each (go_range off (sint 64 (off + l)) 256) (fun i =>
          d ← slice b (i - off) (i - off + 256);
          programPage fuel f (sint 32 i) d);
    mret (Ok l).

Definition Write (fuel : nat) (f : spiflash) (b : list Z) : M S (result Z) :=
  WriteAt fuel f b 0.
End Driver.

(** ** What the chip sees *)

(** One SPI frame: the bytes the driver sent and received while chip select
    was low. *)
Record frame : Type := mk_frame { sent : list Z; got : list Z }.

(** Cut a trace into the frames it completes.  Bit 2 of the control register
    is the level of CS#. *)
Fixpoint spi_frames (cur : option frame) (t : list access) : list frame :=
  match t with
  | [] => []
  | W32 a v :: t =>
      if decide (a = CS0_CTRL) then
        if Z.testbit v 2 then
          match cur with
          | Some fr => fr :: spi_frames None t
          | None => spi_frames None t
          end
        else spi_frames (Some (mk_frame [] [])) t
      else if decide (a = FLASH_START) then
        spi_frames ((fun fr => mk_frame (sent fr ++ le_bytes 4 v) (got fr)) <$> cur) t
      else spi_frames cur t
  | W8 a v :: t =>
      if decide (a = FLASH_START) then
        spi_frames ((fun fr => mk_frame (sent fr ++ [v]) (got fr)) <$> cur) t
      else spi_frames cur t
  | R32 a v :: t =>
      if decide (a = FLASH_START) then
        spi_frames ((fun fr => mk_frame (sent fr) (got fr ++ le_bytes 4 v)) <$> cur) t
      else spi_frames cur t
  | R8 a v :: t =>
      if decide (a = FLASH_START) then
        spi_frames ((fun fr => mk_frame (sent fr) (got fr ++ [v])) <$> cur) t
      else spi_frames cur t
  end.

(** The commands of the MX25L256 in 4-byte address mode that the driver
    uses. *)
Inductive nor_cmd : Type :=
| WriteEnable
| BlockErase (a : Z)
| PageProgram (a : Z) (d : list Z)
| ReadStatus (st : list Z)
| FastRead (a : Z) (d : list Z)
| OtherCmd.

#[export] Instance nor_cmd_eq_dec : EqDecision nor_cmd.
Proof. solve_decision. Defined.

Definition decode (fr : frame) : nor_cmd :=
  match sent fr with
  | op :: args =>
      if decide (op = 0x06 /\ args = []) then WriteEnable
      else if decide (op = 0xd8 /\ length args = 4%nat) then BlockErase (be_int args)
      else if decide (op = 0x02 /\ (4 < length args)%nat) then
        PageProgram (be_int (take 4 args)) (drop 4 args)
      else if decide (op = 0x05 /\ args = []) then ReadStatus (got fr)
      else if decide (op = 0x0b /\ length args = 5%nat) then
        FastRead (be_int (take 4 args)) (got fr)
      else OtherCmd
  | [] => OtherCmd
  end.

Definition commands (t : list access) : list nor_cmd := decode <$> spi_frames None t.

(** ** The contract of the flash array *)

Definition chip_size : Z := 32 * 1024 * 1024.

(** A NOR flash array: [cell c x] is the byte at address [x]. *)
Class NorArray (C : Type) : Type := {
  cell : C -> Z -> Z;
  erase_block : Z -> C -> C;
  program_page : Z -> list Z -> C -> C;
  cell_erase : forall a c x, cell (erase_block a c) x =
    if decide (x / 65536 = a / 65536) then 0xff else cell c x;
  cell_program : forall a d c x, length d = 256%nat ->
    cell (program_page a d c) x =
      if decide (x / 256 = a / 256) then Z.land (cell c x) (d !!! Z.to_nat (x mod 256))
      else cell c x;
}.

(** One command on the array and the write-enable latch: an erase or a program
    without the latch is ignored, and both clear it. *)
Definition nor_step {C} `{NorArray C} (st : bool * C) (cmd : nor_cmd) : bool * C :=
  let '(wel, c) := st in
  match cmd with
  | WriteEnable => (true, c)
  | BlockErase a => if wel then (false, erase_block a c) else (false, c)
  | PageProgram a d => if wel then (false, program_page a d c) else (false, c)
  | _ => (wel, c)
  end.

Definition nor_exec {C} `{NorArray C} (st : bool * C) (l : list nor_cmd) : bool * C :=
  foldl nor_step st l.

(** ** Readiness *)

(** From state [s], the chip reports ready within [n] polls of [isReady]. *)
Inductive ready_in {E} `{memProvider E} (f : spiflash) : nat -> E -> Prop :=
| ready_now n s s' : isReady f s = (Ret true, s') -> ready_in f (Datatypes.S n) s
| ready_later n s s' : isReady f s = (Ret false, s') -> ready_in f n s' ->
    ready_in f (Datatypes.S n) s.

(** A bus on which every access succeeds and every wait ends within [polls]
    polls. *)
Class responsive (E : Type) `{memProvider E} (polls : nat) : Prop := {
  responsive_live :: live E;
  responsive_ready : forall f (e : E), ready_in f polls e;
}.

(** ** Traces of the driver's building blocks *)

Definition cs_ctrl (f : spiflash) (h : Z) : Z :=
  uint 32 (Z.lor (Z.lor (Z.shiftl (Z.land (tCK f) 0x0f) 8) 0x3) (Z.shiftl h 2)).

(** The accesses of one frame that sends [out]. *)
Definition frame_accesses (f : spiflash) (body : list access) : list access :=
  W32 CS0_CTRL (cs_ctrl f 0) :: body ++ [W32 CS0_CTRL (cs_ctrl f 1)].

Definition poll_accesses (f : spiflash) (st : Z) : list access :=
  frame_accesses f [W8 FLASH_START 0x05; R8 FLASH_START st].

Definition wren_accesses (f : spiflash) : list access :=
  frame_accesses f [W8 FLASH_START 0x06].

Lemma cs_ctrl_testbit f h :
  h = 0 \/ h = 1 -> Z.testbit (cs_ctrl f h) 2 = bool_decide (h = 1).
Proof.
  intros Hh. unfold cs_ctrl.
  rewrite uint_testbit, !Z.lor_spec, !Z.shiftl_spec by lia.
  rewrite (Z.testbit_neg_r (Z.land (tCK f) 0x0f) (2 - 8)) by lia.
  by destruct Hh as [-> | ->].
Qed.

(** A frame's accesses decode to that frame, whatever follows. *)
Lemma spi_frames_frame f body t :
  spi_frames None (frame_accesses f body ++ t) =
  spi_frames (Some (mk_frame [] [])) (body ++ W32 CS0_CTRL (cs_ctrl f 1) :: t).
Proof.
  unfold frame_accesses. cbn [app spi_frames].
  rewrite decide_True, cs_ctrl_testbit by (done || lia). by rewrite <- app_assoc.
Qed.

Lemma spi_frames_end f fr t :
  spi_frames (Some fr) (W32 CS0_CTRL (cs_ctrl f 1) :: t) = fr :: spi_frames None t.
Proof. cbn [spi_frames]. by rewrite decide_True, cs_ctrl_testbit by (done || lia). Qed.

Lemma spi_frames_W8 fr v t :
  spi_frames (Some fr) (W8 FLASH_START v :: t) =
  spi_frames (Some (mk_frame (sent fr ++ [v]) (got fr))) t.
Proof. done. Qed.

Lemma spi_frames_R8 fr v t :
  spi_frames (Some fr) (R8 FLASH_START v :: t) =
  spi_frames (Some (mk_frame (sent fr) (got fr ++ [v]))) t.
Proof. done. Qed.

Lemma spi_frames_W32s fr vs t :
  spi_frames (Some fr) ((W32 FLASH_START <$> vs) ++ t) =
  spi_frames (Some (mk_frame (sent fr ++ concat (le_bytes 4 <$> vs)) (got fr))) t.
Proof.
  revert fr. induction vs as [|v vs IH]; intros [o g]; simpl sent; simpl got.
  - by rewrite app_nil_r.
  - change (W32 FLASH_START <$> v :: vs) with (W32 FLASH_START v :: (W32 FLASH_START <$> vs)).
    cbn [app]. transitivity (spi_frames (Some (mk_frame (o ++ le_bytes 4 v) g))
      ((W32 FLASH_START <$> vs) ++ t)); [done|]. rewrite IH. simpl sent. simpl got.
    by rewrite <- app_assoc.
Qed.

Lemma spi_frames_R32s fr vs t :
  spi_frames (Some fr) ((R32 FLASH_START <$> vs) ++ t) =
  spi_frames (Some (mk_frame (sent fr) (got fr ++ concat (le_bytes 4 <$> vs)))) t.
Proof.
  revert fr. induction vs as [|v vs IH]; intros [o g]; simpl sent; simpl got.
  - by rewrite app_nil_r.
  - change (R32 FLASH_START <$> v :: vs) with (R32 FLASH_START v :: (R32 FLASH_START <$> vs)).
    cbn [app]. transitivity (spi_frames (Some (mk_frame o (g ++ le_bytes 4 v)))
      ((R32 FLASH_START <$> vs) ++ t)); [done|]. rewrite IH. simpl sent. simpl got.
    by rewrite <- app_assoc.
Qed.

Create Rewrite HintDb spi.
#[local] Hint Rewrite <- @app_assoc : spi.
#[local] Hint Rewrite spi_frames_frame spi_frames_end spi_frames_W8 spi_frames_R8
  spi_frames_W32s spi_frames_R32s : spi.

(** Normalise [commands] of a trace made of complete frames. *)
Ltac spi_decode :=
  unfold commands; autorewrite with spi; cbn [app]; autorewrite with spi;
  cbn [sent got app fmap list_fmap].

Lemma commands_poll f st t :
  commands (poll_accesses f st ++ t) = ReadStatus [st] :: commands t.
Proof. unfold poll_accesses. by spi_decode. Qed.

Lemma commands_polls f sts t :
  commands (concat (poll_accesses f <$> sts) ++ t) =
  ((fun st => ReadStatus [st]) <$> sts) ++ commands t.
Proof.
  induction sts as [|st sts IH]; [done|]. cbn [fmap list_fmap concat].
  by rewrite <- app_assoc, commands_poll, IH.
Qed.

Lemma commands_wren f t : commands (wren_accesses f ++ t) = WriteEnable :: commands t.
Proof. unfold wren_accesses. by spi_decode. Qed.

(** *** Words and bytes *)

(** The words that [write_words] puts on the bus. *)
Fixpoint words (d : list Z) : list Z :=
  match d with
  | b0 :: b1 :: b2 :: b3 :: d => le_int [b0; b1; b2; b3] :: words d
  | _ => []
  end.

(** Induction over a buffer in groups of four. *)
Lemma list_ind4 {A} (P : list A -> Prop) :
  P [] -> (forall a b c d l, P l -> P (a :: b :: c :: d :: l)) ->
  forall l n, length l = (4 * n)%nat -> P l.
Proof.
  intros H0 H4 l n. revert l. induction n as [|n IH]; intros l Hl.
  - by rewrite (nil_length_inv l) by lia.
  - destruct l as [|a [|b [|c [|d l]]]]; simpl in Hl; try lia.
    apply H4, IH. lia.
Qed.

Lemma words_bytes d n :
  length d = (4 * n)%nat -> Forall is_byte d -> concat (le_bytes 4 <$> words d) = d.
Proof.
  intros Hl Hd. revert Hd. pattern d. eapply list_ind4; [done| |exact Hl].
  intros b0 b1 b2 b3 l IH Hb. do 4 (apply Forall_cons in Hb as [? Hb]).
  change (words _) with (le_int [b0; b1; b2; b3] :: words l).
  rewrite fmap_cons. cbn [concat]. rewrite IH by done.
  change 4%nat with (length [b0; b1; b2; b3]).
  rewrite le_bytes_le_int; [done|]. by rewrite !Forall_cons, Forall_nil.
Qed.

(** The driver's big-endian address bytes. *)
Lemma be_int_4 b0 b1 b2 b3 :
  is_byte b0 -> is_byte b1 -> is_byte b2 -> is_byte b3 ->
  be_int [b0; b1; b2; b3] = b3 + 256 * (b2 + 256 * (b1 + 256 * b0)).
Proof.
  intros. unfold be_int. change (reverse _) with [b3; b2; b1; b0].
  rewrite !le_int_cons by done. simpl (le_int []). lia.
Qed.

Lemma be_int_block a :
  is_uint 32 a ->
  be_int [byte_of 3 a; byte_of 2 a; 0; 0] = a / 65536 * 65536.
Proof.
  intros Ha. rewrite be_int_4 by (apply byte_of_range || done).
  rewrite !byte_of_mod by lia. unfold is_uint in Ha.
  change (2 ^ (8 * 3)) with 16777216. change (2 ^ (8 * 2)) with 65536.
  Z.to_euclidean_division_equations. lia.
Qed.

Lemma be_int_page a :
  is_uint 32 a ->
  be_int [byte_of 3 a; byte_of 2 a; byte_of 1 a; 0] = a / 256 * 256.
Proof.
  intros Ha. rewrite be_int_4 by (apply byte_of_range || done).
  rewrite !byte_of_mod by lia. unfold is_uint in Ha.
  change (2 ^ (8 * 3)) with 16777216. change (2 ^ (8 * 2)) with 65536.
  change (2 ^ (8 * 1)) with 256. Z.to_euclidean_division_equations. lia.
Qed.

Lemma be_int_addr a :
  is_uint 32 a ->
  be_int [byte_of 3 a; byte_of 2 a; byte_of 1 a; byte_of 0 a] = a.
Proof.
  intros Ha. rewrite be_int_4 by (apply byte_of_range || done).
  rewrite !byte_of_mod by lia. unfold is_uint in Ha.
  change (2 ^ (8 * 3)) with 16777216. change (2 ^ (8 * 2)) with 65536.
  change (2 ^ (8 * 1)) with 256. change (2 ^ (8 * 0)) with 1.
  Z.to_euclidean_division_equations. lia.
Qed.

(** *** Traces of the operations *)

Definition erase_accesses (f : spiflash) (a : Z) : list access :=
  frame_accesses f [W8 FLASH_START 0xd8; W8 FLASH_START (byte_of 3 a);
                    W8 FLASH_START (byte_of 2 a); W8 FLASH_START 0; W8 FLASH_START 0].

Definition program_accesses (f : spiflash) (a : Z) (d : list Z) : list access :=
  frame_accesses f ([W8 FLASH_START 0x02; W8 FLASH_START (byte_of 3 a);
                     W8 FLASH_START (byte_of 2 a); W8 FLASH_START (byte_of 1 a);
                     W8 FLASH_START 0] ++ (W32 FLASH_START <$> words d)).

Lemma commands_erase f a t :
  is_uint 32 a ->
  commands (erase_accesses f a ++ t) = BlockErase (a / 65536 * 65536) :: commands t.
Proof.
  intros Ha. unfold erase_accesses. spi_decode.
  rewrite <- (be_int_block a Ha). done.
Qed.

Lemma commands_program f a d t :
  is_uint 32 a -> length d = 256%nat -> Forall is_byte d ->
  commands (program_accesses f a d ++ t) = PageProgram (a / 256 * 256) d :: commands t.
Proof.
  intros Ha Hd Hb. unfold program_accesses. spi_decode.
  rewrite (words_bytes d 64) by (done || lia). unfold decode at 1.
  cbn [sent got app]. rewrite !decide_False by (intros [? ?]; done).
  rewrite decide_True by (simpl; split; [done|lia]).
  f_equal. rewrite <- (be_int_page a Ha). done.
Qed.

Section Traces.
Context {E : Type} `{memProvider E} {polls : nat} `{!responsive E polls}.
#[local] Abbreviation bus := (@Recorder.bus E).

(** [m] returns, appending to the trace accesses that satisfy [P]. *)
Definition emits {A} (m : M bus A) (P : A -> list access -> Prop) : Prop :=
  forall s : bus, wp m (fun a s' => exists t, s'.2 = s.2 ++ t /\ P a t) s.

Lemma emits_bind {A B} (m : M bus A) (k : A -> M bus B) P Q :
  emits m P ->
  (forall a, emits (k a) (fun b t2 => forall t1, P a t1 -> Q b (t1 ++ t2))) ->
  emits (m ≫= k) Q.
Proof.
  intros Hm Hk s. apply wp_bind. eapply wp_mono; [apply Hm|].
  intros a s1 (t1 & E1 & HP). eapply wp_mono; [apply Hk|].
  intros b s2 (t2 & E2 & HQ). exists (t1 ++ t2). split; [|by apply HQ].
  by rewrite E2, E1, app_assoc.
Qed.

Lemma emits_mono {A} (m : M bus A) (P Q : A -> list access -> Prop) :
  emits m P -> (forall a t, P a t -> Q a t) -> emits m Q.
Proof.
  intros Hm HPQ s. eapply wp_mono; [apply Hm|]. intros a s' (t & ? & ?). eauto.
Qed.

Lemma emits_ret {A} (a : A) (P : A -> list access -> Prop) : P a [] -> emits (mret a) P.
Proof. intros HP s. apply wp_ret. exists []. by rewrite app_nil_r. Qed.

Lemma emits_w32 a v : emits (MustWrite32 a v) (fun _ t => t = [W32 a v]).
Proof. intros s. apply Recorder.wp_write32. eauto. Qed.

Lemma emits_w8 a v : emits (MustWrite8 a v) (fun _ t => t = [W8 a v]).
Proof. intros s. apply Recorder.wp_write8. eauto. Qed.

Lemma emits_cmd8 f cmd :
  emits (cmd8 f cmd) (fun _ t => t = frame_accesses f [W8 FLASH_START (Z.land cmd 0xff)]).
Proof.
  intros s. unfold cmd8, cs. fold (cs_ctrl f 0) (cs_ctrl f 1). bus_run.
  eexists. split; reflexivity.
Qed.

Lemma isReady_run f (s : bus) :
  exists b e' st, isReady f s.1 = (Ret b, e') /\
    isReady f s = (Ret b, (e', s.2 ++ poll_accesses f st)).
Proof.
  assert (Hwp : wp (isReady f) (fun b s' => exists e' st, isReady f s.1 = (Ret b, e') /\
    s' = (e', s.2 ++ poll_accesses f st)) s).
  { unfold isReady, status, cmd8Read8, cs. fold (cs_ctrl f 0) (cs_ctrl f 1). bus_run.
    eexists _, _. split; [|reflexivity].
    unfold mbind, M_bind, deferring, mret, M_ret. rewrite He. unfold mbind, M_bind.
    rewrite He0, He1. unfold mbind, M_bind. by rewrite He2. }
  apply wp_run in Hwp as (b & s' & Hrun & e' & st & He & ->). eauto.
Qed.

(** Waiting for the chip emits status polls only. *)
Lemma emits_wait_ready fuel f :
  (polls <= fuel)%nat ->
  emits (wait_ready fuel f) (fun _ t => exists sts, t = concat (poll_accesses f <$> sts)).
Proof.
  intros Hfuel s. pose proof (responsive_ready f s.1) as Hr.
  unfold wait_ready. destruct s as [e t0]. simpl in Hr.
  remember polls as m eqn:Em in Hr. assert (Hm : (m <= fuel)%nat) by lia. clear Em Hfuel.
  revert t0 fuel Hm. induction Hr as [n e e' Hnow|n e e' Hlater _ IH]; intros t0 fuel Hm;
    (destruct fuel as [|fuel]; [lia|]); cbn [while]; apply wp_bind, wp_bind;
    destruct (isReady_run f (e, t0)) as (b & e1 & st & H1 & H2); simpl in H1, H2;
    unfold wp at 1; rewrite H2.
  - assert (b = true) as -> by congruence. apply wp_ret. simpl. apply wp_ret.
    exists (poll_accesses f st). split; [done|]. by exists [st].
  - assert (b = false) as -> by congruence. assert (e1 = e') as -> by congruence.
    apply wp_ret. cbn [negb]. apply wp_bind, wp_ret.
    eapply wp_mono; [apply (IH (t0 ++ poll_accesses f st) fuel); lia|].
    intros [] s' (t & E1 & sts & ->). exists (poll_accesses f st ++ concat (poll_accesses f <$> sts)).
    cbn [snd] in *. split; [by rewrite E1, <- app_assoc|]. by exists (st :: sts).
Qed.

(** *** Effect on the array *)

Context {C : Type} `{NorArray C}.

(** The commands of [t] take the array from [c] to [g c], with the write-enable
    latch clear before and after. *)
Definition effect (g : C -> C) (t : list access) : Prop :=
  forall t' c, nor_exec (false, c) (commands (t ++ t')) = nor_exec (false, g c) (commands t').

Lemma effect_app g1 g2 t1 t2 :
  effect g1 t1 -> effect g2 t2 -> effect (fun c => g2 (g1 c)) (t1 ++ t2).
Proof. intros H1 H2 t' c. by rewrite <- app_assoc, H1, H2. Qed.

Lemma effect_polls f sts : effect (fun c => c) (concat (poll_accesses f <$> sts)).
Proof.
  intros t' c. rewrite commands_polls. unfold nor_exec. rewrite foldl_app. f_equal.
  induction sts as [|st sts IH]; [done|]. rewrite fmap_cons. exact IH.
Qed.

Lemma effect_erase f a :
  is_uint 32 a ->
  effect (erase_block (a / 65536 * 65536)) (wren_accesses f ++ erase_accesses f a).
Proof. intros Ha t' c. by rewrite <- app_assoc, commands_wren, commands_erase. Qed.

Lemma effect_program f a d :
  is_uint 32 a -> length d = 256%nat -> Forall is_byte d ->
  effect (program_page (a / 256 * 256) d) (wren_accesses f ++ program_accesses f a d).
Proof. intros Ha Hd Hb t' c. by rewrite <- app_assoc, commands_wren, commands_program. Qed.

Lemma emits_eraseBlock fuel f a :
  (polls <= fuel)%nat -> is_uint 32 a ->
  emits (eraseBlock fuel f a) (fun _ t => effect (erase_block (a / 65536 * 65536)) t).
Proof.
  intros Hfuel Ha s. unfold eraseBlock, cmd8, cs. fold (cs_ctrl f 0) (cs_ctrl f 1).
  bus_run. eapply wp_mono; [by apply emits_wait_ready|].
  intros [] s' (t & E1 & sts & ->).
  exists ((wren_accesses f ++ erase_accesses f a) ++ concat (poll_accesses f <$> sts)).
  split; [|by apply (effect_app (erase_block (a / 65536 * 65536)) (fun c => c)); [apply effect_erase|apply effect_polls]].
  rewrite E1. cbn [snd]. by rewrite <- !app_assoc.
Qed.

Lemma emits_write_words d n :
  length d = (4 * n)%nat -> Forall is_byte d ->
  emits (write_words d) (fun _ t => t = W32 FLASH_START <$> words d).
Proof.
  intros Hl. pattern d. eapply list_ind4; [|intros b0 b1 b2 b3 l IH|exact Hl].
  - intros _. by apply emits_ret.
  - rewrite !Forall_cons. intros (H0' & H1 & H2 & H3 & Hb) s. cbn [write_words words].
    rewrite word_le_int by done. bus_run. eapply wp_mono; [by apply IH|].
    intros [] s' (t & E1 & ->). eexists. split; [|reflexivity].
    rewrite E1. cbn [snd]. by rewrite <- app_assoc.
Qed.

Lemma emits_programPage fuel f a d :
  (polls <= fuel)%nat -> is_uint 32 a -> length d = 256%nat -> Forall is_byte d ->
  emits (programPage fuel f a d) (fun _ t => effect (program_page (a / 256 * 256) d) t).
Proof.
  intros Hfuel Ha Hl Hd s. unfold programPage, cmd8, cs. fold (cs_ctrl f 0) (cs_ctrl f 1).
  rewrite decide_False by lia. bus_run.
  eapply wp_mono; [by apply (emits_write_words d 64)|]. intros [] s' (t & E1 & ->).
  bus_run. eapply wp_mono; [by apply emits_wait_ready|]. intros [] s2 (t & E2 & sts & ->).
  exists ((wren_accesses f ++ program_accesses f a d) ++ concat (poll_accesses f <$> sts)).
  split; [|by apply (effect_app (program_page (a / 256 * 256) d) (fun c => c)); [apply effect_program|apply effect_polls]].
  rewrite E2, E1. cbn [snd]. unfold program_accesses, wren_accesses, frame_accesses.
  rewrite <- !app_assoc. cbn [app]. by rewrite <- !app_assoc.
Qed.

Lemma emits_for_each {A} (l : list A) body (g : A -> C -> C) :
  (forall x, x ∈ l -> emits (body x) (fun _ t => effect (g x) t)) ->
  emits (for_each l body) (fun _ t => effect (fun c => foldl (fun c x => g x c) c l) t).
Proof.
  induction l as [|x l IH]; intros Hb; cbn [for_each].
  - apply emits_ret. by intros t' c.
  - eapply emits_bind; [apply Hb; by left|]. intros [].
    eapply emits_mono; [apply IH; intros y Hy; apply Hb; by right|].
    intros [] t2 H2 t1 H1. by apply (effect_app (g x) (fun c => foldl (fun c x => g x c) c l) t1 t2).
Qed.

(** *** Which cells the loops of [WriteAt] touch *)

Lemma cell_foldl_unhit {A} (g : A -> C -> C) (l : list A) x c :
  (forall a c, a ∈ l -> cell (g a c) x = cell c x) ->
  cell (foldl (fun c a => g a c) c l) x = cell c x.
Proof.
  revert c. induction l as [|a l IH]; intros c Hg; [done|]. simpl.
  rewrite IH; [apply Hg; by left|]. intros b c' Hb. apply Hg. by right.
Qed.

(** [x] is touched by one element of the list only. *)
Lemma cell_foldl_hit {A} (g : A -> C -> C) (l : list A) x c a :
  NoDup l -> a ∈ l ->
  (forall b c, b ∈ l -> b <> a -> cell (g b c) x = cell c x) ->
  exists c', cell c' x = cell c x /\
    cell (foldl (fun c a => g a c) c l) x = cell (g a c') x.
Proof.
  intros Hnd Ha Hg. apply list_elem_of_split in Ha as (l1 & l2 & ->).
  rewrite foldl_app. simpl.
  apply NoDup_app in Hnd as (_ & Hd1 & Hnd2). apply NoDup_cons in Hnd2 as [Hd2 _].
  exists (foldl (fun c a => g a c) c l1). split; apply cell_foldl_unhit; intros b c' Hb;
    apply Hg; set_solver.
Qed.
End Traces.

Lemma elem_of_go_range lo hi step i :
  0 < step ->
  i ∈ go_range lo hi step <-> exists k : nat, i = lo + step * Z.of_nat k /\ i < hi.
Proof.
  intros Hs. unfold go_range. rewrite list_elem_of_fmap. split.
  - intros (k & -> & Hk%elem_of_seq). exists k. split; [done|].
    assert (Z.of_nat k + 1 <= (hi - lo + step - 1) / step) by lia.
    pose proof (Z.mul_div_le (hi - lo + step - 1) step Hs). nia.
  - intros (k & -> & Hk). exists k. split; [done|]. apply elem_of_seq. split; [lia|].
    assert (Z.of_nat k + 1 <= (hi - lo + step - 1) / step); [|lia].
    apply Z.div_le_lower_bound; lia.
Qed.

Lemma NoDup_go_range lo hi step : 0 < step -> NoDup (go_range lo hi step).
Proof.
  intros Hs. apply NoDup_fmap; [intros i j ?; nia|apply NoDup_seq].
Qed.


(** ** Correctness of [WriteAt] *)

Section WriteAt.
Context {E : Type} `{memProvider E} {polls : nat} `{!responsive E polls}.
#[local] Abbreviation bus := (@Recorder.bus E).

Lemma is_uint32_addr i : 0 <= i < chip_size -> sint 32 i = i /\ is_uint 32 i.
Proof. unfold chip_size. intros Hi. split; [apply sint_id|]; unfold is_sint, is_uint; lia. Qed.

(** The page of [b] that the second loop programs at [i]. *)
Definition page_of (b : list Z) (off i : Z) : list Z :=
  take 256 (drop (Z.to_nat (i - off)) b).

Definition written {C} `{NorArray C} (b : list Z) (off : Z) (c : C) : C :=
  foldl (fun c i => program_page (i / 256 * 256) (page_of b off i) c)
    (foldl (fun c i => erase_block (i / 65536 * 65536) c) c
       (go_range off (off + Z.of_nat (length b)) 65536))
    (go_range off (off + Z.of_nat (length b)) 256).

(** On every accepted call, aligned to a page or more, the commands sent are
    those of [written]. *)
Lemma WriteAt_emits {C} `{NorArray C} fuel f b off :
  (polls <= fuel)%nat -> Forall is_byte b ->
  (1024 | Z.of_nat (length b)) -> (1024 | off) ->
  0 <= off -> off + Z.of_nat (length b) <= chip_size ->
  emits (WriteAt fuel f b off) (fun r t =>
    r = Ok (Z.of_nat (length b)) /\ effect (written b off) t).
Proof.
  intros Hfuel Hb [n Hn] [p Hp] Hoff Hend. unfold WriteAt, chip_size in *.
  rewrite decide_False by (rewrite Hn, Z.rem_mul; lia).
  rewrite decide_False by (rewrite Hp, Z.rem_mul; lia).
  rewrite (sint_id 64) by (unfold is_sint; lia). rewrite decide_False by lia.
  change (64 * 1024) with 65536.
  eapply emits_bind.
  { apply (emits_for_each _ _ (fun i c => erase_block (i / 65536 * 65536) c)).
    intros i (k & -> & Hk)%elem_of_go_range; [|lia].
    destruct (is_uint32_addr (off + 65536 * Z.of_nat k)) as [Es Hu]; [unfold chip_size; lia|].
    rewrite Es. by apply emits_eraseBlock. }
  intros []. eapply emits_bind.
  { apply (emits_for_each _ _ (fun i c => program_page (i / 256 * 256) (page_of b off i) c)).
    intros i (k & -> & Hk)%elem_of_go_range; [|lia].
    destruct (is_uint32_addr (off + 256 * Z.of_nat k)) as [Es Hu]; [unfold chip_size; lia|].
    rewrite Es. unfold slice. rewrite decide_True by lia. intros s. apply wp_bind, wp_ret.
    replace (Z.to_nat (_ - _)) with 256%nat by lia. fold (page_of b off (off + 256 * Z.of_nat k)).
    apply emits_programPage; [done|done| |]; unfold page_of.
    - rewrite length_take, length_drop. lia.
    - by apply Forall_take, Forall_drop. }
  intros []. apply emits_ret. intros t2 H2 t1 H1'. rewrite app_nil_r. split; [done|].
  by apply (effect_app _ _ t1 t2 H1' H2).
Qed.

Section Cells.
Context {C : Type} `{NorArray C}.

Lemma cell_erase_at a x (c : C) :
  cell (erase_block (a / 65536 * 65536) c) x =
  if decide (x / 65536 = a / 65536) then 0xff else cell c x.
Proof. rewrite cell_erase. by rewrite Z.div_mul by lia. Qed.

Lemma cell_program_at a d x (c : C) :
  length d = 256%nat ->
  cell (program_page (a / 256 * 256) d c) x =
  if decide (x / 256 = a / 256) then Z.land (cell c x) (d !!! Z.to_nat (x mod 256))
  else cell c x.
Proof. intros Hd. rewrite cell_program by done. by rewrite Z.div_mul by lia. Qed.

Lemma cell_erases l x (c : C) :
  cell (foldl (fun c i => erase_block (i / 65536 * 65536) c) c l) x =
  if decide (Exists (fun i => x / 65536 = i / 65536) l) then 0xff else cell c x.
Proof.
  induction l as [|i l IH] using rev_ind; [done|].
  rewrite foldl_snoc, cell_erase_at, IH.
  repeat case_decide; rewrite ?Exists_app, ?Exists_cons, ?Exists_nil in *; naive_solver.
Qed.

(** No page of the buffer covers [x]. *)
Lemma cell_programs_outside b off l x (c : C) :
  (forall i, i ∈ l -> length (page_of b off i) = 256%nat /\ x / 256 <> i / 256) ->
  cell (foldl (fun c i => program_page (i / 256 * 256) (page_of b off i) c) c l) x = cell c x.
Proof.
  intros Hl. apply cell_foldl_unhit. intros i c' Hi. destruct (Hl i Hi).
  rewrite cell_program_at by done. by rewrite decide_False.
Qed.

Lemma length_page_of b off i :
  0 <= i - off -> i - off + 256 <= Z.of_nat (length b) -> length (page_of b off i) = 256%nat.
Proof. intros. unfold page_of. rewrite length_take, length_drop. lia. Qed.

(** Inside the buffer, programming an address clears the bits [b] has clear. *)
Lemma cell_programs_inside b off x (c : C) :
  (256 | off) -> (256 | Z.of_nat (length b)) -> off <= x < off + Z.of_nat (length b) ->
  cell (foldl (fun c i => program_page (i / 256 * 256) (page_of b off i) c) c
         (go_range off (off + Z.of_nat (length b)) 256)) x =
  Z.land (cell c x) (b !!! Z.to_nat (x - off)).
Proof.
  intros [p Hp] [n Hn] Hx.
  set (i := x / 256 * 256).
  assert (Hmod := Z.div_mod x 256 ltac:(lia)). assert (Hm := Z.mod_pos_bound x 256 ltac:(lia)).
  assert (Hpages : forall j, j ∈ go_range off (off + Z.of_nat (length b)) 256 ->
    length (page_of b off j) = 256%nat).
  { intros j (k & -> & Hk)%elem_of_go_range; [|lia]. apply length_page_of; lia. }
  assert (Hi : i ∈ go_range off (off + Z.of_nat (length b)) 256).
  { apply elem_of_go_range; [lia|]. exists (Z.to_nat (x / 256 - p)). lia. }
  destruct (cell_foldl_hit (fun i => program_page (i / 256 * 256) (page_of b off i))
    _ x c i (NoDup_go_range off (off + Z.of_nat (length b)) 256 ltac:(lia)) Hi) as (c' & Hc' & ->).
  - intros j c' Hj Hne. rewrite cell_program_at by by apply Hpages.
    rewrite decide_False; [done|]. apply elem_of_go_range in Hj as (k & -> & Hk); [|lia].
    subst i. intros Heq. apply Hne. rewrite Heq, Hp.
    replace (p * 256 + 256 * Z.of_nat k) with ((p + Z.of_nat k) * 256) by lia.
    by rewrite Z.div_mul by lia.
  - rewrite cell_program_at by by apply Hpages. subst i. rewrite Z.div_mul by lia.
    rewrite decide_True by done. rewrite Hc'. f_equal. unfold page_of.
    rewrite lookup_total_take, decide_True, lookup_total_drop by lia. f_equal. lia.
Qed.

(** An aligned write leaves exactly the buffer in its range. *)
Lemma cell_written b off x (c : C) :
  Forall is_byte b -> (65536 | off) -> (65536 | Z.of_nat (length b)) ->
  cell (written b off c) x =
  if decide (off <= x < off + Z.of_nat (length b)) then b !!! Z.to_nat (x - off)
  else cell c x.
Proof.
  intros Hb [p Hp] [n Hn]. unfold written.
  assert (Hmod := Z.div_mod x 65536 ltac:(lia)). assert (Hm := Z.mod_pos_bound x 65536 ltac:(lia)).
  case_decide as Hx.
  - rewrite cell_programs_inside; [|exists (p * 256); lia|exists (n * 256); lia|done].
    rewrite cell_erases, decide_True.
    + destruct (lookup_lt_is_Some_2 b (Z.to_nat (x - off))) as [y Hy]; [lia|].
      rewrite (list_lookup_total_correct _ _ _ Hy).
      assert (is_byte y) as Hyb by by eapply Forall_lookup_1.
      rewrite Z.land_comm. change 255 with (Z.ones 8). rewrite Z.land_ones by lia.
      by apply Z.mod_small.
    + apply Exists_exists. exists (x / 65536 * 65536). rewrite Z.div_mul by lia.
      split; [|done]. apply elem_of_go_range; [lia|]. exists (Z.to_nat (x / 65536 - p)). lia.
  - rewrite cell_programs_outside.
    + rewrite cell_erases, decide_False; [done|]. intros (i & Hi & Hxi)%Exists_exists.
      apply elem_of_go_range in Hi as (k & -> & Hk); [|lia].
      rewrite Hp in Hxi. replace (p * 65536 + 65536 * Z.of_nat k) with ((p + Z.of_nat k) * 65536)
        in Hxi by lia. rewrite Z.div_mul in Hxi by lia. lia.
    + intros i (k & -> & Hk)%elem_of_go_range; [|lia]. split; [apply length_page_of; lia|].
      intros Hxi. rewrite Hp in Hxi.
      replace (p * 65536 + 256 * Z.of_nat k) with ((p * 256 + Z.of_nat k) * 256) in Hxi by lia.
      rewrite Z.div_mul in Hxi by lia.
      assert (Hq := Z.div_mod x 256 ltac:(lia)). assert (Hr := Z.mod_pos_bound x 256 ltac:(lia)).
      lia.
Qed.
End Cells.

(** C1:  [WriteAt] of a buffer and an offset aligned to 64 KiB that fit the
    chip returns [(len(b), nil)] when the chip answers its polls, and the
    commands it puts on the SPI bus leave the array with exactly the buffer in
    [off, off+len(b)) and every other byte as it was, whatever the array held,
    with the write-enable latch clear. *)
Theorem WriteAt_correct {C} `{NorArray C} (fuel : nat) (f : spiflash) (b : list Z) (off : Z)
    (s : bus) :
  (polls <= fuel)%nat -> Forall is_byte b ->
  (65536 | off) -> (65536 | Z.of_nat (length b)) ->
  0 <= off -> off + Z.of_nat (length b) <= chip_size ->
  wp (WriteAt fuel f b off) (fun r s' =>
    r = Ok (Z.of_nat (length b)) /\ exists t, s'.2 = s.2 ++ t /\ forall c : C, exists c',
      nor_exec (false, c) (commands t) = (false, c') /\
      forall x, cell c' x =
        if decide (off <= x < off + Z.of_nat (length b)) then b !!! Z.to_nat (x - off)
        else cell c x) s.
Proof.
  intros Hfuel Hb Ho Hl H0' H1.
  assert (Hk : (1024 | 65536)) by (exists 64; lia).
  eapply wp_mono; [apply (WriteAt_emits (C := C)); try done; by eapply Z.divide_trans|].
  intros r s' (t & Et & -> & Heff). split; [done|]. exists t. split; [done|].
  intros c. exists (written b off c). split; [|intros x; by apply cell_written].
  specialize (Heff [] c). by rewrite app_nil_r in Heff.
Qed.

(** The alignment guards [l%1024*64] and [off%1024*64] parse as
    [(l%1024)*64]: a non-empty write at any multiple of 1 KiB is accepted, and
    when the offset is not a multiple of 64 KiB the erase destroys the bytes
    between the start of the block and the offset. *)
Theorem WriteAt_unaligned_erases {C} `{NorArray C} (fuel : nat) (f : spiflash) (b : list Z)
    (off : Z) (s : bus) :
  (polls <= fuel)%nat -> Forall is_byte b -> b <> [] ->
  (1024 | off) -> (1024 | Z.of_nat (length b)) ->
  0 <= off -> off + Z.of_nat (length b) <= chip_size ->
  wp (WriteAt fuel f b off) (fun r s' =>
    r = Ok (Z.of_nat (length b)) /\ exists t, s'.2 = s.2 ++ t /\ forall c : C, exists c',
      nor_exec (false, c) (commands t) = (false, c') /\
      forall x, off / 65536 * 65536 <= x < off -> cell c' x = 0xff) s.
Proof.
  intros Hfuel Hb Hne [p Hp] [n Hn] H0' H1.
  eapply wp_mono; [apply (WriteAt_emits (C := C)); try done; [by exists n|by exists p]|].
  intros r s' (t & Et & -> & Heff). split; [done|]. exists t. split; [done|].
  intros c. exists (written b off c). split.
  - specialize (Heff [] c). by rewrite app_nil_r in Heff.
  - intros x Hx. assert (Hlen : 0 < Z.of_nat (length b)) by (destruct b; [done|simpl; lia]).
    unfold written. rewrite cell_programs_outside.
    + rewrite cell_erases, decide_True; [done|]. apply Exists_exists. exists off.
      split; [apply elem_of_go_range; [lia|exists 0%nat; lia]|].
      Z.to_euclidean_division_equations; lia.
    + intros i (k & -> & Hk)%elem_of_go_range; [|lia]. split; [apply length_page_of; lia|].
      rewrite Hp. replace (p * 1024 + 256 * Z.of_nat k) with ((p * 4 + Z.of_nat k) * 256) by lia.
      rewrite Z.div_mul by lia. assert (Hq := Z.div_mod x 256 ltac:(lia)).
      assert (Hr := Z.mod_pos_bound x 256 ltac:(lia)). lia.
Qed.
End WriteAt.

(** The sum [off+len(b)] is computed in 64 bits before it is compared with
    the chip's size: when it wraps, [WriteAt] reports the whole buffer written
    although it sends nothing to the chip. *)
Theorem WriteAt_wraps_silently {S} `{memProvider S} (fuel : nat) (f : spiflash) (b : list Z)
    (off : Z) (s : S) :
  (1024 | off) -> (1024 | Z.of_nat (length b)) ->
  is_sint 64 off -> is_sint 64 (Z.of_nat (length b)) -> 2 ^ 63 <= off + Z.of_nat (length b) ->
  WriteAt fuel f b off s = (Ret (Ok (Z.of_nat (length b))), s).
Proof.
  intros [p Hp] [n Hn] Ho Hl Hw. unfold WriteAt, is_sint in *.
  rewrite decide_False by (rewrite Hn, Z.rem_mul; lia).
  rewrite decide_False by (rewrite Hp, Z.rem_mul; lia).
  assert (Es : sint 64 (off + Z.of_nat (length b)) = off + Z.of_nat (length b) - 2 ^ 64).
  { rewrite <- (sint_id 64 (off + _ - 2 ^ 64)) by (unfold is_sint; lia).
    apply sint_congr. rewrite <- (Z_mod_plus_full (_ - _) 1). f_equal. lia. }
  rewrite Es, decide_False by lia.
  assert (Hempty : forall step, 0 < step ->
    go_range off (off + Z.of_nat (length b) - 2 ^ 64) step = []).
  { intros step Hs. destruct (go_range _ _ step) as [|i l] eqn:Hr; [done|].
    assert (i ∈ go_range off (off + Z.of_nat (length b) - 2 ^ 64) step) as Hi
      by (rewrite Hr; by left).
    apply elem_of_go_range in Hi as (k & -> & Hk); lia. }
  by rewrite !Hempty by lia.
Qed.

(** ** Correctness of [ReadAt] *)

Section ReadAt.
Context {E : Type} `{memProvider E} `{!live E}.
#[local] Abbreviation bus := (@Recorder.bus E).

Lemma insert_at (x : Z) (l1 l2 : list Z) i k :
  i = Z.of_nat (length l1) -> 0 <= k ->
  <[Z.to_nat (i + k) := x]> (l1 ++ l2) = l1 ++ <[Z.to_nat k := x]> l2.
Proof.
  intros -> Hk. replace (Z.to_nat _) with (length l1 + Z.to_nat k)%nat by lia.
  apply insert_app_r.
Qed.

Definition bytes_of (vs : list Z) : list Z := concat (le_bytes 4 <$> vs).

Lemma length_bytes_of vs : length (bytes_of vs) = (4 * length vs)%nat.
Proof.
  unfold bytes_of. induction vs as [|v vs IH]; [done|]. rewrite fmap_cons. cbn [concat].
  rewrite length_app, IH, length_le_bytes. simpl. lia.
Qed.

(** The word loop replaces groups of four bytes of the rest of the buffer by
    the words it reads. *)
Lemma wp_read_words fuel (s : bus) done_ rest :
  (length rest <= fuel)%nat ->
  wp (read_words fuel (done_ ++ rest) (Z.of_nat (length done_))) (fun r s' => exists vs,
    s'.2 = s.2 ++ (R32 FLASH_START <$> vs) /\ (length rest < 4 * length vs + 4)%nat /\
    (4 * length vs <= length rest)%nat /\
    r = (done_ ++ bytes_of vs ++ drop (4 * length vs) rest,
         Z.of_nat (length done_ + 4 * length vs))) s.
Proof.
  revert s done_ rest. induction fuel as [|fuel IH]; intros s done_ rest Hf;
    cbn [read_words]; (case_decide as Hi; rewrite length_app in Hi; [try lia|]).
  1,3: apply wp_ret; exists []; rewrite app_nil_r; repeat split; simpl; try lia;
    f_equal; lia.
  destruct rest as [|r0 [|r1 [|r2 [|r3 rest]]]]; simpl in Hi; try lia.
  bus_step. bus_step.
  replace (Z.to_nat (Z.of_nat (length done_))) with
    (Z.to_nat (Z.of_nat (length done_) + 0)) by lia.
  rewrite !insert_at by (done || lia).
  change (<[Z.to_nat 3 := _]> _) with (le_bytes 4 v ++ rest).
  rewrite app_assoc.
  replace (Z.of_nat (length done_) + 4) with (Z.of_nat (length (done_ ++ le_bytes 4 v)))
    by (rewrite length_app, length_le_bytes; lia).
  eapply wp_mono; [apply (IH _ _ rest); simpl in Hf; lia|].
  intros r s' (vs & Es & H1 & H2 & ->). exists (v :: vs). cbn [length fst snd] in *.
  repeat split; try lia.
  - by rewrite Es, <- app_assoc.
  - rewrite <- app_assoc. unfold bytes_of. rewrite fmap_cons. cbn [concat].
    rewrite <- app_assoc. f_equal.
    + do 3 f_equal. by replace (4 * Datatypes.S (length vs))%nat with
        (Datatypes.S (Datatypes.S (Datatypes.S (Datatypes.S (4 * length vs))))) by lia.
    + rewrite length_app, length_le_bytes. lia.
Qed.

Lemma put_if_cons x done_ r rest :
  put_if x (done_ ++ r :: rest, Z.of_nat (length done_)) =
  ((done_ ++ [x]) ++ rest, Z.of_nat (length (done_ ++ [x]))).
Proof.
  unfold put_if. rewrite decide_True by (rewrite length_app; simpl; lia).
  rewrite Nat2Z.id, <- (Nat.add_0_r (length done_)), insert_app_r. simpl.
  rewrite <- app_assoc, length_app. simpl. f_equal. lia.
Qed.

Lemma put_if_nil x done_ :
  put_if x (done_ ++ [], Z.of_nat (length done_)) = (done_ ++ [], Z.of_nat (length done_)).
Proof. unfold put_if. by rewrite decide_False by (rewrite app_nil_r; lia). Qed.

Lemma read_tail_done fuel done_ (s : bus) :
  read_tail fuel (done_ ++ []) (Z.of_nat (length done_)) s =
  (Ret (done_ ++ [], Z.of_nat (length done_)), s).
Proof. destruct fuel; cbn [read_tail]; by rewrite decide_False by (rewrite app_nil_r; lia). Qed.

(** The tail loop reads one word for the last one to three bytes. *)
Lemma wp_read_tail fuel (s : bus) done_ rest :
  (length rest < 4)%nat -> (length rest <= fuel)%nat ->
  wp (read_tail fuel (done_ ++ rest) (Z.of_nat (length done_))) (fun r s' => exists vs,
    s'.2 = s.2 ++ (R32 FLASH_START <$> vs) /\
    (length vs = if decide (rest = []) then 0 else 1)%nat /\
    r = (done_ ++ take (length rest) (bytes_of vs),
         Z.of_nat (length done_ + length rest))) s.
Proof.
  intros H4 Hf. destruct rest as [|r0 rest].
  { unfold wp. rewrite read_tail_done. exists []. rewrite app_nil_r. simpl.
    by rewrite Nat.add_0_r. }
  destruct fuel as [|fuel]; [simpl in Hf; lia|]. cbn [read_tail].
  rewrite decide_True by (rewrite length_app; simpl; lia). bus_step. bus_step.
  pose proof (put_if_cons (Z.land v 255) done_ r0 rest) as E1. unfold put_if in E1 at 1.
  rewrite decide_True in E1 by (rewrite length_app; simpl; lia). rewrite E1. clear E1.
  destruct rest as [|r1 [|r2 [|r3 rest]]]; simpl in H4; try lia;
    rewrite ?put_if_cons, ?put_if_nil; unfold wp; rewrite read_tail_done; exists [v];
    rewrite !app_nil_r, !length_app; simpl; repeat split; try (rewrite <- ?app_assoc; done);
    f_equal; rewrite <- ?app_assoc; try done; lia.
Qed.

Lemma commands_fast_read f off vs :
  commands ([W32 CS0_CTRL (cs_ctrl f 0); W8 FLASH_START (Z.land MX25_OP_FAST_READ 255);
      W8 FLASH_START (byte_of 3 off); W8 FLASH_START (byte_of 2 off);
      W8 FLASH_START (byte_of 1 off); W8 FLASH_START (byte_of 0 off);
      W8 FLASH_START 0] ++ (R32 FLASH_START <$> vs) ++ [W32 CS0_CTRL (cs_ctrl f 1)]) =
  [FastRead (uint 32 off) (bytes_of vs)].
Proof.
  rewrite <- (be_int_word off).
  pose proof (spi_frames_frame f ([W8 FLASH_START (Z.land MX25_OP_FAST_READ 255);
      W8 FLASH_START (byte_of 3 off); W8 FLASH_START (byte_of 2 off);
      W8 FLASH_START (byte_of 1 off); W8 FLASH_START (byte_of 0 off);
      W8 FLASH_START 0] ++ (R32 FLASH_START <$> vs)) []) as Ef.
  unfold frame_accesses in Ef. rewrite app_nil_r, <- !app_assoc in Ef. cbn [app] in Ef.
  unfold commands. cbn [app]. rewrite Ef. autorewrite with spi. done.
Qed.

(** C21:  [ReadAt], for every buffer and offset: when [off+len(b)], as an int64, exceeds the chip's 32 MiB it returns an
    error, leaves the buffer alone and does not touch the bus; otherwise it
    returns [(len(b), nil)] and is one Fast Read command at the low 32 bits of [off], whose first
    [len(b)] bytes, in the order the chip sends them, are the buffer.  For an offset that is not negative and a sum that does not
    overflow this is a read at [off] within the chip; a negative offset is not refused, and one down
    to -2^31 is read from an address beyond the chip. *)
Theorem ReadAt_correct (f : spiflash) (b : list Z) (off : Z) (s : bus) :
  let l := Z.of_nat (length b) in
  wp (ReadAt f b off) (fun r s' =>
    if decide (sint 64 (off + l) <= chip_size) then
      exists t d, s'.2 = s.2 ++ t /\ commands t = [FastRead (uint 32 off) d] /\
        r = (take (length b) d, Ok l) /\ (length b <= length d)%nat
    else (exists e, r = (b, Err e)) /\ s' = s) s /\
  (0 <= off -> is_sint 64 (off + l) -> sint 64 (off + l) = off + l /\ (off + l <= chip_size -> uint 32 off = off)) /\
  (- 2 ^ 31 <= off < 0 -> chip_size < uint 32 off).
Proof.
  intros l. split; [|split].
  2: { intros Hoff Hs. split; [by apply sint_id|]. intros Hc. apply uint_id. unfold is_uint, chip_size in *. lia. }
  2: { intros Hoff. unfold uint, chip_size. rewrite <- (Z.mod_add off 1) by lia. rewrite Z.mod_small by lia. lia. }
  unfold ReadAt. fold l. unfold chip_size. case_decide as Hbig; case_decide as Hsmall; try lia.
  { apply wp_ret. eauto. }
  unfold cs. fold (cs_ctrl f 0) (cs_ctrl f 1). bus_run.
  eapply wp_mono; [by apply (wp_read_words _ _ [] b)|].
  intros r s1 (vs & E1 & H1 & H2 & ->). cbn [fst snd app] in *. bus_step.
  replace (0 + 4 * length vs)%nat with (length (bytes_of vs)) at 2 by apply length_bytes_of.
  eapply wp_mono; [apply wp_read_tail; rewrite length_drop; lia|].
  intros r s2 (vs' & E2 & H3 & ->). bus_run. cbn [fst snd].
  assert (Hlen : length (drop (4 * length vs) b) = (length b - 4 * length vs)%nat)
    by apply length_drop.
  eexists _, (bytes_of (vs ++ vs')). repeat split.
  - rewrite E2, E1. rewrite <- !app_assoc. reflexivity.
  - rewrite (app_assoc (R32 FLASH_START <$> vs)), <- fmap_app. apply commands_fast_read.
  - rewrite length_bytes_of. f_equal; [|f_equal; lia]. rewrite Hlen.
    unfold bytes_of at 3. rewrite fmap_app, concat_app. fold (bytes_of vs) (bytes_of vs').
    rewrite take_app_ge by (rewrite length_bytes_of; lia). by rewrite length_bytes_of.
  - rewrite length_bytes_of, length_app, H3. case_decide as Hn; [|lia].
    rewrite Hn in Hlen. simpl in Hlen. lia.
Qed.
End ReadAt.

(** ** A concrete bus and array *)

(** A bus whose status register reads busy on every other poll, and an array
    held as a function of the address. *)
Module SimNor.
Definition sim : Type := nat.

#[global] Instance sim_provider : memProvider sim := {
  MustRead32 a := fun n => (Ret (uint 32 (Z.of_nat n)), Datatypes.S n);
  MustRead8 a := fun n => (Ret (Z.of_nat n mod 2), Datatypes.S n);
  MustWrite32 a v := mret tt;
  MustWrite8 a v := mret tt;
  Close := mret tt;
}.

#[global] Instance sim_live : live sim.
Proof.
  split; simpl; eauto; intros a s; eexists _, _; split; try done.
  - unfold is_uint, uint. apply Z.mod_pos_bound. lia.
  - unfold is_uint. pose proof (Z.mod_pos_bound (Z.of_nat s) 2). lia.
Qed.

Lemma sim_isReady f (n : sim) :
  isReady f n = (Ret (Z.even (Z.of_nat n)), Datatypes.S n).
Proof.
  unfold isReady, status, cmd8Read8, deferring, mbind, M_bind. simpl.
  rewrite Zeven_mod. do 3 f_equal. change 1 with (Z.ones 1).
  rewrite Z.land_ones, Z.mod_mod by lia. case_bool_decide as Hb; by destruct (Z.eqb_spec (Z.of_nat n mod 2) 0).
Qed.

#[global] Instance sim_responsive : responsive sim 2.
Proof.
  split; [apply _|]. intros f n. destruct (Z.even (Z.of_nat n)) eqn:Hn.
  - eapply ready_now. by rewrite sim_isReady, Hn.
  - eapply ready_later; [by rewrite sim_isReady, Hn|]. eapply ready_now.
    rewrite sim_isReady. rewrite Nat2Z.inj_succ, Z.even_succ, <- Z.negb_even, Hn. done.
Qed.

#[global] Program Instance fun_array : NorArray (Z -> Z) := {
  cell c x := c x;
  erase_block a c x := if decide (x / 65536 = a / 65536) then 0xff else c x;
  program_page a d c x :=
    if decide (x / 256 = a / 256) then Z.land (c x) (d !!! Z.to_nat (x mod 256)) else c x;
}.
Solve Obligations with done.

Definition image : list Z := replicate (Z.to_nat 65536) 0x5a.

Lemma length_image : Z.of_nat (length image) = 65536.
Proof. unfold image. rewrite length_replicate. lia. Qed.

Lemma image_bytes : Forall is_byte image.
Proof. by apply Forall_replicate. Qed.

Lemma image_nonempty : image <> [].
Proof. intros He. pose proof length_image as Hl. by rewrite He in Hl. Qed.

Lemma WriteAt_correct_witness :
  wp (WriteAt 2 (mk_spiflash 6) image 131072) (fun r s' =>
    r = Ok (Z.of_nat (length image)) /\ exists t, s'.2 = [] ++ t /\ forall c : Z -> Z, exists c',
      nor_exec (false, c) (commands t) = (false, c') /\
      forall x, cell c' x =
        if decide (131072 <= x < 131072 + Z.of_nat (length image))
        then image !!! Z.to_nat (x - 131072) else cell c x) (7%nat, []).
Proof.
  apply (WriteAt_correct (C := Z -> Z) (polls := 2) 2 (mk_spiflash 6) image 131072 (7%nat, [])).
  - lia.
  - exact image_bytes.
  - by exists 2.
  - rewrite length_image. by exists 1.
  - lia.
  - rewrite length_image. unfold chip_size. lia.
Defined.

Lemma WriteAt_unaligned_erases_witness :
  wp (WriteAt 2 (mk_spiflash 6) image 1024) (fun r s' =>
    r = Ok (Z.of_nat (length image)) /\ exists t, s'.2 = [] ++ t /\ forall c : Z -> Z, exists c',
      nor_exec (false, c) (commands t) = (false, c') /\
      forall x, 1024 / 65536 * 65536 <= x < 1024 -> cell c' x = 0xff) (7%nat, []).
Proof.
  apply (WriteAt_unaligned_erases (C := Z -> Z) (polls := 2) 2 (mk_spiflash 6) image 1024 (7%nat, [])).
  - lia.
  - exact image_bytes.
  - exact image_nonempty.
  - by exists 1.
  - rewrite length_image. by exists 64.
  - lia.
  - rewrite length_image. unfold chip_size. lia.
Defined.

Lemma WriteAt_wraps_silently_witness :
  WriteAt 2 (mk_spiflash 6) image (2 ^ 63 - 1024) (7%nat : sim) =
  (Ret (Ok (Z.of_nat (length image))), 7%nat).
Proof.
  apply (WriteAt_wraps_silently 2 (mk_spiflash 6) image (2 ^ 63 - 1024) (7%nat : sim)).
  - exists (2 ^ 53 - 1). lia.
  - rewrite length_image. by exists 64.
  - unfold is_sint. lia.
  - rewrite length_image. unfold is_sint. lia.
  - rewrite length_image. lia.
Defined.

Lemma ReadAt_correct_witness :
  wp (ReadAt (mk_spiflash 6) [1; 2; 3; 4; 5] (-4)) (fun r s' =>
    exists t d, s'.2 = [] ++ t /\ commands t = [FastRead 0xfffffffc d] /\ r = (take 5 d, Ok 5) /\ (5 <= length d)%nat) (7%nat : sim, []).
Proof. exact (proj1 (ReadAt_correct (mk_spiflash 6) [1; 2; 3; 4; 5] (-4) (7%nat : sim, []))). Defined.
End SimNor.
