(* ===== verification/GoStrings.v ===== *)
(** * Go strings

    The parts of [strings], [strconv] and [fmt] the program uses, on strings of
    bytes.  [ToUpper] is the ASCII one: the names it is applied to are ASCII. *)

From S2P Require Import Prelude.

(** [s[i]] as a byte. *)
Definition byte_val (c : Ascii.ascii) : Z := Z.of_N (Ascii.N_of_ascii c).
Definition byte_chr (z : Z) : Ascii.ascii := Ascii.ascii_of_N (Z.to_N z).

(** [strings.ToUpper] on an ASCII string. *)
Definition upper_char (c : Ascii.ascii) : Ascii.ascii :=
  if decide (97 <= byte_val c <= 122) then byte_chr (byte_val c - 32) else c.

Fixpoint ToUpper (s : string) : string :=
  match s with
  | EmptyString => EmptyString
  | String c s => String (upper_char c) (ToUpper s)
  end.

(** [strings.HasPrefix]. *)
Definition HasPrefix (s p : string) : bool := String.prefix p s.

(** [s[n:]]; [None] is the panic of a slice out of range. *)
Fixpoint str_drop (n : nat) (s : string) : option string :=
  match n, s with
  | O, _ => Some s
  | S n, String _ s => str_drop n s
  | S _, EmptyString => None
  end.

(** [strings.Split(s, sep)] for a one-byte separator. *)
Fixpoint Split (sep : Ascii.ascii) (s : string) : list string :=
  match s with
  | EmptyString => [EmptyString]
  | String c s =>
      if decide (c = sep) then EmptyString :: Split sep s
      else match Split sep s with
           | [] => [String c EmptyString]
           | w :: ws => String c w :: ws
           end
  end.

(** ** Decimal numbers *)

Definition is_digit (c : Ascii.ascii) : Prop := 48 <= byte_val c <= 57.
#[export] Instance is_digit_dec c : Decision (is_digit c).
Proof. unfold is_digit. apply _. Defined.

Fixpoint parse_digits (s : string) (v : Z) : option Z :=
  match s with
  | EmptyString => Some v
  | String c s =>
      if decide (is_digit c) then parse_digits s (v * 10 + (byte_val c - 48)) else None
  end.

(** [strconv.ParseUint(s, 10, bits)]; [None] is an error. *)
Definition ParseUint (s : string) (bits : Z) : option Z :=
  if decide (s = EmptyString) then None
  else v ← parse_digits s 0; if decide (v < 2 ^ bits) then Some v else None.

Fixpoint digits (fuel : nat) (n : Z) (acc : string) : string :=
  match fuel with
  | O => acc
  | S fuel =>
      let acc := String (byte_chr (48 + n mod 10)) acc in
      if decide (n < 10) then acc else digits fuel (n / 10) acc
  end.

(** The verb [%d] on an integer. *)
Definition itoa (n : Z) : string :=
  if decide (n < 0) then String (byte_chr 45) (digits (S (Z.to_nat (Z.log2 (- n)))) (- n) EmptyString)
  else digits (S (Z.to_nat (Z.log2 n))) n EmptyString.

(** [strconv.Atoi]: an optional sign and decimal digits, in the range of [int]. *)
Definition Atoi (w : Z) (s : string) : result Z :=
  let unsigned (neg : bool) (s : string) : result Z :=
    if decide (s = EmptyString) then Err "invalid syntax"%string
    else match parse_digits s 0 with
         | None => Err "invalid syntax"%string
         | Some v =>
             let v := if neg then - v else v in
             if decide (is_sint w v) then Ok v else Err "value out of range"%string
         end in
  match s with
  | String c s' =>
      if decide (c = byte_chr 45) then unsigned true s'
      else if decide (c = byte_chr 43) then unsigned false s'
      else unsigned false s
  | EmptyString => unsigned false s
  end.

Lemma byte_val_chr z : is_byte z -> byte_val (byte_chr z) = z.
Proof.
  unfold is_byte, is_uint, byte_val, byte_chr. intros Hz.
  rewrite Ascii.N_ascii_embedding by lia. lia.
Qed.

Lemma byte_val_range c : is_byte (byte_val c).
Proof.
  unfold is_byte, is_uint, byte_val. pose proof (Ascii.N_ascii_bounded c). lia.
Qed.

Lemma byte_chr_val c : byte_chr (byte_val c) = c.
Proof.
  unfold byte_val, byte_chr. rewrite N2Z.id. apply Ascii.ascii_N_embedding.
Qed.

Lemma digit_char d : 0 <= d < 10 -> byte_val (byte_chr (48 + d)) = 48 + d.
Proof. intros. apply byte_val_chr. unfold is_byte, is_uint. lia. Qed.

Lemma parse_digits_digits fuel n acc :
  0 <= n < 10 ^ Z.of_nat fuel -> (0 < fuel)%nat ->
  parse_digits (digits fuel n acc) 0 = parse_digits acc n.
Proof.
  revert n acc. induction fuel as [|fuel IH]; intros n acc Hn Hf; [lia|].
  cbn [digits]. pose proof (Z.mod_pos_bound n 10 ltac:(lia)) as Hm.
  pose proof (Z.div_mod n 10 ltac:(lia)) as Hdm.
  assert (Hstep : forall v, parse_digits (String (byte_chr (48 + n mod 10)) acc) v =
    parse_digits acc (v * 10 + n mod 10)).
  { intros v. cbn [parse_digits]. rewrite decide_True; rewrite ?digit_char by lia.
    - f_equal. lia.
    - unfold is_digit. rewrite digit_char by lia. lia. }
  case_decide as Hlt.
  - rewrite Hstep. f_equal. rewrite Z.mod_small in * by lia. lia.
  - rewrite IH.
    + rewrite Hstep. f_equal. lia.
    + rewrite Nat2Z.inj_succ, Z.pow_succ_r in Hn by lia.
      split; [apply Z.div_pos; lia|]. apply Z.div_lt_upper_bound; lia.
    + destruct fuel; [|lia]. simpl in Hn. lia.
Qed.

Lemma digits_nonempty fuel n acc : digits (S fuel) n acc <> EmptyString.
Proof.
  assert (Hne : forall fuel m s, s <> EmptyString -> digits fuel m s <> EmptyString).
  { intros fuel'. induction fuel' as [|fuel' IH]; intros m s Hs; [done|]. cbn [digits].
    case_decide; [done|]. by apply IH. }
  cbn [digits]. case_decide; [done|]. by apply Hne.
Qed.

(** Parsing undoes printing. *)
Lemma ParseUint_itoa n bits : 0 <= n < 2 ^ bits -> ParseUint (itoa n) bits = Some n.
Proof.
  intros Hn. unfold ParseUint, itoa. rewrite (decide_False (P := n < 0)) by lia.
  rewrite decide_False by apply digits_nonempty.
  rewrite parse_digits_digits; [|split; [lia|]|lia].
  - cbn. by rewrite decide_True by lia.
  - destruct (decide (n = 0)) as [->|Hnz]; [apply Z.pow_pos_nonneg; lia|].
    destruct (Z.log2_spec n ltac:(lia)) as [_ Hl].
    eapply Z.lt_le_trans; [exact Hl|].
    rewrite Nat2Z.inj_succ, Z2Nat.id by apply Z.log2_nonneg.
    apply Z.pow_le_mono_l. lia.
Qed.

(** The first character of a printed natural number is a digit. *)
Lemma digits_head fuel n acc :
  0 <= n -> exists c s, digits (S fuel) n acc = String c s /\ is_digit c.
Proof.
  revert n acc. induction fuel as [|fuel IH]; intros n acc Hn;
    pose proof (Z.mod_pos_bound n 10 ltac:(lia)) as Hm.
  - cbn [digits]. eexists _, acc. split; [by destruct (decide (n < 10))|].
    unfold is_digit. rewrite digit_char; lia.
  - change (digits (S (S fuel)) n acc) with
      (if decide (n < 10) then String (byte_chr (48 + n mod 10)) acc
       else digits (S fuel) (n / 10) (String (byte_chr (48 + n mod 10)) acc)).
    case_decide; [|apply IH, Z.div_pos; lia].
    eexists _, acc. split; [done|]. unfold is_digit. rewrite digit_char; lia.
Qed.

Lemma itoa_head n : 0 <= n -> exists c s, itoa n = String c s /\ is_digit c.
Proof.
  intros Hn. unfold itoa. rewrite decide_False by lia. by apply digits_head.
Qed.

(** Digits are unchanged by [ToUpper]. *)
Fixpoint str_forall (P : Ascii.ascii -> Prop) (s : string) : Prop :=
  match s with
  | EmptyString => True
  | String c s => P c /\ str_forall P s
  end.

Lemma digits_are_digits fuel n acc :
  0 <= n -> str_forall is_digit acc -> str_forall is_digit (digits fuel n acc).
Proof.
  revert n acc. induction fuel as [|fuel IH]; intros n acc Hn Ha; [done|].
  pose proof (Z.mod_pos_bound n 10 ltac:(lia)) as Hm. cbn [digits].
  assert (is_digit (byte_chr (48 + n mod 10))) by (unfold is_digit; rewrite digit_char; lia).
  case_decide; [done|]. apply IH; [apply Z.div_pos; lia|done].
Qed.

Lemma ToUpper_digits s : str_forall is_digit s -> ToUpper s = s.
Proof.
  induction s as [|c s IH]; [done|]. intros [Hc Hs]. cbn [ToUpper]. rewrite IH by done.
  unfold upper_char, is_digit in *. by rewrite decide_False by lia.
Qed.

Lemma ToUpper_itoa n : 0 <= n -> ToUpper (itoa n) = itoa n.
Proof.
  intros Hn. apply ToUpper_digits. unfold itoa. rewrite decide_False by lia.
  by apply digits_are_digits.
Qed.

Lemma digit_ne c c' : is_digit c -> bool_decide (is_digit c') = false -> c <> c'.
Proof. intros Hc Hn ->. by apply bool_decide_eq_false_1 in Hn. Qed.

Lemma Atoi_itoa w n : 0 < w -> 0 <= n < 2 ^ (w - 1) -> Atoi w (itoa n) = Ok n.
Proof.
  intros Hw Hn. destruct (itoa_head n ltac:(lia)) as (c & s & E & Hc).
  assert (Hp : parse_digits (itoa n) 0 = Some n).
  { pose proof (ParseUint_itoa n (w - 1) Hn) as Hu. unfold ParseUint in Hu.
    rewrite decide_False in Hu by (by rewrite E).
    destruct (parse_digits (itoa n) 0) as [v|]; [|done]. cbn in Hu. case_decide; congruence. }
  unfold Atoi. rewrite E in *. rewrite !decide_False.
  - rewrite Hp. rewrite decide_True; [done|]. unfold is_sint. lia.
  - done.
  - by apply digit_ne.
  - by apply digit_ne.
Qed.
