(* ===== verification/GpioReg.v ===== *)
(** * GPIO registers (pkg/aspeed/gpio_reg.go)

    The port names, the register maps, and the snapshots of the GPIO registers
    with their differences.  Go iterates over the register maps in an arbitrary
    order: the functions that range over them take the order as an argument, and
    the theorems hold for every permutation of the maps.  [int] is [w] bits
    wide. *)

From S2P Require Import Prelude GoMonad GoStrings Mem Scu.
#[local] Open Scope string_scope.
#[local] Open Scope list_scope.
#[local] Open Scope Z_scope.

Record gpio : Type := mk_gpio { pin : string; name : string }.

(** [gpioRegSet]: the name of the set and its number of pins. *)
Definition gpioRegSet : Type := string * Z.
Definition gpioReg : Type := list gpioRegSet.

Record LineState : Type := mk_line { Port : Z; LState : Z }.

#[export] Instance LineState_eq_dec : EqDecision LineState.
Proof. solve_decision. Defined.

Definition LINE_STATE_INPUT : Z := 0.
Definition LINE_STATE_OUTPUT : Z := 1.
Definition LINE_STATE_BECAME_INPUT : Z := 2.
Definition LINE_STATE_BECAME_OUTPUT : Z := 3.
Definition LINE_STATE_LOW : Z := 4.
Definition LINE_STATE_HIGH : Z := 5.
Definition LINE_STATE_BECAME_LOW : Z := 6.
Definition LINE_STATE_BECAME_HIGH : Z := 7.
Definition LINE_STATE_SCU : Z := 8.
Definition LINE_STATE_SCU_CHANGED : Z := 9.

(** ** Port names *)

(** [GpioPort(n)]: the Linux line index of a name; an unparsable number ends
    the process, an empty name panics. *)
Definition GpioPort (n : string) : outcome Z :=
  let n := ToUpper n in
  let number (idx : Z) (off : nat) : outcome Z :=
    match str_drop off n with
    | None => Panic
    | Some rest =>
        match ParseUint rest 32 with
        | None => Exit
        | Some o => Ret (uint 32 (idx + uint 32 o))
        end
    end in
  if HasPrefix n "AA" then number (26 * 8) 2%nat
  else if HasPrefix n "AB" then number (27 * 8) 2%nat
  else match n with
       | EmptyString => Panic
       | String c _ => number (uint 32 (uint 8 (byte_val c - 65) * 8)) 1%nat
       end.

Definition portToSetPin (w : Z) (p : Z) : string * Z :=
  if decide (p >= 27 * 8) then ("AB", sint w (p - 27 * 8))
  else if decide (p >= 26 * 8) then ("AA", sint w (p - 26 * 8))
  else (String (byte_chr (65 + p / 8)) EmptyString, p mod 8).

Definition GpioPortToName (w : Z) (p : Z) : string :=
  let '(set, pin) := portToSetPin w p in set +:+ itoa pin.

(** [None] is the panic of [set[0]] on an empty name. *)
Definition setPinToPort (set : string) (port : Z) : option Z :=
  if decide (set = "AB") then Some (uint 32 (27 * 8 + port))
  else if decide (set = "AA") then Some (uint 32 (26 * 8 + port))
  else match set with
       | EmptyString => None
       | String c _ => Some (uint 32 (uint 8 (byte_val c - 65) * 8 + port))
       end.

(** ** Tables *)

Definition gpios_A_N : list (string * gpio) := [
  ("A0", mk_gpio "D6" "GPIOA0/MAC1LINK");
  ("A1", mk_gpio "B5" "GPIOA1/MAC2LINK");
  ("A2", mk_gpio "A4" "GPIOA2/TIMER3");
  ("A3", mk_gpio "E6" "GPIOA3/TIMER4");
  ("A4", mk_gpio "C5" "GPIOA4/TIMER5/SCL9");
  ("A5", mk_gpio "B4" "GPIOA5/TIMER6/SDA9");
  ("A6", mk_gpio "A3" "GPIOA6/TIMER7/MDC2");
  ("A7", mk_gpio "D5" "GPIOA7/TIMER8/MDIO2");
  ("B0", mk_gpio "J21" "GPIOB0/SALT1");
  ("B1", mk_gpio "J20" "GPIOB1/SALT2");
  ("B2", mk_gpio "H18" "GPIOB2/SALT3");
  ("B3", mk_gpio "F18" "GPIOB3/SALT4");
  ("B4", mk_gpio "E19" "GPIOB4/LPCRST#");
  ("B5", mk_gpio "H19" "GPIOB5/LPCPD#/LPCSMI#");
  ("B6", mk_gpio "H20" "GPIOB6/LPCPME#");
  ("B7", mk_gpio "E18" "GPIOB7/EXTRST#/SPICS1#");
  ("C0", mk_gpio "C4" "GPIOC0/SD1CLK/SCL10");
  ("C1", mk_gpio "B3" "GPIOC1/SD1CMD/SDA10");
  ("C2", mk_gpio "A2" "GPIOC2/SD1DAT0/SCL11");
  ("C3", mk_gpio "E5" "GPIOC3/SD1DAT1/SDA11");
  ("C4", mk_gpio "D4" "GPIOC4/SD1DAT2/SCL12");
  ("C5", mk_gpio "C3" "GPIOC5/SD1DAT3/SDA12");
  ("C6", mk_gpio "B2" "GPIOC6/SD1CD#/SCL13");
  ("C7", mk_gpio "A1" "GPIOC7/SD1WP#/SDA13");
  ("D0", mk_gpio "A18" "GPIOD0/SD2CLK");
  ("D1", mk_gpio "D16" "GPIOD1/SD2CMD");
  ("D2", mk_gpio "B17" "GPIOD2/SD2DAT0");
  ("D3", mk_gpio "A17" "GPIOD3/SD2DAT1");
  ("D4", mk_gpio "C16" "GPIOD4/SD2DAT2");
  ("D5", mk_gpio "B16" "GPIOD5/SD2DAT3");
  ("D6", mk_gpio "A16" "GPIOD6/SD2CD#");
  ("D7", mk_gpio "E15" "GPIOD7/SD2WP#");
  ("E0", mk_gpio "D15" "GPIOE0/NCTS3");
  ("E1", mk_gpio "C15" "GPIOE1/NDCD3");
  ("E2", mk_gpio "B15" "GPIOE2/NDSR3");
  ("E3", mk_gpio "A15" "GPIOE3/NRI3");
  ("E4", mk_gpio "E14" "GPIOE4/NDTR3");
  ("E5", mk_gpio "D14" "GPIOE5/NRTS3");
  ("E6", mk_gpio "C14" "GPIOE6/TXD3");
  ("E7", mk_gpio "B14" "GPIOE7/RXD3");
  ("F0", mk_gpio "D18" "GPIOF0/NCTS4");
  ("F1", mk_gpio "B19" "GPIOF1/NDCD4/SIOPBI#");
  ("F2", mk_gpio "A20" "GPIOF2/NDSR4/SIOPWRGD");
  ("F3", mk_gpio "D17" "GPIOF3/NRI4/SIOPBO#");
  ("F4", mk_gpio "B18" "GPIOF4/NDTR4");
  ("F5", mk_gpio "A19" "GPIOF5/NRTS4/SIOSCI#");
  ("F6", mk_gpio "E16" "GPIOF6/TXD4");
  ("F7", mk_gpio "C17" "GPIOF7/RXD4");
  ("G0", mk_gpio "A14" "GPIOG0/SGPSCK");
  ("G1", mk_gpio "E13" "GPIOG1/SGPSLD");
  ("G2", mk_gpio "D13" "GPIOG2/SGPSI0");
  ("G3", mk_gpio "C13" "GPIOG3/SGPSI1");
  ("G4", mk_gpio "B13" "GPIOG4/WDTRST1/OSCCLK");
  ("G5", mk_gpio "Y21" "GPIOG5/WDTRST2/USBCKI");
  ("G6", mk_gpio "AA22" "GPIOG6/FLBUSY#");
  ("G7", mk_gpio "U18" "GPIOG7/FLWP#");
  ("H0", mk_gpio "A8" "GPIOH0/ROMD8/NCTS6");
  ("H1", mk_gpio "C7" "GPIOH1/ROMD9/NDCD6");
  ("H2", mk_gpio "B7" "GPIOH2/ROMD10/NDSR6");
  ("H3", mk_gpio "A7" "GPIOH3/ROMD11/NRI6");
  ("H4", mk_gpio "D7" "GPIOH4/ROMD12/NDTR6");
  ("H5", mk_gpio "B6" "GPIOH5/ROMD13/NRTS6");
  ("H6", mk_gpio "A6" "GPIOH6/ROMD14/TXD6");
  ("H7", mk_gpio "E7" "GPIOH7/ROMD15/RXD6");
  ("I0", mk_gpio "C22" "GPIOI0/SYSCS#");
  ("I1", mk_gpio "G18" "GPIOI1/SYSCK");
  ("I2", mk_gpio "D19" "GPIOI2/SYSDO");
  ("I3", mk_gpio "C20" "GPIOI3/SYSDI");
  ("I4", mk_gpio "B22" "GPIOI4/SPICS#/VBCS#");
  ("I5", mk_gpio "G19" "GPIOI5/SPICK/VBCK");
  ("I6", mk_gpio "C18" "GPIOI6/SPIDO/VBDO");
  ("I7", mk_gpio "E20" "GPIOI7/SPIDI/VBDI");
  ("J0", mk_gpio "J5" "GPIOJ0/SGPMCK");
  ("J1", mk_gpio "J4" "GPIOJ1/SGPMLD");
  ("J2", mk_gpio "K5" "GPIOJ2/SGPMO");
  ("J3", mk_gpio "J3" "GPIOJ3/SGPMI");
  ("J4", mk_gpio "T4" "VGAHS/GPIOJ4");
  ("J5", mk_gpio "U2" "VGAVS/GPIOJ5");
  ("J6", mk_gpio "T2" "DDCCLK/GPIOJ6");
  ("J7", mk_gpio "T1" "DDCDAT/GPIOJ7");
  ("K0", mk_gpio "E3" "GPIOK0/SCL5");
  ("K1", mk_gpio "D2" "GPIOK1/SDA5");
  ("K2", mk_gpio "C1" "GPIOK2/SCL6");
  ("K3", mk_gpio "F4" "GPIOK3/SDA6");
  ("K4", mk_gpio "E2" "GPIOK4/SCL7");
  ("K5", mk_gpio "D1" "GPIOK5/SDA7");
  ("K6", mk_gpio "G5" "GPIOK6/SCL8");
  ("K7", mk_gpio "F3" "GPIOK7/SDA8");
  ("L0", mk_gpio "U1" "GPIOL0/NCTS1");
  ("L1", mk_gpio "T5" "GPIOL1/NDCD1/VPIDE");
  ("L2", mk_gpio "U3" "GPIOL2/NDSR1/VPIODD");
  ("L3", mk_gpio "V1" "GPIOL3/NRI1/VPIHS");
  ("L4", mk_gpio "U4" "GPIOL4/NDTR1/VPIVS");
  ("L5", mk_gpio "V2" "GPIOL5/NRTS1/VPICLK");
  ("L6", mk_gpio "W1" "GPIOL6/TXD1/VPIB0");
  ("L7", mk_gpio "U5" "GPIOL7/RXD1/VPIB1");
  ("M0", mk_gpio "V3" "GPIOM0/NCTS2/VPIB2");
  ("M1", mk_gpio "W2" "GPIOM1/NDCD2/VPIB3");
  ("M2", mk_gpio "Y1" "GPIOM2/NDSR2/VPIB4");
  ("M3", mk_gpio "V4" "GPIOM3/NRI2/VPIB5");
  ("M4", mk_gpio "W3" "GPIOM4/NDTR2/VPIB6");
  ("M5", mk_gpio "Y2" "GPIOM5/NRTS2/VPIB7");
  ("M6", mk_gpio "AA1" "GPIOM6/TXD2/VPIB8");
  ("M7", mk_gpio "V5" "GPIOM7/RXD2/VPIB9");
  ("N0", mk_gpio "W4" "GPION0/PWM0/VPIG0");
  ("N1", mk_gpio "Y3" "GPION1/PWM1/VPIG1");
  ("N2", mk_gpio "AA2" "GPION2/PWM2/VPIG2");
  ("N3", mk_gpio "AB1" "GPION3/PWM3/VPIG3");
  ("N4", mk_gpio "W5" "GPION4/PWM4/VPIG4");
  ("N5", mk_gpio "Y4" "GPION5/PWM5/VPIG5");
  ("N6", mk_gpio "AA3" "GPION6/PWM6/VPIG6");
  ("N7", mk_gpio "AB2" "GPION7/PWM7/VPIG7")].

Definition gpios_O_AB : list (string * gpio) := [
  ("O0", mk_gpio "V6" "GPIOO0/TACH0/VPIG8");
  ("O1", mk_gpio "Y5" "GPIOO1/TACH1/VPIG9");
  ("O2", mk_gpio "AA4" "GPIOO2/TACH2/VPIR0");
  ("O3", mk_gpio "AB3" "GPIOO3/TACH3/VPIR1");
  ("O4", mk_gpio "W6" "GPIOO4/TACH4/VPIR2");
  ("O5", mk_gpio "AA5" "GPIOO5/TACH5/VPIR3");
  ("O6", mk_gpio "AB4" "GPIOO6/TACH6/VPIR4");
  ("O7", mk_gpio "V7" "GPIOO7/TACH7/VPIR5");
  ("P0", mk_gpio "Y6" "GPIOP0/TACH8/VPIR6");
  ("P1", mk_gpio "AB5" "GPIOP1/TACH9/VPIR7");
  ("P2", mk_gpio "W7" "GPIOP2/TACH10/VPIR8");
  ("P3", mk_gpio "AA6" "GPIOP3/TACH11/VPIR9");
  ("P4", mk_gpio "AB6" "GPIOP4/TACH12");
  ("P5", mk_gpio "Y7" "GPIOP5/TACH13");
  ("P6", mk_gpio "AA7" "GPIOP6/TACH14/BMCINT");
  ("P7", mk_gpio "AB7" "GPIOP7/TACH15/FLACK");
  ("Q0", mk_gpio "D3" "GPIOQ0/SCL3");
  ("Q1", mk_gpio "C2" "GPIOQ1/SDA3");
  ("Q2", mk_gpio "B1" "GPIOQ2/SCL4");
  ("Q3", mk_gpio "F5" "GPIOQ3/SDA4");
  ("Q4", mk_gpio "H4" "GPIOQ4/SCL14");
  ("Q5", mk_gpio "H3" "GPIOQ5/SDA14");
  ("Q6", mk_gpio "H2" "GPIOQ6");
  ("Q7", mk_gpio "H1" "GPIOQ7");
  ("R0", mk_gpio "V20" "GPIOR0/ROMCS1#");
  ("R1", mk_gpio "W21" "GPIOR1/ROMCS2#");
  ("R2", mk_gpio "Y22" "GPIOR2/ROMCS3#");
  ("R3", mk_gpio "U19" "GPIOR3/ROMCS4#");
  ("R4", mk_gpio "V21" "GPIOR4/ROMA24/VPOR6");
  ("R5", mk_gpio "W22" "GPIOR5/ROMA25/VPOR7");
  ("R6", mk_gpio "C6" "GPIOR6/MDC1");
  ("R7", mk_gpio "A5" "GPIOR7/MDIO1");
  ("S0", mk_gpio "U21" "ROMD4/GPIOS0/VPODE");
  ("S1", mk_gpio "T19" "ROMD5/GPIOS1/VPOHS");
  ("S2", mk_gpio "V22" "ROMD6/GPIOS2/VPOVS");
  ("S3", mk_gpio "U20" "ROMD7/GPIOS3/VPOCLK");
  ("S4", mk_gpio "R18" "ROMOE#/GPIOS4");
  ("S5", mk_gpio "N21" "ROMWE#/GPIOS5");
  ("S6", mk_gpio "L22" "ROMA22/GPIOS6/VPOR4");
  ("S7", mk_gpio "K18" "ROMA23/GPIOS7/VPOR5");
  ("T0", mk_gpio "A12" "RGMII1TXCK/RMII1TXEN/GPIOT0");
  ("T1", mk_gpio "B12" "RGMII1TXCTL/GPIOT1");
  ("T2", mk_gpio "C12" "RGMII1TXD0/RMII1TXD0/GPIOT2");
  ("T3", mk_gpio "D12" "RGMII1TXD1/RMII1TXD1/GPIOT3");
  ("T4", mk_gpio "E12" "RGMII1TXD2/GPIOT4");
  ("T5", mk_gpio "A13" "RGMII1TXD3/GPIOT5");
  ("T6", mk_gpio "D9" "RGMII2TXCK/RMII2TXEN/GPIOT6");
  ("T7", mk_gpio "E9" "RGMII2TXCTL/GPIOT7");
  ("U0", mk_gpio "A10" "RGMII2TXD0/RMII2TXD0/GPIOU0");
  ("U1", mk_gpio "B10" "RGMII2TXD1/RMII2TXD1/GPIOU1");
  ("U2", mk_gpio "C10" "RGMII2TXD2/GPIOU2");
  ("U3", mk_gpio "D10" "RGMII2TXD3/GPIOU3");
  ("U4", mk_gpio "E11" "RGMII1RXCK/RMII1RCLK/GPIOU4");
  ("U5", mk_gpio "D11" "RGMII1RXCTL/GPIOU5");
  ("U6", mk_gpio "C11" "RGMII1RXD0/RMII1RXD0/GPIOU6");
  ("U7", mk_gpio "B11" "RGMII1RXD1/RMII1RXD1/GPIOU7");
  ("V0", mk_gpio "A11" "RGMII1RXD2/RMII1CRSDV/GPIOV0");
  ("V1", mk_gpio "E10" "RGMII1RXD3/RMII1RXER/GPIOV1");
  ("V2", mk_gpio "C9" "RGMII2RXCK/RMII2RCLK/GPIOV2");
  ("V3", mk_gpio "B9" "RGMII2RXCTL/GPIOV3");
  ("V4", mk_gpio "A9" "RGMII2RXD0/RMII2RXD0/GPIOV4");
  ("V5", mk_gpio "E8" "RGMII2RXD1/RMII2RXD1/GPIOV5");
  ("V6", mk_gpio "D8" "RGMII2RXD2/RMII2CRSDV/GPIOV6");
  ("V7", mk_gpio "C8" "RGMII2RXD3/RMII2RXER/GPIOV7");
  ("W0", mk_gpio "L5" "ADC0/GPIW0");
  ("W1", mk_gpio "L4" "ADC1/GPIW1");
  ("W2", mk_gpio "L3" "ADC2/GPIW2");
  ("W3", mk_gpio "L2" "ADC3/GPIW3");
  ("W4", mk_gpio "L1" "ADC4/GPIW4");
  ("W5", mk_gpio "M5" "ADC5/GPIW5");
  ("W6", mk_gpio "M4" "ADC6/GPIW6");
  ("W7", mk_gpio "M3" "ADC7/GPIW7");
  ("X0", mk_gpio "M2" "ADC8/GPIX0");
  ("X1", mk_gpio "M1" "ADC9/GPIX1");
  ("X2", mk_gpio "N5" "ADC10/GPIX2");
  ("X3", mk_gpio "N4" "ADC11/GPIX3");
  ("X4", mk_gpio "N3" "ADC12/GPIX4");
  ("X5", mk_gpio "N2" "ADC13/GPIX5");
  ("X6", mk_gpio "N1" "ADC14/GPIX6");
  ("X7", mk_gpio "P5" "ADC15/GPIX7");
  ("Y0", mk_gpio "C21" "GPIOY0/SIOS3#");
  ("Y1", mk_gpio "F20" "GPIOY1/SIOS5#");
  ("Y2", mk_gpio "G20" "GPIOY2/SIOPWREQ#");
  ("Y3", mk_gpio "K20" "GPIOY3/SIOONCTRL#");
  ("Z0", mk_gpio "R22" "ROMA2/GPOZ0/VPOB0");
  ("Z1", mk_gpio "P18" "ROMA3/GPOZ1/VPOB1");
  ("Z2", mk_gpio "P19" "ROMA4/GPOZ2/VPOB2");
  ("Z3", mk_gpio "P20" "ROMA5/GPOZ3/VPOB3");
  ("Z4", mk_gpio "P21" "ROMA6/GPOZ4/VPOB4");
  ("Z5", mk_gpio "P22" "ROMA7/GPOZ5/VPOB5");
  ("Z6", mk_gpio "M19" "ROMA8/GPOZ6/VPOB6");
  ("Z7", mk_gpio "M20" "ROMA9/GPOZ7/VPOB7");
  ("AA0", mk_gpio "M21" "ROMA10/GPOAA0/VPOG0");
  ("AA1", mk_gpio "M22" "ROMA11/GPOAA1/VPOG1");
  ("AA2", mk_gpio "L18" "ROMA12/GPOAA2/VPOG2");
  ("AA3", mk_gpio "L19" "ROMA13/GPOAA3/VPOG3");
  ("AA4", mk_gpio "L20" "ROMA14/GPOAA4/VPOG4");
  ("AA5", mk_gpio "L21" "ROMA15/GPOAA5/VPOG5");
  ("AA6", mk_gpio "T18" "ROMA16/GPOAA6/VPOG6");
  ("AA7", mk_gpio "N18" "ROMA17/GPOAA7/VPOG7");
  ("AB0", mk_gpio "N19" "ROMA18/GPOAB0/VPOR0");
  ("AB1", mk_gpio "M18" "ROMA19/GPOAB1/VPOR1");
  ("AB2", mk_gpio "N22" "ROMA20/GPOAB2/VPOR2");
  ("AB3", mk_gpio "N20" "ROMA21/GPOAB3/VPOR3")].

(** [gpios], keyed by the line index of each name. *)
Definition gpios : gmap Z gpio :=
  list_to_map (omap (fun '(n, g) =>
    match GpioPort n with Ret p => Some (p, g) | _ => None end) (gpios_A_N ++ gpios_O_AB)).

Definition GpioPortToFunction (p : Z) : string := default "" (name <$> gpios !! p).

Definition gpioDirRegs : list (Z * gpioReg) := [
  (0x004, [("A", 8); ("B", 8); ("C", 8); ("D", 8)]);
  (0x024, [("E", 8); ("F", 8); ("G", 8); ("H", 8)]);
  (0x074, [("I", 8); ("J", 8); ("K", 8); ("L", 8)]);
  (0x07C, [("M", 8); ("N", 8); ("O", 8); ("P", 8)]);
  (0x084, [("Q", 8); ("R", 8); ("S", 8); ("T", 8)]);
  (0x08C, [("U", 8); ("V", 8)]);
  (0x1E4, [("Y", 4)])].

Definition gpioDataRegs : list (Z * gpioReg) := [
  (0x000, [("A", 8); ("B", 8); ("C", 8); ("D", 8)]);
  (0x020, [("E", 8); ("F", 8); ("G", 8); ("H", 8)]);
  (0x070, [("I", 8); ("J", 8); ("K", 8); ("L", 8)]);
  (0x078, [("M", 8); ("N", 8); ("O", 8); ("P", 8)]);
  (0x080, [("Q", 8); ("R", 8); ("S", 8); ("T", 8)]);
  (0x088, [("U", 8); ("V", 8); ("W", 8); ("X", 8)]);
  (0x1E0, [("Y", 4); ("", 4); ("Z", 8); ("AA", 8); ("AB", 4)])].

Definition scuGpioRegs : list Z := [
  0x08; 0x0c; 0x10; 0x14; 0x18; 0x1c; 0x20; 0x24; 0x28;
  0x2c; 0x30; 0x34; 0x38; 0x3c; 0x4c; 0x70; 0x74; 0x7c;
  0x80; 0x84; 0x88; 0x8c; 0x90; 0x94; 0x9c; 0xa0; 0xa4;
  0xa8; 0xc0; 0xc4; 0xd0].

(** ** Snapshots *)

Record State : Type := mk_state { Gpio : gmap Z Z; Scu : gmap Z Z }.

(** [m[k]] on a map of integers. *)
Definition at_ (m : gmap Z Z) (k : Z) : Z := default 0 (m !! k).

(** [(s.Gpio[a] & (1 << bit)) != 0] on [uint32]. *)
Definition bit_set (s : State) (a bit : Z) : bool :=
  bool_decide (Z.land (at_ (Gpio s) a) (ushl 32 1 bit) <> 0).

(** The loops over the sets and pins of one register: [line bit port] is what
    one iteration appends; [skip] is the guard [set.set != ""] of the data
    registers.  [None] is a panic. *)
Fixpoint diff_sets {A} (skip : bool) (line : Z -> Z -> list A) (sets : gpioReg) (bo : Z) :
    option (list A) :=
  match sets with
  | [] => Some []
  | (set, pins) :: sets =>
      l ← (if skip && bool_decide (set = "") then Some []
           else @concat A <$> mapM (fun pin =>
                  port ← setPinToPort set (Z.of_nat pin);
                  Some (line (bo + Z.of_nat pin) port)) (seq 0 (Z.to_nat pins)));
      ls ← diff_sets skip line sets (bo + pins);
      Some (l ++ ls)
  end.

Definition dir_line (s : State) (b : option State) (a bit port : Z) : list LineState :=
  let output := bit_set s a bit in
  match b with
  | None =>
      if output then [mk_line port LINE_STATE_OUTPUT] else [mk_line port LINE_STATE_INPUT]
  | Some b =>
      if negb (Bool.eqb output (bit_set b a bit)) then
        if output then [mk_line port LINE_STATE_BECAME_OUTPUT]
        else [mk_line port LINE_STATE_BECAME_INPUT]
      else []
  end.

Definition data_line (s : State) (b : option State) (a bit port : Z) : list LineState :=
  let high := bit_set s a bit in
  match b with
  | None =>
      if high then [mk_line port LINE_STATE_HIGH] else [mk_line port LINE_STATE_LOW]
  | Some b =>
      if negb (Bool.eqb high (bit_set b a bit)) then
        if high then [mk_line port LINE_STATE_BECAME_HIGH]
        else [mk_line port LINE_STATE_BECAME_LOW]
      else []
  end.

Definition scu_line (s : State) (b : option State) (scu : Z) : list LineState :=
  match b with
  | None => [mk_line scu LINE_STATE_SCU]
  | Some b =>
      if decide (at_ (Scu s) scu <> at_ (Scu b) scu) then [mk_line scu LINE_STATE_SCU_CHANGED]
      else []
  end.

(** [(s *State) diff(b)], ranging over the maps in the orders [dirs] and
    [datas]. *)
Definition diff (dirs datas : list (Z * gpioReg)) (s : State) (b : option State) :
    option (list LineState) :=
  l1 ← mapM (fun '(a, r) => diff_sets false (dir_line s b a) r 0) dirs;
  l2 ← mapM (fun '(a, r) => diff_sets true (data_line s b a) r 0) datas;
  Some (concat l1 ++ concat l2 ++ concat (scu_line s b <$> scuGpioRegs)).

Definition List (dirs datas : list (Z * gpioReg)) (s : State) : option (list LineState) :=
  diff dirs datas s None.

Definition Diff (dirs datas : list (Z * gpioReg)) (s b : State) : option (list LineState) :=
  diff dirs datas s (Some b).

(** The offset of set [tset] in a register. *)
Fixpoint find_set (tset : string) (sets : gpioReg) (bo : Z) : option Z :=
  match sets with
  | [] => None
  | (set, pins) :: sets => if decide (set <> tset) then find_set tset sets (bo + pins) else Some bo
  end.

(** The loops of [PortValue] and [PortDirection]; [None] is [log.Panic]. *)
Fixpoint port_bit (w : Z) (order : list (Z * gpioReg)) (s : State) (tset : string) (tpin : Z) :
    option bool :=
  match order with
  | [] => None
  | (a, r) :: order =>
      match find_set tset r 0 with
      | Some bo => Some (bit_set s a (uint w (bo + tpin)))
      | None => port_bit w order s tset tpin
      end
  end.

Definition PortValue (w : Z) (datas : list (Z * gpioReg)) (s : State) (port : Z) : option bool :=
  let '(tset, tpin) := portToSetPin w port in port_bit w datas s tset tpin.

Definition PortDirection (w : Z) (dirs : list (Z * gpioReg)) (s : State) (port : Z) : option bool :=
  let '(tset, tpin) := portToSetPin w port in port_bit w dirs s tset tpin.

(** One loop of [Equal]; its result does not depend on the order of [b]. *)
Definition covers (s b : gmap Z Z) : bool :=
  forallb (fun '(r, c) =>
    match s !! r with
    | None => false
    | Some v => bool_decide (v = c)
    end) (map_to_list b).

Definition Equal (s b : State) : bool :=
  if negb (covers (Gpio s) (Gpio b)) then false
  else if negb (covers (Scu s) (Scu b)) then false
  else true.

Section Snapshot.
Context {S : Type} `{memProvider S}.

Fixpoint read_regs (base : Z) (rs : list Z) (m : gmap Z Z) : M S (gmap Z Z) :=
  match rs with
  | [] => mret m
  | r :: rs => v ← MustRead32 (base + r); read_regs base rs (<[r := v]> m)
  end.

Definition SnapshotGpio (dirs datas : list (Z * gpioReg)) : M S State :=
  let base := 0x1e780000 in
  g ← read_regs base dirs.*1 ∅;
  g ← read_regs base datas.*1 g;
  c ← read_regs SCU_BASE scuGpioRegs ∅;
  mret (mk_state g c).
End Snapshot.

(** ** Names and ports *)

Definition is_int_width (w : Z) : Prop := w = 32 \/ w = 64.

(** [GpioPort] inverts [GpioPortToName] on every line index whose pin
    number fits an [int] (all of them on a 64-bit machine). *)
Theorem GpioPort_GpioPortToName (w p : Z) :
  is_int_width w -> is_uint 32 p -> p - 27 * 8 < 2 ^ (w - 1) ->
  GpioPort (GpioPortToName w p) = Ret p.
Proof.
  intros Hw Hp Hfit. unfold is_uint in Hp. unfold GpioPortToName, portToSetPin.
  assert (Hs : forall x, 0 <= x < 2 ^ (w - 1) -> sint w x = x).
  { intros x Hx. apply sint_id; destruct Hw as [-> | ->]; unfold is_sint; lia. }
  case_decide as H1; [|case_decide as H2].
  - rewrite Hs by lia. remember (p - 27 * 8) as k eqn:Ek. change ("AB" +:+ itoa k) with
      (String (byte_chr 65) (String (byte_chr 66) (itoa k))). unfold GpioPort.
    assert (EU : ToUpper (String (byte_chr 65) (String (byte_chr 66) (itoa k))) =
      String (byte_chr 65) (String (byte_chr 66) (itoa k)))
      by (cbn [ToUpper]; by rewrite ToUpper_itoa by lia).
    rewrite EU. change (HasPrefix (String _ _) "AA") with false.
    assert (HasPrefix (String (byte_chr 65) (String (byte_chr 66) (itoa k))) "AB" = true) as ->
      by (by destruct (itoa k)). cbn [str_drop]. rewrite ParseUint_itoa by lia.
    f_equal. rewrite (uint_id 32 k) by (unfold is_uint; lia).
    rewrite uint_id; unfold is_uint; lia.
  - rewrite Hs by (destruct Hw as [-> | ->]; lia).
    assert (Hk : 26 * 8 <= p < 26 * 8 + 8) by lia. clear -Hk.
    revert p Hk. apply (forall_range (fun p => GpioPort ("AA" +:+ itoa (p - 26 * 8)) = Ret p)).
    by vm_compute.
  - assert (Hk : 0 <= p < 0 + 208) by lia. clear -Hk. revert p Hk.
    apply (forall_range (fun p =>
      GpioPort (String (byte_chr (65 + p / 8)) EmptyString +:+ itoa (p mod 8)) = Ret p)).
    by vm_compute.
Qed.

(** ** The lines of the registers *)

(** Every line of the registers in [order]: register, bit, port. *)
Definition lines (skip : bool) (order : list (Z * gpioReg)) : list (Z * (Z * Z)) :=
  order ≫= fun '(a, r) =>
    (fun l => (a, l)) <$> default [] (diff_sets skip (fun bit port => [(bit, port)]) r 0).

Lemma lines_cons skip a r order :
  lines skip ((a, r) :: order) =
  ((fun l => (a, l)) <$> default [] (diff_sets skip (fun bit port => [(bit, port)]) r 0)) ++
  lines skip order.
Proof. done. Qed.

Lemma concat_fmap_bind {A B} (f : A -> list B) (l : list A) : concat (f <$> l) = l ≫= f.
Proof. induction l as [|x l IH]; [done|]. cbn. by rewrite <- IH. Qed.

(** The loops append, for each line, what [line] says of its bit and port. *)
Lemma mapM_lines {B} (set : string) (line : Z -> Z -> list B) bo (l : list nat) :
  mapM (fun pin => port ← setPinToPort set (Z.of_nat pin);
          Some (line (bo + Z.of_nat pin) port)) l =
  (fun ps => (fun '(bit, port) => line bit port) <$> concat ps) <$>
    mapM (fun pin => port ← setPinToPort set (Z.of_nat pin);
            Some [(bo + Z.of_nat pin, port)]) l.
Proof.
  induction l as [|k l IH]; [done|]. cbn. destruct (setPinToPort set (Z.of_nat k)); [|done].
  cbn in *. rewrite IH. clear IH. by destruct (mapM _ l).
Qed.

Lemma diff_sets_lines {B} skip (line : Z -> Z -> list B) sets bo :
  diff_sets skip line sets bo =
  (fun ls => ls ≫= fun '(bit, port) => line bit port) <$>
    diff_sets skip (fun bit port => [(bit, port)]) sets bo.
Proof.
  revert bo. induction sets as [|[set pins] sets IH]; intros bo; [done|].
  cbn [diff_sets]. rewrite mapM_lines. destruct (skip && bool_decide (set = "")).
  - cbn. rewrite IH. by destruct (diff_sets skip (fun bit port => [(bit, port)]) sets _).
  - destruct (mapM _ _) as [ps|]; [|done]. cbn. rewrite IH.
    destruct (diff_sets skip (fun bit port => [(bit, port)]) sets _) as [ls|]; [|done].
    cbn. f_equal. by rewrite bind_app, concat_fmap_bind.
Qed.

Lemma mapM_regs {B} skip (line : Z -> Z -> Z -> list B) (order : list (Z * gpioReg)) :
  Forall (fun '(a, r) => is_Some (diff_sets skip (fun bit port => [(bit, port)]) r 0)) order ->
  exists ls, mapM (fun '(a, r) => diff_sets skip (line a) r 0) order = Some ls /\
    concat ls = lines skip order ≫= fun '(a, (bit, port)) => line a bit port.
Proof.
  induction 1 as [|[a r] order [l Hl] _ (ls & Hm & Hc)]; [by exists []|].
  exists ((l ≫= fun '(bit, port) => line a bit port) :: ls). split.
  { cbn. rewrite diff_sets_lines, Hl. cbn. by rewrite Hm. }
  rewrite lines_cons, Hl, bind_app, <- Hc. cbn [default concat]. f_equal. clear.
  induction l as [|[bit port] l IH]; [done|]. cbn. by rewrite IH.
Qed.

Lemma known_regs dirs datas :
  dirs ≡ₚ gpioDirRegs -> datas ≡ₚ gpioDataRegs ->
  Forall (fun '(a, r) => is_Some (diff_sets false (fun bit port => [(bit, port)]) r 0)) dirs /\
  Forall (fun '(a, r) => is_Some (diff_sets true (fun bit port => [(bit, port)]) r 0)) datas.
Proof. intros -> ->. split; repeat constructor; vm_compute; eauto. Qed.

(** [diff] never panics, and appends one block per line of the registers. *)
Lemma diff_blocks dirs datas s b :
  dirs ≡ₚ gpioDirRegs -> datas ≡ₚ gpioDataRegs ->
  diff dirs datas s b = Some (
    (lines false dirs ≫= fun '(a, (bit, port)) => dir_line s b a bit port) ++
    (lines true datas ≫= fun '(a, (bit, port)) => data_line s b a bit port) ++
    concat (scu_line s b <$> scuGpioRegs)).
Proof.
  intros H1 H2. destruct (known_regs dirs datas H1 H2) as [K1 K2].
  destruct (mapM_regs false (dir_line s b) dirs K1) as (l1 & M1 & C1').
  destruct (mapM_regs true (data_line s b) datas K2) as (l2 & M2 & C2').
  unfold diff. rewrite M1. cbn. rewrite M2. cbn. by rewrite C1', C2'.
Qed.

Lemma lines_perm skip o1 o2 : o1 ≡ₚ o2 -> lines skip o1 ≡ₚ lines skip o2.
Proof. intros Ho. unfold lines. by rewrite Ho. Qed.

(** The ports the data and direction registers know. *)
Definition is_data_port (p : Z) : Prop := 0 <= p < 196 \/ 200 <= p < 220.
Definition is_dir_port (p : Z) : Prop := 0 <= p < 176 \/ 192 <= p < 196.

#[export] Instance is_data_port_dec p : Decision (is_data_port p).
Proof. unfold is_data_port. apply _. Defined.
#[export] Instance is_dir_port_dec p : Decision (is_dir_port p).
Proof. unfold is_dir_port. apply _. Defined.

(** Where [PortValue] looks for a port. *)
Definition locate (order : list (Z * gpioReg)) (tset : string) : option (Z * Z) :=
  head (omap (fun '(a, r) => (fun bo => (a, bo)) <$> find_set tset r 0) order).

Lemma port_bit_locate w order s tset tpin :
  port_bit w order s tset tpin =
  (fun '(a, bo) => bit_set s a (uint w (bo + tpin))) <$> locate order tset.
Proof.
  unfold locate. induction order as [|[a r] order IH]; [done|]. cbn [port_bit omap list_omap].
  destruct (find_set tset r 0); [done|]. exact IH.
Qed.

(** The sets [portToSetPin] can return. *)
Definition set_names : list string :=
  ((fun k => String (byte_chr (65 + k)) EmptyString) <$> seqZ 0 26) ++ ["AA"; "AB"].

Lemma portToSetPin_name w p : 0 <= p -> (portToSetPin w p).1 ∈ set_names.
Proof.
  intros Hp. unfold portToSetPin, set_names. apply elem_of_app.
  case_decide; [right; set_solver|]. case_decide; [right; set_solver|]. left.
  apply list_elem_of_fmap. exists (p / 8). split; [done|]. apply elem_of_seqZ.
  split; [apply Z.div_pos; lia|]. apply Z.div_lt_upper_bound; lia.
Qed.

Lemma perm_short {A} (l l' : list A) : (length l <= 1)%nat -> l' ≡ₚ l -> l' = l.
Proof.
  destruct l as [|x [|y l]]; simpl; intros Hl Hp; [| |lia].
  - by apply Permutation_nil_r in Hp.
  - by apply Permutation_singleton_r in Hp.
Qed.

(** A set is in one register at most, so the order of the map does not matter. *)
Lemma locate_perm table order tset :
  table = gpioDirRegs \/ table = gpioDataRegs -> order ≡ₚ table -> tset ∈ set_names ->
  locate order tset = locate table tset.
Proof.
  intros Ht Ho Hs. unfold locate. f_equal. apply perm_short; [|by rewrite Ho].
  destruct Ht as [-> | ->]; revert tset Hs;
    apply (forall_list (fun tset => (length (omap _ _) <= 1)%nat)); by vm_compute.
Qed.

Lemma PortValue_perm w datas s p :
  datas ≡ₚ gpioDataRegs -> 0 <= p -> PortValue w datas s p = PortValue w gpioDataRegs s p.
Proof.
  intros Ho Hp. unfold PortValue. pose proof (portToSetPin_name w p Hp) as Hn.
  destruct (portToSetPin w p) as [tset tpin]. rewrite !port_bit_locate. f_equal.
  apply locate_perm; auto.
Qed.

Lemma PortDirection_perm w dirs s p :
  dirs ≡ₚ gpioDirRegs -> 0 <= p -> PortDirection w dirs s p = PortDirection w gpioDirRegs s p.
Proof.
  intros Ho Hp. unfold PortDirection. pose proof (portToSetPin_name w p Hp) as Hn.
  destruct (portToSetPin w p) as [tset tpin]. rewrite !port_bit_locate. f_equal.
  apply locate_perm; auto.
Qed.

(** Each line of the tables is the one [portToSetPin] leads to. *)
Definition line_ok (w : Z) (table : list (Z * gpioReg)) (l : Z * (Z * Z)) : Prop :=
  let '(a, (bit, port)) := l in
  0 <= port /\ exists bo, locate table (portToSetPin w port).1 = Some (a, bo) /\
    uint w (bo + (portToSetPin w port).2) = bit.

Definition line_okb (w : Z) (table : list (Z * gpioReg)) (l : Z * (Z * Z)) : bool :=
  let '(a, (bit, port)) := l in
  bool_decide (0 <= port) &&
  match locate table (portToSetPin w port).1 with
  | Some (a', bo) =>
      bool_decide (a' = a) && bool_decide (uint w (bo + (portToSetPin w port).2) = bit)
  | None => false
  end.

Lemma line_okb_spec w table l : line_okb w table l = true -> line_ok w table l.
Proof.
  destruct l as [a [bit port]]. unfold line_okb, line_ok.
  destruct (locate _ _) as [[a' bo]|]; rewrite ?andb_true_iff, ?bool_decide_eq_true; naive_solver.
Qed.

Lemma table_lines w skip table :
  is_int_width w ->
  skip = false /\ table = gpioDirRegs \/ skip = true /\ table = gpioDataRegs ->
  forall l, l ∈ lines skip table -> line_ok w table l.
Proof.
  intros Hw Ht l Hl. apply line_okb_spec. revert l Hl.
  destruct Hw as [-> | ->], Ht as [[-> ->]|[-> ->]];
    apply (forall_list (fun l => line_okb _ _ l = true)); by vm_compute.
Qed.

Lemma table_ports p :
  (is_dir_port p -> p ∈ (lines false gpioDirRegs).*2.*2) /\
  (is_data_port p -> p ∈ (lines true gpioDataRegs).*2.*2).
Proof.
  split; (intros [Hp|Hp]; [change 176 with (0 + 176) in Hp || change 196 with (0 + 196) in Hp|
    change 196 with (192 + 4) in Hp || change 220 with (200 + 20) in Hp];
    revert p Hp; apply (forall_range (fun p => p ∈ _)); by vm_compute).
Qed.

Lemma table_ports_known skip table (Q : Z -> Prop) `{!forall p, Decision (Q p)} :
  forallb (fun p => bool_decide (Q p)) (lines skip table).*2.*2 = true ->
  forall a bit p, (a, (bit, p)) ∈ lines skip table -> Q p.
Proof.
  intros Hc a bit p Hl. apply (forall_list Q _ Hc).
  apply list_elem_of_fmap. exists (bit, p). split; [done|].
  apply list_elem_of_fmap. by exists (a, (bit, p)).
Qed.

(** The lines of the data registers, as [PortValue] sees them. *)
Lemma data_lines_spec w p :
  is_int_width w ->
  (is_data_port p <-> exists a bit, (a, (bit, p)) ∈ lines true gpioDataRegs) /\
  (forall a bit, (a, (bit, p)) ∈ lines true gpioDataRegs ->
     0 <= p /\ forall s, PortValue w gpioDataRegs s p = Some (bit_set s a bit)).
Proof.
  intros Hw. split; [split|].
  - intros Hp. apply table_ports in Hp. apply list_elem_of_fmap in Hp as ([bit p'] & -> & Hp).
    apply list_elem_of_fmap in Hp as ([a [bit' p'']] & [= -> ->] & Hl). eauto.
  - intros (a & bit & Hl). revert a bit p Hl. apply (table_ports_known _ _ is_data_port). by vm_compute.
  - intros a bit Hl. destruct (table_lines w true gpioDataRegs Hw ltac:(auto) _ Hl)
      as (Hp & bo & E1 & E2). split; [done|]. intros s. unfold PortValue.
    destruct (portToSetPin w p) as [tset tpin]. cbn [fst snd] in *.
    rewrite port_bit_locate, E1. cbn. by rewrite E2.
Qed.

Lemma dir_lines_spec w p :
  is_int_width w ->
  (is_dir_port p <-> exists a bit, (a, (bit, p)) ∈ lines false gpioDirRegs) /\
  (forall a bit, (a, (bit, p)) ∈ lines false gpioDirRegs ->
     0 <= p /\ forall s, PortDirection w gpioDirRegs s p = Some (bit_set s a bit)).
Proof.
  intros Hw. split; [split|].
  - intros Hp. apply table_ports in Hp. apply list_elem_of_fmap in Hp as ([bit p'] & -> & Hp).
    apply list_elem_of_fmap in Hp as ([a [bit' p'']] & [= -> ->] & Hl). eauto.
  - intros (a & bit & Hl). revert a bit p Hl. apply (table_ports_known _ _ is_dir_port). by vm_compute.
  - intros a bit Hl. destruct (table_lines w false gpioDirRegs Hw ltac:(auto) _ Hl)
      as (Hp & bo & E1 & E2). split; [done|]. intros s. unfold PortDirection.
    destruct (portToSetPin w p) as [tset tpin]. cbn [fst snd] in *.
    rewrite port_bit_locate, E1. cbn. by rewrite E2.
Qed.

(** What a block of lines reports, given the value [val] of a port. *)
Lemma elem_of_changes (known : Z -> Prop) (val : State -> Z -> option bool) L L' hi lo s b p st :
  L ≡ₚ L' ->
  (forall p, (known p <-> exists a bit, (a, (bit, p)) ∈ L') /\
     forall a bit, (a, (bit, p)) ∈ L' -> forall s, val s p = Some (bit_set s a bit)) ->
  mk_line p st ∈ (L ≫= fun '(a, (bit, port)) =>
    if negb (Bool.eqb (bit_set s a bit) (bit_set b a bit)) then
      if bit_set s a bit then [mk_line port hi] else [mk_line port lo]
    else []) <->
  exists v : bool, st = (if v then hi else lo) /\ known p /\
    val s p = Some v /\ val b p = Some (negb v).
Proof.
  intros HL Hspec. rewrite list_elem_of_bind. split.
  - intros ([a [bit p']] & Hin & Hl). rewrite HL in Hl. destruct (Hspec p') as [Hk Hv].
    destruct (bit_set s a bit) eqn:Es, (bit_set b a bit) eqn:Eb; simpl in Hin;
      try (by apply not_elem_of_nil in Hin);
      apply list_elem_of_singleton in Hin; injection Hin as -> ->;
      [exists true|exists false]; rewrite !(Hv _ _ Hl), Es, Eb;
      (split; [done|split; [apply Hk; eauto|done]]).
  - intros (v & -> & Hp & Ps & Pb). destruct (Hspec p) as [Hk Hv].
    apply Hk in Hp as (a & bit & Hl). rewrite (Hv _ _ Hl) in Ps, Pb.
    injection Ps as Ps. injection Pb as Pb. exists (a, (bit, p)). rewrite HL. split; [|done].
    rewrite Ps, Pb. destruct v; simpl; by left.
Qed.

(** The output lines of a listing. *)
Lemma List_outputs w dirs datas s p :
  is_int_width w -> dirs ≡ₚ gpioDirRegs -> datas ≡ₚ gpioDataRegs ->
  exists l, List dirs datas s = Some l /\
    (mk_line p LINE_STATE_OUTPUT ∈ l <-> PortDirection w gpioDirRegs s p = Some true /\ is_dir_port p).
Proof.
  intros Hw H1 H2. unfold List. rewrite diff_blocks by done. eexists. split; [done|].
  destruct (dir_lines_spec w p Hw) as [Hk Hv].
  rewrite !elem_of_app, !list_elem_of_bind, concat_fmap_bind, list_elem_of_bind. split.
  - intros [([a [bit p']] & Hin & Hl)|[([a [bit p']] & Hin & Hl)|(r & Hin & _)]].
    + rewrite (lines_perm _ _ _ H1) in Hl. unfold dir_line in Hin.
      destruct (bit_set s a bit) eqn:Es; apply list_elem_of_singleton in Hin; [|done].
      injection Hin as ->. destruct (Hv _ _ Hl) as [_ Hs]. rewrite Hs, Es, Hk. eauto.
    + unfold data_line in Hin. by destruct (bit_set s a bit); apply list_elem_of_singleton in Hin.
    + by apply list_elem_of_singleton in Hin.
  - intros [Hd (a & bit & Hl)%Hk]. left. exists (a, (bit, p)).
    rewrite (lines_perm _ _ _ H1). split; [|done]. destruct (Hv _ _ Hl) as [_ Hs].
    rewrite Hs in Hd. injection Hd as Hd. unfold dir_line. rewrite Hd. by left.
Qed.

(** What [Diff] reports. *)
Lemma Diff_spec (w : Z) (dirs datas : list (Z * gpioReg)) (s b : State) :
  is_int_width w -> dirs ≡ₚ gpioDirRegs -> datas ≡ₚ gpioDataRegs ->
  exists l, Diff dirs datas s b = Some l /\ forall p st, mk_line p st ∈ l <->
    (exists v, st = (if v : bool then LINE_STATE_BECAME_OUTPUT else LINE_STATE_BECAME_INPUT) /\
       is_dir_port p /\ PortDirection w dirs s p = Some v /\ PortDirection w dirs b p = Some (negb v)) \/
    (exists v, st = (if v : bool then LINE_STATE_BECAME_HIGH else LINE_STATE_BECAME_LOW) /\
       is_data_port p /\ PortValue w datas s p = Some v /\ PortValue w datas b p = Some (negb v)) \/
    (st = LINE_STATE_SCU_CHANGED /\ p ∈ scuGpioRegs /\ at_ (Scu s) p <> at_ (Scu b) p).
Proof.
  intros Hw H1 H2. unfold Diff. rewrite diff_blocks by done. eexists. split; [done|].
  intros p st. rewrite !elem_of_app. f_equiv; [|f_equiv].
  - apply (elem_of_changes is_dir_port (PortDirection w dirs) _ (lines false gpioDirRegs));
      [by apply lines_perm|]. intros q. destruct (dir_lines_spec w q Hw) as [Hk Hv].
    split; [done|]. intros a bit Hl s'. destruct (Hv _ _ Hl) as [H0 Hs].
    by rewrite PortDirection_perm.
  - apply (elem_of_changes is_data_port (PortValue w datas) _ (lines true gpioDataRegs));
      [by apply lines_perm|]. intros q. destruct (data_lines_spec w q Hw) as [Hk Hv].
    split; [done|]. intros a bit Hl s'. destruct (Hv _ _ Hl) as [H0 Hs].
    by rewrite PortValue_perm.
  - rewrite concat_fmap_bind, list_elem_of_bind. unfold scu_line. split.
    + intros (r & Hin & Hr). case_decide as Hne; [|by apply not_elem_of_nil in Hin].
      apply list_elem_of_singleton in Hin. by injection Hin as -> ->.
    + intros (-> & Hr & Hne). exists p. rewrite decide_True by done. by split; [left|].
Qed.

(** *** No line twice *)

Lemma NoDup_fmap_same {A B} (f : A -> B) (l : list A) x y : NoDup (f <$> l) -> x ∈ l -> y ∈ l -> f x = f y -> x = y.
Proof.
  intros Hn [i Hi]%list_elem_of_lookup [j Hj]%list_elem_of_lookup Hf.
  assert (i = j) as -> by (eapply NoDup_lookup; [exact Hn|rewrite list_lookup_fmap, Hi; done|rewrite list_lookup_fmap, Hj; cbn; by rewrite Hf]).
  congruence.
Qed.

(** Blocks of at most one line, for different ports. *)
Lemma NoDup_blocks {A} (port : A -> Z) (g : A -> list LineState) (L : list A) :
  NoDup (port <$> L) -> (forall x, g x = [] \/ exists st, g x = [mk_line (port x) st]) -> NoDup (L ≫= g).
Proof.
  intros Hn Hg. apply NoDup_bind; [| |by eapply NoDup_fmap_1].
  - intros x y z Hx Hy Hzx Hzy. apply (NoDup_fmap_same port L); [done..|].
    destruct (Hg x) as [Ex|[st Ex]]; rewrite Ex in Hzx; [by apply not_elem_of_nil in Hzx|].
    destruct (Hg y) as [Ey|[st' Ey]]; rewrite Ey in Hzy; [by apply not_elem_of_nil in Hzy|].
    apply list_elem_of_singleton in Hzx as ->. by apply list_elem_of_singleton in Hzy as [= -> _].
  - intros x _. destruct (Hg x) as [->|[st ->]]; [constructor|apply NoDup_singleton].
Qed.

Lemma table_ports_once : NoDup ((fun x => x.2.2) <$> lines false gpioDirRegs) /\ NoDup ((fun x => x.2.2) <$> lines true gpioDataRegs) /\
  NoDup scuGpioRegs.
Proof. split_and!; apply (bool_decide_eq_true_1 _); by vm_compute. Qed.

Lemma Diff_NoDup dirs datas s b l : dirs ≡ₚ gpioDirRegs -> datas ≡ₚ gpioDataRegs -> Diff dirs datas s b = Some l -> NoDup l.
Proof.
  intros H1 H2. unfold Diff. rewrite diff_blocks by done. intros E. apply (inj Some) in E. subst l. destruct table_ports_once as (N1 & N2 & N3).
  rewrite concat_fmap_bind. apply NoDup_app. split_and!; [| |apply NoDup_app; split_and!].
  - apply (NoDup_blocks (fun x => x.2.2)); [by rewrite (lines_perm _ _ _ H1)|]. intros [a [bit p]]. unfold dir_line.
    destruct (bit_set s a bit), (bit_set b a bit); cbn; eauto.
  - intros [p st] Hin. rewrite elem_of_app, !list_elem_of_bind in *. destruct Hin as ([a [bit q]] & Hd & _).
    assert (st = LINE_STATE_BECAME_OUTPUT \/ st = LINE_STATE_BECAME_INPUT) as Hst.
    { unfold dir_line in Hd. destruct (bit_set s a bit), (bit_set b a bit); cbn in Hd; try (by apply not_elem_of_nil in Hd);
        apply list_elem_of_singleton in Hd as [= -> ->]; auto. }
    intros [([a' [bit' q']] & Hv & _)|(r & Hv & _)].
    + unfold data_line in Hv. destruct (bit_set s a' bit'), (bit_set b a' bit'); cbn in Hv; try (by apply not_elem_of_nil in Hv);
        apply list_elem_of_singleton in Hv as [= -> ->]; by destruct Hst.
    + unfold scu_line in Hv. case_decide; [|by apply not_elem_of_nil in Hv]. apply list_elem_of_singleton in Hv as [= -> ->]. by destruct Hst.
  - apply (NoDup_blocks (fun x => x.2.2)); [by rewrite (lines_perm _ _ _ H2)|]. intros [a [bit p]]. unfold data_line.
    destruct (bit_set s a bit), (bit_set b a bit); cbn; eauto.
  - intros [p st] Hin. rewrite !list_elem_of_bind in *. destruct Hin as ([a [bit q]] & Hd & _). intros (r & Hv & _).
    unfold scu_line in Hv. case_decide; [|by apply not_elem_of_nil in Hv]. apply list_elem_of_singleton in Hv as [= -> ->].
    unfold data_line in Hd. destruct (bit_set s a bit), (bit_set b a bit); cbn in Hd; try (by apply not_elem_of_nil in Hd);
      by apply list_elem_of_singleton in Hd.
  - apply (NoDup_blocks (fun r => r)); [by rewrite list_fmap_id|]. intros r. unfold scu_line. case_decide; eauto.
Qed.

(** C31:  On every order of the register maps, [Diff] does not panic and reports
    a line as changed exactly when its sampled value (or direction) differs
    between the two snapshots, with the new value, and an SCU register exactly
    when its value differs; no report occurs twice. *)
Theorem Diff_exact (w : Z) (dirs datas : list (Z * gpioReg)) (s b : State) :
  is_int_width w -> dirs ≡ₚ gpioDirRegs -> datas ≡ₚ gpioDataRegs ->
  exists l, Diff dirs datas s b = Some l /\ NoDup l /\ forall p st, mk_line p st ∈ l <->
    (exists v, st = (if v : bool then LINE_STATE_BECAME_OUTPUT else LINE_STATE_BECAME_INPUT) /\
       is_dir_port p /\ PortDirection w dirs s p = Some v /\ PortDirection w dirs b p = Some (negb v)) \/
    (exists v, st = (if v : bool then LINE_STATE_BECAME_HIGH else LINE_STATE_BECAME_LOW) /\
       is_data_port p /\ PortValue w datas s p = Some v /\ PortValue w datas b p = Some (negb v)) \/
    (st = LINE_STATE_SCU_CHANGED /\ p ∈ scuGpioRegs /\ at_ (Scu s) p <> at_ (Scu b) p).
Proof.
  intros Hw H1 H2. destruct (Diff_spec w dirs datas s b Hw H1 H2) as (l & El & Hl). exists l. split; [done|]. split; [|exact Hl].
  by apply (Diff_NoDup dirs datas s b).
Qed.

Lemma covers_spec (s b : gmap Z Z) : covers s b = true <-> b ⊆ s.
Proof.
  unfold covers. rewrite forallb_forall, map_subseteq_spec. split.
  - intros Hf r c Hb. specialize (Hf (r, c)). simpl in Hf.
    rewrite <- list_elem_of_In, elem_of_map_to_list in Hf. specialize (Hf Hb).
    destruct (s !! r); [|done]. by apply bool_decide_eq_true_1 in Hf as ->.
  - intros Hs [r c] Hin. rewrite <- list_elem_of_In, elem_of_map_to_list in Hin.
    rewrite (Hs _ _ Hin). by apply bool_decide_eq_true_2.
Qed.

(** [Equal] is inclusion of the argument's registers, not equality. *)
Lemma Equal_spec s b : Equal s b = true <-> Gpio b ⊆ Gpio s /\ Scu b ⊆ Scu s.
Proof.
  unfold Equal. rewrite <- !covers_spec.
  destruct (covers (Gpio s) (Gpio b)), (covers (Scu s) (Scu b)); simpl; naive_solver.
Qed.

Definition gpio_keys : gset Z := list_to_set (gpioDirRegs.*1 ++ gpioDataRegs.*1).
Definition scu_keys : gset Z := list_to_set scuGpioRegs.

(** The snapshots of the hardware: one value per register. *)
Definition complete (s : State) : Prop := dom (Gpio s) = gpio_keys /\ dom (Scu s) = scu_keys.

Lemma subseteq_same_dom (m1 m2 : gmap Z Z) : m1 ⊆ m2 -> dom m1 = dom m2 -> m1 = m2.
Proof.
  intros Hs Hd. apply map_eq. intros i. destruct (m1 !! i) as [x|] eqn:E1.
  - symmetry. by eapply lookup_weaken.
  - symmetry. apply not_elem_of_dom. rewrite <- Hd. by apply not_elem_of_dom.
Qed.

Lemma bind_all_nil {A B} (f : A -> list B) (l : list A) : (forall x, f x = []) -> l ≫= f = [].
Proof. intros Hf. induction l as [|x l IH]; [done|]. cbn. by rewrite Hf, IH. Qed.

Lemma Diff_same dirs datas s :
  dirs ≡ₚ gpioDirRegs -> datas ≡ₚ gpioDataRegs -> Diff dirs datas s s = Some [].
Proof.
  intros H1 H2. unfold Diff. rewrite diff_blocks by done. f_equal.
  rewrite concat_fmap_bind. rewrite !bind_all_nil; [done|..].
  - intros r. unfold scu_line. by rewrite decide_False by auto.
  - intros [a [bit port]]. unfold data_line. by rewrite Bool.eqb_reflx.
  - intros [a [bit port]]. unfold dir_line. by rewrite Bool.eqb_reflx.
Qed.

Lemma Equal_complete_eq s b : complete s -> complete b -> Equal s b = true <-> s = b.
Proof.
  intros [Sg Ss] [Bg Bs]. rewrite Equal_spec. destruct s as [sg ss], b as [bg bs]; simpl in *. split.
  - intros [Hg Hs]. apply subseteq_same_dom in Hg, Hs; congruence.
  - intros [= <- <-]. done.
Qed.

(** Between complete snapshots [Equal] is equality, and skipping the
    difference when it holds loses nothing: the difference is then empty. *)
Theorem Equal_complete (dirs datas : list (Z * gpioReg)) (s b : State) :
  dirs ≡ₚ gpioDirRegs -> datas ≡ₚ gpioDataRegs -> complete s -> complete b ->
  (Equal s b = true <-> s = b) /\ (Equal s b = true -> Diff dirs datas b s = Some []).
Proof.
  intros H1 H2 Hs Hb. pose proof (Equal_complete_eq s b Hs Hb) as Heq.
  split; [done|]. intros ->%Heq. by apply Diff_same.
Qed.

(** On every line index, [PortValue] finds a data register and returns a
    bit of it whatever the order of the map, while [PortDirection] panics
    exactly on the sets that have no direction register: W, X (input only), Z,
    AA and AB (output only). *)
Theorem PortValue_total (w : Z) (dirs datas : list (Z * gpioReg)) (s : State) (p : Z) :
  is_int_width w -> dirs ≡ₚ gpioDirRegs -> datas ≡ₚ gpioDataRegs -> 0 <= p ->
  (exists v, PortValue w datas s p = Some v) /\
  (PortDirection w dirs s p = None <-> (portToSetPin w p).1 ∈ ["W"; "X"; "Z"; "AA"; "AB"]).
Proof.
  intros Hw H1 H2 Hp. rewrite (PortValue_perm w datas s p H2 Hp), (PortDirection_perm w dirs s p H1 Hp).
  unfold PortValue, PortDirection. pose proof (portToSetPin_name w p Hp) as Hn.
  destruct (portToSetPin w p) as [tset tpin]. cbn [fst] in *. rewrite !port_bit_locate.
  assert (Hd : is_Some (locate gpioDataRegs tset) /\
    (locate gpioDirRegs tset = None <-> tset ∈ ["W"; "X"; "Z"; "AA"; "AB"])).
  { revert tset Hn. apply (forall_list (fun t => is_Some (locate gpioDataRegs t) /\
      (locate gpioDirRegs t = None <-> t ∈ ["W"; "X"; "Z"; "AA"; "AB"]))). by vm_compute. }
  destruct Hd as [[[a bo] ->] <-]. split; [by eexists|].
  by rewrite fmap_None.
Qed.

(** *** The name table *)

(** [s] occurs in [t]. *)
Fixpoint occurs (s t : string) : bool :=
  String.prefix s t || match t with EmptyString => false | String _ t => occurs s t end.

(** The table [gpios] describes exactly the lines of the data registers,
    and the function string of a line contains the line's own name. *)
Theorem gpios_complete (w p : Z) :
  is_int_width w ->
  (is_Some (gpios !! p) <-> is_data_port p) /\
  (is_data_port p -> occurs (GpioPortToName w p) (GpioPortToFunction p) = true).
Proof.
  intros Hw. split; [split|].
  - rewrite <- elem_of_dom. intros Hd%elem_of_elements. revert p Hd.
    apply (forall_list is_data_port). by vm_compute.
  - intros [Hp|Hp]; [change 196 with (0 + 196) in Hp|change 220 with (200 + 20) in Hp];
      revert p Hp; apply (forall_range (fun p => is_Some (gpios !! p))); by vm_compute.
  - intros [Hp|Hp]; [change 196 with (0 + 196) in Hp|change 220 with (200 + 20) in Hp];
      revert p Hp; destruct Hw as [-> | ->];
      apply (forall_range (fun p => occurs _ _ = true)); by vm_compute.
Qed.

(** ** Snapshots of the hardware *)

Section SnapshotSpec.
Context {E : Type} `{memProvider E} `{!live E}.

(** [read_regs] adds one entry per register, each the value of one read. *)
Lemma wp_read_regs base rs (m : gmap Z Z) (s : @Recorder.bus E) :
  wp (read_regs base rs m) (fun m' s' => exists vs,
    length vs = length rs /\ m' = foldl (fun m '(r, v) => <[r := v]> m) m (zip rs vs) /\
    s'.2 = s.2 ++ zip_with (fun r v => R32 (base + r) v) rs vs) s.
Proof.
  revert m s. induction rs as [|r rs IH]; intros m s; cbn [read_regs].
  - apply wp_ret. exists []. by rewrite app_nil_r.
  - bus_step. bus_step. eapply wp_mono; [apply IH|].
    intros m' s' (vs & Hl & -> & Hs). exists (v :: vs). simpl. split; [by f_equal|].
    split; [done|]. rewrite Hs. cbn [snd]. by rewrite <- app_assoc.
Qed.

Lemma dom_foldl_insert (m : gmap Z Z) (l : list (Z * Z)) :
  dom (foldl (fun m '(r, v) => <[r := v]> m) m l) = dom m ∪ list_to_set l.*1.
Proof.
  revert m. induction l as [|[r v] l IH]; intros m; simpl; [set_solver|].
  rewrite IH, dom_insert_L. set_solver.
Qed.

(** [SnapshotGpio] reads every GPIO and SCU register of the tables once,
    writes nothing, and returns a complete snapshot. *)
Theorem SnapshotGpio_complete (dirs datas : list (Z * gpioReg)) (s : @Recorder.bus E) :
  dirs ≡ₚ gpioDirRegs -> datas ≡ₚ gpioDataRegs ->
  wp (SnapshotGpio dirs datas) (fun st s' => complete st /\ exists vs,
    s'.2 = s.2 ++ zip_with R32
      (((fun r => 0x1e780000 + r) <$> dirs.*1 ++ datas.*1) ++
       ((fun r => SCU_BASE + r) <$> scuGpioRegs)) vs /\
    length vs = (length dirs + length datas + length scuGpioRegs)%nat) s.
Proof.
  intros H1 H2. unfold SnapshotGpio. apply wp_bind.
  eapply wp_mono; [apply wp_read_regs|]. intros m1 s1 (v1 & L1 & -> & T1). apply wp_bind.
  eapply wp_mono; [apply wp_read_regs|]. intros m2 s2 (v2 & L2 & -> & T2). apply wp_bind.
  eapply wp_mono; [apply wp_read_regs|]. intros m3 s3 (v3 & L3 & -> & T3). apply wp_ret.
  rewrite length_fmap in L1, L2.
  assert (Hz : forall (rs vs : list Z), length vs = length rs -> (zip rs vs).*1 = rs)
    by (intros; apply fst_zip; lia).
  split.
  - split; cbn [Gpio Scu]; rewrite !dom_foldl_insert, dom_empty_L, !Hz by (rewrite ?length_fmap; lia).
    + unfold gpio_keys. rewrite list_to_set_app_L.
      rewrite (list_to_set_perm_L dirs.*1 gpioDirRegs.*1) by by rewrite H1.
      rewrite (list_to_set_perm_L datas.*1 gpioDataRegs.*1) by by rewrite H2. set_solver.
    + unfold scu_keys. set_solver.
  - exists (v1 ++ v2 ++ v3). split; [|rewrite !length_app; lia].
    rewrite T3, T2, T1, fmap_app, <- !app_assoc. f_equal.
    rewrite !zip_with_app by (rewrite length_fmap, ?length_fmap; lia).
    by rewrite !zip_with_fmap_l.
Qed.
End SnapshotSpec.

(** ** Concrete runs *)

(** A machine with line F1 high, and one with every line low. *)
Definition all_low : State := mk_state ((fun _ => 0) <$> gset_to_gmap 0 gpio_keys) (gset_to_gmap 0 scu_keys).
Definition f1_high : State := mk_state (<[0x020 := 0x200]> (Gpio all_low)) (Scu all_low).

Lemma GpioPort_GpioPortToName_witness : GpioPort (GpioPortToName 64 1000) = Ret 1000.
Proof. apply (GpioPort_GpioPortToName 64 1000); [by right|done|lia]. Defined.

Lemma Diff_exact_witness :
  exists l, Diff gpioDirRegs (reverse gpioDataRegs) f1_high all_low = Some l /\
    mk_line 41 LINE_STATE_BECAME_HIGH ∈ l.
Proof.
  destruct (Diff_exact 32 gpioDirRegs (reverse gpioDataRegs) f1_high all_low) as (l & Hl & _ & Hin).
  - by left.
  - done.
  - apply reverse_Permutation.
  - exists l. split; [exact Hl|]. apply Hin. right. left. exists true.
    split; [done|]. split; [left; lia|]. split; by vm_compute.
Defined.

Lemma Equal_complete_witness :
  complete all_low /\ Diff gpioDirRegs gpioDataRegs all_low all_low = Some [].
Proof.
  assert (Hc : complete all_low) by (split; by vm_compute). split; [exact Hc|].
  exact (proj2 (Equal_complete gpioDirRegs gpioDataRegs all_low all_low
    (reflexivity _) (reflexivity _) Hc Hc) eq_refl).
Defined.

Lemma PortValue_total_witness : exists v, PortValue 32 gpioDataRegs f1_high 300 = Some v.
Proof.
  apply (PortValue_total 32 gpioDirRegs gpioDataRegs f1_high 300); [by left|done|done|lia].
Defined.

Lemma gpios_complete_witness :
  is_Some (gpios !! 41) /\ occurs (GpioPortToName 32 41) (GpioPortToFunction 41) = true.
Proof.
  split; apply (gpios_complete 32 41); try (by left); left; lia.
Defined.

Lemma SnapshotGpio_complete_witness :
  wp (SnapshotGpio gpioDirRegs gpioDataRegs) (fun st s' => complete st /\ exists vs,
    s'.2 = [] ++ zip_with R32
      (((fun r => 0x1e780000 + r) <$> gpioDirRegs.*1 ++ gpioDataRegs.*1) ++
       ((fun r => SCU_BASE + r) <$> scuGpioRegs)) vs /\
    length vs = (length gpioDirRegs + length gpioDataRegs + length scuGpioRegs)%nat)
    (∅ : SimBus.ram, []).
Proof. by apply (SnapshotGpio_complete gpioDirRegs gpioDataRegs (∅ : SimBus.ram, [])). Defined.
