(* ===== verification/GpioWatcher.v ===== *)
(** * The GPIO watcher (pkg/gpiowatcher)

    The binary log and its playback (binary.go, playback.go), the log of changes
    on standard output (stdout.go) and the driver loop (main.go).  Files are byte
    lists; the map iteration orders and the clock are arguments. *)

From S2P Require Import Prelude GoMonad GoStrings Mem Scu GpioReg.
#[local] Open Scope string_scope.
#[local] Open Scope list_scope.
#[local] Open Scope Z_scope.

(** ** binary.go *)

(** The log file: what was written, and how many more writes will succeed. *)
Record binaryLog : Type := mk_log { written : list Z; room : nat }.

(** [binary.Write(l.f, binary.LittleEndian, v)] of an [n]-byte value, with the
    [log.Fatalf] on failure. *)
Definition must_write (n : nat) (v : Z) : M binaryLog unit := fun l =>
  match room l with
  | O => (Exit, l)
  | S k => (Ret tt, mk_log (written l ++ le_bytes n v) k)
  end.

(** [for k, v := range m] of [Log], in the order [m]. *)
Definition write_pairs (m : list (Z * Z)) : M binaryLog unit :=
  for_each m (fun '(k, v) => _ ← must_write 4 k; must_write 4 v).

(** [Log(s)] at Unix time [unix], with the maps iterated as [gs] and [cs]. *)
Definition binary_Log (unix : Z) (gs cs : list (Z * Z)) : M binaryLog unit :=
  _ ← must_write 8 (uint 64 unix);
  _ ← must_write 4 (uint 32 (Z.of_nat (length gs)));
  _ ← must_write 4 (uint 32 (Z.of_nat (length cs)));
  _ ← write_pairs gs;
  write_pairs cs.

(** [newBinaryLog(p)]: logs the first snapshot; [None] is a nil pointer, whose
    dereference panics after the time was written. *)
Definition newBinaryLog (unix : Z) (p : option (list (Z * Z) * list (Z * Z))) : M binaryLog unit :=
  match p with
  | Some (gs, cs) => binary_Log unix gs cs
  | None => _ ← must_write 8 (uint 64 unix); go_panic
  end.

(** ** playback.go *)

Inductive read_error : Type := io_EOF | io_ErrUnexpectedEOF.

(** [binary.Read(p.f, binary.LittleEndian, &x)] of an [n]-byte value. *)
Definition binary_Read (n : nat) : M (list Z) (read_error + Z) := fun f =>
  if decide (f = []) then (Ret (inl io_EOF), [])
  else if decide (length f < n)%nat then (Ret (inl io_ErrUnexpectedEOF), [])
  else (Ret (inr (le_int (take n f))), drop n f).

(** The same with [log.Fatalf] on every error. *)
Definition must_read (n : nat) : M (list Z) Z :=
  r ← binary_Read n;
  match r with
  | inl _ => go_fatal
  | inr v => mret v
  end.

Fixpoint read_pairs (n : nat) (m : gmap Z Z) : M (list Z) (gmap Z Z) :=
  match n with
  | O => mret m
  | S n => k ← must_read 4; v ← must_read 4; read_pairs n (<[k := v]> m)
  end.

(** [(p *playback) SnapshotGpio()]; [None] is the nil pointer. *)
Definition playback_SnapshotGpio : M (list Z) (option State) :=
  unix ← binary_Read 8;
  match unix with
  | inl io_EOF => mret None
  | inl io_ErrUnexpectedEOF => go_fatal
  | inr _ =>
      gpios ← must_read 4;
      scus ← must_read 4;
      g ← read_pairs (Z.to_nat gpios) ∅;
      c ← read_pairs (Z.to_nat scus) ∅;
      mret (Some (mk_state g c))
  end.

(** ** Round trip *)

(** A snapshot as the program makes them: 32-bit registers and values. *)
Definition is_u32_map (m : gmap Z Z) : Prop :=
  map_Forall (fun k v => is_uint 32 k /\ is_uint 32 v) m /\ is_uint 32 (Z.of_nat (size m)).

Definition is_u32_state (s : State) : Prop := is_u32_map (Gpio s) /\ is_u32_map (Scu s).

(** The record [binary_Log] writes for one snapshot. *)
Definition pairs_bytes (l : list (Z * Z)) : list Z :=
  l ≫= fun '(k, v) => le_bytes 4 k ++ le_bytes 4 v.

Definition record_bytes (unix : Z) (gs cs : list (Z * Z)) : list Z :=
  le_bytes 8 (uint 64 unix) ++ le_bytes 4 (uint 32 (Z.of_nat (length gs))) ++
  le_bytes 4 (uint 32 (Z.of_nat (length cs))) ++ pairs_bytes gs ++ pairs_bytes cs.

Lemma wp_must_write n v Q (l : binaryLog) :
  (0 < room l)%nat -> Q tt (mk_log (written l ++ le_bytes n v) (room l - 1)) ->
  wp (must_write n v) Q l.
Proof.
  intros Hr HQ. unfold wp, must_write. destruct (room l) as [|k]; [lia|].
  by replace (S k - 1)%nat with k in HQ by lia.
Qed.

Lemma wp_write_pairs m Q (l : binaryLog) :
  (2 * length m <= room l)%nat ->
  Q tt (mk_log (written l ++ pairs_bytes m) (room l - 2 * length m)) ->
  wp (write_pairs m) Q l.
Proof.
  unfold write_pairs. revert l. induction m as [|[k v] m IH]; intros l Hr HQ; cbn [for_each].
  - apply wp_ret. destruct l. cbn in *. by rewrite app_nil_r, Nat.sub_0_r in HQ.
  - cbn [length] in Hr. wp_pure. apply wp_must_write; [lia|]. apply wp_must_write; [simpl; lia|].
    apply IH; [simpl; lia|]. cbn [written room]. rewrite <- !app_assoc.
    replace (room l - 1 - 1 - 2 * length m)%nat with (room l - 2 * length ((k, v) :: m))%nat
      by (simpl; lia). unfold pairs_bytes in HQ. cbn [mbind list_bind] in HQ.
    by rewrite <- app_assoc in HQ.
Qed.

(** [binary_Log] appends exactly its record when the writes succeed. *)
Lemma wp_binary_Log unix gs cs Q (l : binaryLog) :
  (3 + 2 * length gs + 2 * length cs <= room l)%nat ->
  Q tt (mk_log (written l ++ record_bytes unix gs cs)
          (room l - (3 + 2 * length gs + 2 * length cs))) ->
  wp (binary_Log unix gs cs) Q l.
Proof.
  intros Hr HQ. unfold binary_Log. wp_pure. apply wp_must_write; [lia|].
  wp_pure. apply wp_must_write; [simpl; lia|]. wp_pure. apply wp_must_write; [simpl; lia|].
  wp_pure. apply wp_write_pairs; [simpl; lia|]. apply wp_write_pairs; [simpl; lia|].
  cbn [written room]. rewrite <- !app_assoc. unfold record_bytes in HQ.
  replace (_ - _ - _)%nat with (room l - (3 + 2 * length gs + 2 * length cs))%nat by lia.
  exact HQ.
Qed.

Lemma binary_Read_le (n : nat) v rest :
  (0 < n)%nat -> is_uint (8 * Z.of_nat n) v ->
  binary_Read n (le_bytes n v ++ rest) = (Ret (inr v), rest).
Proof.
  intros Hn Hv. pose proof (length_le_bytes n v) as Hl. unfold binary_Read.
  rewrite decide_False.
  2: { intros He. apply (f_equal length) in He. rewrite length_app in He. simpl in He. lia. }
  rewrite decide_False by (rewrite length_app; lia).
  rewrite take_app_length', drop_app_length' by done.
  by rewrite le_int_le_bytes, uint_id.
Qed.

Lemma must_read_le (n : nat) v rest :
  (0 < n)%nat -> is_uint (8 * Z.of_nat n) v ->
  must_read n (le_bytes n v ++ rest) = (Ret v, rest).
Proof.
  intros Hn Hv. unfold must_read, mbind, M_bind. by rewrite binary_Read_le.
Qed.

Lemma read_pairs_bytes (l : list (Z * Z)) m rest :
  Forall (fun '(k, v) => is_uint 32 k /\ is_uint 32 v) l ->
  read_pairs (length l) m (pairs_bytes l ++ rest) =
  (Ret (foldl (fun m '(k, v) => <[k := v]> m) m l), rest).
Proof.
  intros Hl. revert m. induction Hl as [|[k v] l [Hk Hv] _ IH]; intros m; [done|].
  cbn [length read_pairs foldl]. unfold pairs_bytes. cbn [mbind list_bind].
  fold (pairs_bytes l). rewrite <- !app_assoc. unfold mbind, M_bind.
  rewrite must_read_le by (done || lia). by rewrite must_read_le by (done || lia).
Qed.

Lemma foldl_insert_perm (m : gmap Z Z) (l : list (Z * Z)) :
  l ≡ₚ map_to_list m -> foldl (fun m '(k, v) => <[k := v]> m) ∅ l = m.
Proof.
  intros Hp.
  assert (Hf : forall l m0, foldl (fun m '(k, v) => <[k := v]> m) m0 l =
    list_to_map (reverse l) ∪ m0 :> gmap Z Z).
  { clear. intros l. induction l as [|[k v] l IH] using rev_ind; intros m0; simpl.
    - by rewrite (left_id_L ∅ (∪)).
    - rewrite foldl_snoc, IH, reverse_snoc. simpl. by rewrite insert_union_l. }
  rewrite Hf, (right_id_L ∅ (∪)), <- (list_to_map_to_list m).
  apply list_to_map_proper; [|by rewrite reverse_Permutation].
  rewrite reverse_Permutation, Hp. apply NoDup_fst_map_to_list.
Qed.

Lemma perm_u32 (m : gmap Z Z) l :
  is_u32_map m -> l ≡ₚ map_to_list m ->
  Forall (fun '(k, v) => is_uint 32 k /\ is_uint 32 v) l /\ is_uint 32 (Z.of_nat (length l)).
Proof.
  intros [Hm Hs] Hp. rewrite Hp. split; [|by rewrite length_map_to_list].
  apply Forall_forall. intros [k v] Hkv. apply elem_of_map_to_list in Hkv. by apply (Hm k v).
Qed.

(** One record is read back as the snapshot it was made from. *)
Lemma playback_record unix s gs cs rest :
  is_u32_state s -> gs ≡ₚ map_to_list (Gpio s) -> cs ≡ₚ map_to_list (Scu s) ->
  playback_SnapshotGpio (record_bytes unix gs cs ++ rest) = (Ret (Some s), rest).
Proof.
  intros [Hg Hc] Pg Pc. destruct (perm_u32 _ _ Hg Pg) as [Fg Lg].
  destruct (perm_u32 _ _ Hc Pc) as [Fc Lc].
  unfold playback_SnapshotGpio, record_bytes. rewrite <- !app_assoc.
  unfold mbind, M_bind. rewrite binary_Read_le by (lia || by apply uint_range).
  rewrite must_read_le by (lia || by apply uint_range).
  rewrite must_read_le by (lia || by apply uint_range).
  rewrite !uint_id by done. rewrite !Nat2Z.id.
  rewrite read_pairs_bytes by done. rewrite read_pairs_bytes by done.
  rewrite (foldl_insert_perm (Gpio s) gs Pg), (foldl_insert_perm (Scu s) cs Pc). by destruct s.
Qed.

(** ** stdout.go *)

(** The lines [log.Printf] writes, by port (their text starts with
    [plt.PortName(port)]). *)
Inductive message : Type :=
| MHigh (port : Z) (output : bool)
| MLow (port : Z) (output : bool)
| MScu (reg v : Z) (description : string)
| MBecameInput (port : Z) (v : bool)
| MBecameOutput (port : Z) (v : bool)
| MDrivingHigh (port : Z)
| MSensingHigh (port : Z)
| MDrivingLow (port : Z)
| MSensingLow (port : Z)
| MScuNow (reg v : Z).

#[export] Instance message_eq_dec : EqDecision message.
Proof. solve_decision. Defined.

(** [astPlatform.PortName]: the platform's name for a line, or its function. *)
Definition PortName (GpioPortToName : Z -> option string) (p : Z) : string :=
  match GpioPortToName p with
  | Some n => n
  | None => GpioPortToFunction p
  end.

Record stdoutLog : Type :=
  mk_stdoutLog { prev : State; dir : gmap Z bool; ignore : gmap Z bool }.

(** A missing key of a map of booleans reads false. *)
Definition flag (m : gmap Z bool) (k : Z) : bool := default false (m !! k).

(** The ignored ports of [ignoreLines]; a bad name ends the process. *)
Fixpoint ignored_ports (parts : list string) (m : gmap Z bool) : outcome (gmap Z bool) :=
  match parts with
  | [] => Ret m
  | part :: parts =>
      match GpioPort part with
      | Ret p => ignored_ports parts (<[p := true]> m)
      | Panic => Panic
      | Exit => Exit
      | Blocked => Blocked
      end
  end.

Section Stdout.
Context (w : Z).

(** The body of the second loop of [newStdoutLog]. *)
Definition list_message (p : State) (d : gmap Z bool) (g : LineState) : list message :=
  if decide (LState g = LINE_STATE_HIGH) then [MHigh (Port g) (flag d (Port g))]
  else if decide (LState g = LINE_STATE_LOW) then [MLow (Port g) (flag d (Port g))]
  else if decide (LState g = LINE_STATE_SCU) then
    [MScu (Port g) (at_ (Scu p) (Port g)) (ScuRegisterToFunction (Port g))]
  else [].

Definition initial_dirs (l : list LineState) : gmap Z bool :=
  foldl (fun d g => if decide (LState g = LINE_STATE_OUTPUT) then <[Port g := true]> d else d) ∅ l.

(** [newStdoutLog]; the two calls of [List] may see different orders.  The
    state is the output. *)
Definition newStdoutLog (dirs datas dirs' datas' : list (Z * gpioReg)) (p : option State)
    (ignoreLines : string) : M (list message) stdoutLog := fun out =>
  match (if decide (ignoreLines <> "") then ignored_ports (Split (byte_chr 44) ignoreLines) ∅
         else Ret ∅) with
  | Ret ign =>
      match p with
      | None => (Panic, out)
      | Some p =>
          match List dirs datas p, List dirs' datas' p with
          | Some l, Some l' =>
              let d := initial_dirs l in
              (Ret (mk_stdoutLog p d ign), out ++ (l' ≫= list_message p d))
          | _, _ => (Panic, out)
          end
      end
  | Panic => (Panic, out)
  | Exit => (Exit, out)
  | Blocked => (Blocked, out)
  end.

(** The body of the loop of [Log]. *)
Definition log_line (datas : list (Z * gpioReg)) (s : State) (ign d : gmap Z bool) (g : LineState) :
    M (list message) (gmap Z bool) := fun out =>
  let port := Port g in
  if flag ign port then (Ret d, out)
  else if decide (LState g = LINE_STATE_BECAME_INPUT) then
    match PortValue w datas s port with
    | Some v => (Ret (<[port := false]> d), out ++ [MBecameInput port v])
    | None => (Panic, out)
    end
  else if decide (LState g = LINE_STATE_BECAME_OUTPUT) then
    match PortValue w datas s port with
    | Some v => (Ret (<[port := true]> d), out ++ [MBecameOutput port v])
    | None => (Panic, out)
    end
  else if decide (LState g = LINE_STATE_BECAME_HIGH) then
    (Ret d, out ++ [if flag d port then MDrivingHigh port else MSensingHigh port])
  else if decide (LState g = LINE_STATE_BECAME_LOW) then
    (Ret d, out ++ [if flag d port then MDrivingLow port else MSensingLow port])
  else if decide (LState g = LINE_STATE_SCU_CHANGED) then
    (Ret d, out ++ [MScuNow port (at_ (Scu s) port)])
  else (Ret d, out).

Fixpoint log_lines (datas : list (Z * gpioReg)) (s : State) (ign d : gmap Z bool)
    (l : list LineState) : M (list message) (gmap Z bool) :=
  match l with
  | [] => mret d
  | g :: l => d ← log_line datas s ign d g; log_lines datas s ign d l
  end.

(** [(l *stdoutLog) Log(s)]. *)
Definition stdout_Log (dirs datas : list (Z * gpioReg)) (l : stdoutLog) (s : State) :
    M (list message) stdoutLog :=
  if negb (Equal (prev l) s) then
    match Diff dirs datas s (prev l) with
    | Some ls =>
        d ← log_lines datas s (ignore l) (dir l) ls;
        mret (mk_stdoutLog s d (ignore l))
    | None => go_panic
    end
  else mret (mk_stdoutLog s (dir l) (ignore l)).
End Stdout.

(** ** main.go *)

(** The loop of [Gpiowatcher] over a snapshoter and an outputer, until the
    snapshot is nil, within [fuel] iterations. *)
Section Gpiowatcher.
Context {A B L : Type} (snap : M A (option State)) (newLog : option State -> M B L)
  (log : L -> State -> M B L).

Definition lift_l {X} (m : M A X) : M (A * B) X := fun '(a, b) =>
  let '(o, a') := m a in (o, (a', b)).
Definition lift_r {X} (m : M B X) : M (A * B) X := fun '(a, b) =>
  let '(o, b') := m b in (o, (a, b')).

Fixpoint watch (fuel : nat) (l : L) : M (A * B) unit :=
  match fuel with
  | O => fun s => (Blocked, s)
  | S fuel =>
      s ← lift_l snap;
      match s with
      | None => mret tt
      | Some s => l ← lift_r (log l s); watch fuel l
      end
  end.

Definition Gpiowatcher (fuel : nat) : M (A * B) unit :=
  p ← lift_l snap;
  l ← lift_r (newLog p);
  watch fuel l.
End Gpiowatcher.

(** ** Playback of a recording *)

(** An outputer that keeps the snapshots it is given. *)
Definition keep_new (p : option State) : M (list State) unit := fun l =>
  match p with Some s => (Ret tt, l ++ [s]) | None => (Panic, l) end.
Definition keep_log (_ : unit) (s : State) : M (list State) unit := fun l => (Ret tt, l ++ [s]).

(** One recorded sample: time, snapshot, and the orders its maps were
    iterated in. *)
Record sample : Type := mk_sample {
  s_time : Z; s_state : State; s_gpio : list (Z * Z); s_scu : list (Z * Z) }.

Definition sample_ok (r : sample) : Prop :=
  is_u32_state (s_state r) /\ s_gpio r ≡ₚ map_to_list (Gpio (s_state r)) /\
  s_scu r ≡ₚ map_to_list (Scu (s_state r)).

Definition writes (r : sample) : nat := 3 + 2 * length (s_gpio r) + 2 * length (s_scu r).

Definition recording (rs : list sample) : list Z :=
  rs ≫= fun r => record_bytes (s_time r) (s_gpio r) (s_scu r).

Lemma wp_record rs (l : binaryLog) :
  (sum_list (writes <$> rs) <= room l)%nat ->
  wp (for_each rs (fun r => binary_Log (s_time r) (s_gpio r) (s_scu r)))
    (fun _ l' => written l' = written l ++ recording rs) l.
Proof.
  revert l. induction rs as [|r rs IH]; intros l Hr; cbn [for_each].
  - apply wp_ret. by rewrite app_nil_r.
  - cbn in Hr. apply wp_bind. apply wp_binary_Log; [unfold writes in Hr; lia|].
    eapply wp_mono; [apply IH; simpl; unfold writes in *; lia|].
    intros [] l' ->. cbn. by rewrite <- app_assoc.
Qed.

Lemma watch_recording rs kept :
  Forall sample_ok rs ->
  watch playback_SnapshotGpio keep_log (S (length rs)) tt (recording rs, kept) =
  (Ret tt, ([], kept ++ (s_state <$> rs))).
Proof.
  intros Hrs. revert kept. induction Hrs as [|r rs (Hu & Hg & Hc) _ IH]; intros kept.
  - cbn. by rewrite app_nil_r.
  - cbn [length]. remember (S (length rs)) as n. cbn [watch].
    unfold recording. cbn [mbind list_bind]. fold (recording rs).
    unfold mbind, M_bind, lift_l, lift_r.
    rewrite (playback_record _ (s_state r)) by done. cbn.
    rewrite IH. by rewrite <- app_assoc.
Qed.

(** C34:  A recording plays back as what was recorded: after any non-empty
    sequence of snapshots is logged, in any iteration order of their maps, the
    watcher run on the file reads exactly that sequence of snapshots and stops
    at its end. *)
Theorem playback_roundtrip (rs : list sample) (n : nat) :
  rs <> [] -> Forall sample_ok rs -> (sum_list (writes <$> rs) <= n)%nat ->
  wp (for_each rs (fun r => binary_Log (s_time r) (s_gpio r) (s_scu r)))
    (fun _ l => Gpiowatcher playback_SnapshotGpio keep_new keep_log (length rs) (written l, []) =
       (Ret tt, ([], s_state <$> rs))) (mk_log [] n).
Proof.
  intros Hne Hrs Hn. eapply wp_mono; [by apply wp_record|]. intros [] l ->. cbn [written app].
  destruct Hrs as [|r rs (Hu & Hg & Hc) Hrs]; [done|]. unfold Gpiowatcher.
  change (recording (r :: rs)) with
    (record_bytes (s_time r) (s_gpio r) (s_scu r) ++ recording rs).
  unfold mbind, M_bind, lift_l, lift_r. rewrite (playback_record _ (s_state r)) by done.
  cbn [keep_new app length]. by rewrite (watch_recording rs [s_state r]).
Qed.

(** ** Direction tracking *)

Section Tracking.
Context (w : Z) (Hw : is_int_width w).

Definition dir_code (v : bool) : Z :=
  if v then LINE_STATE_BECAME_OUTPUT else LINE_STATE_BECAME_INPUT.

(** For every line that is not ignored, [dir] holds the direction the line has
    in the last snapshot. *)
Definition tracks (l : stdoutLog) : Prop :=
  forall q, is_dir_port q -> flag (ignore l) q = false ->
    PortDirection w gpioDirRegs (prev l) q = Some (flag (dir l) q).

Lemma dir_port_direction s q :
  is_dir_port q -> exists v, PortDirection w gpioDirRegs s q = Some v.
Proof.
  intros Hq. destruct (dir_lines_spec w q Hw) as [Hk Hv].
  apply Hk in Hq as (a & bit & Hl). destruct (Hv _ _ Hl) as [_ Hs]. eauto.
Qed.

Lemma flag_insert (m : gmap Z bool) k v q :
  flag (<[k := v]> m) q = if decide (q = k) then v else flag m q.
Proof.
  unfold flag. case_decide as Hq.
  - subst. by rewrite lookup_insert_eq.
  - by rewrite lookup_insert_ne by done.
Qed.

(** One line: it cannot panic, and sets [dir] of its own port only. *)
Lemma log_line_run datas s ign d g out :
  datas ≡ₚ gpioDataRegs -> 0 <= Port g ->
  exists d' m, log_line w datas s ign d g out = (Ret d', out ++ m) /\
    forall q, flag ign q = false ->
      flag d' q = if decide (q = Port g) then
        if decide (LState g = dir_code true) then true
        else if decide (LState g = dir_code false) then false else flag d q
      else flag d q.
Proof.
  intros Hd Hp. assert (HP : exists v, PortValue w datas s (Port g) = Some v).
  { rewrite PortValue_perm by done. unfold PortValue.
    pose proof (portToSetPin_name w (Port g) Hp) as Hn.
    destruct (portToSetPin w (Port g)) as [t k]. rewrite port_bit_locate.
    assert (is_Some (locate gpioDataRegs t)) as [[a bo] ->]; [|by eexists].
    revert t Hn. apply (forall_list (fun t => is_Some (locate gpioDataRegs t))). by vm_compute. }
  destruct HP as [v HP]. unfold log_line. rewrite HP. destruct g as [port st]; simpl in *.
  unfold dir_code, LINE_STATE_BECAME_OUTPUT, LINE_STATE_BECAME_INPUT in *.
  destruct (flag ign port) eqn:Hi;
    [eexists _, []; rewrite app_nil_r; split; [done|]; intros q Hq;
     rewrite decide_False by congruence; done|].
  repeat case_decide; subst; try done; (eexists _; first
    [eexists; split; [reflexivity|]|exists []; rewrite app_nil_r; split; [reflexivity|]]);
    intros q Hq; rewrite ?flag_insert; repeat case_decide; done.
Qed.

(** The final direction of a port, when the lines do not contradict each
    other. *)
Lemma log_lines_run datas s ign ls d out :
  datas ≡ₚ gpioDataRegs -> Forall (fun g => 0 <= Port g) ls ->
  exists d' m, log_lines w datas s ign d ls out = (Ret d', out ++ m) /\
    forall q v, flag ign q = false -> mk_line q (dir_code (negb v)) ∉ ls ->
      mk_line q (dir_code v) ∈ ls \/ flag d q = v -> flag d' q = v.
Proof.
  intros Hd Hls. revert d out. induction Hls as [|g ls Hg _ IH]; intros d out; cbn [log_lines].
  - exists d, []. rewrite app_nil_r. split; [done|]. intros q v _ _ [Hq|Hq]; [|done].
    by apply not_elem_of_nil in Hq.
  - destruct (log_line_run datas s ign d g out Hd Hg) as (d1 & m1 & E1 & H1).
    destruct (IH d1 (out ++ m1)) as (d2 & m2 & E2 & H2).
    exists d2, (m1 ++ m2). unfold mbind, M_bind. rewrite E1, E2, app_assoc. split; [done|].
    intros q v Hq Hno Hyes. rewrite not_elem_of_cons in Hno. destruct Hno as [Hg1 Hno].
    apply H2; [done|done|]. rewrite elem_of_cons in Hyes. rewrite (H1 q Hq).
    destruct g as [port st]; simpl in *.
    destruct Hyes as [[[= <- <-]|Hin]|Hf]; [right|by left|right];
      destruct v; simpl in *; unfold LINE_STATE_BECAME_OUTPUT, LINE_STATE_BECAME_INPUT in *;
      repeat case_decide; congruence.
Qed.

Lemma flag_initial_dirs ls q :
  flag (initial_dirs ls) q = bool_decide (mk_line q LINE_STATE_OUTPUT ∈ ls).
Proof.
  unfold initial_dirs. induction ls as [|g ls IH] using rev_ind; [done|].
  rewrite foldl_snoc. destruct g as [port st]. cbn [LState Port].
  destruct (decide (st = LINE_STATE_OUTPUT)) as [->|Hst]; rewrite ?flag_insert, ?IH.
  - destruct (decide (q = port)) as [->|Hq];
      [symmetry; apply bool_decide_eq_true_2; set_solver|].
    apply bool_decide_ext. rewrite elem_of_app, list_elem_of_singleton. naive_solver.
  - apply bool_decide_ext. rewrite elem_of_app, list_elem_of_singleton. naive_solver.
Qed.

Lemma newStdoutLog_tracks dirs datas dirs' datas' p ign out l out' :
  dirs ≡ₚ gpioDirRegs -> datas ≡ₚ gpioDataRegs ->
  newStdoutLog dirs datas dirs' datas' (Some p) ign out = (Ret l, out') ->
  tracks l /\ prev l = p.
Proof.
  intros H1 H2. unfold newStdoutLog.
  destruct (if decide (ign <> "") then _ else _) as [ig| | |]; try done.
  destruct (List dirs datas p) as [l1|] eqn:El; [|done].
  destruct (List dirs' datas' p) as [l2|]; [|done]. intros [= <- <-]. split; [|done].
  intros q Hq _. simpl. rewrite flag_initial_dirs.
  destruct (List_outputs w dirs datas p q Hw H1 H2) as (l & El' & Hl).
  assert (l1 = l) as -> by congruence.
  destruct (dir_port_direction p q Hq) as [[] Hd]; rewrite Hd; f_equal; symmetry.
  - apply bool_decide_eq_true_2. by apply Hl.
  - apply bool_decide_eq_false_2. rewrite Hl, Hd. naive_solver.
Qed.

Lemma Diff_ports dirs datas s b ls :
  dirs ≡ₚ gpioDirRegs -> datas ≡ₚ gpioDataRegs -> Diff dirs datas s b = Some ls ->
  Forall (fun g => 0 <= Port g) ls.
Proof.
  intros H1 H2 El. destruct (Diff_spec w dirs datas s b Hw H1 H2) as (l & El' & Hl).
  assert (ls = l) as -> by congruence. apply Forall_forall. intros [q st] Hq. simpl.
  apply Hl in Hq as [(v & _ & Hp & _)|[(v & _ & Hp & _)|(_ & Hp & _)]].
  - unfold is_dir_port in Hp. lia.
  - unfold is_data_port in Hp. lia.
  - revert q Hp. apply (forall_list (fun q => 0 <= q)). by vm_compute.
Qed.

Lemma stdout_Log_tracks dirs datas l s out :
  dirs ≡ₚ gpioDirRegs -> datas ≡ₚ gpioDataRegs -> complete (prev l) -> complete s -> tracks l ->
  exists l' m, stdout_Log w dirs datas l s out = (Ret l', out ++ m) /\ tracks l' /\
    prev l' = s /\ ignore l' = ignore l.
Proof.
  intros H1 H2 Hc Hs Ht. unfold stdout_Log. destruct (Equal (prev l) s) eqn:Heq; simpl.
  { apply Equal_complete_eq in Heq as <-; [|done..]. eexists _, []. rewrite app_nil_r.
    split; [done|]. split; [|done]. exact Ht. }
  destruct (Diff_spec w dirs datas s (prev l) Hw H1 H2) as (ls & El & Hl). rewrite El.
  destruct (log_lines_run datas s (ignore l) ls (dir l) out H2) as (d & m & Er & Hd);
    [by eapply Diff_ports|].
  unfold mbind, M_bind. rewrite Er. eexists _, m. split; [done|]. split; [|done].
  intros q Hq Hi. simpl in *. destruct (dir_port_direction s q Hq) as [v Hv]. rewrite Hv. f_equal.
  symmetry. apply Hd; [done| |].
  - rewrite Hl. intros [(v' & E & _ & E' & _)|[(v' & E & _)|(E & _)]].
    + rewrite PortDirection_perm, Hv in E' by (done || (unfold is_dir_port in Hq; lia)).
      injection E' as <-. by destruct v.
    + by destruct v, v'.
    + by destruct v.
  - destruct (decide (flag (dir l) q = v)) as [|Hne]; [by right|]. left. apply Hl. left.
    exists v. split; [done|]. split; [done|]. specialize (Ht q Hq Hi).
    assert (H0 : 0 <= q) by (unfold is_dir_port in Hq; lia).
    rewrite (PortDirection_perm w dirs s q H1 H0), (PortDirection_perm w dirs (prev l) q H1 H0).
    split; [done|]. rewrite Ht. f_equal. by destruct (flag (dir l) q), v.
Qed.

(** The watcher on a sequence of snapshots, each logged with its own iteration
    orders. *)
Definition step : Type := list (Z * gpioReg) * list (Z * gpioReg) * State.

Fixpoint stdout_run (l : stdoutLog) (steps : list step) : M (list message) stdoutLog :=
  match steps with
  | [] => mret l
  | (dirs, datas, s) :: steps => l ← stdout_Log w dirs datas l s; stdout_run l steps
  end.

Definition step_ok (st : step) : Prop :=
  let '(dirs, datas, s) := st in
  dirs ≡ₚ gpioDirRegs /\ datas ≡ₚ gpioDataRegs /\ complete s.

Lemma stdout_run_tracks steps l out :
  Forall step_ok steps -> complete (prev l) -> tracks l ->
  exists l' m, stdout_run l steps out = (Ret l', out ++ m) /\ tracks l' /\
    prev l' = List.last (snd <$> steps) (prev l) /\ ignore l' = ignore l.
Proof.
  intros Hst. revert l out. induction Hst as [|[[dirs datas] s] steps (H1 & H2 & Hs) Hst IH];
    intros l out Hc Ht.
  - exists l, []. by rewrite app_nil_r.
  - destruct (stdout_Log_tracks dirs datas l s out H1 H2 Hc Hs Ht)
      as (l1 & m1 & E1 & T1 & P1 & I1).
    destruct (IH l1 (out ++ m1)) as (l2 & m2 & E2 & T2 & P2 & I2); [congruence|done|].
    exists l2, (m1 ++ m2). cbn [stdout_run]. unfold mbind, M_bind. rewrite E1, E2, app_assoc.
    split; [done|]. split; [done|]. split; [|congruence]. rewrite P2, P1. clear.
    cbn [fmap list_fmap snd]. destruct steps as [|st steps]; [done|].
    cbn [fmap list_fmap]. generalize (snd st) (snd <$> steps). intros x l'.
    revert x. induction l' as [|y l' IH]; intros x; [done|]. apply IH.
Qed.
End Tracking.

(** After any sequence of complete snapshots, in any iteration orders, the
    standard output log has not panicked and its direction map holds, for every
    line that is not ignored, the direction of the line in the last snapshot. *)
Theorem stdout_log_tracks_direction (w : Z) (dirs datas dirs' datas' : list (Z * gpioReg))
    (p : State) (ign : string) (steps : list step) out l out' :
  is_int_width w -> dirs ≡ₚ gpioDirRegs -> datas ≡ₚ gpioDataRegs -> complete p ->
  Forall step_ok steps ->
  newStdoutLog dirs datas dirs' datas' (Some p) ign out = (Ret l, out') ->
  exists l' m, stdout_run w l steps out' = (Ret l', out' ++ m) /\
    forall q, is_dir_port q -> flag (ignore l) q = false ->
      PortDirection w gpioDirRegs (List.last (snd <$> steps) p) q = Some (flag (dir l') q).
Proof.
  intros Hw H1 H2 Hp Hst Hnew.
  destruct (newStdoutLog_tracks w Hw _ _ _ _ _ _ _ _ _ H1 H2 Hnew) as [Ht Hprev].
  destruct (stdout_run_tracks w Hw steps l out' Hst) as (l' & m & E & T & P & I');
    [by rewrite Hprev|done|].
  exists l', m. split; [done|]. rewrite <- Hprev, <- P, <- I'. exact T.
Qed.

(** The ignore list is keyed by port number and applied to every change,
    SCU registers included: ignoring a line also hides the changes of the SCU
    register whose offset is that line's index. *)
Theorem ignore_hides_scu (w : Z) (datas : list (Z * gpioReg)) (s : State)
    (ign d : gmap Z bool) (reg : Z) (out : list message) :
  flag ign reg = true ->
  log_line w datas s ign d (mk_line reg LINE_STATE_SCU_CHANGED) out = (Ret d, out).
Proof. intros Hi. unfold log_line. simpl. by rewrite Hi. Qed.

(** ** Concrete runs *)

Definition f1_output : State := mk_state (<[0x024 := 0x200]> (Gpio all_low)) (Scu all_low).

Definition sample_of (t : Z) (s : State) : sample :=
  mk_sample t s (map_to_list (Gpio s)) (map_to_list (Scu s)).

Lemma playback_roundtrip_witness :
  wp (for_each [sample_of 1000 all_low; sample_of 1001 f1_high]
        (fun r => binary_Log (s_time r) (s_gpio r) (s_scu r)))
    (fun _ l => Gpiowatcher playback_SnapshotGpio keep_new keep_log 2 (written l, []) =
       (Ret tt, ([], [all_low; f1_high]))) (mk_log [] 1000).
Proof.
  apply (playback_roundtrip [sample_of 1000 all_low; sample_of 1001 f1_high] 1000); [done| |].
  - apply Forall_cons. split; [|apply Forall_singleton]; (split; [|done]);
      (split; split); apply (bool_decide_eq_true_1 _); by vm_compute.
  - vm_compute. lia.
Defined.

Lemma stdout_log_tracks_direction_witness :
  exists l out' l' m,
    newStdoutLog gpioDirRegs gpioDataRegs gpioDirRegs gpioDataRegs (Some all_low) "A0,B1" [] =
      (Ret l, out') /\
    stdout_run 32 l [(gpioDirRegs, gpioDataRegs, f1_output)] out' = (Ret l', out' ++ m) /\
    flag (dir l') 41 = true.
Proof.
  destruct (newStdoutLog gpioDirRegs gpioDataRegs gpioDirRegs gpioDataRegs (Some all_low) "A0,B1" [])
    as [[l| | |] out'] eqn:En; try (exfalso; revert En; vm_compute; discriminate).
  assert (Hi : flag (ignore l) 41 = false).
  { revert En. unfold newStdoutLog.
    destruct (List gpioDirRegs gpioDataRegs all_low) as [ls|]; [|done].
    intros En. injection En as <- <-. by vm_compute. }
  destruct (stdout_log_tracks_direction 32 gpioDirRegs gpioDataRegs gpioDirRegs gpioDataRegs
    all_low "A0,B1" [(gpioDirRegs, gpioDataRegs, f1_output)] [] l out') as (l' & m & E & T).
  - by left.
  - done.
  - done.
  - split; by vm_compute.
  - apply Forall_singleton. split; [done|]. split; [done|]. split; by vm_compute.
  - exact En.
  - exists l, out', l', m. split; [done|]. split; [done|].
    specialize (T 41 ltac:(left; lia) Hi). by injection T as <-.
Defined.

Lemma ignore_hides_scu_witness :
  GpioPort "B0" = Ret 8 /\
  log_line 32 gpioDataRegs all_low {[8 := true]} ∅ (mk_line 8 LINE_STATE_SCU_CHANGED) [] =
    (Ret ∅, []).
Proof.
  split; [reflexivity|].
  apply (ignore_hides_scu 32 gpioDataRegs all_low {[8 := true]} ∅ 8 []). by vm_compute.
Defined.
