(* ===== verification/Lpc.v ===== *)
(** * Memory access from the host (pkg/aspeed/lpc_mem.go)

    Outside the BMC the drivers reach its address space through the iLPC2AHB
    bridge of the SuperIO, one byte at a time through an index and a data port.
    [AhbBridge] is the contract of that device over the AHB bus behind it, itself
    a [memProvider].  The theorems say that [lpc] is a provider that behaves as
    the bus behind the bridge while /dev/port works, and what it does when it does not. *)

From S2P Require Import Prelude GoMonad Mem.

(** [lpc] without the file and the durations; [f] is the cache of the registers
    F0 to F8. *)
Record lpc : Type := mk_lpc {
  off : Z; f : list Z; wr_count : Z; rd_count : Z; cached_wr_count : Z }.

(** ** The bridge *)

(** The file /dev/port: writing and reading a port, and whether an access fails, which leaves the
    device as it was. *)
Class PortFile (P : Type) : Type := {
  outb : Z -> Z -> P -> P;
  inb : Z -> P -> Z * P;
  port_fails : Z -> P -> bool;
}.

(** The contract of the device behind it: [outb] and [inb] do not fail on the ports
    [off] (index) and [off+1] (data).  [selected] holds while the SuperIO is
    unlocked with logical device 0xd selected. *)
Class AhbBridge (P B : Type) `{PortFile P} `{memProvider B} : Type := {
  port_works : forall port p, port_fails port p = false;
  port0 : Z;
  selected : P -> Prop;
  index : P -> Z;
  freg : P -> list Z;
  ahb : P -> B;
  freg_length : forall p, length (freg p) = 9%nat;
  (** Unlocking twice and selecting device 0xd gives access to F0-F8. *)
  select_spec : forall p,
    let p' := outb (port0 + 1) 0xd (outb port0 7 (outb port0 0xa5 (outb port0 0xa5 p))) in
    selected p' /\ ahb p' = ahb p;
  outb_index : forall p v, selected p ->
    let p' := outb port0 v p in
    (v <> 0xaa -> selected p') /\ index p' = v /\ freg p' = freg p /\ ahb p' = ahb p;
  (** Writing F0-F8. *)
  outb_freg : forall p i v, selected p -> index p = 0xf0 + Z.of_nat i -> (i < 9)%nat ->
    let p' := outb (port0 + 1) v p in
    selected p' /\ freg p' = <[i := v]> (freg p) /\ ahb p' = ahb p;
  (** Enabling the device. *)
  outb_enable : forall p v, selected p -> index p = 0x30 ->
    let p' := outb (port0 + 1) v p in
    selected p' /\ freg p' = freg p /\ ahb p' = ahb p;
  (** Writing 0xcf to FE starts a bus write of the size in F8. *)
  outb_write : forall p, selected p -> index p = 0xfe ->
    let p' := outb (port0 + 1) 0xcf p in
    selected p' /\ freg p' = freg p /\
    (freg p !! 8%nat = Some 2 ->
       MustWrite32 (be_int (take 4 (freg p))) (be_int (take 4 (drop 4 (freg p)))) (ahb p) =
       (Ret tt, ahb p')) /\
    (freg p !! 8%nat = Some 0 ->
       MustWrite8 (be_int (take 4 (freg p))) (freg p !!! 7%nat) (ahb p) = (Ret tt, ahb p'));
  (** Reading FE starts a bus read; F4-F7 (or F7) then hold the value. *)
  inb_read : forall p, selected p -> index p = 0xfe ->
    let p' := (inb (port0 + 1) p).2 in
    selected p' /\
    (freg p !! 8%nat = Some 2 -> exists v, is_uint 32 v /\
       MustRead32 (be_int (take 4 (freg p))) (ahb p) = (Ret v, ahb p') /\
       freg p' = take 4 (freg p) ++ [byte_of 3 v; byte_of 2 v; byte_of 1 v; byte_of 0 v] ++ [2]) /\
    (freg p !! 8%nat = Some 0 -> exists v h, is_uint 8 v /\ length h = 3%nat /\
       MustRead8 (be_int (take 4 (freg p))) (ahb p) = (Ret v, ahb p') /\
       freg p' = take 4 (freg p) ++ h ++ [v] ++ [0]);
  (** Reading F0-F8 has no effect. *)
  inb_freg : forall p i, selected p -> index p = 0xf0 + Z.of_nat i -> (i < 9)%nat ->
    inb (port0 + 1) p = (freg p !!! i, p);
}.

(** Whether an 8-bit read leaves F4-F6 alone, which the source's author did not
    know (TODO in MustRead8); the register cache depends on it after such a read.  The cache is off by
    default. *)
Class StableRead8 (P B : Type) `{AhbBridge P B} : Prop :=
  inb_read8_stable : forall p, selected p -> index p = 0xfe -> freg p !! 8%nat = Some 0 ->
    take 3 (drop 4 (freg (inb (port0 + 1) p).2)) = take 3 (drop 4 (freg p)).

(** ** The driver *)

Section Driver.
Context {P : Type} `{PortFile P} (lpcCache : bool).

(** [l.p.WriteAt(b, port)] and [ReadAt]: an error is only logged, and the byte read is then zero. *)
Definition port_write (port v : Z) : M (lpc * P) unit := fun '(l, p) =>
  (Ret tt, (l, if port_fails port p then p else outb port v p)).
Definition port_read (port : Z) : M (lpc * P) Z := fun '(l, p) =>
  if port_fails port p then (Ret 0, (l, p)) else let '(v, p') := inb port p in (Ret v, (l, p')).

Definition count_wr : M (lpc * P) unit :=
  modify (fun '(l, p) => (mk_lpc (off l) (f l) (wr_count l + 1) (rd_count l) (cached_wr_count l), p)).
Definition count_rd : M (lpc * P) unit :=
  modify (fun '(l, p) => (mk_lpc (off l) (f l) (wr_count l) (rd_count l + 1) (cached_wr_count l), p)).
Definition count_cached : M (lpc * P) unit :=
  modify (fun '(l, p) => (mk_lpc (off l) (f l) (wr_count l) (rd_count l) (cached_wr_count l + 1), p)).

(** [l.f[i] = d]; the index is always in range. *)
Definition set_f (i : Z) (d : Z) : M (lpc * P) unit :=
  modify (fun '(l, p) =>
    (mk_lpc (off l) (<[Z.to_nat i := d]> (f l)) (wr_count l) (rd_count l) (cached_wr_count l), p)).

Definition ctrl (d : Z) : M (lpc * P) unit :=
  _ ← count_wr;
  o ← gets (fun s => off s.1);
  port_write o d.

Definition w (d : Z) : M (lpc * P) unit :=
  _ ← count_wr;
  o ← gets (fun s => off s.1);
  port_write (o + 1) d.

Definition r : M (lpc * P) Z :=
  _ ← count_rd;
  o ← gets (fun s => off s.1);
  port_read (o + 1).

(** [wf(f, d)]: an index outside F0-F8 panics. *)
Definition wf (reg : Z) (d : Z) : M (lpc * P) unit :=
  let i := reg - 0xf0 in
  c ← gets (fun s => f s.1);
  match (if decide (0 <= i) then c !! Z.to_nat i else None) with
  | None => go_panic
  | Some x =>
      if negb (bool_decide (x = d)) || negb lpcCache then
        _ ← ctrl (uint 8 reg);
        _ ← w d;
        set_f i d
      else count_cached
  end.

Definition enable : M (lpc * P) unit := _ ← ctrl 0x30; w 0x1.

Definition unlock : M (lpc * P) unit := _ ← ctrl 0xa5; ctrl 0xa5.

Definition selectDevice (d : Z) : M (lpc * P) unit := _ ← ctrl 0x07; w (uint 8 d).

(** [Close] also prints the statistics. *)
Definition lpc_Close : M (lpc * P) unit := ctrl 0xaa.

Definition addr (a : Z) : M (lpc * P) unit :=
  _ ← wf 0xf0 (byte_of 3 a);
  _ ← wf 0xf1 (byte_of 2 a);
  _ ← wf 0xf2 (byte_of 1 a);
  wf 0xf3 (byte_of 0 a).

Definition lpc_MustRead32 (a : Z) : M (lpc * P) Z :=
  _ ← addr a;
  _ ← wf 0xf8 0x2;
  _ ← ctrl 0xfe;
  _ ← r;
  _ ← ctrl 0xf4;
  f4 ← r;
  _ ← set_f 4 f4;
  _ ← ctrl 0xf5;
  f5 ← r;
  _ ← set_f 5 f5;
  _ ← ctrl 0xf6;
  f6 ← r;
  _ ← set_f 6 f6;
  _ ← ctrl 0xf7;
  f7 ← r;
  _ ← set_f 7 f7;
  mret (Z.lor (Z.lor (Z.lor (ushl 32 f4 24) (ushl 32 f5 16)) (ushl 32 f6 8)) f7).

Definition lpc_MustRead8 (a : Z) : M (lpc * P) Z :=
  _ ← addr a;
  _ ← wf 0xf8 0;
  _ ← ctrl 0xfe;
  _ ← r;
  _ ← ctrl 0xf7;
  f7 ← r;
  _ ← set_f 7 f7;
  mret f7.

Definition lpc_MustWrite32 (a d : Z) : M (lpc * P) unit :=
  _ ← addr a;
  _ ← wf 0xf8 0x2;
  _ ← wf 0xf4 (byte_of 3 d);
  _ ← wf 0xf5 (byte_of 2 d);
  _ ← wf 0xf6 (byte_of 1 d);
  _ ← wf 0xf7 (byte_of 0 d);
  _ ← ctrl 0xfe;
  w 0xcf.

Definition lpc_MustWrite8 (a d : Z) : M (lpc * P) unit :=
  _ ← addr a;
  _ ← wf 0xf8 0;
  _ ← wf 0xf7 (Z.land d 0xff);
  _ ← ctrl 0xfe;
  w 0xcf.

(** [openLpcMemory(port)], once /dev/port is open; the state's [lpc] is the
    fresh one. *)
Definition openLpcMemory : M (lpc * P) unit :=
  _ ← unlock;
  _ ← selectDevice 0xd;
  _ ← for_each (seq 0 9) (fun i =>
        _ ← ctrl (uint 8 (0xf0 + Z.of_nat i));
        w 0);
  enable.

Definition new_lpc (port : Z) : lpc := mk_lpc port (replicate 9 0) 0 0 0.

#[export] Instance lpc_provider : memProvider (lpc * P) := {
  MustRead32 := lpc_MustRead32;
  MustRead8 := lpc_MustRead8;
  MustWrite32 := lpc_MustWrite32;
  MustWrite8 := lpc_MustWrite8;
  Close := lpc_Close;
}.
End Driver.

(** ** The state of the driver against the device *)

Section Refinement.
Context {P B : Type} `{Bridge : AhbBridge P B} (lpcCache : bool).

(** The driver's cache is [C] and the device is selected with registers [F] over
    bus state [b]. *)
Definition raw (C F : list Z) (b : B) (s : lpc * P) : Prop :=
  off s.1 = port0 /\ f s.1 = C /\ selected s.2 /\ freg s.2 = F /\ ahb s.2 = b.

(** With the cache in use, the cache is [F]. *)
Definition view (F : list Z) (b : B) (s : lpc * P) : Prop :=
  exists C, raw C F b s /\ length C = 9%nat /\ (lpcCache = true -> C = F).

Lemma wp_ctrl d Q C F b (s : lpc * P) :
  d <> 0xaa -> raw C F b s ->
  (forall s', raw C F b s' -> index s'.2 = d -> Q tt s') -> wp (ctrl d) Q s.
Proof.
  destruct s as [l p]. intros Hd (Ho & HC & Hs & HF & Hb) HQ. simpl in *.
  destruct (outb_index p d Hs) as (H1 & H2 & H3 & H4).
  unfold ctrl, count_wr, port_write. wp_pure. unfold wp. simpl. rewrite Ho, port_works. apply HQ; [|done].
  repeat split; simpl; try congruence; auto.
Qed.

Lemma wp_w_freg i d Q C F b (s : lpc * P) :
  raw C F b s -> index s.2 = 0xf0 + Z.of_nat i -> (i < 9)%nat ->
  (forall s', raw C (<[i := d]> F) b s' -> Q tt s') -> wp (w d) Q s.
Proof.
  destruct s as [l p]. intros (Ho & HC & Hs & HF & Hb) Hi Hlt HQ. simpl in *.
  destruct (outb_freg p i d Hs Hi Hlt) as (H1 & H2 & H3).
  unfold w, count_wr, port_write. wp_pure. unfold wp. simpl. rewrite Ho, port_works.
  apply HQ. repeat split; simpl; congruence.
Qed.

Lemma wp_r_freg i Q C F b (s : lpc * P) :
  raw C F b s -> index s.2 = 0xf0 + Z.of_nat i -> (i < 9)%nat ->
  (forall s', raw C F b s' -> Q (F !!! i) s') -> wp r Q s.
Proof.
  destruct s as [l p]. intros (Ho & HC & Hs & HF & Hb) Hi Hlt HQ. simpl in *.
  unfold r, count_rd, port_read. wp_pure. unfold wp. simpl. rewrite Ho, port_works.
  rewrite (inb_freg p i Hs Hi Hlt), HF. apply HQ. repeat split; auto.
Qed.

Lemma wp_set_f i d Q C F b (s : lpc * P) :
  raw C F b s -> (forall s', raw (<[Z.to_nat i := d]> C) F b s' -> Q tt s') ->
  wp (set_f i d) Q s.
Proof.
  destruct s as [l p]. intros (Ho & HC & Hs & HF & Hb) HQ. apply wp_modify, HQ.
  repeat split; simpl in *; congruence.
Qed.

(** [l.ctrl(reg); f := l.r(); l.f[i] = f]: the cache entry becomes the
    device's register. *)
Lemma wp_fetch i (reg : Z) {A} (k : Z -> M (lpc * P) A) Q C F b (s : lpc * P) :
  raw C F b s -> reg = 0xf0 + Z.of_nat i -> (i < 9)%nat ->
  (forall s', raw (<[i := F !!! i]> C) F b s' -> wp (k (F !!! i)) Q s') ->
  wp (_ ← ctrl reg; x ← r; _ ← set_f (Z.of_nat i) x; k x) Q s.
Proof.
  intros Hs -> Hi HQ. wp_pure. eapply wp_ctrl; [lia|exact Hs|]. intros s1 R1 I1.
  wp_pure. eapply wp_r_freg; [exact R1|exact I1|done|]. intros s2 R2. wp_pure.
  eapply wp_set_f; [exact R2|]. intros s3 R3. rewrite Nat2Z.id in R3. by apply HQ.
Qed.

(** Writing a register, through the cache or not, sets it on the device. *)
Lemma wp_wf i d Q F b (s : lpc * P) :
  view F b s -> (i < 9)%nat ->
  (forall s', view (<[i := d]> F) b s' -> Q tt s') ->
  wp (wf lpcCache (0xf0 + Z.of_nat i) d) Q s.
Proof.
  intros (C & Hr & Hl & Hc) Hi HQ. unfold wf. wp_pure.
  replace (240 + Z.of_nat i - 240) with (Z.of_nat i) by lia.
  pose proof Hr as (Ho & HC & Hs & HF & Hb). rewrite HC.
  rewrite decide_True, Nat2Z.id by lia.
  destruct (lookup_lt_is_Some_2 C i) as [x Hx]; [lia|]. rewrite Hx.
  destruct (negb (bool_decide (x = d)) || negb lpcCache) eqn:Hw.
  - apply wp_bind. eapply wp_ctrl; [|exact Hr|]; [unfold uint; rewrite Z.mod_small; lia|].
    intros s1 R1 I1. rewrite uint_id in I1 by (unfold is_uint; lia).
    apply wp_bind. eapply wp_w_freg; [exact R1|done|done|]. intros s2 R2.
    eapply wp_set_f; [exact R2|]. intros s3 R3. rewrite Nat2Z.id in R3. apply HQ.
    eexists. split; [exact R3|]. rewrite length_insert. split; [done|].
    intros Hon. by rewrite (Hc Hon).
  - apply orb_false_elim in Hw as [Hx' Hon]. apply negb_false_iff in Hx', Hon.
    apply bool_decide_eq_true_1 in Hx' as ->. unfold count_cached. apply wp_modify, HQ.
    pose proof (Hc Hon) as E. rewrite E in Hx, Hr, Hl. rewrite (list_insert_id F) by done.
    exists F. split; [|done]. destruct s as [l p]. exact Hr.
Qed.

Definition addr_regs (a : Z) (F : list Z) : list Z :=
  [byte_of 3 a; byte_of 2 a; byte_of 1 a; byte_of 0 a] ++ drop 4 F.

Lemma length_view F b s : view F b s -> length F = 9%nat.
Proof. intros (C & (_ & _ & _ & <- & _) & _). apply freg_length. Qed.

Lemma wp_addr a Q F b (s : lpc * P) :
  view F b s -> (forall s', view (addr_regs a F) b s' -> Q tt s') ->
  wp (addr lpcCache a) Q s.
Proof.
  intros Hv HQ. pose proof (length_view _ _ _ Hv) as HF. unfold addr. wp_pure.
  eapply (wp_wf 0); [exact Hv|lia|]. intros s1 V1. wp_pure.
  eapply (wp_wf 1); [exact V1|lia|]. intros s2 V2. wp_pure.
  eapply (wp_wf 2); [exact V2|lia|]. intros s3 V3.
  eapply (wp_wf 3); [exact V3|lia|]. intros s4 V4. apply HQ.
  do 4 (destruct F as [|? F]; [done|]). exact V4.
Qed.

(** The registers an operation at address [a] of size code [sz] starts from. *)
Definition op_regs (a sz : Z) (F : list Z) : list Z :=
  [byte_of 3 a; byte_of 2 a; byte_of 1 a; byte_of 0 a] ++ take 4 (drop 4 F) ++ [sz].

Lemma wp_setup a sz {A} (k : M (lpc * P) A) Q F b (s : lpc * P) :
  view F b s -> (forall s', view (op_regs a sz F) b s' -> wp k Q s') ->
  wp (_ ← addr lpcCache a; _ ← wf lpcCache 0xf8 sz; k) Q s.
Proof.
  intros Hv HQ. pose proof (length_view _ _ _ Hv) as HF. wp_pure.
  eapply wp_addr; [exact Hv|]. intros s1 V1. wp_pure.
  eapply (wp_wf 8); [exact V1|lia|]. intros s2 V2. apply HQ.
  do 9 (destruct F as [|? F]; [done|]). destruct F; [|done]. exact V2.
Qed.

(** Starting a bus read from registers [F]. *)
Lemma wp_trigger_read Q C F b (s : lpc * P) :
  raw C F b s -> index s.2 = 0xfe ->
  (forall x s', raw C (freg s'.2) (ahb s'.2) s' -> s'.2 = (inb (port0 + 1) s.2).2 -> Q x s') ->
  wp r Q s.
Proof.
  destruct s as [l p]. intros (Ho & HC & Hs & HF & Hb) Hi HQ. simpl in *.
  destruct (inb_read p Hs Hi) as (H1 & _).
  unfold r, count_rd, port_read. wp_pure. unfold wp. simpl. rewrite Ho, port_works.
  destruct (inb (port0 + 1) p) as [x p'] eqn:Ei. apply HQ; [|done].
  repeat split; simpl in *; auto.
Qed.

(** Starting a bus write. *)
Lemma wp_trigger_write Q C F b (s : lpc * P) :
  raw C F b s -> index s.2 = 0xfe ->
  (forall s', raw C F (ahb s'.2) s' ->
     (F !! 8%nat = Some 2 ->
        MustWrite32 (be_int (take 4 F)) (be_int (take 4 (drop 4 F))) b = (Ret tt, ahb s'.2)) ->
     (F !! 8%nat = Some 0 ->
        MustWrite8 (be_int (take 4 F)) (F !!! 7%nat) b = (Ret tt, ahb s'.2)) -> Q tt s') ->
  wp (w 0xcf) Q s.
Proof.
  destruct s as [l p]. intros (Ho & HC & Hs & HF & Hb) Hi HQ. simpl in *.
  destruct (outb_write p Hs Hi) as (H1 & H2 & H3 & H4).
  unfold w, count_wr, port_write. wp_pure. unfold wp. simpl. rewrite Ho, port_works. subst F b.
  apply HQ; auto. repeat split; auto.
Qed.

(** The four operations are those of the bus behind the bridge, at the low 32
    bits of the address. *)
Lemma lpc_MustWrite32_spec a d F b (s : lpc * P) :
  view F b s ->
  wp (lpc_MustWrite32 lpcCache a d) (fun _ s' => exists F' b', view F' b' s' /\
    MustWrite32 (uint 32 a) (uint 32 d) b = (Ret tt, b')) s.
Proof.
  intros Hv. pose proof (length_view _ _ _ Hv) as HF.
  eapply wp_setup; [exact Hv|]. intros s1 V1. wp_pure.
  eapply (wp_wf 4); [exact V1|lia|]. intros s2 V2. wp_pure.
  eapply (wp_wf 5); [exact V2|lia|]. intros s3 V3. wp_pure.
  eapply (wp_wf 6); [exact V3|lia|]. intros s4 V4. wp_pure.
  eapply (wp_wf 7); [exact V4|lia|]. intros s5 (C & R5 & LC & HC). wp_pure.
  eapply wp_ctrl; [lia|exact R5|]. intros s6 R6 I6.
  eapply wp_trigger_write; [exact R6|exact I6|]. intros s7 R7 H32 _.
  do 9 (destruct F as [|? F]; [done|]). destruct F; [|done].
  eexists _, _. split; [exists C; split; [exact R7|done]|].
  rewrite <- !be_int_word. by apply H32.
Qed.

Lemma lpc_MustWrite8_spec a d F b (s : lpc * P) :
  view F b s -> is_uint 8 d ->
  wp (lpc_MustWrite8 lpcCache a d) (fun _ s' => exists F' b', view F' b' s' /\
    MustWrite8 (uint 32 a) d b = (Ret tt, b')) s.
Proof.
  intros Hv Hd. pose proof (length_view _ _ _ Hv) as HF.
  eapply wp_setup; [exact Hv|]. intros s1 V1. wp_pure.
  eapply (wp_wf 7); [exact V1|lia|]. intros s5 (C & R5 & LC & HC). wp_pure.
  eapply wp_ctrl; [lia|exact R5|]. intros s6 R6 I6.
  eapply wp_trigger_write; [exact R6|exact I6|]. intros s7 R7 _ H8.
  do 9 (destruct F as [|? F]; [done|]). destruct F; [|done].
  eexists _, _. split; [exists C; split; [exact R7|done]|].
  rewrite <- !be_int_word. rewrite <- (uint_id 8 d Hd) at 1.
  rewrite uint_land by lia. by apply H8.
Qed.

Lemma lpc_MustRead32_spec a F b (s : lpc * P) :
  view F b s ->
  wp (lpc_MustRead32 lpcCache a) (fun v s' => exists F' b', view F' b' s' /\
    MustRead32 (uint 32 a) b = (Ret v, b')) s.
Proof.
  intros Hv. pose proof (length_view _ _ _ Hv) as HF.
  eapply wp_setup; [exact Hv|]. intros s1 (C & R1 & LC & HC). wp_pure.
  eapply wp_ctrl; [lia|exact R1|]. intros s2 R2 I2. wp_pure.
  pose proof R2 as (_ & _ & S2 & F2 & B2).
  destruct (inb_read s2.2 S2 I2) as (_ & H32 & _). rewrite F2, B2 in H32.
  do 9 (destruct F as [|? F]; [done|]). destruct F; [|done].
  destruct (H32 eq_refl) as (v & Hv32 & Er & EF).
  eapply wp_trigger_read; [exact R2|exact I2|]. intros x s3 R3 E3.
  rewrite E3, EF in R3 at 1. cbn [take app] in R3.
  eapply (wp_fetch 4 0xf4); [exact R3|done|lia|]. intros s4 R4.
  eapply (wp_fetch 5 0xf5); [exact R4|done|lia|]. intros s5 R5.
  eapply (wp_fetch 6 0xf6); [exact R5|done|lia|]. intros s6 R6.
  eapply (wp_fetch 7 0xf7); [exact R6|done|lia|]. intros s7 R7. apply wp_ret.
  exists (freg s7.2), (ahb s3.2). split.
  - eexists. split; [|split].
    + pose proof R7 as (_ & _ & _ & -> & _). exact R7.
    + by rewrite !length_insert.
    + intros Hon. rewrite (HC Hon). by destruct R7 as (_ & _ & _ & -> & _).
  - replace (Z.lor _ _) with v; [rewrite <- be_int_word, E3; exact Er|]. symmetry.
    etransitivity; [apply (word_be_int (byte_of 0 v) (byte_of 1 v) (byte_of 2 v) (byte_of 3 v));
      apply byte_of_range|]. by rewrite be_int_word, uint_id.
Qed.

(** An 8-bit read needs the registers F4-F6 to be stable for the cache to stay in step. *)
Lemma lpc_MustRead8_value a F b (s : lpc * P) :
  view F b s ->
  wp (lpc_MustRead8 lpcCache a) (fun v s' => exists C' F' b', raw C' F' b' s' /\
    MustRead8 (uint 32 a) b = (Ret v, b') /\ (lpcCache = false \/ StableRead8 P B -> view F' b' s')) s.
Proof.
  intros Hv. pose proof (length_view _ _ _ Hv) as HF.
  eapply wp_setup; [exact Hv|]. intros s1 (C & R1 & LC & HC). wp_pure.
  eapply wp_ctrl; [lia|exact R1|]. intros s2 R2 I2. wp_pure.
  pose proof R2 as (_ & _ & S2 & F2 & B2).
  destruct (inb_read s2.2 S2 I2) as (_ & _ & H8). rewrite F2, B2 in H8.
  do 9 (destruct F as [|? F]; [done|]). destruct F; [|done].
  destruct (H8 eq_refl) as (v & h & Hv8 & Hh & Er & EF).
  eapply wp_trigger_read; [exact R2|exact I2|]. intros x s3 R3 E3.
  rewrite E3, EF in R3 at 1. cbn [take app] in R3.
  destruct h as [|h4 [|h5 [|h6 [|]]]]; try done. cbn [app] in R3.
  eapply (wp_fetch 7 0xf7); [exact R3|done|lia|]. intros s7 R7. apply wp_ret.
  pose proof R7 as (_ & _ & _ & E7 & _). rewrite <- E7 in R7. eexists _, (freg s7.2), (ahb s3.2). split_and!; [exact R7| |].
  - rewrite <- be_int_word, E3. exact Er.
  - intros Hst. eexists. split; [exact R7|]. split; [by rewrite !length_insert|].
    intros Hon. destruct Hst as [Hoff|Hst]; [congruence|].
    pose proof (Hst s2.2 S2 I2) as Hs8. rewrite F2, EF in Hs8.
    specialize (Hs8 eq_refl). cbn in Hs8. injection Hs8 as -> -> ->. by rewrite (HC Hon), E7.
Qed.

Lemma lpc_MustRead8_spec a F b (s : lpc * P) :
  lpcCache = false \/ StableRead8 P B -> view F b s ->
  wp (lpc_MustRead8 lpcCache a) (fun v s' => exists F' b', view F' b' s' /\
    MustRead8 (uint 32 a) b = (Ret v, b')) s.
Proof.
  intros Hst Hv. eapply wp_mono; [by eapply lpc_MustRead8_value|]. intros v s' (C' & F' & b' & _ & Er & Hview). eauto.
Qed.

Lemma wp_clear_regs n Q C F b (s : lpc * P) :
  (n <= 9)%nat -> raw C F b s ->
  (forall s', raw C (replicate n 0 ++ drop n F) b s' -> Q tt s') ->
  wp (for_each (seq 0 n) (fun i => _ ← ctrl (uint 8 (0xf0 + Z.of_nat i)); w 0)) Q s.
Proof.
  intros Hn Hr HQ. assert (HF : length F = 9%nat).
  { destruct Hr as (_ & _ & _ & <- & _). apply freg_length. }
  eapply wp_mono; [apply (wp_for_each (fun done_ s' =>
    raw C (replicate (length done_) 0 ++ drop (length done_) F) b s')); [exact Hr|]|].
  - intros done_ x rest s' El Hraw.
    assert (x = length done_) as ->.
    { apply (f_equal (fun l => l !! length done_)) in El.
      rewrite list_lookup_middle in El by done.
      destruct (decide (length done_ < n)%nat); [|rewrite lookup_seq_ge in El by lia; done].
      rewrite lookup_seq_lt in El by lia. by injection El. }
    assert (Hx : (length done_ < n)%nat).
    { apply (f_equal length) in El. rewrite length_seq, length_app in El. simpl in El. lia. }
    wp_pure. eapply wp_ctrl; [|exact Hraw|]; [unfold uint; rewrite Z.mod_small; lia|].
    intros s1 R1 I1. rewrite uint_id in I1 by (unfold is_uint; lia).
    eapply wp_w_freg; [exact R1|exact I1|lia|]. intros s2 R2.
    rewrite length_app. simpl. rewrite insert_app_r_alt in R2 by (rewrite length_replicate; lia).
    rewrite length_replicate, Nat.sub_diag in R2.
    destruct (drop (length done_) F) as [|y rest'] eqn:Ed;
      [apply (f_equal length) in Ed; rewrite length_drop in Ed; simpl in Ed; lia|].
    replace (drop (length done_ + 1) F) with rest'
      by (rewrite <- drop_drop, Ed; done).
    rewrite replicate_add, <- app_assoc. exact R2.
  - intros [] s'. rewrite length_seq. apply HQ.
Qed.

Lemma unlock_run (l : lpc) (p : P) :
  unlock (l, p) = (Ret tt, (mk_lpc (off l) (f l) (wr_count l + 1 + 1) (rd_count l)
    (cached_wr_count l), outb (off l) 0xa5 (outb (off l) 0xa5 p))).
Proof. unfold unlock, ctrl, count_wr, port_write, mbind, M_bind, gets, modify. cbn. by rewrite !port_works. Qed.

Lemma selectDevice_run (l : lpc) (p : P) d :
  selectDevice d (l, p) = (Ret tt, (mk_lpc (off l) (f l) (wr_count l + 1 + 1) (rd_count l)
    (cached_wr_count l), outb (off l + 1) (uint 8 d) (outb (off l) 7 p))).
Proof. unfold selectDevice, ctrl, w, count_wr, port_write, mbind, M_bind, gets, modify. cbn. by rewrite !port_works. Qed.

(** [openLpcMemory] makes the device's registers match the fresh cache. *)
Lemma openLpcMemory_spec (p : P) :
  wp openLpcMemory (fun _ s' => view (replicate 9 0) (ahb p) s') (new_lpc port0, p).
Proof.
  destruct (select_spec p) as (Hs & Hb). set (p1 := outb (port0 + 1) 0xd _) in *.
  unfold openLpcMemory. apply wp_bind. unfold wp at 1. rewrite unlock_run.
  apply wp_bind. unfold wp at 1. rewrite selectDevice_run. cbn [off new_lpc f]. fold p1.
  apply wp_bind.
  eapply (wp_clear_regs 9 _ (replicate 9 0) (freg p1) (ahb p)); [done|by repeat split|].
  intros s1 R1. unfold enable. wp_pure. eapply wp_ctrl; [lia|exact R1|].
  intros [l2 p2] (Ho & HC & HS & HF & HB) I2. simpl in *.
  destruct (outb_enable p2 0x1 HS I2) as (E1 & E2 & E3).
  unfold w, count_wr, port_write. wp_pure. unfold wp. simpl. rewrite Ho, port_works.
  exists (replicate 9 0). rewrite drop_ge in HF by (rewrite freg_length; lia).
  split; [|done]. repeat split; simpl; congruence.
Qed.
End Refinement.

(** C10:  The LPC driver is a faithful memory provider while /dev/port works: from a state in which the
    register cache (when in use; it is off by default) matches the device, each of its four operations
    returns what the bus behind the bridge returns for the low 32 bits of the
    address and performs that one bus operation.  Afterwards the cache is in step again: always after a word or a write, and
    after a byte read when the cache is off or the bridge leaves F4 to F6 alone in such a read, which is not documented. *)
Theorem lpc_refines_bus {P B : Type} `{AhbBridge P B} (lpcCache : bool) (F : list Z) (b : B)
    (s : lpc * P) (a d : Z) :
  view lpcCache F b s ->
  wp (lpc_MustRead32 lpcCache a) (fun v s' => exists F' b', view lpcCache F' b' s' /\
    MustRead32 (uint 32 a) b = (Ret v, b')) s /\
  wp (lpc_MustRead8 lpcCache a) (fun v s' => exists C' F' b', raw C' F' b' s' /\
    MustRead8 (uint 32 a) b = (Ret v, b') /\ (lpcCache = false \/ StableRead8 P B -> view lpcCache F' b' s')) s /\
  wp (lpc_MustWrite32 lpcCache a d) (fun _ s' => exists F' b', view lpcCache F' b' s' /\
    MustWrite32 (uint 32 a) (uint 32 d) b = (Ret tt, b')) s /\
  (is_uint 8 d ->
   wp (lpc_MustWrite8 lpcCache a d) (fun _ s' => exists F' b', view lpcCache F' b' s' /\
     MustWrite8 (uint 32 a) d b = (Ret tt, b')) s).
Proof.
  intros Hv. split; [by eapply lpc_MustRead32_spec|].
  split; [by eapply lpc_MustRead8_value|].
  split; [by eapply lpc_MustWrite32_spec|intros Hd; by eapply lpc_MustWrite8_spec].
Qed.

(** ** A port that fails *)

Section Dead.
Context {P : Type} `{PortFile P} (Hdead : forall port p, port_fails port p = true).

(** Only the driver's own record changes. *)
Definition dead {A} (p : P) (Q : A -> Prop) (m : M (lpc * P) A) : Prop := forall l, length (f l) = 9%nat ->
  wp m (fun v s' => Q v /\ s'.2 = p /\ length (f s'.1) = 9%nat) (l, p).

Lemma dead_bind {A B} p (Q : A -> Prop) (R : B -> Prop) (m : M (lpc * P) A) k :
  dead p Q m -> (forall a, Q a -> dead p R (k a)) -> dead p R (m ≫= k).
Proof.
  intros Hm Hk l Hl. apply wp_bind. eapply wp_mono; [by apply Hm|]. intros a [l' p'] (Ha & Hp & Hl'). cbn in Hp, Hl'. subst p'. by apply Hk.
Qed.

Lemma dead_ctrl p d : dead p (fun _ => True) (ctrl d).
Proof. intros l Hl. unfold ctrl, count_wr, port_write. wp_pure. unfold wp. cbn. by rewrite Hdead. Qed.

Lemma dead_w p d : dead p (fun _ => True) (w d).
Proof. intros l Hl. unfold w, count_wr, port_write. wp_pure. unfold wp. cbn. by rewrite Hdead. Qed.

Lemma dead_r p : dead p (fun v => v = 0) r.
Proof. intros l Hl. unfold r, count_rd, port_read. wp_pure. unfold wp. cbn. by rewrite Hdead. Qed.

Lemma dead_set_f p i d : dead p (fun _ => True) (set_f i d).
Proof. intros l Hl. apply wp_modify. cbn. by rewrite length_insert. Qed.

Lemma dead_wf p reg d : 0xf0 <= reg < 0xf9 -> dead p (fun _ => True) (wf false reg d).
Proof.
  intros Hreg l Hl. unfold wf. wp_pure. rewrite decide_True by lia. destruct (lookup_lt_is_Some_2 (f l) (Z.to_nat (reg - 240))) as [x Hx]; [lia|].
  cbn [fst]. rewrite Hx, orb_true_r. revert l Hl Hx. intros l Hl _. revert l Hl.
  eapply dead_bind; [apply dead_ctrl|intros _ _]. eapply dead_bind; [apply dead_w|intros _ _]. apply dead_set_f.
Qed.
End Dead.

(** Without the port the driver goes on: its errors are logged only, and a byte read is zero whatever the memory holds. *)
Theorem lpc_read_without_port {P : Type} `{PortFile P} (a : Z) (l : lpc) (p : P) :
  length (f l) = 9%nat -> (forall port p, port_fails port p = true) ->
  wp (lpc_MustRead8 false a) (fun v s' => v = 0 /\ s'.2 = p) (l, p).
Proof.
  assert (Hd : (forall port p, port_fails port p = true) -> dead p (fun v => v = 0) (lpc_MustRead8 false a)).
  { intros Hf. unfold lpc_MustRead8, addr.
  repeat (eapply dead_bind; [first [apply dead_ctrl; done|apply dead_r; done|apply dead_set_f|apply dead_wf; [done|lia]|
    repeat (eapply dead_bind; [apply dead_wf; [done|lia]|intros _ _]); apply dead_wf; [done|lia]]|]; intros ? ?).
  intros l' Hl. apply wp_ret. done. }
  intros Hl Hf. eapply wp_mono; [exact (Hd Hf l Hl)|]. intros v s' (Hv & Hp & _). done.
Qed.

(** [openLpcMemory] selects the bridge and zeroes F0 to F8, so that the
    fresh cache matches the device, without touching the bus behind it. *)
Theorem openLpcMemory_coherent {P B : Type} `{AhbBridge P B} (lpcCache : bool) (p : P) :
  wp openLpcMemory (fun _ s' => view lpcCache (replicate 9 0) (ahb p) s') (new_lpc port0, p).
Proof. apply openLpcMemory_spec. Qed.

(** ** A concrete bridge *)

(** A SuperIO over plain memory. *)
Module SimSio.
Record sio : Type := mk_sio { s_idx : Z; s_regs : list Z; s_ram : SimBus.ram }.

(** The registers are nine bytes; other lists read as zeros. *)
Definition nine (l : list Z) : list Z :=
  if decide (length l = 9%nat) then l else replicate 9 0.

Lemma length_nine l : length (nine l) = 9%nat.
Proof. unfold nine. by case_decide. Qed.

Lemma nine_id l : length l = 9%nat -> nine l = l.
Proof. intros. unfold nine. by rewrite decide_True. Qed.

Definition sim_outb (port v : Z) (p : sio) : sio :=
  let F := nine (s_regs p) in
  if decide (port = 0x2e) then mk_sio v F (s_ram p)
  else if decide (0xf0 <= s_idx p < 0xf9) then
    mk_sio (s_idx p) (<[Z.to_nat (s_idx p - 0xf0) := v]> F) (s_ram p)
  else if decide (s_idx p = 0xfe) then
    let a := be_int (take 4 F) in
    mk_sio (s_idx p) F (if decide (F !! 8%nat = Some 2)
      then <[a := be_int (take 4 (drop 4 F))]> (s_ram p) else <[a := F !!! 7%nat]> (s_ram p))
  else mk_sio (s_idx p) F (s_ram p).

Definition sim_inb (port : Z) (p : sio) : Z * sio :=
  let F := nine (s_regs p) in
  if decide (s_idx p = 0xfe) then
    let v := default 0 (s_ram p !! be_int (take 4 F)) in
    let v := if decide (F !! 8%nat = Some 2) then uint 32 v else uint 8 v in
    (0, mk_sio (s_idx p) (if decide (F !! 8%nat = Some 2)
        then take 4 F ++ [byte_of 3 v; byte_of 2 v; byte_of 1 v; byte_of 0 v] ++ [2]
        else take 4 F ++ take 3 (drop 4 F) ++ [v] ++ [0]) (s_ram p))
  else (F !!! Z.to_nat (s_idx p - 0xf0), p).

#[global] Instance sim_port : PortFile sio := { outb := sim_outb; inb := sim_inb; port_fails _ _ := false }.

#[global] Program Instance sim_bridge : AhbBridge sio SimBus.ram := {
  port0 := 0x2e; selected _ := True;
  index := s_idx; freg p := nine (s_regs p); ahb := s_ram }.
Next Obligation. done. Qed.
Next Obligation. intros. apply length_nine. Qed.
Next Obligation. intros p. done. Qed.
Next Obligation.
  intros p v _. unfold outb, sim_port, sim_outb. rewrite decide_True by done. simpl.
  by rewrite (nine_id (nine _)) by apply length_nine.
Qed.
Next Obligation.
  intros p i v _ Hi Hlt. unfold outb, sim_port, sim_outb. rewrite decide_False, decide_True by lia. simpl.
  rewrite Hi. replace (Z.to_nat _) with i by lia.
  by rewrite (nine_id (<[i := v]> _)) by (rewrite length_insert; apply length_nine).
Qed.
Next Obligation.
  intros p v _ Hi. unfold outb, sim_port, sim_outb. rewrite Hi.
  rewrite decide_False by lia. rewrite decide_False by lia. rewrite decide_False by lia. simpl.
  by rewrite (nine_id (nine _)) by apply length_nine.
Qed.
Next Obligation.
  intros p _ Hi. unfold outb, sim_port, sim_outb. rewrite Hi.
  rewrite decide_False by lia. rewrite decide_False by lia.
  rewrite (decide_True (P := 254 = 254)) by done. simpl.
  rewrite (nine_id (nine _)) by apply length_nine. split; [done|]. split; [done|].
  split; intros H8; [by rewrite decide_True by done|by rewrite decide_False by congruence].
Qed.
Next Obligation.
  intros p _ Hi. unfold inb, sim_port, sim_inb. rewrite Hi. rewrite (decide_True (P := 254 = 254)) by done.
  simpl. split; [done|]. pose proof (length_nine (s_regs p)) as HL. split; intros H8.
  - rewrite !decide_True by done.
    exists (uint 32 (default 0 (s_ram p !! be_int (take 4 (nine (s_regs p)))))).
    split; [by apply uint_range|]. split; [done|].
    apply nine_id. by rewrite length_app, length_take, HL.
  - rewrite !decide_False by congruence.
    exists (uint 8 (default 0 (s_ram p !! be_int (take 4 (nine (s_regs p)))))),
      (take 3 (drop 4 (nine (s_regs p)))).
    split; [by apply uint_range|]. split; [rewrite length_take, length_drop; lia|].
    split; [done|]. apply nine_id. by rewrite !length_app, !length_take, length_drop, HL.
Qed.
Next Obligation.
  intros p i _ Hi Hlt. unfold inb, sim_port, sim_inb. rewrite Hi, decide_False by lia.
  by replace (Z.to_nat _) with i by lia.
Qed.

#[global] Instance sim_stable : StableRead8 sio SimBus.ram.
Proof.
  intros p _ Hi H8. unfold inb, freg, index, port0, sim_port in *. simpl in *. unfold sim_inb. rewrite Hi.
  rewrite (decide_True (P := 254 = 254)) by done. rewrite !decide_False by congruence.
  pose proof (length_nine (s_regs p)) as HL. simpl. rewrite nine_id.
  - clear H8. revert HL. generalize (nine (s_regs p)). intros L HL.
    do 9 (destruct L as [|? L]; [done|]). done.
  - by rewrite !length_app, !length_take, length_drop, HL.
Qed.

Definition sio0 : sio := mk_sio 0 (replicate 9 0) {[0x1e6e207c := 0x04030303]}.

Lemma lpc_refines_bus_witness :
  wp (lpc_MustRead32 true 0x1e6e207c) (fun v s' => exists F' b', view true F' b' s' /\
    MustRead32 (uint 32 0x1e6e207c) (s_ram sio0) = (Ret v, b')) (new_lpc 0x2e, sio0).
Proof.
  assert (Hv : view true (replicate 9 0) (s_ram sio0) (new_lpc 0x2e, sio0)).
  { exists (replicate 9 0). by repeat split. }
  exact (proj1 (lpc_refines_bus true (replicate 9 0) (s_ram sio0) (new_lpc 0x2e, sio0)
    0x1e6e207c 0 Hv)).
Defined.
(** A port that cannot be accessed. *)
Definition dead_port : PortFile unit := {| outb _ _ p := p; inb _ p := (255, p); port_fails _ _ := true |}.

Lemma lpc_read_without_port_witness :
  wp (lpc_MustRead8 (H := dead_port) false 0x1e6e207c) (fun v s' => v = 0 /\ s'.2 = tt) (new_lpc 0x2e, tt).
Proof. apply (lpc_read_without_port (H := dead_port) 0x1e6e207c (new_lpc 0x2e) tt); done. Defined.
End SimSio.
