(* ===== verification/HostMem.v ===== *)
(** * Memory access on the BMC (pkg/aspeed/host_mem.go)

    On the BMC the drivers map one page of /dev/mem per access.  [DevMem] is the
    contract of the mapping over the physical address space, a [memProvider];
    the theorem says that [hostMem] behaves as that address space on every access
    that stays inside its page.  [uintptr] is [w] bits wide. *)

From S2P Require Import Prelude GoMonad Mem.

(** The contract of mmap on /dev/mem: a mapping shows one page of physical
    memory, and accesses inside it are accesses to that page. *)
Class DevMem (K B : Type) `{memProvider B} : Type := {
  pagesize : Z;
  page_bits : Z;
  pagesize_pow2 : pagesize = 2 ^ page_bits;
  page_bits_range : 2 <= page_bits < 32;
  mapping : Type;
  mmap : Z -> Z -> M K (result mapping);
  munmap : mapping -> M K (result unit);
  load32 : mapping -> Z -> M K Z;
  load8 : mapping -> Z -> M K Z;
  store32 : mapping -> Z -> Z -> M K unit;
  store8 : mapping -> Z -> Z -> M K unit;
  phys : K -> B;
  mapped_at : mapping -> Z;
  mmap_spec : forall page k, page mod pagesize = 0 -> 0 <= page ->
    exists m k', mmap page pagesize k = (Ret (Ok m), k') /\ mapped_at m = page /\ phys k' = phys k;
  munmap_spec : forall m k, exists k', munmap m k = (Ret (Ok tt), k') /\ phys k' = phys k;
  load32_spec : forall m o k, 0 <= o -> o + 4 <= pagesize -> exists v k',
    load32 m o k = (Ret v, k') /\ MustRead32 (mapped_at m + o) (phys k) = (Ret v, phys k');
  load8_spec : forall m o k, 0 <= o < pagesize -> exists v k',
    load8 m o k = (Ret v, k') /\ MustRead8 (mapped_at m + o) (phys k) = (Ret v, phys k');
  store32_spec : forall m o v k, 0 <= o -> o + 4 <= pagesize -> exists k',
    store32 m o v k = (Ret tt, k') /\ MustWrite32 (mapped_at m + o) v (phys k) = (Ret tt, phys k');
  store8_spec : forall m o v k, 0 <= o < pagesize -> exists k',
    store8 m o v k = (Ret tt, k') /\ MustWrite8 (mapped_at m + o) v (phys k) = (Ret tt, phys k');
}.

Section Driver.
Context {K B : Type} `{DevMem K B} (w : Z).

(** [address & ^(ps - 1)]. *)
Definition page_of (address : Z) : Z := Z.land address (unot w (uint w (pagesize - 1))).

(** Map the page, run [access] at the offset, unmap; an error panics, as does an
    offset outside the mapping. *)
Definition with_page {A} (address : Z) (access : mapping -> Z -> M K A) : M K A :=
  let page := page_of address in
  let offset := uint w (address - page) in
  m ← mmap page pagesize;
  match m with
  | Err _ => go_panic
  | Ok m =>
      if decide (offset < pagesize) then
        v ← access m offset;
        e ← munmap m;
        match e with
        | Err _ => go_panic
        | Ok _ => mret v
        end
      else go_panic
  end.

Definition host_MustRead32 (address : Z) : M K Z := with_page address load32.
Definition host_MustRead8 (address : Z) : M K Z := with_page address load8.
Definition host_MustWrite32 (address data : Z) : M K unit :=
  with_page address (fun m o => store32 m o data).
Definition host_MustWrite8 (address data : Z) : M K unit :=
  with_page address (fun m o => store8 m o data).

(** ** The page arithmetic *)

Lemma page_of_spec address :
  w = 32 \/ w = 64 -> is_uint w address ->
  page_of address = address - address mod pagesize /\
  uint w (address - page_of address) = address mod pagesize.
Proof.
  intros Hw Ha. pose proof page_bits_range as Hk.
  assert (Hp : page_of address = address - address mod pagesize).
  { unfold page_of. rewrite pagesize_pow2. replace (2 ^ page_bits - 1) with (Z.ones page_bits)
      by (rewrite Z.ones_equiv; lia).
    assert (Hwk : page_bits < w) by (destruct Hw; lia).
    rewrite (uint_id w (Z.ones page_bits)).
    2: { rewrite Z.ones_equiv. unfold is_uint.
         assert (0 <= w) by lia. assert (2 ^ page_bits < 2 ^ w) by (apply Z.pow_lt_mono_r; lia).
         assert (0 < 2 ^ page_bits) by (apply Z.pow_pos_nonneg; lia). lia. }
    transitivity (Z.ldiff address (Z.ones page_bits)).
    - apply Z.bits_inj'. intros i Hi. rewrite Z.land_spec, Z.ldiff_spec, unot_testbit by lia.
      destruct (decide (i < w)).
      + by rewrite bool_decide_eq_true_2, xorb_true_r by lia.
      + rewrite (uint_testbit_high w address) by (done || lia). done.
    - rewrite Z.ldiff_ones_r, Z.shiftl_mul_pow2, Z.shiftr_div_pow2 by lia.
      assert (2 ^ page_bits <> 0) as Hnz by (apply Z.pow_nonzero; lia).
      pose proof (Z.div_mod address _ Hnz). lia. }
  split; [done|]. rewrite Hp. replace (address - (address - _)) with (address mod pagesize) by lia.
  apply uint_id. assert (Hpos : 0 < 2 ^ page_bits) by (apply Z.pow_pos_nonneg; lia).
  rewrite pagesize_pow2. unfold is_uint in *.
  pose proof (Z.mod_pos_bound address _ Hpos).
  pose proof (Z.mod_le address _ (proj1 Ha) Hpos). lia.
Qed.

Lemma wp_with_page {A} address (access : mapping -> Z -> M K A) (Q : A -> K -> Prop) k :
  w = 32 \/ w = 64 -> is_uint w address ->
  (forall m k1, mapped_at m + address mod pagesize = address -> phys k1 = phys k ->
     exists v k2, access m (address mod pagesize) k1 = (Ret v, k2) /\
       forall k3, phys k3 = phys k2 -> Q v k3) ->
  wp (with_page address access) Q k.
Proof.
  intros Hw Ha Hacc. destruct (page_of_spec address Hw Ha) as [Hp Ho].
  pose proof page_bits_range as Hk.
  assert (Hps : 0 < pagesize) by (rewrite pagesize_pow2; apply Z.pow_pos_nonneg; lia).
  pose proof (Z.mod_pos_bound address pagesize Hps) as Hb.
  assert (Hmod : page_of address mod pagesize = 0).
  { rewrite Hp, Zminus_mod, Zmod_mod, Z.sub_diag. by apply Z.mod_0_l; lia. }
  assert (Hpos : 0 <= page_of address).
  { rewrite Hp. unfold is_uint in Ha. pose proof (Z.mod_le address pagesize). lia. }
  destruct (mmap_spec (page_of address) k Hmod Hpos) as (m & k1 & E1 & Hm & P1).
  unfold with_page. rewrite Ho. apply wp_bind. unfold wp at 1. rewrite E1.
  rewrite decide_True by lia.
  destruct (Hacc m k1) as (v & k2 & E2 & HQ); [rewrite Hm, Hp; lia|done|].
  apply wp_bind. unfold wp at 1. rewrite E2.
  destruct (munmap_spec m k2) as (k3 & E3 & P3). apply wp_bind. unfold wp at 1. rewrite E3.
  by apply HQ.
Qed.
End Driver.

(** The four accesses against the address space. *)
Lemma hostMem_accesses {K B : Type} `{DevMem K B} (w a d : Z) (k : K) :
  w = 32 \/ w = 64 -> is_uint w a ->
  wp (host_MustRead8 w a) (fun v k' => MustRead8 a (phys k) = (Ret v, phys k')) k /\
  wp (host_MustWrite8 w a d) (fun _ k' => MustWrite8 a d (phys k) = (Ret tt, phys k')) k /\
  (a mod 4 = 0 ->
   wp (host_MustRead32 w a) (fun v k' => MustRead32 a (phys k) = (Ret v, phys k')) k /\
   wp (host_MustWrite32 w a d) (fun _ k' => MustWrite32 a d (phys k) = (Ret tt, phys k')) k).
Proof.
  intros Hw Ha. pose proof page_bits_range as Hk.
  assert (Hps : 0 < pagesize) by (rewrite pagesize_pow2; apply Z.pow_pos_nonneg; lia).
  pose proof (Z.mod_pos_bound a pagesize Hps) as Hb.
  split; [|split; [|intros H4; assert (Hin : a mod pagesize + 4 <= pagesize); [|split]]].
  - apply wp_with_page; [done|done|]. intros m k1 Em Ep.
    destruct (load8_spec m (a mod pagesize) k1 Hb) as (v & k2 & E & El).
    exists v, k2. split; [done|]. intros k3 ->. by rewrite <- El, Em, Ep.
  - apply wp_with_page; [done|done|]. intros m k1 Em Ep.
    destruct (store8_spec m (a mod pagesize) d k1 Hb) as (k2 & E & El).
    exists tt, k2. split; [done|]. intros k3 ->. by rewrite <- El, Em, Ep.
  - assert (E4 : pagesize = 4 * 2 ^ (page_bits - 2)).
    { rewrite pagesize_pow2. change 4 with (2 ^ 2). rewrite <- Z.pow_add_r by lia. f_equal. lia. }
    assert ((a mod pagesize) mod 4 = 0).
    { rewrite E4, Z.rem_mul_r by (try apply Z.pow_nonzero; lia || (apply Z.pow_pos_nonneg; lia)).
      rewrite H4, Z.add_0_l, Z.mul_comm. apply Z_mod_mult. }
    pose proof (Z.div_mod (a mod pagesize) 4 ltac:(lia)). nia.
  - apply wp_with_page; [done|done|]. intros m k1 Em Ep.
    destruct (load32_spec m (a mod pagesize) k1) as (v & k2 & E & El); [lia|lia|].
    exists v, k2. split; [done|]. intros k3 ->. by rewrite <- El, Em, Ep.
  - apply wp_with_page; [done|done|]. intros m k1 Em Ep.
    destruct (store32_spec m (a mod pagesize) d k1) as (k2 & E & El); [lia|lia|].
    exists tt, k2. split; [done|]. intros k3 ->. by rewrite <- El, Em, Ep.
Qed.

(** [hostMem] is a faithful memory provider: on every address, the 8-bit
    accesses, and on every 32-bit aligned address, the 32-bit ones, return what
    the physical address space returns and perform that one access. *)
Theorem hostMem_refines_phys {K B : Type} `{DevMem K B} (w a d : Z) (k : K) :
  w = 32 \/ w = 64 -> is_uint w a ->
  wp (host_MustRead8 w a) (fun v k' => MustRead8 a (phys k) = (Ret v, phys k')) k /\
  wp (host_MustWrite8 w a d) (fun _ k' => MustWrite8 a d (phys k) = (Ret tt, phys k')) k /\
  (a mod 4 = 0 ->
   wp (host_MustRead32 w a) (fun v k' => MustRead32 a (phys k) = (Ret v, phys k')) k /\
   wp (host_MustWrite32 w a d) (fun _ k' => MustWrite32 a d (phys k) = (Ret tt, phys k')) k).
Proof. apply hostMem_accesses. Qed.

(** ** A concrete kernel *)

Module SimKernel.
(** Mappings are page addresses over plain memory, with 4 KiB pages. *)
#[global] Program Instance sim_devmem : DevMem SimBus.ram SimBus.ram := {
  pagesize := 4096; page_bits := 12; mapping := Z;
  mmap page _ := mret (Ok page); munmap _ := mret (Ok tt);
  load32 m o := MustRead32 (m + o); load8 m o := MustRead8 (m + o);
  store32 m o v := MustWrite32 (m + o) v; store8 m o v := MustWrite8 (m + o) v;
  phys k := k; mapped_at m := m }.
Next Obligation. done. Qed.
Next Obligation. lia. Qed.
Solve All Obligations with (simpl; eauto 10).

Lemma hostMem_refines_phys_witness :
  wp (host_MustRead32 32 0x1e6e207c)
    (fun v k' => MustRead32 0x1e6e207c {[0x1e6e207c := 7]} = (Ret v, k')) {[0x1e6e207c := 7]}.
Proof.
  exact (proj1 (proj2 (proj2 (hostMem_refines_phys 32 0x1e6e207c 0
    ({[0x1e6e207c := 7]} : SimBus.ram) (or_introl eq_refl)
    (bool_decide_eq_true_1 (is_uint 32 0x1e6e207c) eq_refl))) eq_refl)).
Defined.
End SimKernel.
