(* ===== verification/Rdnss.v ===== *)
(** * Router advertisement options (pkg/bmc/rdnss.go)

    The parser of the kernel's neighbour discovery messages.  A Go slice is its
    bytes and the bytes between its length and its capacity, which a reslice can
    reach.  [None] results of the slice operations are panics. *)

From S2P Require Import Prelude GoMonad.
#[local] Open Scope string_scope.
#[local] Open Scope list_scope.
#[local] Open Scope Z_scope.

Definition sizeofNDUseroptmsg : Z := 16.
Definition sizeofNDUseropthdr : Z := 4.
Definition ND_ROUTER_ADVERT : Z := 134.
Definition ND_OPT_RDNSS : Z := 25.
Definition AF_INET6 : Z := 10.
Definition RTM_NEWNDUSEROPT : Z := 68.

(** [time.Second] in nanoseconds. *)
Definition Second : Z := 1000000000.

Record slice : Type := mk_slice { cur : list Z; spare : list Z }.

Definition len (b : slice) : Z := Z.of_nat (length (cur b)).

(** [b[:n]]: up to the capacity. *)
Definition slice_to (b : slice) (n : Z) : option slice :=
  if decide (0 <= n <= Z.of_nat (length (cur b ++ spare b))) then
    Some (mk_slice (take (Z.to_nat n) (cur b ++ spare b)) (drop (Z.to_nat n) (cur b ++ spare b)))
  else None.

(** [b[n:]]: up to the length. *)
Definition slice_from (b : slice) (n : Z) : option slice :=
  if decide (0 <= n <= len b) then Some (mk_slice (drop (Z.to_nat n) (cur b)) (spare b)) else None.

Record ndUseroptmsg : Type := mk_msg {
  m_Family : Z; m_OptsLen : Z; m_Ifindex : Z; m_IcmpType : Z; m_IcmpCode : Z }.

Record ndUseropthdr : Type := mk_hdr { h_Type : Z; h_Length : Z }.

Record RDNSSOption : Type := mk_rdnss { Lifetime : Z; Server : list (list Z) }.

Record NDUserOpt : Type := mk_opt {
  Family : Z; Ifindex : Z; ICMPType : Z; ICMPCode : Z; RDNSS : list RDNSSOption }.

(** [binary.Read] of the two headers, which have the right number of bytes. *)
Definition read_msg (b : list Z) : ndUseroptmsg :=
  mk_msg (b !!! 0%nat) (le_int (take 2 (drop 2 b))) (le_int (take 4 (drop 4 b)))
    (b !!! 8%nat) (b !!! 9%nat).

Definition read_hdr (b : list Z) : ndUseropthdr := mk_hdr (b !!! 0%nat) (b !!! 1%nat).

(** [for len(b) >= 16]: the addresses; at most [fuel] of them. *)
Fixpoint servers (fuel : nat) (b : list Z) : list (list Z) :=
  match fuel with
  | O => []
  | S fuel =>
      if decide (Z.of_nat (length b) >= 16) then take 16 b :: servers fuel (drop 16 b) else []
  end.

Definition parseRDNSSOption (b : list Z) : result RDNSSOption :=
  if decide (Z.of_nat (length b) < 24) then Err "RDNSS option too short"
  else
    let b := drop 4 b in
    let lifetime := be_int (take 4 b) * Second in
    let b := drop 4 b in
    Ok (mk_rdnss lifetime (servers (length b) b)).

(** The loop of [parseNDUserOpt]; [r.RDNSS] is [acc]. *)
Fixpoint parse_options (fuel : nat) (r : NDUserOpt) (b : slice) (acc : list RDNSSOption) :
    outcome (result (option NDUserOpt)) :=
  match fuel with
  | O => Blocked
  | S fuel =>
      match slice_to b sizeofNDUseropthdr with
      | None => Panic
      | Some h =>
          let msg := read_hdr (cur h) in
          let l := Z.shiftl (h_Length msg) 3 in
          if decide (l = 0) then Ret (Ok None)
          else if decide (len b < l) then Ret (Err "message ran out while reading options")
          else
            let next (acc : list RDNSSOption) :=
              match slice_from b l with
              | None => Panic
              | Some b =>
                  if decide (len b < sizeofNDUseropthdr) then
                    Ret (Ok (Some (mk_opt (Family r) (Ifindex r) (ICMPType r) (ICMPCode r) acc)))
                  else parse_options fuel r b acc
              end in
            if decide (h_Type msg = ND_OPT_RDNSS) then
              match slice_to b l with
              | None => Panic
              | Some o =>
                  match parseRDNSSOption (cur o) with
                  | Err e => Ret (Err e)
                  | Ok rs => next (acc ++ [rs])
                  end
              end
            else next acc
      end
  end.

Definition parseNDUserOpt (fuel : nat) (b : slice) : outcome (result (option NDUserOpt)) :=
  if decide (len b < sizeofNDUseroptmsg) then Ret (Err "message too short")
  else
    match slice_to b sizeofNDUseroptmsg, slice_from b sizeofNDUseroptmsg with
    | Some h, Some b =>
        let msg := read_msg (cur h) in
        let r := mk_opt (m_Family msg) (m_Ifindex msg) (m_IcmpType msg) (m_IcmpCode msg) [] in
        if decide (len b < m_OptsLen msg) then Ret (Err "message too short for options")
        else
          match slice_to b (m_OptsLen msg) with
          | None => Panic
          | Some b => parse_options fuel r b []
          end
    | _, _ => Panic
    end.

(** The body of the message loop of [rdnss]: the options it sends on the
    channel for one netlink message. *)
Definition rdnss_message (fuel : nat) (mtype : Z) (data : slice) : outcome (list RDNSSOption) :=
  if decide (mtype <> RTM_NEWNDUSEROPT) then Ret []
  else
    match parseNDUserOpt fuel data with
    | Ret (Err _) => Ret []
    | Ret (Ok None) => Ret []
    | Ret (Ok (Some opt)) =>
        if decide (Family opt <> AF_INET6) then Ret []
        else if decide (ICMPCode opt <> 0) then Ret []
        else if decide (ICMPType opt <> ND_ROUTER_ADVERT) then Ret []
        else Ret (RDNSS opt)
    | Panic => Panic
    | Exit => Exit
    | Blocked => Blocked
    end.

(** [rdnss] over what the netlink socket gives: batches of messages, each with its type and data, or an
    error, which ends the goroutine.  The result is what is sent on the channel and how it ends; when nothing more arrives it waits. *)
Inductive received : Type := RxMsgs (msgs : list (Z * slice)) | RxErr.

Fixpoint rdnss_messages (fuel : nat) (msgs : list (Z * slice)) : list RDNSSOption * outcome unit :=
  match msgs with
  | [] => ([], Ret tt)
  | (mtype, data) :: msgs =>
      match rdnss_message fuel mtype data with
      | Ret rs => let '(l, o) := rdnss_messages fuel msgs in (rs ++ l, o)
      | Panic => ([], Panic)
      | Exit => ([], Exit)
      | Blocked => ([], Blocked)
      end
  end.

Fixpoint rdnss_loop (fuel : nat) (rx : list received) : list RDNSSOption * outcome unit :=
  match rx with
  | [] => ([], Blocked)
  | RxErr :: _ => ([], Ret tt)
  | RxMsgs msgs :: rx =>
      match rdnss_messages fuel msgs with
      | (l, Ret _) => let '(l', o) := rdnss_loop fuel rx in (l ++ l', o)
      | (l, o) => (l, o)
      end
  end.

Definition rdnss (fuel : nat) (subscribed : result unit) (rx : list received) : list RDNSSOption * outcome unit :=
  match subscribed with
  | Err _ => ([], Ret tt)
  | Ok _ => rdnss_loop fuel rx
  end.

(** ** Termination and safety *)

Lemma len_slice_from b n b' : slice_from b n = Some b' -> len b' = len b - n /\ 0 <= n.
Proof.
  unfold slice_from, len. case_decide; [|done]. intros [= <-]. simpl. rewrite length_drop. lia.
Qed.

Definition bytes_ok (b : slice) : Prop := Forall is_byte (cur b ++ spare b).

Lemma bytes_ok_from b n b' : bytes_ok b -> slice_from b n = Some b' -> bytes_ok b'.
Proof.
  unfold bytes_ok, slice_from. case_decide; [|done]. intros Hb [= <-]. simpl.
  rewrite Forall_app in *. split; [apply Forall_drop|]; naive_solver.
Qed.

Lemma hdr_length_range h : Forall is_byte h -> 0 <= h_Length (read_hdr h) < 256.
Proof.
  intros Hh. unfold read_hdr. simpl. destruct (h !! 1%nat) as [x|] eqn:E.
  - rewrite (list_lookup_total_correct _ _ _ E).
    assert (is_byte x) as Hx by by eapply Forall_lookup_1. exact Hx.
  - rewrite list_lookup_total_alt, E. simpl. lia.
Qed.

Lemma slice_to_bytes b n h : bytes_ok b -> slice_to b n = Some h -> Forall is_byte (cur h).
Proof.
  unfold slice_to. case_decide; [|done]. intros Hb [= <-]. by apply Forall_take.
Qed.

Lemma slice_to_some b n : 0 <= n <= len b -> exists h, slice_to b n = Some h.
Proof.
  intros Hn. unfold slice_to, len in *. rewrite length_app. case_decide; [eauto|lia].
Qed.

Lemma slice_from_some b n :
  0 <= n <= len b -> slice_from b n = Some (mk_slice (drop (Z.to_nat n) (cur b)) (spare b)).
Proof. intros Hn. unfold slice_from. by rewrite decide_True. Qed.

(** The loop ends within [len(b)] iterations, and panics only when its first
    header is outside the slice's capacity. *)
Lemma parse_options_ends fuel r b acc :
  bytes_ok b -> len b < Z.of_nat fuel -> is_Some (slice_to b sizeofNDUseropthdr) ->
  exists res, parse_options fuel r b acc = Ret res.
Proof.
  revert b acc. induction fuel as [|fuel IH]; intros b acc Hok Hf [h Eh]; [unfold len in Hf; lia|].
  cbn [parse_options]. rewrite Eh.
  pose proof (hdr_length_range (cur h) (slice_to_bytes _ _ _ Hok Eh)) as Hl.
  rewrite Z.shiftl_mul_pow2 by lia. change (2 ^ 3) with 8.
  set (l := h_Length (read_hdr (cur h)) * 8).
  destruct (decide (l = 0)); [eauto|]. destruct (decide (len b < l)) as [|Hlen]; [eauto|].
  assert (Hl8 : 8 <= l <= len b) by lia.
  rewrite (slice_from_some b l) by lia.
  assert (Hnext : forall acc, exists res,
    (if decide (len (mk_slice (drop (Z.to_nat l) (cur b)) (spare b)) < sizeofNDUseropthdr) then
      Ret (Ok (Some (mk_opt (Family r) (Ifindex r) (ICMPType r) (ICMPCode r) acc)))
     else parse_options fuel r (mk_slice (drop (Z.to_nat l) (cur b)) (spare b)) acc) = Ret res).
  { intros acc'. case_decide as Hc; [eauto|].
    destruct (len_slice_from b l _ (slice_from_some b l ltac:(lia))) as [Eb _].
    apply IH; [eapply bytes_ok_from; [done|]; apply (slice_from_some b l); lia|lia|].
    apply slice_to_some. unfold sizeofNDUseropthdr in *. lia. }
  destruct (decide (h_Type (read_hdr (cur h)) = ND_OPT_RDNSS)); [|apply Hnext].
  destruct (slice_to_some b l ltac:(lia)) as [o ->].
  destruct (parseRDNSSOption (cur o)); [eauto|apply Hnext].
Qed.

(** C29:  [parseNDUserOpt] always returns within [len(b)] iterations, whatever
    the bytes, when the options length of the message is at least the 4 bytes
    of an option header. *)
Theorem parseNDUserOpt_total (fuel : nat) (b : slice) :
  bytes_ok b -> len b <= Z.of_nat fuel ->
  m_OptsLen (read_msg (take 16 (cur b))) >= sizeofNDUseropthdr ->
  exists res, parseNDUserOpt fuel b = Ret res.
Proof.
  intros Hok Hf Hol. unfold parseNDUserOpt, sizeofNDUseroptmsg, sizeofNDUseropthdr in *.
  case_decide as Hlen; [eauto|].
  assert (E16 : slice_to b 16 = Some (mk_slice (take 16 (cur b)) (drop 16 (cur b ++ spare b)))).
  { unfold slice_to, len in *. rewrite decide_True by (rewrite length_app; lia).
    f_equal. f_equal. apply take_app_le. lia. }
  rewrite E16, slice_from_some by lia. cbn [cur].
  set (msg := read_msg (take 16 (cur b))) in *.
  set (b' := mk_slice (drop (Z.to_nat 16) (cur b)) (spare b)).
  case_decide as Hopt; [eauto|].
  assert (Hok' : bytes_ok b').
  { eapply bytes_ok_from; [done|]. apply slice_from_some. lia. }
  assert (Hb' : len b' = len b - 16) by (unfold len in *; simpl; rewrite length_drop; lia).
  clearbody b' msg. destruct (slice_to_some b' (m_OptsLen msg)) as [o Eo]; [lia|]. rewrite Eo.
  unfold slice_to in Eo. rewrite length_app in Eo. rewrite decide_True in Eo by (unfold len in *; lia).
  injection Eo as <-. apply parse_options_ends.
  - unfold bytes_ok. cbn [cur spare]. by rewrite take_drop.
  - unfold len in *. cbn [cur]. rewrite length_take, length_app. lia.
  - apply slice_to_some. unfold len in *. cbn [cur].
    rewrite length_take, length_app. unfold sizeofNDUseropthdr. lia.
Qed.

(** A message whose options length is shorter than an option header, in a
    buffer that ends with it, makes the parser panic: the loop reslices
    [b[:4]] before it looks at the length. *)
Theorem parseNDUserOpt_short_panics (fuel : nat) (hdr opts : list Z) :
  length hdr = 16%nat -> m_OptsLen (read_msg hdr) = Z.of_nat (length opts) ->
  Z.of_nat (length opts) < sizeofNDUseropthdr -> (0 < fuel)%nat ->
  parseNDUserOpt fuel (mk_slice (hdr ++ opts) []) = Panic.
Proof.
  intros Hh Hm Ho Hf. unfold parseNDUserOpt, sizeofNDUseropthdr, sizeofNDUseroptmsg in *.
  rewrite decide_False by (unfold len; simpl; rewrite length_app; lia).
  unfold slice_to at 1, slice_from. cbn [cur spare]. rewrite app_nil_r.
  rewrite decide_True by (rewrite length_app; lia).
  rewrite decide_True by (unfold len; simpl; rewrite length_app; lia).
  change (Z.to_nat 16) with 16%nat. rewrite take_app_length', drop_app_length' by done.
  cbn [cur]. rewrite Hm. rewrite decide_False by (unfold len; simpl; lia).
  unfold slice_to at 1. cbn [cur spare]. rewrite app_nil_r, decide_True by lia.
  rewrite Nat2Z.id, take_ge, drop_ge by lia. destruct fuel as [|fuel]; [lia|].
  cbn [parse_options]. unfold slice_to. cbn [cur spare]. unfold sizeofNDUseropthdr.
  by rewrite app_nil_r, decide_False by lia.
Qed.

(** ** Round trip *)

(** The options of a message as the sender means them: RDNSS options, and
    options the program skips (type and body). *)
Inductive nd_option : Type :=
| OptRDNSS (lifetime : Z) (servers : list (list Z))
| OptOther (ty : Z) (body : list Z).

Definition option_ok (o : nd_option) : Prop :=
  match o with
  | OptRDNSS lt ss => is_uint 32 lt /\ Forall (fun s => length s = 16%nat /\ Forall is_byte s) ss /\
      (1 <= length ss <= 127)%nat
  | OptOther ty body => is_byte ty /\ ty <> ND_OPT_RDNSS /\ Forall is_byte body /\
      exists k, length body = (8 * k + 6)%nat /\ (k < 255)%nat
  end.

(** The wire format (RFC 4861, RFC 8106). *)
Definition encode (o : nd_option) : list Z :=
  match o with
  | OptRDNSS lt ss =>
      [ND_OPT_RDNSS; 1 + 2 * Z.of_nat (length ss); 0; 0] ++ reverse (le_bytes 4 lt) ++ concat ss
  | OptOther ty body => [ty; (Z.of_nat (length body) + 2) / 8] ++ body
  end.

Definition rdnss_of (o : nd_option) : list RDNSSOption :=
  match o with
  | OptRDNSS lt ss => [mk_rdnss (lt * Second) ss]
  | OptOther _ _ => []
  end.

Lemma length_concat16 ss :
  Forall (fun s : list Z => length s = 16%nat /\ Forall is_byte s) ss ->
  length (concat ss) = (16 * length ss)%nat.
Proof.
  induction 1 as [|s ss [Hs _] _ IH]; [done|]. simpl. rewrite length_app. lia.
Qed.

Lemma servers_concat fuel ss :
  Forall (fun s : list Z => length s = 16%nat /\ Forall is_byte s) ss ->
  (length ss <= fuel)%nat -> servers fuel (concat ss) = ss.
Proof.
  intros Hs. revert fuel. induction Hs as [|s ss [Hl _] Hss IH]; intros fuel Hf.
  - destruct fuel; [done|]. cbn. done.
  - destruct fuel as [|fuel]; [simpl in Hf; lia|]. cbn [servers concat].
    rewrite decide_True by (rewrite length_app; lia).
    rewrite take_app_length', drop_app_length' by done.
    rewrite IH; [done|simpl in Hf; lia].
Qed.

Lemma parseRDNSSOption_encode lt ss :
  option_ok (OptRDNSS lt ss) ->
  parseRDNSSOption (encode (OptRDNSS lt ss)) = Ok (mk_rdnss (lt * Second) ss).
Proof.
  intros (Hlt & Hss & Hn). unfold parseRDNSSOption, encode.
  pose proof (length_concat16 ss Hss) as Hc.
  rewrite decide_False.
  2: { rewrite !length_app, length_reverse, length_le_bytes. cbn [length]. lia. }
  rewrite drop_app_length' by done.
  rewrite take_app_length', drop_app_length' by (by rewrite length_reverse, length_le_bytes).
  rewrite servers_concat by (done || lia). unfold be_int.
  rewrite reverse_involutive, le_int_le_bytes, uint_id by done. done.
Qed.

(** Every encoded option starts with its type and its length in units of
    eight bytes. *)
Lemma encode_shape o :
  option_ok o -> exists ty n b, encode o = [ty; n] ++ b /\
    Z.of_nat (length (encode o)) = n * 8 /\ 1 <= n < 256 /\
    (ty = ND_OPT_RDNSS <-> exists lt ss, o = OptRDNSS lt ss).
Proof.
  destruct o as [lt ss|ty body].
  - intros (Hlt & Hss & Hn). eexists ND_OPT_RDNSS, _, _. split; [reflexivity|].
    pose proof (length_concat16 ss Hss) as Hc. split; [|split; [lia|naive_solver]].
    unfold encode. rewrite !length_app, length_reverse, length_le_bytes. cbn [length]. lia.
  - intros (Ht & Hne & Hb & k & Hk & Hk'). eexists ty, _, _. split; [reflexivity|].
    assert (E : (Z.of_nat (length body) + 2) / 8 = Z.of_nat k + 1).
    { rewrite Hk. replace (Z.of_nat (8 * k + 6) + 2) with ((Z.of_nat k + 1) * 8) by lia.
      by rewrite Z.div_mul by lia. }
    unfold encode. rewrite E, length_app. cbn [length]. split; [lia|]. split; [lia|]. naive_solver.
Qed.

(** A well-formed option is taken and the loop goes on behind it. *)
Lemma parse_options_step fuel r o rest tail acc : option_ok o ->
  parse_options (S fuel) r (mk_slice (encode o ++ rest) tail) acc =
  if decide (Z.of_nat (length rest) < sizeofNDUseropthdr)
  then Ret (Ok (Some (mk_opt (Family r) (Ifindex r) (ICMPType r) (ICMPCode r) (acc ++ rdnss_of o))))
  else parse_options fuel r (mk_slice rest tail) (acc ++ rdnss_of o).
Proof.
  intros Ho. destruct (encode_shape o Ho) as (ty & n & body & Ee & El & Hn & Ht).
  assert (Hlen : len (mk_slice (encode o ++ rest) tail) = n * 8 + Z.of_nat (length rest)).
  { unfold len. simpl. rewrite length_app. lia. }
  assert (Hh : exists h, slice_to (mk_slice (encode o ++ rest) tail) sizeofNDUseropthdr = Some h /\
    read_hdr (cur h) = mk_hdr ty n).
  { unfold slice_to, sizeofNDUseropthdr. cbn [cur spare].
    rewrite decide_True by (rewrite !length_app; lia). eexists. split; [done|].
    cbn [cur]. rewrite Ee. destruct body as [|b0 [|b1 body]]; [..|done];
      rewrite Ee in El; simpl in El; lia. }
  destruct Hh as (h & Eh & Er). cbn [parse_options]. rewrite Eh, Er. cbn [h_Length h_Type].
  rewrite Z.shiftl_mul_pow2 by lia. change (2 ^ 3) with 8.
  rewrite (decide_False (P := n * 8 = 0)) by lia. rewrite decide_False by lia.
  assert (Efrom : slice_from (mk_slice (encode o ++ rest) tail) (n * 8) = Some (mk_slice rest tail)).
  { rewrite slice_from_some by lia. cbn [cur spare]. by rewrite drop_app_length' by lia. }
  rewrite Efrom. change (len (mk_slice rest tail)) with (Z.of_nat (length rest)). destruct o as [lt ss|ty' body'].
  - rewrite decide_True by (apply Ht; eauto).
    assert (Eto : exists sp, slice_to (mk_slice (encode (OptRDNSS lt ss) ++ rest) tail) (n * 8) =
      Some (mk_slice (encode (OptRDNSS lt ss)) sp)).
    { unfold slice_to. cbn [cur spare]. rewrite decide_True by (rewrite !length_app; lia).
      eexists. rewrite <- app_assoc, take_app_length' by lia. done. }
    destruct Eto as [sp ->]. cbn [cur]. by rewrite parseRDNSSOption_encode by done.
  - rewrite decide_False by (rewrite Ht; naive_solver). cbn [rdnss_of]. by rewrite app_nil_r.
Qed.

Lemma encode_long o : option_ok o -> 8 <= Z.of_nat (length (encode o)).
Proof. intros (ty & n & b & _ & -> & Hn & _)%encode_shape. lia. Qed.

(** Well-formed options in front of at least a header. *)
Lemma parse_options_prefix r os rest tail : 4 <= Z.of_nat (length rest) -> Forall option_ok os -> forall fuel acc,
  parse_options (length os + fuel) r (mk_slice (concat (encode <$> os) ++ rest) tail) acc =
  parse_options fuel r (mk_slice rest tail) (acc ++ (os ≫= rdnss_of)).
Proof.
  intros Hr. induction 1 as [|o os Ho Hos IH]; intros fuel acc; [cbn; by rewrite app_nil_r|].
  rewrite fmap_cons. cbn [concat length Nat.add]. rewrite <- app_assoc, parse_options_step by done.
  rewrite decide_False by (rewrite length_app; unfold sizeofNDUseropthdr; lia). rewrite IH. cbn. by rewrite <- app_assoc.
Qed.

Lemma parse_options_encode fuel r os o tail acc :
  Forall option_ok (o :: os) -> (length os < fuel)%nat ->
  parse_options fuel r (mk_slice (encode o ++ concat (encode <$> os)) tail) acc =
  Ret (Ok (Some (mk_opt (Family r) (Ifindex r) (ICMPType r) (ICMPCode r)
    (acc ++ ((o :: os) ≫= rdnss_of))))).
Proof.
  revert o os acc. induction fuel as [|fuel IH]; intros o os acc Hok Hf; [lia|].
  apply Forall_cons in Hok as [Ho Hos]. rewrite parse_options_step by done. destruct os as [|o' os].
  - rewrite decide_True by (cbn; unfold sizeofNDUseropthdr; lia). cbn. by rewrite app_nil_r.
  - pose proof Hos as [Ho' _]%Forall_cons. apply encode_long in Ho'. rewrite fmap_cons. cbn [concat].
    rewrite decide_False by (rewrite length_app; unfold sizeofNDUseropthdr; lia).
    rewrite IH by (done || (simpl in Hf; lia)). cbn. by rewrite <- app_assoc.
Qed.

(** The message header, little endian. *)
Definition encode_msg (m : ndUseroptmsg) : list Z :=
  [m_Family m; 0] ++ le_bytes 2 (m_OptsLen m) ++ le_bytes 4 (m_Ifindex m) ++
  [m_IcmpType m; m_IcmpCode m; 0; 0; 0; 0; 0; 0].

Lemma read_encode_msg m : is_uint 16 (m_OptsLen m) -> is_uint 32 (m_Ifindex m) -> read_msg (encode_msg m) = m.
Proof.
  destruct m as [fam ol ifx ty co]. simpl. intros H16 H32. unfold read_msg. f_equal.
  - change (take 2 _) with (le_bytes 2 ol). by rewrite le_int_le_bytes, uint_id.
  - change (take 4 _) with (le_bytes 4 ifx). by rewrite le_int_le_bytes, uint_id.
Qed.

(** A header and the options it counts are split, whatever follows the message in the buffer. *)
Lemma parse_header fuel m opts trailing spare :
  m_OptsLen m = Z.of_nat (length opts) -> is_uint 16 (m_OptsLen m) -> is_uint 32 (m_Ifindex m) ->
  parseNDUserOpt fuel (mk_slice (encode_msg m ++ opts ++ trailing) spare) =
  parse_options fuel (mk_opt (m_Family m) (m_Ifindex m) (m_IcmpType m) (m_IcmpCode m) []) (mk_slice opts (trailing ++ spare)) [].
Proof.
  intros Hol H16 H32.
  assert (Hm : length (encode_msg m) = 16%nat).
  { unfold encode_msg. rewrite !length_app, !length_le_bytes. done. }
  unfold parseNDUserOpt, sizeofNDUseroptmsg.
  rewrite decide_False by (unfold len; simpl; rewrite !length_app; lia).
  unfold slice_to at 1. cbn [cur Rdnss.spare].
  rewrite decide_True by (rewrite !length_app; lia).
  rewrite slice_from_some by (unfold len; simpl; rewrite !length_app; lia).
  cbn [cur Rdnss.spare]. change (Z.to_nat 16) with 16%nat.
  rewrite <- app_assoc, take_app_length', drop_app_length' by done. cbn [cur]. rewrite read_encode_msg, Hol by done.
  rewrite decide_False by (unfold len; simpl; rewrite length_app; lia).
  unfold slice_to. cbn [cur Rdnss.spare]. rewrite decide_True by (rewrite !length_app; lia).
  by rewrite Nat2Z.id, <- app_assoc, take_app_length, drop_app_length.
Qed.

(** A message made of well-formed options, at least one, parses to its
    header fields and exactly the RDNSS options it holds, in order, with their
    lifetimes and all their servers. *)
Lemma parse_encoded (fuel : nat) (m : ndUseroptmsg) (os : list nd_option)
    (trailing spare : list Z) :
  os <> [] -> Forall option_ok os -> (length os <= fuel)%nat ->
  m_OptsLen m = Z.of_nat (length (concat (encode <$> os))) ->
  is_uint 16 (m_OptsLen m) -> is_uint 32 (m_Ifindex m) ->
  parseNDUserOpt fuel (mk_slice (encode_msg m ++ concat (encode <$> os) ++ trailing) spare) =
  Ret (Ok (Some (mk_opt (m_Family m) (m_Ifindex m) (m_IcmpType m) (m_IcmpCode m)
    (os ≫= rdnss_of)))).
Proof.
  intros Hne Hok Hf Hol H16 H32. destruct os as [|o os]; [done|]. rewrite parse_header by done.
  rewrite fmap_cons. cbn [concat]. rewrite parse_options_encode by (done || (simpl in Hf; lia)). done.
Qed.

(** ** Malformed messages *)

(** An option that ends the parse: of length zero, longer than what is left, or of name servers without a server. *)
Definition bad_option (ty n : Z) (rest : list Z) : Prop :=
  let left := Z.of_nat (length rest) + 2 in
  4 <= left /\ (n = 0 \/ (0 < n /\ left < n * 8) \/ (ty = ND_OPT_RDNSS /\ 0 < n < 3 /\ n * 8 <= left)).

(** No option of the message is used, not even those in front of the bad one. *)
Definition refused (o : outcome (result (option NDUserOpt))) : Prop := o = Ret (Ok None) \/ exists e, o = Ret (Err e).

Lemma parse_bad_option fuel r ty n rest tail acc : bad_option ty n rest -> (0 < fuel)%nat ->
  refused (parse_options fuel r (mk_slice (ty :: n :: rest) tail) acc).
Proof.
  intros (H4 & Hbad) Hf. destruct fuel as [|fuel]; [lia|]. cbn [parse_options].
  destruct rest as [|x0 [|x1 rest]]; [cbn in H4; lia..|].
  unfold slice_to at 1, sizeofNDUseropthdr. cbn [cur spare]. rewrite decide_True by (rewrite length_app; cbn [length]; lia).
  change (Z.to_nat 4) with 4%nat. cbn [cur take app read_hdr]. unfold read_hdr. cbn [lookup_total list_lookup_total h_Length h_Type].
  assert (El : len (mk_slice (ty :: n :: x0 :: x1 :: rest) tail) = Z.of_nat (length (x0 :: x1 :: rest)) + 2) by (unfold len; cbn; lia).
  rewrite El, Z.shiftl_mul_pow2 by lia. change (2 ^ 3) with 8. destruct Hbad as [->|[[Hn Hl]|(-> & Hn & Hl)]].
  - left. by rewrite decide_True.
  - right. rewrite decide_False, decide_True by lia. by eexists.
  - right. rewrite decide_False, decide_False, decide_True by (done || lia). unfold slice_to. cbn [cur spare].
    rewrite decide_True by (rewrite length_app; cbn [length] in *; lia). cbn [cur]. unfold parseRDNSSOption.
    rewrite decide_True by (rewrite length_take; lia). by eexists.
Qed.

(** ** The goroutine *)

(** A message as its sender means it: an advertisement of options with what follows it in the buffer, a
    message of another type, or a malformed advertisement: shorter than its header, cut off within the options it
    counts, or with a bad option. *)
Inductive nd_message : Type :=
| MsgOpts (m : ndUseroptmsg) (os : list nd_option) (trailing spare : list Z)
| MsgOther (mtype : Z) (data : slice)
| MsgShort (data : slice)
| MsgCut (m : ndUseroptmsg) (data spare : list Z)
| MsgBad (m : ndUseroptmsg) (os : list nd_option) (ty n : Z) (rest trailing spare : list Z).

Definition message_ok (fuel : nat) (x : nd_message) : Prop :=
  match x with
  | MsgOpts m os _ _ => os <> [] /\ Forall option_ok os /\ (length os <= fuel)%nat /\
      m_OptsLen m = Z.of_nat (length (concat (encode <$> os))) /\ is_uint 16 (m_OptsLen m) /\ is_uint 32 (m_Ifindex m)
  | MsgOther mtype _ => mtype <> RTM_NEWNDUSEROPT
  | MsgShort data => len data < sizeofNDUseroptmsg
  | MsgCut m data _ => Z.of_nat (length data) < m_OptsLen m /\ is_uint 16 (m_OptsLen m) /\ is_uint 32 (m_Ifindex m)
  | MsgBad m os ty n rest _ _ => Forall option_ok os /\ (length os < fuel)%nat /\ bad_option ty n rest /\
      m_OptsLen m = Z.of_nat (length (concat (encode <$> os) ++ ty :: n :: rest)) /\ is_uint 16 (m_OptsLen m) /\ is_uint 32 (m_Ifindex m)
  end.

Definition wire (x : nd_message) : Z * slice :=
  match x with
  | MsgOpts m os trailing spare => (RTM_NEWNDUSEROPT, mk_slice (encode_msg m ++ concat (encode <$> os) ++ trailing) spare)
  | MsgOther mtype data => (mtype, data)
  | MsgShort data => (RTM_NEWNDUSEROPT, data)
  | MsgCut m data spare => (RTM_NEWNDUSEROPT, mk_slice (encode_msg m ++ data) spare)
  | MsgBad m os ty n rest trailing spare =>
      (RTM_NEWNDUSEROPT, mk_slice (encode_msg m ++ (concat (encode <$> os) ++ ty :: n :: rest) ++ trailing) spare)
  end.

(** Only the name servers of IPv6 router advertisements that are well-formed count. *)
Definition announced (x : nd_message) : list RDNSSOption :=
  match x with
  | MsgOpts m os _ _ =>
      if decide (m_Family m = AF_INET6 /\ m_IcmpCode m = 0 /\ m_IcmpType m = ND_ROUTER_ADVERT) then os ≫= rdnss_of else []
  | _ => []
  end.

Lemma rdnss_message_refused fuel data : refused (parseNDUserOpt fuel data) -> rdnss_message fuel RTM_NEWNDUSEROPT data = Ret [].
Proof. unfold rdnss_message. rewrite decide_False by (intros Hn; by apply Hn). by intros [-> | [e ->]]. Qed.

Lemma rdnss_message_wire fuel x : message_ok fuel x -> rdnss_message fuel (wire x).1 (wire x).2 = Ret (announced x).
Proof.
  destruct x as [m os trailing spare|mtype data|data|m data spare|m os ty n rest trailing spare]; cbn [message_ok wire fst snd announced].
  - intros (Hne & Hok & Hf & Hl & H16 & H32). unfold rdnss_message. rewrite decide_False by (intros Hn; by apply Hn).
    rewrite (parse_encoded fuel m os trailing spare) by done. cbn [Family ICMPCode ICMPType RDNSS].
    repeat case_decide; try done; naive_solver.
  - intros Ht. unfold rdnss_message. by rewrite decide_True.
  - intros Hl. apply rdnss_message_refused. right. unfold parseNDUserOpt. rewrite decide_True by done. by eexists.
  - intros (Hl & H16 & H32). apply rdnss_message_refused. right. unfold parseNDUserOpt, sizeofNDUseroptmsg.
    assert (Hm : length (encode_msg m) = 16%nat) by (unfold encode_msg; by rewrite !length_app, !length_le_bytes).
    rewrite decide_False by (unfold len; cbn [cur]; rewrite length_app; lia). unfold slice_to at 1. cbn [cur Rdnss.spare].
    rewrite decide_True by (rewrite !length_app; lia). rewrite slice_from_some by (unfold len; cbn [cur]; rewrite length_app; lia).
    cbn [cur Rdnss.spare]. change (Z.to_nat 16) with 16%nat.
    rewrite <- app_assoc, take_app_length', drop_app_length', read_encode_msg by done.
    rewrite decide_True by (unfold len; cbn [cur]; lia). by eexists.
  - intros (Hok & Hf & Hbad & Hl & H16 & H32). apply rdnss_message_refused. rewrite parse_header by done.
    replace fuel with (length os + (fuel - length os))%nat by lia.
    rewrite parse_options_prefix; [apply parse_bad_option; [done|lia]|destruct Hbad; cbn [length]; lia|done].
Qed.

Lemma rdnss_messages_app fuel xs msgs : Forall (message_ok fuel) xs ->
  rdnss_messages fuel ((wire <$> xs) ++ msgs) = let '(l, o) := rdnss_messages fuel msgs in ((xs ≫= announced) ++ l, o).
Proof.
  induction 1 as [|x xs Hx _ IH]; [simpl; by destruct (rdnss_messages fuel msgs)|]. cbn [fmap list_fmap app rdnss_messages].
  destruct (wire x) as [ty d] eqn:Ew. pose proof (rdnss_message_wire fuel x Hx) as E. rewrite Ew in E. cbn [fst snd] in E. rewrite E.
  cbn [fmap list_fmap] in IH. rewrite IH. destruct (rdnss_messages fuel msgs) as [l o]. cbn. by rewrite <- app_assoc.
Qed.

Lemma rdnss_loop_app fuel batches rx : Forall (Forall (message_ok fuel)) batches ->
  rdnss_loop fuel ((RxMsgs <$> (fmap wire <$> batches)) ++ rx) =
  let '(l, o) := rdnss_loop fuel rx in ((concat batches ≫= announced) ++ l, o).
Proof.
  induction 1 as [|b batches Hb _ IH]; [simpl; by destruct (rdnss_loop fuel rx)|]. cbn [fmap list_fmap app rdnss_loop].
  pose proof (rdnss_messages_app fuel b [] Hb) as E. cbn [rdnss_messages] in E. rewrite !app_nil_r in E. cbn [fmap] in E. rewrite E.
  cbn [fmap] in IH. rewrite IH. destruct (rdnss_loop fuel rx) as [l o]. cbn [concat]. by rewrite bind_app, <- app_assoc.
Qed.

(** C27: Whatever batches of messages arrive, the goroutine sends exactly the name servers of
    the well-formed IPv6 router advertisements among them, with their lifetimes, in order, and skips messages of other types
    and advertisements that are shorter than their header, cut off within their options, or hold an option of length zero, one longer than what is
    left, or one of name servers without a server, with all their options; after that it waits, or
    returns when the socket fails.  One message whose options are shorter than an option header, in a buffer that ends with it, ends it by a
    panic in the middle of its batch, and with it the whole process. *)
Theorem rdnss_delivers (fuel : nat) (batches : list (list nd_message)) :
  Forall (Forall (message_ok fuel)) batches ->
  let rx := RxMsgs <$> (fmap wire <$> batches) in
  let sent := concat batches ≫= announced in
  rdnss fuel (Ok tt) rx = (sent, Blocked) /\
  (forall rest, rdnss fuel (Ok tt) (rx ++ RxErr :: rest) = (sent, Ret tt)) /\
  (forall pre hdr opts post rest, Forall (message_ok fuel) pre -> (0 < fuel)%nat -> length hdr = 16%nat ->
     m_OptsLen (read_msg hdr) = Z.of_nat (length opts) -> Z.of_nat (length opts) < sizeofNDUseropthdr ->
     rdnss fuel (Ok tt) (rx ++ RxMsgs ((wire <$> pre) ++ (RTM_NEWNDUSEROPT, mk_slice (hdr ++ opts) []) :: post) :: rest) =
       (sent ++ (pre ≫= announced), Panic)).
Proof.
  intros Hb rx sent. unfold rdnss. split_and!.
  - pose proof (rdnss_loop_app fuel batches [] Hb) as E. cbn [rdnss_loop] in E. rewrite !app_nil_r in E. exact E.
  - intros rest. unfold rx. rewrite rdnss_loop_app by done. cbn. by rewrite app_nil_r.
  - intros pre hdr opts post rest Hpre Hf Hl Hm Ho. unfold rx. rewrite rdnss_loop_app by done. cbn [rdnss_loop].
    rewrite rdnss_messages_app by done. cbn [rdnss_messages]. unfold rdnss_message. rewrite decide_False by (intros Hn; by apply Hn).
    rewrite (parseNDUserOpt_short_panics fuel hdr opts) by done. cbn. by rewrite !app_nil_r.
Qed.

(** ** Concrete messages *)

Definition dns_server : list Z := [0x20; 0x01; 0x0d; 0xb8; 0; 0; 0; 0; 0; 0; 0; 0; 0; 0; 0; 0x53].
Definition dns_opts : list nd_option :=
  [OptOther 1 [0; 1; 2; 3; 4; 5]; OptRDNSS 600 [dns_server]].
Definition dns_msg : ndUseroptmsg :=
  mk_msg AF_INET6 32 2 ND_ROUTER_ADVERT 0.

Lemma dns_opts_ok : Forall option_ok dns_opts.
Proof.
  apply Forall_cons. split; [|apply Forall_singleton].
  - split; [done|]. split; [done|]. split; [|by exists 0%nat; split; [|lia]].
    apply (bool_decide_eq_true_1 _). by vm_compute.
  - split; [done|]. split; [|simpl; lia]. apply Forall_singleton. split; [done|].
    apply (bool_decide_eq_true_1 _). by vm_compute.
Qed.

Lemma parse_encoded_example :
  parseNDUserOpt 2 (mk_slice (encode_msg dns_msg ++ concat (encode <$> dns_opts) ++ []) []) =
  Ret (Ok (Some (mk_opt AF_INET6 2 ND_ROUTER_ADVERT 0 [mk_rdnss (600 * Second) [dns_server]]))).
Proof.
  rewrite (parse_encoded 2 dns_msg dns_opts [] []).
  - reflexivity.
  - discriminate.
  - exact dns_opts_ok.
  - simpl. lia.
  - reflexivity.
  - by apply (bool_decide_eq_true_1 (is_uint 16 _)).
  - by apply (bool_decide_eq_true_1 (is_uint 32 _)).
Defined.

Lemma rdnss_delivers_witness :
  rdnss 2 (Ok tt) [RxMsgs [(16, mk_slice [] []); (RTM_NEWNDUSEROPT, mk_slice (encode_msg (mk_msg AF_INET6 8 2 ND_ROUTER_ADVERT 0) ++
      ([] ++ 5 :: 0 :: [0; 0; 0; 0; 0; 0]) ++ []) []); (RTM_NEWNDUSEROPT, mk_slice (encode_msg dns_msg ++ concat (encode <$> dns_opts) ++ []) [])]; RxErr] =
  ([mk_rdnss (600 * Second) [dns_server]], Ret tt).
Proof.
  assert (Hok : Forall (Forall (message_ok 2)) [[MsgOther 16 (mk_slice [] []); MsgBad (mk_msg AF_INET6 8 2 ND_ROUTER_ADVERT 0) [] 5 0 [0; 0; 0; 0; 0; 0] [] []; MsgOpts dns_msg dns_opts [] []]]).
  { apply Forall_singleton, Forall_cons. split; [done|]. apply Forall_cons. split.
    { split; [done|]. split; [simpl; lia|]. split; [split; [simpl; lia|by left]|]. split; [reflexivity|].
      split; [by apply (bool_decide_eq_true_1 (is_uint 16 _))|by apply (bool_decide_eq_true_1 (is_uint 32 _))]. }
    apply Forall_singleton. split; [discriminate|]. split; [exact dns_opts_ok|].
    split; [simpl; lia|]. split; [reflexivity|]. split; [by apply (bool_decide_eq_true_1 (is_uint 16 _))|by apply (bool_decide_eq_true_1 (is_uint 32 _))]. }
  exact (proj1 (proj2 (rdnss_delivers 2 [[MsgOther 16 (mk_slice [] []); MsgBad (mk_msg AF_INET6 8 2 ND_ROUTER_ADVERT 0) [] 5 0 [0; 0; 0; 0; 0; 0] [] []; MsgOpts dns_msg dns_opts [] []]] Hok)) []).
Defined.

Lemma parseNDUserOpt_total_witness :
  exists res, parseNDUserOpt 64 (mk_slice (encode_msg dns_msg ++ [0; 0; 0; 0; 0; 0]) []) = Ret res.
Proof.
  apply (parseNDUserOpt_total 64 (mk_slice (encode_msg dns_msg ++ [0; 0; 0; 0; 0; 0]) [])).
  - apply (bool_decide_eq_true_1 _). by vm_compute.
  - by vm_compute.
  - by vm_compute.
Defined.

Lemma parseNDUserOpt_short_panics_witness :
  parseNDUserOpt 64 (mk_slice (encode_msg (mk_msg AF_INET6 0 2 ND_ROUTER_ADVERT 0) ++ []) []) = Panic.
Proof.
  rewrite (parseNDUserOpt_short_panics 64 (encode_msg (mk_msg AF_INET6 0 2 ND_ROUTER_ADVERT 0)) []).
  - reflexivity.
  - reflexivity.
  - reflexivity.
  - by vm_compute.
  - lia.
Defined.
