(* ===== verification/Network.v ===== *)
(** * Network start-up (pkg/bmc/interface.go)

    The kernel's netlink interface is a parameter ([Netlink]): what it answers,
    and how its state changes.  The model records the calls that change the
    interfaces, and counts the open handles. *)

From S2P Require Import Prelude GoMonad.
#[local] Open Scope string_scope.
#[local] Open Scope list_scope.
#[local] Open Scope Z_scope.

(** [netlink.Link]: the up flag and the hardware address. *)
Record link : Type := mk_link { l_up : bool; l_hw : list Z }.

Class Netlink (E : Type) : Type := {
  LinkByName : string -> E -> result link;
  ParseAddr : string -> result (list Z);
  NewHandle : E -> result unit;
  AddrList : string -> E -> result (list (list Z));
  AddrReplace : string -> list Z -> E -> result unit * E;
  LinkSetUp : string -> E -> result unit * E;
  LinkSetDown : string -> E -> result unit * E;
  Sethostname : string -> E -> result unit * E;
}.

(** The calls that change something, and the goroutines started. *)
Inductive call : Type :=
| CAddr (iface : string) (addr : list Z)
| CUp (iface : string)
| CDown (iface : string)
| CHostname (name : string)
| CGo (name : string).

#[export] Instance call_eq_dec : EqDecision call.
Proof. solve_decision. Defined.

Record net (E : Type) : Type := mk_net { env : E; calls : list call; handles : Z }.
Arguments mk_net {E}. Arguments env {E}. Arguments calls {E}. Arguments handles {E}.

(** [network]. *)
Record network : Type := mk_network { fqdn : string; ipv4 : list Z; ipv6 : list Z }.

Definition FQDN (n : network) : string := fqdn n.
Definition IPv4 (n : network) : list Z := ipv4 n.
Definition IPv6 (n : network) : list Z := ipv4 n.
Definition AddressLifetime (n : network) : Z := 3600 * 1000000000.

(** [isLinkLocalForMAC(addr, hw)]; a hardware address of fewer than six bytes
    panics. *)
Definition isLinkLocalForMAC (addr hw : list Z) : outcome bool :=
  match hw with
  | h0 :: h1 :: h2 :: h3 :: h4 :: h5 :: _ =>
      let chw := [0xfe; 0x80; 0; 0; 0; 0; 0; 0; h0; h1; h2; 0xff; 0xfe; h3; h4; h5] in
      let chw := <[8%nat := Z.lxor h0 0x2]> chw in
      Ret (bool_decide (chw = addr))
  | _ => Panic
  end.

(** [net.IP.IsLinkLocalUnicast] on a 16-byte address. *)
Definition IsLinkLocalUnicast (ip : list Z) : bool :=
  if decide (take 12 ip = replicate 10 0 ++ [0xff; 0xff]) then
    bool_decide (ip !!! 12%nat = 169) && bool_decide (ip !!! 13%nat = 254)
  else
    bool_decide (length ip = 16%nat) && bool_decide (ip !!! 0%nat = 0xfe) &&
    bool_decide (Z.land (ip !!! 1%nat) 0xc0 = 0x80).

Section Net.
Context {E : Type} `{Netlink E}.
#[local] Abbreviation K := (net E).

Definition ask {A} (q : E -> A) : M K A := gets (fun s => q (env s)).

(** A call that changes the environment, recorded. *)
Definition act (c : call) (f : E -> result unit * E) : M K (result unit) := fun s =>
  let '(r, e) := f (env s) in (Ret r, mk_net e (calls s ++ [c]) (handles s)).

Definition open_handle : M K (result unit) := fun s =>
  match NewHandle (env s) with
  | Ok _ => (Ret (Ok tt), mk_net (env s) (calls s) (handles s + 1))
  | Err e => (Ret (Err e), s)
  end.

(** [h.Delete()]. *)
Definition Delete : M K unit :=
  modify (fun s => mk_net (env s) (calls s) (handles s - 1)).

Definition go (name : string) : M K unit :=
  modify (fun s => mk_net (env s) (calls s ++ [CGo name]) (handles s)).

Definition addIp (cidr iface : string) : M K (result unit) :=
  l ← ask (LinkByName iface);
  match l with
  | Err e => mret (Err e)
  | Ok _ =>
      match ParseAddr cidr with
      | Err e => mret (Err e)
      | Ok addr =>
          h ← open_handle;
          match h with
          | Err e => mret (Err e)
          | Ok _ => deferring Delete (act (CAddr iface addr) (AddrReplace iface addr))
          end
      end
  end.

Definition setLinkUp (iface : string) : M K (result unit) :=
  l ← ask (LinkByName iface);
  match l with
  | Err e => mret (Err e)
  | Ok _ =>
      h ← open_handle;
      match h with
      | Err e => mret (Err e)
      | Ok _ => deferring Delete (act (CUp iface) (LinkSetUp iface))
      end
  end.

Definition setLinkDown (iface : string) : M K (result unit) :=
  l ← ask (LinkByName iface);
  match l with
  | Err e => mret (Err e)
  | Ok _ =>
      h ← open_handle;
      match h with
      | Err e => mret (Err e)
      | Ok _ => deferring Delete (act (CDown iface) (LinkSetDown iface))
      end
  end.

(** The search of [ipv6LinkFixer] for the link-local address. *)
Fixpoint find_link_local (addrs : list (list Z)) (hw : list Z) : outcome bool :=
  match addrs with
  | [] => Ret false
  | addr :: addrs =>
      if IsLinkLocalUnicast addr then
        match isLinkLocalForMAC addr hw with
        | Ret true => Ret true
        | Ret false => find_link_local addrs hw
        | o => o
        end
      else find_link_local addrs hw
  end.

(** One iteration of [ipv6LinkFixer]; the result is the next sleep in
    seconds. *)
Definition fixer_iteration (iface : string) : M K Z :=
  l ← ask (LinkByName iface);
  match l with
  | Err _ => mret 1
  | Ok a =>
      if negb (l_up a) then mret 1
      else
        addrs ← ask (AddrList iface);
        match addrs with
        | Err _ => mret 1
        | Ok addrs =>
            match find_link_local addrs (l_hw a) with
            | Ret true => mret 1
            | Ret false =>
                r ← setLinkDown iface;
                match r with
                | Err _ => mret 1
                | Ok _ =>
                    r ← setLinkUp iface;
                    match r with
                    | Err _ => mret 1
                    | Ok _ => mret 10
                    end
                end
            | Panic => go_panic
            | Exit => go_fatal
            | Blocked => fun s => (Blocked, s)
            end
        end
  end.

(** [ipv6LinkFixer] for [n] iterations: it runs until the process ends, or
    returns at once when the handle cannot be opened. *)
Fixpoint fixer_loop (n : nat) (iface : string) : M K unit :=
  match n with
  | O => mret tt
  | S n => _ ← fixer_iteration iface; fixer_loop n iface
  end.

Definition ipv6LinkFixer (n : nat) (iface : string) : M K unit :=
  h ← open_handle;
  match h with
  | Err _ => mret tt
  | Ok _ => deferring Delete (fixer_loop n iface)
  end.

(** The fields of [pb.Network] that [startNetwork] reads. *)
Record net_config : Type := mk_config {
  c_Vlan : Z; c_Ipv4Address : string; c_Ipv6Address : string; c_Hostname : string }.

(** Add an address that was configured; an error is only logged. *)
Definition add_configured (addr iface : string) : M K unit :=
  if decide (addr <> "") then _ ← addIp addr iface; mret tt else mret tt.

Definition startNetwork (config : option net_config) : M K (result network) :=
  let config := default (mk_config 0 "" "" "") config in
  r ← addIp "127.0.0.1/8" "lo";
  match r with
  | Err e => mret (Err e)
  | Ok _ =>
      r ← addIp "::1/32" "lo";
      match r with
      | Err e => mret (Err e)
      | Ok _ =>
          r ← setLinkUp "lo";
          match r with
          | Err e => mret (Err e)
          | Ok _ =>
              let iface := "eth0" in
              _ ← go "ipv6LinkFixer";
              _ ← add_configured (c_Ipv4Address config) iface;
              _ ← add_configured (c_Ipv6Address config) iface;
              _ ← go "rdnss";
              let name := if decide (c_Hostname config <> "") then c_Hostname config
                          else "ubmc.local" in
              _ ← act (CHostname name) (Sethostname name);
              mret (Ok (mk_network name [] []))
          end
      end
  end.
End Net.

(** ** The link-local address of a hardware address *)

(** The modified EUI-64 address of a MAC in fe80::/64. *)
Definition eui64 (hw : list Z) : list Z :=
  [0xfe; 0x80; 0; 0; 0; 0; 0; 0; Z.lxor (hw !!! 0%nat) 2; hw !!! 1%nat; hw !!! 2%nat; 0xff; 0xfe;
   hw !!! 3%nat; hw !!! 4%nat; hw !!! 5%nat].

Ltac six_bytes hw :=
  do 6 (destruct hw as [|? hw]; [done|]); destruct hw as [|? ?]; [|done].

Lemma lxor_inj_r x y k : Z.lxor x k = Z.lxor y k -> x = y.
Proof.
  intros Heq%(f_equal (fun z => Z.lxor z k)).
  by rewrite !Z.lxor_assoc, Z.lxor_nilpotent, !Z.lxor_0_r in Heq.
Qed.

Lemma isLinkLocalForMAC_eui64 addr hw :
  length hw = 6%nat -> isLinkLocalForMAC addr hw = Ret (bool_decide (eui64 hw = addr)).
Proof. intros Hl. six_bytes hw. done. Qed.

Lemma eui64_link_local hw : length hw = 6%nat -> IsLinkLocalUnicast (eui64 hw) = true.
Proof. intros Hl. six_bytes hw. done. Qed.

Lemma find_link_local_spec addrs hw :
  length hw = 6%nat -> find_link_local addrs hw = Ret (bool_decide (eui64 hw ∈ addrs)).
Proof.
  intros Hl. induction addrs as [|addr addrs IH]; [done|]. cbn [find_link_local].
  rewrite isLinkLocalForMAC_eui64 by done. rewrite IH.
  destruct (decide (eui64 hw = addr)) as [<-|Hne].
  - rewrite eui64_link_local, bool_decide_eq_true_2 by done.
    by rewrite (bool_decide_eq_true_2 (eui64 hw ∈ _)) by by left.
  - rewrite (bool_decide_eq_false_2 (eui64 hw = addr)) by done.
    assert (bool_decide (eui64 hw ∈ addr :: addrs) = bool_decide (eui64 hw ∈ addrs)) as ->.
    { apply bool_decide_ext. rewrite elem_of_cons. naive_solver. }
    by destruct (IsLinkLocalUnicast addr).
Qed.

(** [isLinkLocalForMAC] accepts exactly the modified EUI-64 link-local
    address of the hardware address, so an address identifies the MAC it was
    derived from. *)
Theorem link_local_identifies_mac (addr hw hw' : list Z) :
  length hw = 6%nat -> length hw' = 6%nat ->
  isLinkLocalForMAC addr hw = Ret true ->
  addr = eui64 hw /\ IsLinkLocalUnicast addr = true /\
  (isLinkLocalForMAC addr hw' = Ret true -> hw' = hw).
Proof.
  intros Hl Hl'. rewrite !isLinkLocalForMAC_eui64 by done.
  intros [= <-%bool_decide_eq_true_1]. split; [done|]. split; [by apply eui64_link_local|].
  intros [= Heq%bool_decide_eq_true_1]. six_bytes hw. six_bytes hw'.
  injection Heq as E0 E1 E2 E3 E4 E5. apply lxor_inj_r in E0. cbn in *. congruence.
Qed.

Section Spec.
Context {E : Type} `{Netlink E}.
#[local] Abbreviation K := (net E).

Lemma wp_act c f Q (s : K) :
  Q (f (env s)).1 (mk_net (f (env s)).2 (calls s ++ [c]) (handles s)) -> wp (act c f) Q s.
Proof. unfold wp, act. by destruct (f (env s)). Qed.

Lemma wp_open_handle Q (s : K) :
  (forall e, NewHandle (env s) = Err e -> Q (Err e) s) ->
  (NewHandle (env s) = Ok tt -> Q (Ok tt) (mk_net (env s) (calls s) (handles s + 1))) ->
  wp open_handle Q s.
Proof.
  intros H1 H2. unfold wp, open_handle.
  destruct (NewHandle (env s)) as [e|[]] eqn:Eh; [by apply H1|by apply H2].
Qed.

(** The handle opened by a setter is closed again. *)
Lemma net_same (s : K) (e : E) c : mk_net e c (handles s + 1 - 1) = mk_net e c (handles s).
Proof. f_equal. lia. Qed.

Lemma wp_setLinkDown iface a Q (s : K) :
  LinkByName iface (env s) = Ok a -> NewHandle (env s) = Ok tt ->
  Q (LinkSetDown iface (env s)).1
    (mk_net (LinkSetDown iface (env s)).2 (calls s ++ [CDown iface]) (handles s)) ->
  wp (setLinkDown iface) Q s.
Proof.
  intros Hl Hh HQ. unfold setLinkDown, ask. wp_pure. rewrite Hl. wp_pure.
  apply wp_open_handle; [congruence|]. intros _. wp_pure. apply wp_act. cbn [env calls handles].
  unfold Delete. apply wp_modify. cbn [env calls handles]. by rewrite net_same.
Qed.

Lemma wp_setLinkUp iface a Q (s : K) :
  LinkByName iface (env s) = Ok a -> NewHandle (env s) = Ok tt ->
  Q (LinkSetUp iface (env s)).1
    (mk_net (LinkSetUp iface (env s)).2 (calls s ++ [CUp iface]) (handles s)) ->
  wp (setLinkUp iface) Q s.
Proof.
  intros Hl Hh HQ. unfold setLinkUp, ask. wp_pure. rewrite Hl. wp_pure.
  apply wp_open_handle; [congruence|]. intros _. wp_pure. apply wp_act. cbn [env calls handles].
  unfold Delete. apply wp_modify. cbn [env calls handles]. by rewrite net_same.
Qed.

(** A kernel in which the interface exists and handles can be opened, before
    and after the interface is taken down. *)
Definition reachable (iface : string) (s : K) (a : link) : Prop :=
  LinkByName iface (env s) = Ok a /\ NewHandle (env s) = Ok tt /\
  (exists a', LinkByName iface (LinkSetDown iface (env s)).2 = Ok a') /\
  NewHandle (LinkSetDown iface (env s)).2 = Ok tt.

Lemma fixer_iteration_spec iface a addrs Q (s : K) :
  reachable iface s a -> l_up a = true -> length (l_hw a) = 6%nat ->
  AddrList iface (env s) = Ok addrs ->
  let '(rd, e1) := LinkSetDown iface (env s) in
  let '(ru, e2) := LinkSetUp iface e1 in
  ((eui64 (l_hw a) ∈ addrs) -> Q 1 s) ->
  (eui64 (l_hw a) ∉ addrs ->
     match rd, ru with
     | Err _, _ => Q 1 (mk_net e1 (calls s ++ [CDown iface]) (handles s))
     | Ok _, Err _ => Q 1 (mk_net e2 (calls s ++ [CDown iface; CUp iface]) (handles s))
     | Ok _, Ok _ => Q 10 (mk_net e2 (calls s ++ [CDown iface; CUp iface]) (handles s))
     end) ->
  wp (fixer_iteration iface) Q s.
Proof.
  intros (Hl & Hh & (a' & Hl') & Hh') Hup Hhw Ha.
  destruct (LinkSetDown iface (env s)) as [rd e1] eqn:Ed.
  destruct (LinkSetUp iface e1) as [ru e2] eqn:Eu. intros Hin Hnot.
  unfold fixer_iteration, ask. wp_pure. rewrite Hl, Hup. cbn [negb]. wp_pure. rewrite Ha.
  rewrite find_link_local_spec by done. case_bool_decide as Hm; [apply wp_ret; auto|].
  specialize (Hnot Hm). wp_pure. eapply wp_setLinkDown; [done..|]. rewrite Ed. cbn [fst snd].
  destruct rd as [e|[]]; [by apply wp_ret|]. wp_pure.
  eapply wp_setLinkUp; [done..|]. cbn [env calls handles]. rewrite Eu. cbn [fst snd].
  rewrite <- app_assoc. destruct ru as [e|[]]; by apply wp_ret.
Qed.
End Spec.

(** One iteration of the link fixer on an interface that is up: when the
    link-local address of its MAC is present nothing is done; otherwise the
    interface is taken down, and up again only if that succeeded, and the next
    check is after 10 s exactly when both succeeded.  No handle leaks. *)
Theorem fixer_iteration_correct {E : Type} `{Netlink E} (iface : string) (a : link)
    (addrs : list (list Z)) (s : net E) :
  reachable iface s a -> l_up a = true -> length (l_hw a) = 6%nat ->
  AddrList iface (env s) = Ok addrs ->
  wp (fixer_iteration iface) (fun sleep s' => handles s' = handles s /\
    if decide (eui64 (l_hw a) ∈ addrs) then sleep = 1 /\ s' = s
    else
      let down := LinkSetDown iface (env s) in
      let up := LinkSetUp iface down.2 in
      match down.1 with
      | Err _ => sleep = 1 /\ calls s' = calls s ++ [CDown iface]
      | Ok _ => calls s' = calls s ++ [CDown iface; CUp iface] /\ env s' = up.2 /\
          sleep = match up.1 with Ok _ => 10 | Err _ => 1 end
      end) s.
Proof.
  intros Hr Hup Hhw Ha.
  pose proof (fixer_iteration_spec iface a addrs (fun sleep s' => handles s' = handles s /\
    if decide (eui64 (l_hw a) ∈ addrs) then sleep = 1 /\ s' = s
    else
      let down := LinkSetDown iface (env s) in
      let up := LinkSetUp iface down.2 in
      match down.1 with
      | Err _ => sleep = 1 /\ calls s' = calls s ++ [CDown iface]
      | Ok _ => calls s' = calls s ++ [CDown iface; CUp iface] /\ env s' = up.2 /\
          sleep = match up.1 with Ok _ => 10 | Err _ => 1 end
      end) s Hr Hup Hhw Ha) as Hspec.
  destruct (LinkSetDown iface (env s)) as [rd e1] eqn:Ed.
  destruct (LinkSetUp iface e1) as [ru e2] eqn:Eu. apply Hspec; intros Hm.
  - by rewrite decide_True.
  - cbn [fst snd]. rewrite Eu. destruct rd, ru; by rewrite decide_False.
Qed.

(** When the interface goes down but bringing it up again fails, the fixer
    never tries again: every later iteration finds the up flag clear and does
    nothing. *)
Theorem fixer_gives_up {E : Type} `{Netlink E} (iface : string) (a a1 : link)
    (addrs : list (list Z)) (e1 : E) (err : error) (s : net E) (n : nat) :
  reachable iface s a -> l_up a = true -> length (l_hw a) = 6%nat ->
  AddrList iface (env s) = Ok addrs -> eui64 (l_hw a) ∉ addrs ->
  LinkSetDown iface (env s) = (Ok tt, e1) -> LinkByName iface e1 = Ok a1 -> l_up a1 = false ->
  LinkSetUp iface e1 = (Err err, e1) ->
  fixer_loop (S n) iface s =
  (Ret tt, mk_net e1 (calls s ++ [CDown iface; CUp iface]) (handles s)).
Proof.
  intros Hr Hup Hhw Ha Hno Ed Hl1 Hd1 Eu.
  assert (Hidle : forall n (s1 : net E), env s1 = e1 -> fixer_loop n iface s1 = (Ret tt, s1)).
  { clear -Hl1 Hd1. intros n s1 He. induction n as [|n IH]; [done|]. cbn [fixer_loop].
    unfold mbind at 1, M_bind at 1, fixer_iteration, ask, gets, mbind, M_bind.
    rewrite He, Hl1, Hd1. simpl. exact IH. }
  pose proof (fixer_iteration_spec iface a addrs (fun _ s' =>
    s' = mk_net e1 (calls s ++ [CDown iface; CUp iface]) (handles s)) s Hr Hup Hhw Ha) as Hspec.
  rewrite Ed, Eu in Hspec. specialize (Hspec ltac:(done) ltac:(done)).
  apply wp_run in Hspec as (x & s' & Er & ->). cbn [fixer_loop].
  unfold mbind at 1, M_bind at 1. rewrite Er. by apply Hidle.
Qed.

Section Start.
Context {E : Type} `{Netlink E}.

(** A call on an interface other than [iface], or not on an interface. *)
Definition untouched (iface : string) (c : call) : Prop :=
  match c with
  | CAddr i _ | CUp i | CDown i => i <> iface
  | CHostname _ | CGo _ => False
  end.

(** [addIp] makes one call at most, the one it reports on, and closes its
    handle. *)
Lemma wp_addIp cidr iface Q (s : net E) :
  (forall e, Q (Err e) s) ->
  (forall addr r e', ParseAddr cidr = Ok addr ->
     Q r (mk_net e' (calls s ++ [CAddr iface addr]) (handles s))) ->
  wp (addIp cidr iface) Q s.
Proof.
  intros H1 H2. unfold addIp, ask. wp_pure. destruct (LinkByName iface (env s)) as [e|a].
  { by apply wp_ret. }
  destruct (ParseAddr cidr) as [e|addr] eqn:Ep; [by apply wp_ret|]. wp_pure.
  apply wp_open_handle; [intros; by apply wp_ret|]. intros _. wp_pure. apply wp_act.
  unfold Delete. apply wp_modify. cbn [env calls handles]. rewrite net_same. by apply H2.
Qed.

Lemma wp_setLinkUp_any iface Q (s : net E) :
  (forall e, Q (Err e) s) ->
  (forall r e', Q r (mk_net e' (calls s ++ [CUp iface]) (handles s))) ->
  wp (setLinkUp iface) Q s.
Proof.
  intros H1 H2. unfold setLinkUp, ask. wp_pure. destruct (LinkByName iface (env s)) as [e|a].
  { by apply wp_ret. }
  wp_pure. apply wp_open_handle; [intros; by apply wp_ret|]. intros _. wp_pure. apply wp_act.
  unfold Delete. apply wp_modify. cbn [env calls handles]. rewrite net_same. by apply H2.
Qed.

Lemma wp_add_configured addr iface Q (s : net E) :
  (forall e' t, Forall (fun c => exists a, c = CAddr iface a) t ->
     Q tt (mk_net e' (calls s ++ t) (handles s))) ->
  wp (add_configured addr iface) Q s.
Proof.
  intros HQ. assert (Hs : Q tt s).
  { specialize (HQ (env s) [] ltac:(done)). rewrite app_nil_r in HQ. by destruct s. }
  unfold add_configured. case_decide; [|by apply wp_ret].
  wp_pure. apply wp_addIp; [by intros; apply wp_ret|]. intros a r e' _. apply wp_ret.
  apply HQ. apply Forall_singleton. eauto.
Qed.
End Start.

(** [startNetwork]: either the loopback could not be set up, an error is
    returned and nothing but the loopback was touched (no goroutine, no
    hostname); or the loopback has both addresses before it is brought up, the
    fixer and the RDNSS listener are started, only addresses of eth0 are set
    besides, and the hostname set and reported is the configured one, or
    ubmc.local.  No handle leaks. *)
Theorem startNetwork_correct {E : Type} `{Netlink E} (config : option net_config) (s : net E) :
  wp (startNetwork config) (fun r s' => handles s' = handles s /\
    match r with
    | Err _ => exists t, calls s' = calls s ++ t /\ Forall (untouched "eth0") t
    | Ok n => exists a4 a6 t1 t2 name,
        calls s' = calls s ++ [CAddr "lo" a4; CAddr "lo" a6; CUp "lo"; CGo "ipv6LinkFixer"] ++
          t1 ++ t2 ++ [CGo "rdnss"; CHostname name] /\
        Forall (fun c => exists a, c = CAddr "eth0" a) (t1 ++ t2) /\
        FQDN n = name /\ name <> "" /\
        (forall c, config = Some c -> c_Hostname c <> "" -> name = c_Hostname c)
    end) s.
Proof.
  unfold startNetwork. wp_pure. apply wp_addIp.
  { intros e. apply wp_ret. split; [done|]. exists []. by rewrite app_nil_r. }
  intros a4 [e|[]] e1 _.
  { apply wp_ret. split; [done|]. eexists. split; [done|]. by apply Forall_singleton. }
  wp_pure. apply wp_addIp.
  { intros e. apply wp_ret. split; [done|]. eexists. split; [done|]. by apply Forall_singleton. }
  cbn [calls handles]. intros a6 [e|[]] e2 _.
  { apply wp_ret. split; [done|]. rewrite <- app_assoc. eexists. split; [done|].
    by repeat (apply Forall_cons; split). }
  wp_pure. apply wp_setLinkUp_any; cbn [calls handles]; rewrite <- app_assoc.
  { intros e. apply wp_ret. split; [done|]. eexists. split; [done|].
    by apply Forall_cons; split; [|apply Forall_singleton]. }
  intros [e|[]] e3; rewrite <- app_assoc.
  { apply wp_ret. split; [done|]. eexists. split; [done|].
    by apply Forall_cons; split; [|apply Forall_cons; split; [|apply Forall_singleton]]. }
  wp_pure. unfold go. wp_pure. apply wp_add_configured. cbn [calls handles env].
  intros e4 t1 Ht1. wp_pure. apply wp_add_configured. cbn [calls handles env].
  intros e5 t2 Ht2. wp_pure. apply wp_act. cbn [calls handles env]. wp_pure.
  split; [done|]. eexists a4, a6, t1, t2, _. split; [by rewrite <- !app_assoc|].
  split; [by apply Forall_app|]. split; [done|]. split.
  - case_decide; done.
  - intros c -> Hc. simpl. by rewrite decide_True.
Qed.

(** ** A concrete kernel *)

Module SimNet.
(** One interface, up or down, and whether bringing it up works. *)
Record kernel : Type := mk_kernel { k_up : bool; k_addrs : list (list Z); k_works : bool }.

Definition mac : list Z := [0x52; 0x54; 0; 0x12; 0x34; 0x56].

#[global] Instance kernel_netlink : Netlink kernel := {
  LinkByName _ k := Ok (mk_link (k_up k) mac);
  ParseAddr _ := Ok [];
  NewHandle _ := Ok tt;
  AddrList _ k := Ok (k_addrs k);
  AddrReplace _ a k := (Ok tt, mk_kernel (k_up k) (a :: k_addrs k) (k_works k));
  LinkSetUp _ k := if k_works k then (Ok tt, mk_kernel true [eui64 mac] true)
                   else (Err "no carrier", k);
  LinkSetDown _ k := (Ok tt, mk_kernel false [] (k_works k));
  Sethostname _ k := (Ok tt, k);
}.

Definition start (works : bool) : net kernel := mk_net (mk_kernel true [] works) [] 0.

Lemma start_reachable works : reachable "eth0" (start works) (mk_link true mac).
Proof. split; [done|]. split; [done|]. split; [by eexists|done]. Qed.

Lemma link_local_identifies_mac_witness :
  eui64 mac = eui64 mac /\ IsLinkLocalUnicast (eui64 mac) = true /\
  (isLinkLocalForMAC (eui64 mac) [1; 2; 3; 4; 5; 6] = Ret true -> [1; 2; 3; 4; 5; 6] = mac).
Proof. exact (link_local_identifies_mac (eui64 mac) mac [1; 2; 3; 4; 5; 6] eq_refl eq_refl eq_refl). Defined.

Lemma fixer_iteration_correct_witness :
  exists sleep s', fixer_iteration "eth0" (start true) = (Ret sleep, s') /\ sleep = 10 /\
    calls s' = [CDown "eth0"; CUp "eth0"].
Proof.
  pose proof (fixer_iteration_correct "eth0" (mk_link true mac) [] (start true)
    (start_reachable true) eq_refl eq_refl eq_refl) as Hw.
  apply wp_run in Hw as (sleep & s' & Hr & Hh & Hc). exists sleep, s'. split; [exact Hr|].
  rewrite decide_False in Hc by (apply not_elem_of_nil). simpl in Hc. naive_solver.
Defined.

Lemma fixer_gives_up_witness :
  fixer_loop 1000 "eth0" (start false) =
  (Ret tt, mk_net (mk_kernel false [] false) [CDown "eth0"; CUp "eth0"] 0).
Proof.
  apply (fixer_gives_up "eth0" (mk_link true mac) (mk_link false mac) [] (mk_kernel false [] false)
    "no carrier" (start false) 999 (start_reachable false)); try reflexivity.
  apply not_elem_of_nil.
Defined.
End SimNet.
