(* ===== verification/Ncsi.v ===== *)
(** * Discovery of NC-SI packages (pkg/bmc/ncsi.go)

    [StartNcsi] asks the kernel for the packages and channels behind a network
    interface and logs them.  Generic netlink and the attribute decoder of the netlink
    package are parameters; of the decoder its documented behaviour is modelled: it is
    made from a buffer that has to consist of attributes, and the first error of a
    conversion, or of a function given to [Do], ends the iteration. *)

From S2P Require Import Prelude GoMonad GoStrings.
#[local] Open Scope string_scope.
#[local] Open Scope list_scope.
#[local] Open Scope Z_scope.

(** Attribute types of linux/ncsi.h. *)
Definition NCSI_ATTR_IFINDEX : Z := 1.
Definition NCSI_ATTR_PACKAGE_LIST : Z := 2.
Definition NCSI_PKG_ATTR : Z := 1.
Definition NCSI_PKG_ATTR_ID : Z := 2.
Definition NCSI_PKG_ATTR_CHANNEL_LIST : Z := 4.
Definition NCSI_CHANNEL_ATTR : Z := 1.
Definition NCSI_CHANNEL_ATTR_ID : Z := 2.
Definition NCSI_CHANNEL_ATTR_LINK_STATE : Z := 6.
Definition NCSI_CHANNEL_ATTR_ACTIVE : Z := 7.
Definition NCSI_CHANNEL_ATTR_FORCED : Z := 8.
Definition NCSI_CMD_PKG_INFO : Z := 1.

Definition second : Z := 10 ^ 9.

(** The data of an attribute with its type. *)
Notation attr := (Z * list Z)%type.

(** The netlink package: the attributes of a buffer, the number in a piece of data, and
    the encoding of one number attribute. *)
Class NetlinkAttrs : Type := {
  UnmarshalAttributes : list Z -> result (list attr);
  Uint32 : list Z -> result Z;
  EncodeUint32 : Z -> Z -> result (list Z) }.

(** What is logged and asked. *)
Inductive event : Type :=
| PackagePresent (id : Z)
| ChannelPresent (id link_state : Z) (active forced : bool)
| GotReplies (n : nat)
| Errorf (text : string)
| Slept (d : Z)
| Executed (command version : Z) (data : list Z) (family : Z).

Definition log (e : event) : M (list event) unit := modify (fun l => l ++ [e]).

Section Ncsi.
Context `{NetlinkAttrs} (w : Z).

(** [for ad.Next() { body }; return ad.Err()], with the variables of the function. *)
Fixpoint each_attr {A} (l : list attr) (body : A -> attr -> M (list event) (A * result unit)) (a : A) : M (list event) (A * result unit) :=
  match l with
  | [] => mret (a, Ok tt)
  | x :: l => r ← body a x; match r.2 with Ok _ => each_attr l body r.1 | Err e => mret (r.1, Err e) end
  end.

(** [ad, err := netlink.NewAttributeDecoder(b)] and the loop, for a function without
    variables. *)
Definition decode_attrs (b : list Z) (body : attr -> M (list event) (result unit)) : M (list event) (result unit) :=
  match UnmarshalAttributes b with
  | Err e => mret (Err e)
  | Ok l => r ← each_attr l (fun _ x => r ← body x; mret (tt, r)) tt; mret r.2
  end.

(** [ad.Uint32()]: zero and the error of the decoder when the data has another size. *)
Definition ad_Uint32 (b : list Z) : Z * result unit :=
  match Uint32 b with Ok v => (v, Ok tt) | Err e => (0, Err e) end.

Record channel_vars : Type := mk_chan { id : Z; ls : Z; active : bool; forced : bool }.

Definition channel_attr (v : channel_vars) (x : attr) : M (list event) (channel_vars * result unit) :=
  if decide (x.1 = NCSI_CHANNEL_ATTR_ID) then
    let '(n, r) := ad_Uint32 x.2 in mret (mk_chan (sint w n) (ls v) (active v) (forced v), r)
  else if decide (x.1 = NCSI_CHANNEL_ATTR_ACTIVE) then mret (mk_chan (id v) (ls v) true (forced v), Ok tt)
  else if decide (x.1 = NCSI_CHANNEL_ATTR_FORCED) then mret (mk_chan (id v) (ls v) (active v) true, Ok tt)
  else if decide (x.1 = NCSI_CHANNEL_ATTR_LINK_STATE) then
    let '(n, r) := ad_Uint32 x.2 in mret (mk_chan (id v) (sint w n) (active v) (forced v), r)
  else mret (v, Ok tt).

Definition registerNcsiChannel (b : list Z) : M (list event) (result unit) :=
  match UnmarshalAttributes b with
  | Err e => mret (Err e)
  | Ok l =>
      r ← each_attr l channel_attr (mk_chan (-1) (-1) false false);
      match r.2 with
      | Err e => mret (Err e)
      | Ok _ => _ ← log (ChannelPresent (id r.1) (ls r.1) (active r.1) (forced r.1)); mret (Ok tt)
      end
  end.

Definition handleNcsiChannelList (b : list Z) : M (list event) (result unit) :=
  decode_attrs b (fun x => if decide (x.1 = NCSI_CHANNEL_ATTR) then registerNcsiChannel x.2 else mret (Ok tt)).

Definition registerNcsiPackage (b : list Z) : M (list event) (result unit) :=
  decode_attrs b (fun x =>
    if decide (x.1 = NCSI_PKG_ATTR_ID) then
      let '(n, r) := ad_Uint32 x.2 in _ ← log (PackagePresent n); mret r
    else if decide (x.1 = NCSI_PKG_ATTR_CHANNEL_LIST) then handleNcsiChannelList x.2
    else mret (Ok tt)).

Definition handleNcsiPackageList (b : list Z) : M (list event) (result unit) :=
  decode_attrs b (fun x => if decide (x.1 = NCSI_PKG_ATTR) then registerNcsiPackage x.2 else mret (Ok tt)).

(** The replies, until one cannot be decoded. *)
Fixpoint each_reply (msgs : list (list Z)) : M (list event) unit :=
  match msgs with
  | [] => mret tt
  | m :: msgs =>
      match UnmarshalAttributes m with
      | Err _ => log (Errorf "failed to create attribute decoder")
      | Ok l =>
          r ← each_attr l (fun _ x =>
            r ← (if decide (x.1 = NCSI_ATTR_PACKAGE_LIST) then handleNcsiPackageList x.2 else mret (Ok tt));
            mret (tt, r)) tt;
          match r.2 with
          | Err _ => log (Errorf "failed to decode NCSI attributes")
          | Ok _ => each_reply msgs
          end
      end
  end.

(** [StartNcsi(iface)] with the results of its calls: the connection, the family with its
    identifier and version, the index of the interface, the answer to a request. *)
Definition StartNcsi (dial : result unit) (GetFamily : result (Z * Z)) (InterfaceByName : result Z)
    (Execute : list Z -> Z -> result (list (list Z))) : M (list event) unit :=
  match dial with
  | Err _ => log (Errorf "dial generic netlink")
  | Ok _ =>
  match GetFamily with
  | Err _ => log (Errorf "get NCSI netlink family")
  | Ok (family, version) =>
  match InterfaceByName with
  | Err _ => log (Errorf "unable to get interface")
  | Ok index =>
  match EncodeUint32 NCSI_ATTR_IFINDEX (uint 32 index) with
  | Err _ => log (Errorf "failed to encode NCSI attribute data")
  | Ok ed =>
      _ ← log (Slept (15 * second));
      _ ← log (Executed NCSI_CMD_PKG_INFO version ed family);
      match Execute ed family with
      | Err _ => log (Errorf "execute NCSI dump")
      | Ok msgs => _ ← log (GotReplies (length msgs)); each_reply msgs
      end
  end end end end.
End Ncsi.

(** ** What a reply describes *)

Record channel : Type := mk_channel { c_id : Z; c_link : Z; c_active : bool; c_forced : bool }.
Record package : Type := mk_package { p_id : Z; p_channels : list channel }.

Section Data.
Context `{NetlinkAttrs} (w : Z).

Definition of_type (ty : Z) (l : list attr) : list (list Z) := map snd (filter (fun x => x.1 = ty) l).

(** Every attribute of the type holds the number, and there is one. *)
Definition holds (ty n : Z) (l : list attr) : Prop :=
  of_type ty l <> [] /\ Forall (fun d => Uint32 d = Ok n) (of_type ty l).

(** The data of a channel: its attributes in any order, and others among them. *)
Definition channel_data (c : channel) (b : list Z) : Prop := exists l, UnmarshalAttributes b = Ok l /\
  holds NCSI_CHANNEL_ATTR_ID (c_id c) l /\ holds NCSI_CHANNEL_ATTR_LINK_STATE (c_link c) l /\
  c_active c = bool_decide (of_type NCSI_CHANNEL_ATTR_ACTIVE l <> []) /\
  c_forced c = bool_decide (of_type NCSI_CHANNEL_ATTR_FORCED l <> []).

(** A list of items, each the data of an attribute of the type. *)
Definition list_data {X} (ty : Z) (R : X -> list Z -> Prop) (xs : list X) (b : list Z) : Prop :=
  exists l, UnmarshalAttributes b = Ok l /\ Forall2 R xs (of_type ty l).

(** A package: its number before its channels. *)
Definition package_data (p : package) (b : list Z) : Prop := exists l d cs, UnmarshalAttributes b = Ok l /\
  filter (fun x => x.1 = NCSI_PKG_ATTR_ID \/ x.1 = NCSI_PKG_ATTR_CHANNEL_LIST) l =
    [(NCSI_PKG_ATTR_ID, d); (NCSI_PKG_ATTR_CHANNEL_LIST, cs)] /\
  Uint32 d = Ok (p_id p) /\ list_data NCSI_CHANNEL_ATTR channel_data (p_channels p) cs.

(** A reply holds lists of packages. *)
Definition reply_data (pss : list (list package)) (b : list Z) : Prop :=
  list_data NCSI_ATTR_PACKAGE_LIST (list_data NCSI_PKG_ATTR package_data) pss b.

Definition channel_event (c : channel) : event := ChannelPresent (sint w (c_id c)) (sint w (c_link c)) (c_active c) (c_forced c).
Definition package_events (p : package) : list event := PackagePresent (p_id p) :: map channel_event (p_channels p).

(** ** The handlers log it *)

(** [m] appends [es] to the log and returns [r]. *)
Definition says {A} (m : M (list event) A) (es : list event) (r : A) : Prop := forall l, m l = (Ret r, l ++ es).

Lemma says_ret {A} (r : A) : says (mret r) [] r.
Proof. intros l. by rewrite app_nil_r. Qed.

Lemma says_bind {A B} (m : M (list event) A) (k : A -> M (list event) B) es es' r r' :
  says m es r -> says (k r) es' r' -> says (m ≫= k) (es ++ es') r'.
Proof. intros Hm Hk l. unfold mbind, M_bind. by rewrite Hm, Hk, app_assoc. Qed.

Lemma says_log e : says (log e) [e] tt.
Proof. done. Qed.

(** Attributes that the body ignores can be left out. *)
Lemma each_attr_filter {A} (P : attr -> Prop) `{!forall x, Decision (P x)} l (body : A -> attr -> M (list event) (A * result unit)) a s :
  (forall a x, ~ P x -> body a x = mret (a, Ok tt)) -> each_attr l body a s = each_attr (filter P l) body a s.
Proof.
  intros Hb. revert a s. induction l as [|x l IH]; intros a s; [done|]. rewrite filter_cons. case_decide as Hx; cbn [each_attr].
  - unfold mbind, M_bind. destruct (body a x s) as [[[a' [e|[]]]| | |] s']; [done|apply IH|done|done|done].
  - rewrite Hb by done. apply IH.
Qed.

(** A loop whose bodies succeed. *)
Lemma each_attr_logs {X} (f : attr -> M (list event) (result unit)) (out : X -> list event) xs l :
  Forall2 (fun x a => says (f a) (out x) (Ok tt)) xs l ->
  says (each_attr l (fun _ a => r ← f a; mret (tt, r)) tt) (concat (map out xs)) (tt, Ok tt).
Proof.
  induction 1 as [|x a xs l Hx _ IH]; [apply says_ret|]. cbn [each_attr map concat].
  apply says_bind with (r := (tt, Ok tt)); [|exact IH]. rewrite <- (app_nil_r (out x)). eapply says_bind; [exact Hx|apply says_ret].
Qed.

(** A loop that passes the data of one type on. *)
Lemma select_logs {X} ty (f : list Z -> M (list event) (result unit)) (R : X -> list Z -> Prop) (out : X -> list event) xs l :
  (forall x d, R x d -> says (f d) (out x) (Ok tt)) -> Forall2 R xs (of_type ty l) ->
  says (each_attr l (fun _ x => r ← (if decide (x.1 = ty) then f x.2 else mret (Ok tt)); mret (tt, r)) tt)
    (concat (map out xs)) (tt, Ok tt).
Proof.
  intros Hf HR s. rewrite (each_attr_filter (fun x => x.1 = ty)).
  2: { intros [] x Hx. by rewrite decide_False. }
  apply (each_attr_logs (fun x => if decide (x.1 = ty) then f x.2 else mret (Ok tt)) out).
  assert (Hty : Forall (fun x : attr => x.1 = ty) (filter (fun x => x.1 = ty) l)).
  { apply Forall_forall. by intros x [? _]%list_elem_of_filter. }
  unfold of_type in HR. clear s. revert xs HR Hty. generalize (filter (fun x : attr => x.1 = ty) l). intros l2 xs.
  revert xs. induction l2 as [|a l2 IH]; intros xs HR Hty; inversion_clear HR as [|x ? xs' ? Hx HR']; [constructor|].
  inversion_clear Hty as [|? ? Ha Hl]. constructor; [|by apply IH]. rewrite decide_True by done. by apply Hf.
Qed.

Lemma decode_logs {X} ty (f : list Z -> M (list event) (result unit)) (R : X -> list Z -> Prop) (out : X -> list event) xs b :
  (forall x d, R x d -> says (f d) (out x) (Ok tt)) -> list_data ty R xs b ->
  says (decode_attrs b (fun x => if decide (x.1 = ty) then f x.2 else mret (Ok tt))) (concat (map out xs)) (Ok tt).
Proof.
  intros Hf (l & E & HR). unfold decode_attrs. rewrite E. rewrite <- (app_nil_r (concat _)).
  eapply says_bind; [by apply (select_logs ty f R)|apply says_ret].
Qed.

Lemma Forall_of_type_tail (P : list Z -> Prop) ty x l : Forall P (of_type ty (x :: l)) -> Forall P (of_type ty l).
Proof. unfold of_type. rewrite filter_cons. case_decide; [|done]. by inversion_clear 1. Qed.

(** The variables of a channel after its attributes. *)
Lemma channel_loop l i k v :
  Forall (fun d => Uint32 d = Ok i) (of_type NCSI_CHANNEL_ATTR_ID l) ->
  Forall (fun d => Uint32 d = Ok k) (of_type NCSI_CHANNEL_ATTR_LINK_STATE l) ->
  let pick {T} ty (x y : T) := match of_type ty l with [] => y | _ => x end in
  says (each_attr l (channel_attr w) v) []
    (mk_chan (pick NCSI_CHANNEL_ATTR_ID (sint w i) (id v)) (pick NCSI_CHANNEL_ATTR_LINK_STATE (sint w k) (ls v))
       (pick NCSI_CHANNEL_ATTR_ACTIVE true (active v)) (pick NCSI_CHANNEL_ATTR_FORCED true (forced v)), Ok tt).
Proof.
  revert v. induction l as [|[ty d] l IH]; intros v Hi Hk pick; [by destruct v; apply says_ret|].
  assert (Hstep : exists v', says (channel_attr w v (ty, d)) [] (v', Ok tt) /\
    id v' = (if decide (ty = NCSI_CHANNEL_ATTR_ID) then sint w i else id v) /\
    ls v' = (if decide (ty = NCSI_CHANNEL_ATTR_LINK_STATE) then sint w k else ls v) /\
    active v' = (if decide (ty = NCSI_CHANNEL_ATTR_ACTIVE) then true else active v) /\
    forced v' = (if decide (ty = NCSI_CHANNEL_ATTR_FORCED) then true else forced v)).
  { unfold of_type in Hi, Hk. rewrite filter_cons in Hi, Hk. cbn [fst] in Hi, Hk. unfold channel_attr, ad_Uint32. cbn [fst snd].
    repeat (case_decide; subst); try done; cbn [map] in *; try (inversion_clear Hi as [|? ? E _]; cbn in E; rewrite E);
      try (inversion_clear Hk as [|? ? E _]; cbn in E; rewrite E); eexists; (split; [apply says_ret|done]). }
  destruct Hstep as (v' & Hs & E1 & E2 & E3 & E4).
  apply Forall_of_type_tail in Hi, Hk. specialize (IH v' Hi Hk). cbn [each_attr].
  apply (says_bind _ _ [] [] (v', Ok tt) _ Hs). cbn [fst snd]. unfold pick, of_type. rewrite !filter_cons. cbn [fst].
  rewrite E1, E2, E3, E4 in IH. fold (of_type NCSI_CHANNEL_ATTR_ID l) (of_type NCSI_CHANNEL_ATTR_LINK_STATE l).
  unfold of_type in IH. repeat case_decide; cbn [map]; repeat (case_match); exact IH.
Qed.

Lemma registerNcsiChannel_logs c b : channel_data c b -> says (registerNcsiChannel w b) [channel_event c] (Ok tt).
Proof.
  intros (l & E & [Hi1 Hi] & [Hk1 Hk] & Ha & Hf). unfold registerNcsiChannel. rewrite E.
  change [channel_event c] with ([] ++ [channel_event c]).
  eapply says_bind; [apply (channel_loop l _ _ _ Hi Hk)|]. cbn [fst snd id ls active forced].
  unfold channel_event. rewrite Ha, Hf. destruct (of_type NCSI_CHANNEL_ATTR_ID l), (of_type NCSI_CHANNEL_ATTR_LINK_STATE l); try done.
  by destruct (of_type NCSI_CHANNEL_ATTR_ACTIVE l), (of_type NCSI_CHANNEL_ATTR_FORCED l).
Qed.

Lemma handleNcsiChannelList_logs cs b : list_data NCSI_CHANNEL_ATTR channel_data cs b ->
  says (handleNcsiChannelList w b) (map channel_event cs) (Ok tt).
Proof.
  intros Hb. replace (map channel_event cs) with (concat (map (fun c => [channel_event c]) cs))
    by (clear; induction cs as [|c cs IH]; [done|cbn; by rewrite IH]).
  apply (decode_logs _ _ channel_data), Hb. exact registerNcsiChannel_logs.
Qed.

Lemma registerNcsiPackage_logs p b : package_data p b -> says (registerNcsiPackage w b) (package_events p) (Ok tt).
Proof.
  intros (l & d & cs & E & El & Hd & Hcs) s. unfold registerNcsiPackage, decode_attrs. rewrite E. unfold mbind at 1, M_bind at 1.
  rewrite (each_attr_filter (fun x => x.1 = NCSI_PKG_ATTR_ID \/ x.1 = NCSI_PKG_ATTR_CHANNEL_LIST)).
  2: { intros [] x Hx. by rewrite !decide_False by tauto. }
  match goal with |- context [each_attr _ (fun _ x => r ← @?f x; mret (tt, r)) tt] =>
    pose proof (each_attr_logs f (fun es => es) [[PackagePresent (p_id p)]; map channel_event (p_channels p)]
      [(NCSI_PKG_ATTR_ID, d); (NCSI_PKG_ATTR_CHANNEL_LIST, cs)]) as Hl end.
  cbn beta in Hl. rewrite El, Hl; [by cbn [concat map]; rewrite app_nil_r|]. constructor; [|constructor; [|constructor]].
  - cbn [fst snd]. rewrite decide_True by done. unfold ad_Uint32. by rewrite Hd.
  - cbn [fst snd]. rewrite decide_False, decide_True by done. by apply handleNcsiChannelList_logs.
Qed.

Lemma each_reply_logs psss msgs : Forall2 reply_data psss msgs ->
  says (each_reply w msgs) (concat (map package_events (concat (concat psss)))) tt.
Proof.
  induction 1 as [|pss m psss msgs (l & E & Hl) _ IH]; [apply says_ret|]. cbn [each_reply]. rewrite E.
  cbn [concat]. rewrite concat_app, map_app, concat_app. apply says_bind with (r := (tt, Ok tt)); [|exact IH].
  replace (concat (map package_events (concat pss))) with (concat (map (fun ps => concat (map package_events ps)) pss)).
  - apply (select_logs _ _ (list_data NCSI_PKG_ATTR package_data)); [|done]. intros ps d Hps.
    apply (decode_logs _ _ package_data), Hps. apply registerNcsiPackage_logs.
  - clear. induction pss as [|ps pss IH]; [done|]. cbn. by rewrite IH, map_app, concat_app.
Qed.

(** ** Replies that cannot be decoded *)

Definition is_ok {A} (r : result A) : bool := match r with Ok _ => true | Err _ => false end.

(** A buffer of attributes that all pass. *)
Definition attrs_ok (f : attr -> bool) (b : list Z) : bool :=
  match UnmarshalAttributes b with Ok l => forallb f l | Err _ => false end.
Definition when (p : Prop) `{Decision p} (b : bool) : bool := if decide p then b else true.

Definition channel_ok : list Z -> bool := attrs_ok (fun x =>
  when (x.1 = NCSI_CHANNEL_ATTR_ID \/ x.1 = NCSI_CHANNEL_ATTR_LINK_STATE) (is_ok (Uint32 x.2))).
Definition channel_list_ok : list Z -> bool := attrs_ok (fun x => when (x.1 = NCSI_CHANNEL_ATTR) (channel_ok x.2)).
Definition package_ok : list Z -> bool := attrs_ok (fun x =>
  when (x.1 = NCSI_PKG_ATTR_ID) (is_ok (Uint32 x.2)) && when (x.1 = NCSI_PKG_ATTR_CHANNEL_LIST) (channel_list_ok x.2)).
Definition package_list_ok : list Z -> bool := attrs_ok (fun x => when (x.1 = NCSI_PKG_ATTR) (package_ok x.2)).
Definition reply_ok : list Z -> bool := attrs_ok (fun x => when (x.1 = NCSI_ATTR_PACKAGE_LIST) (package_list_ok x.2)).

Definition is_error (e : event) : bool := match e with Errorf _ => true | _ => false end.

(** [m] returns, logs no errors, and succeeds exactly when [ok]. *)
Definition checks {A} (res : A -> result unit) (m : M (list event) A) (ok : bool) : Prop :=
  forall s, exists es r, m s = (Ret r, s ++ es) /\ forallb (fun e => negb (is_error e)) es = true /\ is_ok (res r) = ok.

Lemma checks_ret {A} (res : A -> result unit) r : checks res (mret r) (is_ok (res r)).
Proof. intros s. exists [], r. by rewrite app_nil_r. Qed.

Lemma checks_log (e : event) r : is_error e = false -> checks (fun r => r) (_ ← log e; mret r) (is_ok r).
Proof. intros He s. exists [e], r. split; [done|]. cbn. by rewrite He. Qed.

Lemma checks_pair m ok : checks (fun r => r) m ok -> checks snd (r ← m; mret (tt, r)) ok.
Proof. intros Hm s. destruct (Hm s) as (es & r & E & He & Hr). exists es, (tt, r). unfold mbind, M_bind. by rewrite E. Qed.

Lemma checks_each {A} (body : A -> attr -> M (list event) (A * result unit)) (ok : attr -> bool) l a :
  (forall a x, checks snd (body a x) (ok x)) -> checks snd (each_attr l body a) (forallb ok l).
Proof.
  intros Hb. revert a. induction l as [|x l IH]; intros a s; [exact (checks_ret snd (a, Ok tt) s)|]. cbn [each_attr forallb].
  unfold mbind, M_bind. destruct (Hb a x s) as (es & [a' r] & -> & He & Hr). cbn [fst snd] in *. destruct r as [e|[]]; cbn in Hr; rewrite <- Hr.
  - exists es, (a', Err e). done.
  - destruct (IH a' (s ++ es)) as (es' & r & -> & He' & Hr'). exists (es ++ es'), r. rewrite forallb_app, He, He', app_assoc. done.
Qed.

Lemma checks_decode body ok b : (forall x, checks (fun r => r) (body x) (ok x)) ->
  checks (fun r => r) (decode_attrs b body) (attrs_ok ok b).
Proof.
  intros Hb s. unfold decode_attrs, attrs_ok. destruct (UnmarshalAttributes b) as [e|l]; [exact (checks_ret (fun r => r) (Err e) s)|].
  destruct (checks_each (fun (_ : unit) x => r ← body x; mret (tt, r)) ok l tt (fun _ x => checks_pair _ _ (Hb x)) s) as (es & r & E & He & Hr).
  exists es, r.2. unfold mbind at 1, M_bind at 1. by rewrite E.
Qed.

Lemma checks_when (P : Prop) `{Decision P} m b : checks (fun r => r) m b ->
  checks (fun r => r) (if decide P then m else mret (Ok tt)) (when P b).
Proof. intros Hm. unfold when. case_decide; [done|apply (checks_ret (fun r => r) (Ok tt))]. Qed.

Lemma registerNcsiChannel_checks b : checks (fun r => r) (registerNcsiChannel w b) (channel_ok b).
Proof.
  intros s. unfold registerNcsiChannel, channel_ok, attrs_ok. destruct (UnmarshalAttributes b) as [e|l]; [exact (checks_ret (fun r => r) (Err e) s)|].
  match goal with |- context [forallb ?ok l] =>
    destruct (checks_each (channel_attr w) ok l (mk_chan (-1) (-1) false false)) with (s := s) as (es & [v r] & E & He & Hr) end.
  - intros v x. unfold channel_attr, when, ad_Uint32. clear.
    unfold NCSI_CHANNEL_ATTR_ID, NCSI_CHANNEL_ATTR_LINK_STATE, NCSI_CHANNEL_ATTR_ACTIVE, NCSI_CHANNEL_ATTR_FORCED.
    repeat case_decide; try lia; try (apply (checks_ret snd)); destruct (Uint32 x.2); apply (checks_ret snd).
  - unfold mbind, M_bind. rewrite E. cbn [snd fst] in *. rewrite <- Hr. destruct r as [e|[]].
    + by exists es, (Err e).
    + exists (es ++ [ChannelPresent (id v) (ls v) (active v) (forced v)]), (Ok tt). rewrite forallb_app, He, app_assoc. done.
Qed.

Lemma registerNcsiPackage_checks b : checks (fun r => r) (registerNcsiPackage w b) (package_ok b).
Proof.
  apply checks_decode. intros x. unfold when. case_decide as H1.
  - rewrite decide_False, andb_true_r by (rewrite H1; done). unfold ad_Uint32. by destruct (Uint32 x.2); apply checks_log.
  - case_decide; cbn [andb]; [|apply (checks_ret (fun r => r) (Ok tt))].
    apply checks_decode. intros y. apply checks_when, registerNcsiChannel_checks.
Qed.

Lemma each_reply_checks msgs s : exists es, each_reply w msgs s = (Ret tt, s ++ es) /\
  forallb (fun e => negb (is_error e)) es = forallb reply_ok msgs.
Proof.
  revert s. induction msgs as [|m msgs IH]; intros s; [exists []; by rewrite app_nil_r|]. cbn [each_reply forallb].
  unfold reply_ok at 1, attrs_ok at 1. destruct (UnmarshalAttributes m) as [e|l]; [by eexists|].
  match goal with |- context [each_attr l ?body tt] =>
    destruct (checks_each body (fun x => when (x.1 = NCSI_ATTR_PACKAGE_LIST) (package_list_ok x.2)) l tt) with (s := s) as (es & [[] r] & E & He & Hr) end.
  - intros _ x. apply checks_pair, checks_when, checks_decode. intros y. apply checks_when, registerNcsiPackage_checks.
  - unfold mbind at 1, M_bind at 1. rewrite E. cbn [snd] in *. rewrite <- Hr. destruct r as [e|[]].
    + eexists. unfold log, modify. rewrite <- app_assoc. split; [reflexivity|]. by rewrite forallb_app, He.
    + destruct (IH (s ++ es)) as (es' & -> & He'). exists (es ++ es'). by rewrite forallb_app, He, He', app_assoc.
Qed.
End Data.

(** When its calls succeed [StartNcsi] waits, asks once and logs what the replies
    describe: each package in order, with its channels in order, their numbers as an
    [int] of the machine and their flags, wherever the attributes stand in a channel and
    whatever other attributes there are.  It always returns, and it logs an error
    exactly when something in a reply cannot be decoded, at whatever depth. *)
Theorem ncsi_reports `{NetlinkAttrs} (w family version index : Z) (ed : list Z) (msgs : list (list Z))
    (Execute : list Z -> Z -> result (list (list Z))) (s : list event) :
  EncodeUint32 NCSI_ATTR_IFINDEX (uint 32 index) = Ok ed -> Execute ed family = Ok msgs ->
  let start := StartNcsi w (Ok tt) (Ok (family, version)) (Ok index) Execute in
  let asked := [Slept (15 * second); Executed NCSI_CMD_PKG_INFO version ed family; GotReplies (length msgs)] in
  (forall psss, Forall2 reply_data psss msgs ->
     start s = (Ret tt, s ++ asked ++ concat (map (package_events w) (concat (concat psss))))) /\
  (exists es, start s = (Ret tt, s ++ asked ++ es) /\ ((forall t, Errorf t ∉ es) <-> forallb reply_ok msgs = true)).
Proof.
  intros Hed Hex start asked.
  assert (E : start s = each_reply w msgs (s ++ asked)).
  { unfold start, StartNcsi. rewrite Hed, Hex. unfold mbind, M_bind, log, modify. by rewrite <- !app_assoc. }
  rewrite E. split.
  - intros psss Hm. by rewrite (each_reply_logs w _ _ Hm), <- app_assoc.
  - destruct (each_reply_checks w msgs (s ++ asked)) as (es & -> & He). exists es. split; [by rewrite <- app_assoc|].
    rewrite <- He, forallb_forall. split.
    + intros Hn e Hin. destruct e; try done. exfalso. by eapply Hn, list_elem_of_In.
    + intros Hn t Hin. by specialize (Hn _ (proj1 (list_elem_of_In _ _) Hin)).
Qed.

(** The attributes of netlink: length with the header, type, data, padded to four bytes. *)
Module SimNetlink.
Fixpoint parse (fuel : nat) (b : list Z) : result (list attr) :=
  match fuel, b with
  | _, [] => Ok []
  | O, _ => Err "netlink: too short"
  | S fuel, _ =>
      let n := Z.to_nat (le_int (take 2 b)) in
      if decide (4 <= n <= length b)%nat then
        match parse fuel (drop ((n + 3) / 4 * 4) b) with
        | Ok l => Ok ((le_int (take 2 (drop 2 b)), take (n - 4) (drop 4 b)) :: l)
        | Err e => Err e
        end
      else Err "netlink: invalid attribute"
  end.

#[export] Instance netlink : NetlinkAttrs := {
  UnmarshalAttributes b := parse (length b) b;
  Uint32 b := if decide (length b = 4%nat) then Ok (le_int b) else Err "netlink: not four bytes";
  EncodeUint32 ty n := Ok (le_bytes 2 8 ++ le_bytes 2 ty ++ le_bytes 4 n) }.

Definition enc (ty : Z) (d : list Z) : list Z := le_bytes 2 (4 + Z.of_nat (length d)) ++ le_bytes 2 ty ++ d.
Definition u32 (ty n : Z) : list Z := enc ty (le_bytes 4 n).
(** Two channels of one package; the second lists its flag before its number. *)
Definition ch0 : list Z := u32 2 0 ++ u32 3 1 ++ u32 6 1 ++ enc 7 [].
Definition ch1 : list Z := enc 8 [] ++ u32 6 0 ++ u32 2 1.
Definition reply : list Z := enc 2 (enc 1 (u32 2 7 ++ enc 4 (enc 1 ch0 ++ enc 1 ch1))).
Definition described : list (list package) := [[mk_package 7 [mk_channel 0 1 true false; mk_channel 1 0 false true]]].

Lemma channel_decoded : channel_data (mk_channel 0 1 true false) ch0 /\ channel_data (mk_channel 1 0 false true) ch1.
Proof. split; (eexists; split; [by vm_compute|]); repeat split; try done; repeat constructor. Qed.

Lemma reply_decoded : reply_data described reply.
Proof.
  eexists. split; [by vm_compute|]. constructor; [|constructor]. eexists. split; [by vm_compute|]. constructor; [|constructor].
  eexists _, _, _. split; [by vm_compute|]. split; [by vm_compute|]. split; [by vm_compute|]. eexists. split; [by vm_compute|].
  constructor; [|constructor; [|constructor]]; apply channel_decoded.
Qed.
End SimNetlink.
Import SimNetlink.

Lemma ncsi_reports_witness :
  StartNcsi 32 (Ok tt) (Ok (20, 1)) (Ok 2) (fun _ _ => Ok [reply]) [] =
    (Ret tt, [Slept (15 * second); Executed 1 1 (u32 1 2) 20; GotReplies 1;
       PackagePresent 7; ChannelPresent 0 1 true false; ChannelPresent 1 0 false true]).
Proof.
  apply (proj1 (ncsi_reports 32 20 1 2 (u32 1 2) [reply] (fun _ _ => Ok [reply]) [] ltac:(by vm_compute) ltac:(reflexivity)) [described]).
  constructor; [apply reply_decoded|constructor].
Defined.
