(* ===== verification/Mtd.v ===== *)
(** * Flash partitions (pkg/mtd/mtd.go)

    The MTD character device is a parameter: its answer to MEMGETINFO, to each
    MEMERASE, and its content as a file.  [fuel] bounds the loops; the theorems
    say which fuel is enough, and when none is. *)

From S2P Require Import Prelude GoMonad.
#[local] Open Scope string_scope.
#[local] Open Scope list_scope.
#[local] Open Scope Z_scope.

Record mtdInfoUser : Type := mk_info { i_Size : Z; i_EraseSize : Z }.

Record mtdFile : Type := mk_mtd { Size : Z; EraseSize : Z; WriteSize : Z }.

(** [eraseInfoUser]: start and length of one erase. *)
Record eraseInfoUser : Type := mk_erase { Start : Z; Length : Z }.

#[export] Instance eraseInfo_eq_dec : EqDecision eraseInfoUser.
Proof. solve_decision. Defined.

(** [binary.Read] of the 32 bytes MEMGETINFO fills in. *)
Definition read_info (ib : list Z) : mtdInfoUser :=
  mk_info (le_int (take 4 (drop 8 ib))) (le_int (take 4 (drop 12 ib))).

(** [Open(path)]: [open] is the result of opening the file, [info] what the
    MEMGETINFO ioctl stores. *)
Definition Open (open : result unit) (info : result (list Z)) : result mtdFile :=
  match open with
  | Err e => Err e
  | Ok _ =>
      match info with
      | Err _ => Ok (mk_mtd 0 0 0)
      | Ok ib =>
          let info := read_info ib in
          Ok (mk_mtd (i_Size info) (i_EraseSize info) (i_EraseSize info))
      end
  end.

(** ** Erase *)

Section Erase.
Context {D : Type} (erase : eraseInfoUser -> M D (result unit)).

(** The loop of [Erase] from block [i]; a failing ioctl panics. *)
Fixpoint erase_loop (fuel : nat) (m : mtdFile) (i : Z) : M D unit :=
  if decide (i < uint 32 (Size m)) then
    match fuel with
    | O => fun d => (Blocked, d)
    | S fuel =>
        r ← erase (mk_erase i (uint 32 (EraseSize m)));
        match r with
        | Err _ => go_panic
        | Ok _ => erase_loop fuel m (uint 32 (i + uint 32 (EraseSize m)))
        end
    end
  else mret tt.

Definition Erase (fuel : nat) (m : mtdFile) : M D unit := erase_loop fuel m 0.
End Erase.

(** A device that accepts every erase and remembers them. *)
Definition record_erase (e : eraseInfoUser) : M (list eraseInfoUser) (result unit) :=
  fun d => (Ret (Ok tt), d ++ [e]).

(** ** Write and Verify *)

Inductive read_error : Type := io_EOF | io_Error.

#[export] Instance read_error_eq_dec : EqDecision read_error.
Proof. solve_decision. Defined.

(** An [io.Reader] that fills its buffer while it has bytes, and then ends with
    [at_end] for ever, as a file does. *)
Record reader : Type := mk_reader { rest : list Z; at_end : read_error }.

(** [r.Read(buf)]: the buffer afterwards, the count, the error, the reader. *)
Definition Read (r : reader) (buf : list Z) : list Z * Z * option read_error * reader :=
  let n := min (length buf) (length (rest r)) in
  if decide (buf = []) then (buf, 0, None, r)
  else if decide (rest r = []) then (buf, 0, Some (at_end r), r)
  else (take n (rest r) ++ drop n buf, Z.of_nat n, None,
        mk_reader (drop n (rest r)) (at_end r)).

(** [io.CopyBuffer(m.f, f, buf)] onto a device of fixed size: all of [f], or an
    error. *)
Definition CopyBuffer (content : list Z) (r : reader) : result (list Z) :=
  if decide (at_end r = io_Error) then Err "read error"
  else if decide (length (rest r) <= length content)%nat then
    Ok (rest r ++ drop (length (rest r)) content)
  else Err "no space left on device".

(** [Write(f)]; the state is the device's content.  [io.CopyBuffer] panics on an
    empty buffer. *)
Definition Write (seek : result unit) (m : mtdFile) (f : reader) : M (list Z) unit := fun content =>
  match seek with
  | Err _ => (Panic, content)
  | Ok _ =>
      if decide (WriteSize m = 0) then (Panic, content)
      else match CopyBuffer content f with
           | Err _ => (Panic, content)
           | Ok content' => (Ret tt, content')
           end
  end.

(** The loop of [Verify] over the image and the device. *)
Fixpoint verify_loop (fuel : nat) (f d : reader) (buf1 buf2 : list Z) : outcome bool :=
  match fuel with
  | O => Blocked
  | S fuel =>
      let '(buf1, n1, err1, f) := Read f buf1 in
      let '(buf2, n2, err2, d) := Read d buf2 in
      if decide (n1 <> n2) then Ret false
      else if decide (buf1 <> buf2) then Ret false
      else if decide (err1 <> None /\ err2 <> Some io_EOF) then Ret false
      else if decide (err2 <> None /\ err2 <> Some io_EOF) then Ret false
      else if decide (err1 = Some io_EOF /\ err2 = Some io_EOF) then Ret true
      else verify_loop fuel f d buf1 buf2
  end.

Definition Verify (fuel : nat) (seek : result unit) (m : mtdFile) (f : reader) (content : list Z) :
    outcome bool :=
  match seek with
  | Err _ => Panic
  | Ok _ =>
      let buf := replicate (Z.to_nat (WriteSize m)) 0 in
      verify_loop fuel f (mk_reader content io_EOF) buf buf
  end.

(** ** Erase covers the device *)

Definition blocks (m : mtdFile) (i : Z) (n : nat) : list eraseInfoUser :=
  (fun k => mk_erase (i + EraseSize m * Z.of_nat k) (EraseSize m)) <$> seq 0 n.

Lemma erase_loop_blocks m n : forall fuel i d,
  0 < EraseSize m -> 0 <= i -> Size m + EraseSize m <= 2 ^ 32 ->
  i + EraseSize m * Z.of_nat n >= Size m ->
  (forall k, (k < n)%nat -> i + EraseSize m * Z.of_nat k < Size m) -> 0 <= Size m ->
  (n <= fuel)%nat ->
  erase_loop record_erase fuel m i d = (Ret tt, d ++ blocks m i n).
Proof.
  induction n as [|n IH]; intros fuel i d He Hi Hs Hge Hlt H0 Hf.
  - unfold blocks. simpl. rewrite app_nil_r. destruct fuel; cbn [erase_loop];
      rewrite (uint_id 32 (Size m)) by (unfold is_uint; lia); by rewrite decide_False by lia.
  - destruct fuel as [|fuel]; [lia|]. cbn [erase_loop].
    pose proof (Hlt 0%nat ltac:(lia)) as Hi0.
    rewrite (uint_id 32 (Size m)), (uint_id 32 (EraseSize m)) by (unfold is_uint; lia).
    rewrite decide_True by lia.
    unfold mbind, M_bind, record_erase at 1. rewrite uint_id by (unfold is_uint; lia).
    rewrite (IH fuel (i + EraseSize m)); try lia.
    + f_equal. rewrite <- app_assoc. f_equal. unfold blocks.
      change (seq 0 (S n)) with (0%nat :: seq 1 n). rewrite fmap_cons, <- fmap_S_seq.
      cbn [app]. f_equal; [f_equal; lia|]. rewrite <- list_fmap_compose.
      apply list_fmap_ext. intros k x _. simpl. f_equal. lia.
    + intros k Hk. specialize (Hlt (S k) ltac:(lia)). lia.
Qed.

(** When the last block ends below 4 GiB, [Erase] returns after erasing
    every block of the device once, in order, and nothing outside the blocks
    that cover it. *)
Theorem Erase_covers (m : mtdFile) (fuel : nat) (d : list eraseInfoUser) :
  0 < EraseSize m -> 0 <= Size m -> Size m + EraseSize m <= 2 ^ 32 ->
  (Z.to_nat ((Size m + EraseSize m - 1) / EraseSize m) <= fuel)%nat ->
  Erase record_erase fuel m d =
    (Ret tt, d ++ blocks m 0 (Z.to_nat ((Size m + EraseSize m - 1) / EraseSize m))) /\
  forall x, 0 <= x < Size m -> exists! k : nat,
    (k < Z.to_nat ((Size m + EraseSize m - 1) / EraseSize m))%nat /\
    EraseSize m * Z.of_nat k <= x < EraseSize m * Z.of_nat k + EraseSize m.
Proof.
  intros He H0 Hs Hf.
  assert (Hq : 0 <= (Size m + EraseSize m - 1) / EraseSize m) by (apply Z.div_pos; lia).
  pose proof (Z.div_mod (Size m + EraseSize m - 1) (EraseSize m) ltac:(lia)) as Hdm.
  pose proof (Z.mod_pos_bound (Size m + EraseSize m - 1) (EraseSize m) ltac:(lia)) as Hm.
  set (q := (Size m + EraseSize m - 1) / EraseSize m) in *. split.
  - apply erase_loop_blocks; try lia.
    intros k Hk. assert (Z.of_nat k <= q - 1) by lia. nia.
  - intros x Hx. pose proof (Z.div_mod x (EraseSize m) ltac:(lia)) as Hx1.
    pose proof (Z.mod_pos_bound x (EraseSize m) ltac:(lia)) as Hx2.
    assert (0 <= x / EraseSize m) by (apply Z.div_pos; lia).
    exists (Z.to_nat (x / EraseSize m)). split.
    + rewrite Z2Nat.id by lia. split; [|lia]. apply Z2Nat.inj_lt; nia.
    + intros k' (_ & Hk1 & Hk2). nia.
Qed.

(** On a device within one erase block of 4 GiB the 32-bit loop counter
    wraps to 0 before it reaches the size: [Erase] never ends. *)
Theorem Erase_wraps (m : mtdFile) (fuel : nat) (d : list eraseInfoUser) :
  0 < EraseSize m < 2 ^ 32 -> (EraseSize m | 2 ^ 32) -> 2 ^ 32 - EraseSize m < Size m < 2 ^ 32 ->
  (Erase record_erase fuel m d).1 = Blocked.
Proof.
  intros He [q Hq] Hs.
  assert (Hloop : forall fuel k d, 0 <= k < q ->
    (erase_loop record_erase fuel m (k * EraseSize m) d).1 = Blocked).
  { clear fuel d. induction fuel as [|fuel IH]; intros k d Hk; cbn [erase_loop];
      rewrite (uint_id 32 (Size m)) by (unfold is_uint; lia);
      (rewrite decide_True by nia); [done|].
    unfold mbind, M_bind, record_erase at 1.
    rewrite (uint_id 32 (EraseSize m)) by (unfold is_uint; nia).
    destruct (decide (k + 1 = q)) as [Hlast|Hmore].
    - replace (k * EraseSize m + EraseSize m) with (2 ^ 32) by nia.
      change (uint 32 (2 ^ 32)) with (0 * EraseSize m). apply IH. nia.
    - rewrite uint_id by (unfold is_uint; nia).
      replace (k * EraseSize m + EraseSize m) with ((k + 1) * EraseSize m) by lia. apply IH. lia. }
  apply (Hloop fuel 0 d). nia.
Qed.

(** ** Verify *)

Lemma Read_full r c n :
  length c = n -> (0 < n)%nat ->
  Read r c =
  if decide (rest r = []) then (c, 0, Some (at_end r), r)
  else (take n (rest r) ++ drop (min n (length (rest r))) c, Z.of_nat (min n (length (rest r))), None,
        mk_reader (drop n (rest r)) (at_end r)).
Proof.
  intros Hc Hn. unfold Read. rewrite decide_False by (intros ->; simpl in Hc; lia).
  case_decide as Hr; [done|]. rewrite Hc.
  destruct (decide (n <= length (rest r))%nat) as [Hle|Hle].
  - by replace (min n (length (rest r))) with n by lia.
  - replace (min n (length (rest r))) with (length (rest r)) by lia.
    rewrite !(take_ge (rest r)) by lia. by rewrite !(drop_ge (rest r)) by lia.
Qed.

(** Two error-free readers: the loop decides equality of what they still hold. *)
Lemma verify_loop_spec n fuel a b buf :
  (0 < n)%nat -> length buf = n -> (length a + n <= fuel * n)%nat ->
  verify_loop fuel (mk_reader a io_EOF) (mk_reader b io_EOF) buf buf = Ret (bool_decide (a = b)).
Proof.
  intros Hn. revert a b buf. induction fuel as [|fuel IH]; intros a b buf Hb Hf; [lia|].
  cbn [verify_loop]. rewrite !(Read_full _ _ n) by done. cbn [rest at_end].
  destruct (decide (a = [])) as [->|Ha], (decide (b = [])) as [->|Hbn].
  - rewrite !decide_False by (intuition congruence). by rewrite decide_True by done.
  - rewrite decide_True; [by rewrite bool_decide_eq_false_2 by congruence|].
    destruct b; [done|]. simpl. lia.
  - rewrite decide_True; [by rewrite bool_decide_eq_false_2 by congruence|].
    destruct a; [done|]. simpl. lia.
  - case_decide as Hlen.
    { rewrite bool_decide_eq_false_2; [done|]. intros ->. done. }
    assert (Hmin : min n (length a) = min n (length b)) by lia. rewrite Hmin.
    case_decide as Hbuf.
    { rewrite bool_decide_eq_false_2; [done|]. intros ->. done. }
    assert (Htake : take n a = take n b).
    { assert (Hx := Hbuf).
      apply app_inj_1 in Hx as [Hx _]; [done|]. rewrite !length_take. lia. }
    rewrite !decide_False by (intuition congruence). rewrite Htake.
    rewrite IH.
    + f_equal. apply bool_decide_ext. split; [|congruence]. intros Hd.
      rewrite <- (take_drop n a), <- (take_drop n b). congruence.
    + rewrite length_app, length_take, length_drop. lia.
    + rewrite length_drop. assert (0 < length a)%nat by (destruct a; [done|simpl; lia]).
      assert (0 < fuel)%nat by (destruct fuel; lia). nia.
Qed.

(** [Verify] against an image without read errors returns, within one read
    per block and one more, whether the image is exactly the whole content of
    the device. *)
Theorem Verify_correct (m : mtdFile) (img content : list Z) (fuel : nat) :
  0 < WriteSize m -> (length img + Z.to_nat (WriteSize m) <= fuel * Z.to_nat (WriteSize m))%nat ->
  Verify fuel (Ok tt) m (mk_reader img io_EOF) content = Ret (bool_decide (img = content)).
Proof.
  intros Hw Hf. unfold Verify. apply (verify_loop_spec (Z.to_nat (WriteSize m)));
    [lia|by rewrite length_replicate|done].
Qed.


(** The check of the image's read error tests the device's error instead
    ([err1 != nil && err2 != io.EOF]): an image that fails with an error after
    as many bytes as the device holds is neither rejected nor accepted, and
    [Verify] spins for ever. *)
Theorem Verify_spins (m : mtdFile) (fuel : nat) :
  0 < WriteSize m -> Verify fuel (Ok tt) m (mk_reader [] io_Error) [] = Blocked.
Proof.
  intros Hw. unfold Verify.
  assert (Hb : replicate (Z.to_nat (WriteSize m)) 0 <> []).
  { intros He%(f_equal length). rewrite length_replicate in He. simpl in He. lia. }
  revert Hb. generalize (replicate (Z.to_nat (WriteSize m)) 0) as buf. intros buf Hb.
  induction fuel as [|fuel IH]; [done|]. cbn [verify_loop].
  unfold Read. cbn [rest at_end]. rewrite !(decide_False (P := buf = [])) by done.
  rewrite !(decide_True (P := [] = [])) by done.
  rewrite !decide_False by (intuition congruence). exact IH.
Qed.

(** A failing MEMGETINFO is not reported: [Open] returns a partition of
    size 0 without an error, on which [Write] panics and [Verify] never ends. *)
Theorem Open_swallows_ioctl_error (e : error) (seek : result unit) (f : reader)
    (content : list Z) (fuel : nat) :
  exists m, Open (Ok tt) (Err e) = Ok m /\ (Write seek m f content).1 = Panic /\
    Verify fuel (Ok tt) m f content = Blocked.
Proof.
  exists (mk_mtd 0 0 0). split; [done|]. split; [by destruct seek|].
  unfold Verify. simpl. revert f. induction fuel as [|fuel IH]; intros f; [done|]. exact (IH f).
Qed.

(** ** Concrete partitions *)

Definition spi_nor : mtdFile := mk_mtd 0x2000000 0x10000 0x10000.
Definition nor_4g : mtdFile := mk_mtd 0xffffffff 0x10000 0x10000.
Definition small : mtdFile := mk_mtd 8 4 4.

Lemma Erase_covers_witness :
  Erase record_erase 512 spi_nor [] = (Ret tt, blocks spi_nor 0 512).
Proof.
  exact (proj1 (Erase_covers spi_nor 512 [] eq_refl ltac:(done) ltac:(done) (le_n 512))).
Defined.

Lemma Erase_wraps_witness : (Erase record_erase 4000 nor_4g []).1 = Blocked.
Proof.
  apply (Erase_wraps nor_4g 4000 []); [done|by exists 65536|done].
Defined.

Lemma Verify_correct_witness :
  Verify 4 (Ok tt) small (mk_reader [1; 2; 3; 4; 5; 6; 7; 8] io_EOF) [1; 2; 3; 4; 5; 6; 7; 8] = Ret true.
Proof.
  rewrite (Verify_correct small [1; 2; 3; 4; 5; 6; 7; 8] [1; 2; 3; 4; 5; 6; 7; 8] 4);
    [reflexivity|done|simpl; lia].
Defined.


Lemma Verify_spins_witness :
  Verify 100 (Ok tt) small (mk_reader [] io_Error) [] = Blocked.
Proof. by apply (Verify_spins small 100). Defined.
