(* ===== verification/Uart.v ===== *)
(** * The serial console (pkg/bmc/uart.go)

    One goroutine reads the UART and hands each chunk to every registered
    reader's buffered channel, dropping it for readers whose channel is full;
    readers come and go.  The state is the shared [uartSystem] with its channels
    and metrics; the steps of the goroutines are a relation, and the guarantees
    to a reader are invariants of every execution. *)

From S2P Require Import Prelude.

(** [make(chan []byte, 1024)]. *)
Definition capacity : nat := 1024.

Definition chunk : Type := list Z.

(** A [readerStream]: its identity (the pointer) and the queue of its channel. *)
Record readerStream : Type := mk_reader { id : nat; stream : list chunk }.

Record metrics : Type := mk_metrics {
  uartOverruns : Z; uartBufferedReads : Z; uartConsumers : Z }.

Record uartSystem : Type := mk_uart { readers : list readerStream; fresh : nat; stats : metrics }.

(** ** Operations *)

(** [NewReader(done)] up to the start of its goroutine: the new reader is
    [fresh u]. *)
Definition NewReader (u : uartSystem) : uartSystem :=
  let m := stats u in
  mk_uart (readers u ++ [mk_reader (fresh u) []]) (S (fresh u))
    (mk_metrics (uartOverruns m) (uartBufferedReads m) (uartConsumers m + 1)).

(** The goroutine of [NewReader], once [done] is closed. *)
Definition RemoveReader (r : nat) (u : uartSystem) : uartSystem :=
  let m := stats u in
  mk_uart (filter (fun x => id x <> r) (readers u)) (fresh u)
    (mk_metrics (uartOverruns m) (uartBufferedReads m) (uartConsumers m - 1)).

(** The [select] of [uartReceiver] on one reader: the reader afterwards, and
    whether the chunk was dropped. *)
Definition offer (buf : chunk) (r : readerStream) : readerStream * bool :=
  if decide (length (stream r) < capacity)%nat then (mk_reader (id r) (stream r ++ [buf]), false)
  else (r, true).

(** The loop over the readers; the counter [p] is increased only on the branch
    that does not [continue]. *)
Fixpoint deliver (buf : chunk) (rs : list readerStream) : list readerStream * Z * Z :=
  match rs with
  | [] => ([], 0, 0)
  | r :: rs =>
      let '(r', dropped) := offer buf r in
      let '(rs', over, p) := deliver buf rs in
      if dropped then (r' :: rs', over + 1, p + Z.of_nat (length (stream r')))
      else (r' :: rs', over, p)
  end.

(** One iteration of [uartReceiver]: [n] bytes were read into the buffer. *)
Definition uartReceive (buf : chunk) (u : uartSystem) : uartSystem :=
  let '(rs, over, p) := deliver buf (readers u) in
  let m := stats u in
  mk_uart rs (fresh u) (mk_metrics (uartOverruns m + over) p (uartConsumers m)).

(** The consumer of reader [r] takes the next chunk from its channel. *)
Definition take_chunk (r : nat) (u : uartSystem) : option (chunk * uartSystem) :=
  match list_find (fun x => id x = r) (readers u) with
  | Some (i, x) =>
      match stream x with
      | [] => None
      | c :: cs => Some (c, mk_uart (<[i := mk_reader r cs]> (readers u)) (fresh u) (stats u))
      end
  | None => None
  end.

Definition newUartSystem : uartSystem := mk_uart [] 0 (mk_metrics 0 0 0).

(** ** The sender side *)

(** [uartSender] over the chunks written by the clients, in the order the shared
    channel passes them, until a write fails. *)
Fixpoint uartSender (write : chunk -> bool) (queue : list chunk) : list chunk :=
  match queue with
  | [] => []
  | c :: queue => if write c then c :: uartSender write queue else [c]
  end.

(** ** Delivery *)

Lemma deliver_spec buf rs :
  let '(rs', over, p) := deliver buf rs in
  rs' = (fun r => (offer buf r).1) <$> rs /\
  over = Z.of_nat (length (filter (fun r => capacity <= length (stream r))%nat rs)) /\
  p = Z.of_nat (sum_list ((fun r => length (stream r)) <$>
        filter (fun r => capacity <= length (stream r))%nat rs)).
Proof.
  induction rs as [|r rs IH]; [done|]. cbn [deliver].
  destruct (deliver buf rs) as [[rs' over] p]. destruct IH as (-> & -> & ->).
  rewrite fmap_cons, filter_cons.
  destruct (decide (length (stream r) < capacity)%nat) as [Hlt|Hge].
  - assert (offer buf r = (mk_reader (id r) (stream r ++ [buf]), false)) as ->
      by (unfold offer; by rewrite decide_True).
    by rewrite (decide_False (P := (capacity <= length (stream r))%nat)) by lia.
  - assert (offer buf r = (r, true)) as -> by (unfold offer; by rewrite decide_False).
    rewrite (decide_True (P := (capacity <= length (stream r))%nat)) by lia.
    split; [done|]. split; [simpl; lia|]. rewrite fmap_cons. cbn. lia.
Qed.

(** One received chunk: it is appended to the queue of every reader with
    room and of no other, the order of the readers is kept, and the overrun
    counter grows by the number of readers that had none. *)
Theorem uartReceive_delivers (buf : chunk) (u : uartSystem) :
  let u' := uartReceive buf u in
  length (readers u') = length (readers u) /\
  (forall i r, readers u !! i = Some r -> exists r', readers u' !! i = Some r' /\ id r' = id r /\
     stream r' = if decide (length (stream r) < capacity)%nat then stream r ++ [buf] else stream r) /\
  uartOverruns (stats u') = uartOverruns (stats u) +
    Z.of_nat (length (filter (fun r => capacity <= length (stream r))%nat (readers u))).
Proof.
  unfold uartReceive. pose proof (deliver_spec buf (readers u)) as Hd.
  destruct (deliver buf (readers u)) as [[rs over] p]. destruct Hd as (-> & -> & ->).
  cbn. split; [by rewrite length_fmap|]. split; [|done].
  intros i r Hr. exists (offer buf r).1. rewrite list_lookup_fmap, Hr. split; [done|].
  unfold offer. by case_decide.
Qed.

(** The gauge of buffered reads counts only the readers whose chunk was
    dropped (the [continue] of the other branch skips the sum): while no reader
    is full it reads 0, however much is queued. *)
Theorem uartBufferedReads_counts_full_only (buf : chunk) (u : uartSystem) :
  Forall (fun r => length (stream r) < capacity)%nat (readers u) ->
  uartBufferedReads (stats (uartReceive buf u)) = 0.
Proof.
  intros Hall. unfold uartReceive. pose proof (deliver_spec buf (readers u)) as Hd.
  destruct (deliver buf (readers u)) as [[rs over] p]. destruct Hd as (_ & _ & ->). cbn.
  replace (filter _ (readers u)) with (@nil readerStream); [done|].
  symmetry. induction Hall as [|r rs' Hr _ IH]; [done|]. rewrite filter_cons, decide_False by lia.
  exact IH.
Qed.

(** ** Executions *)

Inductive event : Type :=
| ENew (r : nat)
| EDone (r : nat)
| EReceive (buf : chunk)
| ETake (r : nat) (buf : chunk).

Inductive step : uartSystem -> event -> uartSystem -> Prop :=
| step_new u : step u (ENew (fresh u)) (NewReader u)
| step_done u r : r ∈ (id <$> readers u) -> step u (EDone r) (RemoveReader r u)
| step_receive u buf : step u (EReceive buf) (uartReceive buf u)
| step_take u r buf u' : take_chunk r u = Some (buf, u') -> step u (ETake r buf) u'.

Inductive run : uartSystem -> list event -> uartSystem -> Prop :=
| run_nil u : run u [] u
| run_snoc u tr u' e u'' : run u tr u' -> step u' e u'' -> run u (tr ++ [e]) u''.

(** The chunks received since reader [r] was registered, and those it took. *)
Fixpoint received_after (r : nat) (tr : list event) : list chunk :=
  match tr with
  | [] => []
  | ENew r' :: tr =>
      if decide (r' = r) then omap (fun e => match e with EReceive b => Some b | _ => None end) tr
      else received_after r tr
  | _ :: tr => received_after r tr
  end.

Definition taken (r : nat) (tr : list event) : list chunk :=
  omap (fun e => match e with ETake r' b => if decide (r' = r) then Some b else None | _ => None end) tr.

(** ** Invariants *)

Record inv (tr : list event) (u : uartSystem) : Prop := {
  inv_fresh : Forall (fun r => id r < fresh u)%nat (readers u);
  inv_nodup : NoDup (id <$> readers u);
  inv_bounded : Forall (fun r => length (stream r) <= capacity)%nat (readers u);
  inv_consumers : uartConsumers (stats u) = Z.of_nat (length (readers u));
  inv_new : forall r, ENew r ∈ tr -> (r < fresh u)%nat;
  inv_take : forall r b, ETake r b ∈ tr -> (r < fresh u)%nat;
  inv_queue : forall r, r ∈ readers u ->
    ENew (id r) ∈ tr /\ taken (id r) tr ++ stream r `sublist_of` received_after (id r) tr;
}.

Lemma received_after_snoc r tr e :
  ENew r ∈ tr ->
  received_after r (tr ++ [e]) =
  received_after r tr ++ match e with EReceive b => [b] | _ => [] end.
Proof.
  induction tr as [|e' tr IH]; intros Hin; [by apply not_elem_of_nil in Hin|].
  cbn [app received_after]. apply elem_of_cons in Hin.
  destruct e' as [r'|r'|b|r' b]; try (apply IH; naive_solver).
  case_decide as Hr.
  - rewrite omap_app. f_equal. by destruct e.
  - apply IH. naive_solver.
Qed.

Lemma received_after_new r tr : (ENew r ∉ tr) -> received_after r (tr ++ [ENew r]) = [].
Proof.
  induction tr as [|e tr IH]; intros Hno.
  - cbn. by rewrite decide_True.
  - rewrite not_elem_of_cons in Hno. destruct Hno as [Hne Hno]. cbn [app received_after].
    destruct e as [r'|r'|b|r' b]; try (by apply IH). rewrite decide_False by congruence. by apply IH.
Qed.

Lemma taken_snoc r tr e :
  taken r (tr ++ [e]) =
  taken r tr ++ match e with ETake r' b => if decide (r' = r) then [b] else [] | _ => [] end.
Proof.
  unfold taken. rewrite omap_app. f_equal. destruct e as [r'|r'|b|r' b]; try done.
  cbn. by case_decide.
Qed.

Lemma taken_none r tr : (forall b, ETake r b ∉ tr) -> taken r tr = [].
Proof.
  induction tr as [|e tr IH]; intros Hno; [done|].
  assert (IH' : taken r tr = []) by (apply IH; intros b Hb; apply (Hno b); by right).
  unfold taken in *. cbn. rewrite IH'. destruct e as [r'|r'|b|r' b]; try done.
  case_decide; [|done]. subst. destruct (Hno b). by left.
Qed.

Lemma inv_init : inv [] newUartSystem.
Proof. split; try constructor; try done; intros; by apply not_elem_of_nil in H. Qed.

Lemma inv_NewReader tr u : inv tr u -> inv (tr ++ [ENew (fresh u)]) (NewReader u).
Proof.
  intros [Hf Hn Hb Hc Hnew Htk Hq].
  assert (Hno : ENew (fresh u) ∉ tr) by (intros Hin%Hnew; lia).
  split; cbn [readers fresh stats NewReader uartConsumers].
  - apply Forall_app. split; [|apply Forall_singleton; simpl; lia].
    eapply Forall_impl; [exact Hf|]. simpl. lia.
  - rewrite fmap_app. apply NoDup_app. split; [done|]. split; [|apply NoDup_singleton].
    intros x (r & -> & Hr)%list_elem_of_fmap Hx. apply list_elem_of_singleton in Hx. simpl in Hx.
    rewrite Forall_forall in Hf. specialize (Hf r Hr). lia.
  - apply Forall_app. split; [done|]. apply Forall_singleton. simpl. lia.
  - rewrite length_app. simpl. lia.
  - intros r [Hr%Hnew|Hr%list_elem_of_singleton]%elem_of_app; [lia|]. injection Hr as ->. lia.
  - intros r b [Hr%Htk|Hr%list_elem_of_singleton]%elem_of_app; [lia|done].
  - intros r [Hr|Hr%list_elem_of_singleton]%elem_of_app.
    + destruct (Hq r Hr) as [H1 H2]. split; [apply elem_of_app; by left|].
      rewrite taken_snoc, received_after_snoc, !app_nil_r by done. exact H2.
    + subst r. cbn [id stream]. split; [apply elem_of_app; right; by left|].
      rewrite taken_snoc, !app_nil_r, received_after_new by done.
      rewrite taken_none; [done|]. intros b Hb'%Htk. lia.
Qed.

Lemma length_filter_remove (r : nat) (rs : list readerStream) :
  NoDup (id <$> rs) -> r ∈ (id <$> rs) ->
  length rs = S (length (filter (fun x => id x <> r) rs)).
Proof.
  induction rs as [|x rs IH]; intros Hn Hr; [by apply not_elem_of_nil in Hr|].
  rewrite fmap_cons in Hn, Hr. apply NoDup_cons in Hn as [Hx Hn]. apply elem_of_cons in Hr.
  rewrite filter_cons. destruct (decide (id x = r)) as [Heq|Hne].
  - rewrite decide_False by auto. simpl. f_equal. clear IH Hr.
    assert (Hall : Forall (fun y => id y <> r) rs).
    { apply Forall_forall. intros y Hy Hyr. apply Hx. apply list_elem_of_fmap.
      exists y. split; congruence. }
    induction Hall as [|y rs Hy _ IH]; [done|]. rewrite filter_cons, decide_True by done.
    simpl. f_equal. apply IH; [|by rewrite fmap_cons, NoDup_cons in Hn; destruct Hn].
    rewrite fmap_cons, not_elem_of_cons in Hx. by destruct Hx.
  - rewrite decide_True by done. simpl. f_equal. apply IH; [done|]. naive_solver.
Qed.

Lemma NoDup_fmap_filter (P : readerStream -> Prop) `{!forall x, Decision (P x)} rs :
  NoDup (id <$> rs) -> NoDup (id <$> filter P rs).
Proof.
  induction rs as [|x rs IH]; [done|]. rewrite fmap_cons, NoDup_cons, filter_cons.
  intros [Hx Hn]. case_decide; [|auto]. rewrite fmap_cons, NoDup_cons. split; [|auto].
  intros (y & Ey & Hy)%list_elem_of_fmap. apply list_elem_of_filter in Hy as [_ Hy].
  apply Hx, list_elem_of_fmap. eauto.
Qed.

Lemma inv_RemoveReader tr u r :
  inv tr u -> r ∈ (id <$> readers u) -> inv (tr ++ [EDone r]) (RemoveReader r u).
Proof.
  intros [Hf Hn Hb Hc Hnew Htk Hq] Hr.
  assert (Hin : forall x, x ∈ filter (fun x => id x <> r) (readers u) -> x ∈ readers u)
    by (intros x Hx; by apply list_elem_of_filter in Hx as [_ Hx]).
  split; cbn [readers fresh stats RemoveReader uartConsumers].
  - rewrite Forall_forall in *. auto.
  - by apply NoDup_fmap_filter.
  - rewrite Forall_forall in *. auto.
  - rewrite (length_filter_remove r (readers u)) in Hc by done. lia.
  - intros r' [Hr'%Hnew|Hr'%list_elem_of_singleton]%elem_of_app; [lia|done].
  - intros r' b [Hr'%Htk|Hr'%list_elem_of_singleton]%elem_of_app; [lia|done].
  - intros x Hx%Hin. destruct (Hq x Hx) as [H1 H2]. split; [apply elem_of_app; by left|].
    rewrite taken_snoc, received_after_snoc, !app_nil_r by done. exact H2.
Qed.

Lemma inv_uartReceive tr u buf : inv tr u -> inv (tr ++ [EReceive buf]) (uartReceive buf u).
Proof.
  intros [Hf Hn Hb Hc Hnew Htk Hq]. unfold uartReceive.
  pose proof (deliver_spec buf (readers u)) as Hd.
  destruct (deliver buf (readers u)) as [[rs over] p]. destruct Hd as (-> & _ & _).
  assert (Hid : forall r, id (offer buf r).1 = id r) by (intros r; unfold offer; by case_decide).
  split; cbn [readers fresh stats uartConsumers].
  - apply Forall_fmap. eapply Forall_impl; [exact Hf|]. intros r. simpl. by rewrite Hid.
  - rewrite <- list_fmap_compose. rewrite (list_fmap_ext _ id (readers u)); [done|].
    intros i x _. apply Hid.
  - apply Forall_fmap. eapply Forall_impl; [exact Hb|]. intros r Hr. cbn in *. unfold offer.
    case_decide; cbn [fst stream]; [rewrite length_app; cbn [length]|]; lia.
  - by rewrite length_fmap.
  - intros r [Hr%Hnew|Hr%list_elem_of_singleton]%elem_of_app; [lia|done].
  - intros r b [Hr%Htk|Hr%list_elem_of_singleton]%elem_of_app; [lia|done].
  - intros r' (r & -> & Hr)%list_elem_of_fmap. rewrite Hid. destruct (Hq r Hr) as [H1 H2].
    split; [apply elem_of_app; by left|].
    rewrite taken_snoc, received_after_snoc, app_nil_r by done. unfold offer. case_decide; simpl.
    + rewrite app_assoc. by apply sublist_app.
    + by apply sublist_inserts_r.
Qed.

Lemma inv_take_chunk tr u r buf u' :
  inv tr u -> take_chunk r u = Some (buf, u') -> inv (tr ++ [ETake r buf]) u'.
Proof.
  intros [Hf Hn Hb Hc Hnew Htk Hq]. unfold take_chunk.
  destruct (list_find _ (readers u)) as [[i x]|] eqn:Hfind; [|done].
  apply list_find_Some in Hfind as (Hi & Hx & _). destruct (stream x) as [|c cs] eqn:Hs; [done|].
  intros [= -> <-]. assert (Hxin : x ∈ readers u) by by eapply list_elem_of_lookup_2.
  assert (Hids : id <$> <[i := mk_reader r cs]> (readers u) = id <$> readers u).
  { rewrite list_fmap_insert. simpl. apply list_insert_id. rewrite list_lookup_fmap, Hi. simpl.
    by rewrite Hx. }
  assert (Hcase : forall y, y ∈ <[i := mk_reader r cs]> (readers u) ->
    y = mk_reader r cs \/ (y ∈ readers u /\ id y <> r)).
  { intros y (j & Hj)%list_elem_of_lookup_1. destruct (decide (i = j)) as [->|Hij].
    - rewrite list_lookup_insert_eq in Hj by by eapply lookup_lt_Some. left. congruence.
    - rewrite list_lookup_insert_ne in Hj by done. right.
      split; [by eapply list_elem_of_lookup_2|]. intros Hy. apply Hij.
      eapply (NoDup_lookup (id <$> readers u)); [done|rewrite list_lookup_fmap, Hi; reflexivity|].
      rewrite list_lookup_fmap, Hj. simpl. congruence. }
  rewrite Forall_forall in Hf, Hb. pose proof (Hb x Hxin) as Hbx. rewrite Hs in Hbx.
  split; cbn [readers fresh stats].
  - apply Forall_forall. intros y [->|[Hy _]]%Hcase; [|by apply Hf]. simpl. rewrite <- Hx. by apply Hf.
  - by rewrite Hids.
  - apply Forall_forall. intros y [->|[Hy _]]%Hcase; [|by apply Hb]. simpl in *. lia.
  - by rewrite length_insert.
  - intros r' [Hr%Hnew|Hr%list_elem_of_singleton]%elem_of_app; [lia|done].
  - intros r' b [Hr%Htk|Hr%list_elem_of_singleton]%elem_of_app; [lia|].
    injection Hr as -> _. rewrite <- Hx. by apply Hf.
  - intros y [->|[Hy Hne]]%Hcase; cbn [id stream].
    + destruct (Hq x Hxin) as [H1 H2]. rewrite Hx in *.
      split; [apply elem_of_app; by left|]. rewrite taken_snoc, decide_True by done.
      rewrite received_after_snoc, app_nil_r, <- app_assoc by done. by rewrite Hs in H2.
    + destruct (Hq y Hy) as [H1 H2]. split; [apply elem_of_app; by left|].
      rewrite taken_snoc, decide_False by congruence.
      rewrite received_after_snoc, !app_nil_r by done. exact H2.
Qed.

Lemma run_inv tr u : run newUartSystem tr u -> inv tr u.
Proof.
  remember newUartSystem as u0 eqn:E0. induction 1 as [u|u tr u' e u'' _ IH Hstep];
    [subst; apply inv_init|].
  specialize (IH E0). destruct Hstep.
  - by apply inv_NewReader.
  - by apply inv_RemoveReader.
  - by apply inv_uartReceive.
  - by eapply inv_take_chunk.
Qed.

(** In every execution, a reader takes only chunks received after it
    registered, in the order they were received and each at most once (what it
    took followed by its queue is a subsequence of what was received), its queue
    never exceeds the channel's capacity, and the consumer gauge is the number
    of registered readers. *)
Theorem uart_reader_guarantee (tr : list event) (u : uartSystem) :
  run newUartSystem tr u ->
  uartConsumers (stats u) = Z.of_nat (length (readers u)) /\
  forall r, r ∈ readers u -> (length (stream r) <= capacity)%nat /\
    taken (id r) tr ++ stream r `sublist_of` received_after (id r) tr.
Proof.
  intros Hr%run_inv. split; [by eapply inv_consumers|]. intros r Hin. split.
  - pose proof (inv_bounded _ _ Hr) as Hb. rewrite Forall_forall in Hb. by apply Hb.
  - by apply (inv_queue _ _ Hr).
Qed.

(** ** Concrete runs *)

Definition uart1 : uartSystem := uartReceive [104; 105] (NewReader newUartSystem).

Lemma uartBufferedReads_counts_full_only_witness :
  uartBufferedReads (stats (uartReceive [33] uart1)) = 0.
Proof.
  apply (uartBufferedReads_counts_full_only [33] uart1). apply Forall_singleton.
  simpl. unfold capacity. lia.
Defined.

Lemma uart_reader_guarantee_witness :
  uartConsumers (stats uart1) = 1 /\
  forall r, r ∈ readers uart1 -> (length (stream r) <= capacity)%nat /\
    taken (id r) [ENew 0; EReceive [104; 105]] ++ stream r `sublist_of`
      received_after (id r) [ENew 0; EReceive [104; 105]].
Proof.
  apply (uart_reader_guarantee [ENew 0; EReceive [104; 105]] uart1).
  apply (run_snoc _ [ENew 0] (NewReader newUartSystem)); [|apply step_receive].
  apply (run_snoc _ [] newUartSystem); [apply run_nil|apply (step_new newUartSystem)].
Defined.
