(* ===== verification/Gpio.v ===== *)
(** * The GPIO system (pkg/bmc/gpio.go, gpio_linux.go)

    Name resolution, hogging, monitoring and the kernel requests as functions.
    The platform and the results of the kernel are parameters.  The button
    protocol is in [Buttons]. *)

From S2P Require Import Prelude GoMonad.
#[local] Open Scope string_scope.
#[local] Open Scope list_scope.
#[local] Open Scope Z_scope.

Definition GPIO_INVERTED : Z := 0x1.
Definition GPIO_EVENT_UNKNOWN : Z := 0.
Definition GPIO_EVENT_RISING_EDGE : Z := 1.
Definition GPIO_EVENT_FALLING_EDGE : Z := 2.

(** The interface [GpioPlatform]. *)
Class GpioPlatform (P : Type) : Type := {
  GpioNameToPort : P -> string -> option Z;
  GpioPortToName : P -> Z -> option string;
}.

(** ** Kernel requests (gpio_linux.go) *)

Definition GPIOHANDLE_REQUEST_INPUT : Z := 1.
Definition GPIOHANDLE_REQUEST_OUTPUT : Z := 2.
Definition GPIOEVENT_REQUEST_BOTH_EDGES : Z := 3.
Definition GPIOEVENT_EVENT_RISING_EDGE : Z := 1.
Definition GPIOEVENT_EVENT_FALLING_EDGE : Z := 2.

(** The structures of the kernel, without the file descriptor they return. *)
Record gpiohandle_request : Type := mk_handle_request {
  lineoffsets : list Z; flags : Z; default_values : list Z; consumer_label : string; lines : Z }.

Record gpioevent_request : Type := mk_event_request {
  lineoffset : Z; handleflags : Z; eventflags : Z; ev_consumer_label : string }.

(** [for i, x := range xs { a[i] = f x }] on an array of 64; [None] is the panic
    of an index out of range. *)
Definition fill {A} (f : A -> Z) (xs : list A) : option (list Z) :=
  if decide (length xs <= 64)%nat then Some ((f <$> xs) ++ replicate (64 - length xs) 0) else None.

Definition bit (b : bool) : Z := if b then 1 else 0.

(** The request of [requestLineHandle(lines, out)]. *)
Definition handle_request (ls : list Z) (out : list bool) : option gpiohandle_request :=
  offs ← fill id ls;
  vals ← fill bit out;
  Some (mk_handle_request offs
    (if decide (0 < length out)%nat then GPIOHANDLE_REQUEST_OUTPUT else GPIOHANDLE_REQUEST_INPUT)
    vals "u-bmc" (uint 32 (Z.of_nat (length ls)))).

(** [requestLineHandle(lines, out)] over the kernel's answer: the line's file
    descriptor. *)
Definition requestLineHandle (ioctl : gpiohandle_request -> result Z) (ls : list Z) (out : list bool) :
    outcome (result Z) :=
  match handle_request ls out with
  | None => Panic
  | Some rinfo => Ret (ioctl rinfo)
  end.

(** The request of [getLineEvent(line)]. *)
Definition event_request (line : Z) : gpioevent_request :=
  mk_event_request line GPIOHANDLE_REQUEST_INPUT GPIOEVENT_REQUEST_BOTH_EDGES "".

Definition getLineEvent (ioctl : gpioevent_request -> result Z) (line : Z) : result Z :=
  ioctl (event_request line).

(** [getLineValues] on the kernel's 64 values, and [setLineValues]. *)
Definition getLineValues (ioctl : result (list Z)) : result (list bool) :=
  match ioctl with
  | Err e => Err e
  | Ok values => Ok ((fun v => bool_decide (v <> 0)) <$> values)
  end.

Definition setLineValues (ioctl : list Z -> result unit) (out : list bool) : outcome (result unit) :=
  match fill bit out with
  | None => Panic
  | Some values => Ret (ioctl values)
  end.

Definition event_getValue (ioctl : result (list Z)) : result bool :=
  match getLineValues ioctl with
  | Err e => Err e
  | Ok b => Ok (default false (head b))
  end.

(** [(l *gpioLnxEvent) read()] on the outcome of reading a [gpioevent_data]: the
    event pointer and the error.  The event printed at the end of the text of an
    unknown event, which only the log sees, is left out. *)
Inductive data_read : Type := DEof | DError (e : error) | DData (Id : Z).

Definition event_read (d : data_read) : option Z * option error :=
  match d with
  | DEof => (None, None)
  | DError e => (None, Some ("readEvent: " +:+ e))
  | DData Id =>
      if decide (Id = GPIOEVENT_EVENT_FALLING_EDGE) then (Some GPIO_EVENT_FALLING_EDGE, None)
      else if decide (Id = GPIOEVENT_EVENT_RISING_EDGE) then (Some GPIO_EVENT_RISING_EDGE, None)
      else (Some GPIO_EVENT_UNKNOWN, Some "unknown event")
  end.

(** ** Monitoring *)

(** The loop of [monitorOne] over the results of [e.read()]: the values sent to
    the callback, whether its channel is closed, and the result. *)
Fixpoint monitor_loop (reads : list (option Z * option error)) : list bool * bool * outcome (result unit) :=
  match reads with
  | [] => ([], false, Blocked)
  | (ev, err) :: reads =>
      match ev, err with
      | None, Some e => ([], false, Ret (Err e))
      | None, None => ([], true, Ret (Ok tt))
      | Some ev, _ =>
          let '(vs, closed, r) := monitor_loop reads in
          if decide (ev = GPIO_EVENT_FALLING_EDGE) then (false :: vs, closed, r)
          else if decide (ev = GPIO_EVENT_RISING_EDGE) then (true :: vs, closed, r)
          else (vs, closed, r)
      end
  end.

Section Platform.
Context {P : Type} `{GpioPlatform P} (p : P).

(** [monitorOne(line, cb)]: the initial value given to the callback, if it is
    started, and what the loop does. *)
Definition monitorOne (getLineEvent : Z -> result unit) (getValue : result bool)
    (reads : list (option Z * option error)) (line : string) :
    option bool * (list bool * bool * outcome (result unit)) :=
  match GpioNameToPort p line with
  | None => (None, ([], false, Ret (Err "could not resolve GPIO")))
  | Some port =>
      match getLineEvent port with
      | Err e => (None, ([], false, Ret (Err e)))
      | Ok _ =>
          match getValue with
          | Err e => (None, ([], false, Ret (Err e)))
          | Ok d => (Some d, monitor_loop reads)
          end
      end
  end.

(** [Hog(lines)], with the map iterated as [ls]: the request it makes, if any.
    [Some None] never happens: at most 64 lines are requested. *)
Fixpoint resolve (ls : list (string * bool)) : option (list (Z * bool)) :=
  match ls with
  | [] => Some []
  | (l, v) :: ls =>
      port ← GpioNameToPort p l;
      rest ← resolve ls;
      Some ((port, v) :: rest)
  end.

Definition Hog (ls : list (string * bool)) : option (option gpiohandle_request) :=
  if decide (64 < length ls)%nat then None
  else
    pairs ← resolve ls;
    Some (handle_request pairs.*1 pairs.*2).

(** The request of [ManageButton] for its line: an output, high. *)
Definition button_request (line : string) : option (option gpiohandle_request) :=
  port ← GpioNameToPort p line;
  Some (handle_request [port] [true]).
End Platform.

(** [LogGpio]: the values the gauge of the line takes. *)
Definition LogGpio (initial : bool) (c : list bool) : list Z :=
  (if initial then [1] else []) ++ (bit <$> c).

(** ** Properties of the functions *)

Lemma resolve_perm {P} `{GpioPlatform P} (p : P) ls ls' pairs :
  ls ≡ₚ ls' -> resolve p ls = Some pairs ->
  exists pairs', resolve p ls' = Some pairs' /\ pairs ≡ₚ pairs'.
Proof.
  intros Hp. revert pairs. induction Hp as [|[l v] ls ls' _ IH|[l1 v1] [l2 v2] ls|ls1 ls2 ls3 _ IH1 _ IH2];
    intros pairs Hr.
  - eauto.
  - cbn in *. destruct (GpioNameToPort p l) as [port|]; [|done]. cbn in *.
    destruct (resolve p ls) as [rest|]; [|done]. injection Hr as <-.
    destruct (IH rest eq_refl) as (rest' & -> & Hrest). cbn. eexists. split; [done|]. by constructor.
  - cbn in *. destruct (GpioNameToPort p l1) as [p1|]; [|by destruct (GpioNameToPort p l2)].
    destruct (GpioNameToPort p l2) as [p2|]; [|done]. cbn in *.
    destruct (resolve p ls) as [rest|]; [|done]. injection Hr as <-. cbn.
    eexists. split; [done|]. constructor.
  - destruct (IH1 pairs Hr) as (q & Hq & H1). destruct (IH2 q Hq) as (q' & Hq' & H2).
    exists q'. split; [done|]. by etransitivity.
Qed.

Lemma take_fill {A} (f : A -> Z) xs ys : fill f xs = Some ys -> take (length xs) ys = f <$> xs /\ length ys = 64%nat.
Proof.
  unfold fill. case_decide; [|done]. intros [= <-]. split.
  - by rewrite take_app_length' by by rewrite length_fmap.
  - rewrite length_app, length_fmap, length_replicate. lia.
Qed.

Lemma resolve_length {P} `{GpioPlatform P} (p : P) ls pairs :
  resolve p ls = Some pairs -> length pairs = length ls.
Proof.
  revert pairs. induction ls as [|[l v] ls IH]; intros pairs Hr; cbn in Hr; [by injection Hr as <-|].
  destruct (GpioNameToPort p l); [|done]. cbn in Hr. destruct (resolve p ls) as [rest|]; [|done].
  injection Hr as <-. simpl. by rewrite IH.
Qed.

(** [Hog] of at most 64 lines that all resolve makes one output request of
    well-formed arrays in which each line's port carries its own value, and the
    set of (port, value) pairs does not depend on the iteration order of the
    map. *)
Theorem Hog_correct {P} `{GpioPlatform P} (p : P) (ls ls' : list (string * bool))
    (pairs : list (Z * bool)) :
  (0 < length ls <= 64)%nat -> resolve p ls = Some pairs -> ls' ≡ₚ ls ->
  exists r, Hog p ls' = Some (Some r) /\
    zip (take (length ls) (lineoffsets r)) (take (length ls) (default_values r)) ≡ₚ
      (fun '(port, v) => (port, bit v)) <$> pairs /\
    lines r = Z.of_nat (length ls) /\ flags r = GPIOHANDLE_REQUEST_OUTPUT /\
    length (lineoffsets r) = 64%nat /\ length (default_values r) = 64%nat.
Proof.
  intros Hn Hr Hp. destruct (resolve_perm p ls ls' pairs) as (pairs' & Hr' & Hpp); [done|done|].
  pose proof (Permutation_length Hp) as Hl. pose proof (resolve_length p ls' pairs' Hr') as Hl'.
  unfold Hog. rewrite decide_False by lia. rewrite Hr'. cbn. unfold handle_request.
  destruct (fill id pairs'.*1) as [offs|] eqn:Eo.
  2: { unfold fill in Eo. rewrite length_fmap in Eo. case_decide; [done|lia]. }
  destruct (fill bit pairs'.*2) as [vals|] eqn:Ev.
  2: { unfold fill in Ev. rewrite length_fmap in Ev. case_decide; [done|lia]. }
  apply take_fill in Eo as [To Lo]. apply take_fill in Ev as [Tv Lv]. rewrite length_fmap in To. rewrite length_fmap in Tv.
  cbn. eexists. split; [done|]. cbn [lineoffsets default_values Gpio.lines flags].
  rewrite <- Hl, <- Hl', To, Tv, list_fmap_id. split; [|split; [|split; [|done]]].
  - rewrite Hpp. clear. induction pairs' as [|[x y] l IH]; [done|]. simpl. by constructor.
  - rewrite length_fmap. apply uint_id. unfold is_uint. lia.
  - rewrite length_fmap, decide_True by lia. done.
Qed.
