(* ===== verification/FakeGpio.v ===== *)
(** * The GPIO test double (pkg/bmc/gpio_fake.go)

    Values under a lock and an unbuffered channel per port.  A goroutine that sends or receives waits in
    the channel's queue until another one meets it, so an operation that arrives takes the first of the
    other side when there is one; the queues are first in, first out.  Operations are named by the goroutine that does
    them.  A port without a start value has no channel: sends and receives on it wait for ever. *)

From S2P Require Import Prelude GoMonad Gpio.
#[local] Open Scope list_scope.
#[local] Open Scope Z_scope.

(** [fakeGpio]: the values, the ports with a channel, the goroutines waiting in [Set] and those waiting
    for a value, and what was received, by whom, in order. *)
Record fakeGpio : Type := mk_fake {
  fv : gmap Z bool; ports : gset Z; senders : list (nat * (Z * bool)); receivers : list (nat * Z);
  received : list (nat * (Z * bool)) }.

Definition FakeGpioImpl (startup : gmap Z bool) : fakeGpio := mk_fake startup (dom startup) [] [] [].

Definition fake_Current (g : fakeGpio) (port : Z) : bool := default false (fv g !! port).
Definition fake_getValue (g : fakeGpio) (line : Z) : bool := fake_Current g line.

(** The first element of a queue that is for the port, and the others. *)
Fixpoint pop {A} (f : A -> bool) (l : list A) : option (A * list A) :=
  match l with
  | [] => None
  | x :: l => if f x then Some (x, l) else prod_map id (cons x) <$> pop f l
  end.

Definition waits_on (p : Z) (r : nat * Z) : bool := bool_decide (r.2 = p).
Definition sends_on (p : Z) (s : nat * (Z * bool)) : bool := bool_decide (s.2.1 = p).

(** A value offered to the port: the first receiver takes it. *)
Definition offer (p : Z) (v : bool) (g : fakeGpio) : option fakeGpio :=
  if decide (p ∈ ports g) then
    (fun '(r, rest) => mk_fake (fv g) (ports g) (senders g) rest (received g ++ [(r.1, (p, v))])) <$>
      pop (waits_on p) (receivers g)
  else None.

Definition store (p : Z) (v : bool) (g : fakeGpio) : fakeGpio :=
  mk_fake (<[p := v]> (fv g)) (ports g) (senders g) (receivers g) (received g).

(** [Set(port, v)]: the value is stored under the lock, then the send waits for a receiver. *)
Definition fake_Set (id : nat) (port : Z) (v : bool) (g : fakeGpio) : fakeGpio :=
  let g := store port v g in
  match offer port v g with
  | Some g => g
  | None => mk_fake (fv g) (ports g) (senders g ++ [(id, (port, v))]) (receivers g) (received g)
  end.

(** [<-c] of [WaitForChange(port)] and of [read]. *)
Definition fake_receive (id : nat) (port : Z) (g : fakeGpio) : fakeGpio :=
  match (if decide (port ∈ ports g) then pop (sends_on port) (senders g) else None) with
  | Some (s, rest) => mk_fake (fv g) (ports g) rest (receivers g) (received g ++ [(id, s.2)])
  | None => mk_fake (fv g) (ports g) (senders g) (receivers g ++ [(id, port)]) (received g)
  end.

(** One line of [setValues]: a send that nobody waits for is given up. *)
Definition fake_set_one (g : fakeGpio) (pv : Z * bool) : fakeGpio :=
  let g := store pv.1 pv.2 g in default g (offer pv.1 pv.2 g).

(** [setValues(vals)] of a handle on [ls], under the lock; more values than lines panic. *)
Definition fake_setValues (ls : list Z) (vals : list bool) (g : fakeGpio) : option fakeGpio :=
  if decide (length vals <= length ls)%nat then Some (foldl fake_set_one g (zip ls vals)) else None.

(** The event [read()] makes of a received value. *)
Definition fake_event (nv : bool) : Z := if nv then GPIO_EVENT_RISING_EDGE else GPIO_EVENT_FALLING_EDGE.

(** [read()] that finds a value waiting: the event, and the rest. *)
Definition fake_read (id : nat) (line : Z) (g : fakeGpio) : option Z * fakeGpio :=
  let g' := fake_receive id line g in
  (if decide (length (received g) < length (received g'))%nat then (fun r => fake_event r.2.2) <$> last (received g') else None, g').

(** ** Runs *)

Inductive fake_op : Type :=
| OpSet (id : nat) (port : Z) (v : bool)
| OpReceive (id : nat) (port : Z)
| OpSetValues (ls : list Z) (vals : list bool).

Definition fake_step (g : fakeGpio) (o : fake_op) : option fakeGpio :=
  match o with
  | OpSet id port v => Some (fake_Set id port v g)
  | OpReceive id port => Some (fake_receive id port g)
  | OpSetValues ls vals => fake_setValues ls vals g
  end.

Fixpoint fake_run (g : fakeGpio) (l : list fake_op) : option fakeGpio :=
  match l with [] => Some g | o :: l => g ← fake_step g o; fake_run g l end.

(** What is written to a port, in order, by whatever operation. *)
Definition writes_of (p : Z) (o : fake_op) : list bool :=
  match o with
  | OpSet _ port v => if decide (port = p) then [v] else []
  | OpReceive _ _ => []
  | OpSetValues ls vals => (filter (fun pv => pv.1 = p) (zip ls vals)).*2
  end.

(** ** The queues *)

Definition on_port (p : Z) (l : list (nat * (Z * bool))) : list bool := (filter (fun s => s.2.1 = p) l).*2.*2.

Lemma on_port_app p l l' : on_port p (l ++ l') = on_port p l ++ on_port p l'.
Proof. unfold on_port. by rewrite filter_app, !fmap_app. Qed.

Lemma on_port_one p id q v : on_port p [(id, (q, v))] = if decide (q = p) then [v] else [].
Proof. unfold on_port. rewrite filter_cons. cbn. by case_decide. Qed.

Lemma pop_Some {A} (f : A -> bool) l x rest :
  pop f l = Some (x, rest) -> f x = true /\ exists l1 l2, l = l1 ++ x :: l2 /\ rest = l1 ++ l2 /\ Forall (fun y => f y = false) l1.
Proof.
  revert x rest. induction l as [|y l IH]; intros x rest; [done|]. cbn. destruct (f y) eqn:Ey.
  - intros [= -> ->]. split; [done|]. by exists [], rest.
  - destruct (pop f l) as [[z r]|]; [|done]. intros [= -> <-]. destruct (IH x r eq_refl) as (Hx & l1 & l2 & -> & -> & Hl).
    split; [done|]. exists (y :: l1), l2. split_and!; [done|done|by constructor].
Qed.

Lemma pop_None {A} (f : A -> bool) l : pop f l = None -> Forall (fun y => f y = false) l.
Proof.
  induction l as [|y l IH]; [constructor|]. cbn. destruct (f y) eqn:Ey; [done|]. destruct (pop f l); [done|]. intros _. constructor; auto.
Qed.

(** Nobody waits on both sides of a channel. *)
Definition one_sided (g : fakeGpio) : Prop := forall p id v id', p ∈ ports g -> (id, (p, v)) ∈ senders g -> (id', p) ∉ receivers g.

Lemma offer_Some p v g g' :
  offer p v g = Some g' -> fv g' = fv g /\ ports g' = ports g /\ senders g' = senders g /\
  (forall r, r ∈ receivers g' -> r ∈ receivers g) /\ exists id, received g' = received g ++ [(id, (p, v))] /\ (id, p) ∈ receivers g.
Proof.
  unfold offer. case_decide; [|done]. destruct (pop _ _) as [[[id q] rest]|] eqn:Ep; [|done]. intros [= <-].
  apply pop_Some in Ep as (Hq & l1 & l2 & Hl & -> & _). apply bool_decide_eq_true in Hq. cbn in Hq. subst q. cbn.
  rewrite Hl. split_and!; try done; [set_solver|]. exists id. split; [done|]. set_solver.
Qed.

Lemma offer_None p v g : offer p v g = None -> p ∈ ports g -> forall id, (id, p) ∉ receivers g.
Proof.
  unfold offer. intros Ho Hp id Hin. rewrite decide_True in Ho by done. destruct (pop _ _) as [[]|] eqn:Ep; [done|].
  apply pop_None in Ep. rewrite Forall_forall in Ep. specialize (Ep _ Hin). by apply bool_decide_eq_false in Ep.
Qed.

(** What reached or waits for the receivers of a port. *)
Definition history (p : Z) (g : fakeGpio) : list bool := on_port p (received g) ++ on_port p (senders g).

Definition last_or {A} (l : list A) (d : option A) : option A := match last l with Some v => Some v | None => d end.

Lemma last_or_app {A} (l l' : list A) d : last_or (l ++ l') d = last_or l' (last_or l d).
Proof. unfold last_or. rewrite last_app. by destruct (last l'). Qed.

(** One operation: nobody comes to wait on both sides, the value is the last one written, and the
    history of a port grows by values written to it, by all of them unless they came from [setValues]. *)
Record steps_to (w : Z -> list bool) (dropped : Z -> Prop) (g g' : fakeGpio) : Prop := {
  st_sided : one_sided g';
  st_ports : ports g' = ports g;
  st_value : forall p, fv g' !! p = last_or (w p) (fv g !! p);
  st_history : forall p, exists h, history p g' = history p g ++ h /\ h `sublist_of` w p /\ (dropped p \/ h = w p) }.

Lemma no_senders p g id : one_sided g -> p ∈ ports g -> (id, p) ∈ receivers g -> on_port p (senders g) = [].
Proof.
  intros Hs Hp Hr. unfold on_port. enough (filter (fun s : nat * (Z * bool) => s.2.1 = p) (senders g) = []) as -> by done.
  destruct (filter _ (senders g)) as [|[i [q v]] l] eqn:E; [done|]. exfalso.
  assert (Hin : (i, (q, v)) ∈ filter (fun s : nat * (Z * bool) => s.2.1 = p) (senders g)) by (rewrite E; by left).
  apply list_elem_of_filter in Hin as [Hq Hin]. cbn in Hq. subst q. by apply (Hs p i v id).
Qed.

(** The operations that write one value [v] to [q], with what happens when nobody takes it. *)
Lemma write_steps q v g (blocked : option nat) :
  one_sided g ->
  let g1 := store q v g in
  steps_to (fun p => if decide (q = p) then [v] else []) (fun p => q = p /\ blocked = None) g
    (match offer q v g1 with
     | Some g' => g'
     | None => mk_fake (fv g1) (ports g1) (senders g1 ++ match blocked with Some id => [(id, (q, v))] | None => [] end)
                 (receivers g1) (received g1)
     end).
Proof.
  intros Hs g1. assert (Hval : forall p, fv g1 !! p = last_or (if decide (q = p) then [v] else []) (fv g !! p)).
  { intros p. cbn. case_decide as Hq; [subst; by rewrite lookup_insert_eq|by rewrite lookup_insert_ne]. }
  destruct (offer q v g1) as [g'|] eqn:Eo.
  - assert (Hport : q ∈ ports g) by (unfold offer in Eo; by case_decide).
    apply offer_Some in Eo as (Hf & Hp & Hse & Hr & id & Hrec & Hin). cbn in Hp, Hse, Hr, Hrec, Hin. split.
    + intros p i w i' Hpi Hi Hi'. rewrite Hp in Hpi. rewrite Hse in Hi. apply Hr in Hi'. by apply (Hs p i w i').
    + done.
    + intros p. by rewrite Hf.
    + intros p. exists (if decide (q = p) then [v] else []). split; [|split; [done|by right]].
      unfold history. rewrite Hrec, Hse, on_port_app, on_port_one. case_decide as Hq.
      * subst q. by rewrite (no_senders p g id Hs Hport Hin), !app_nil_r.
      * by rewrite !app_nil_r.
  - split; [|done|exact Hval|].
    + intros p i w i' Hpi Hi Hi'. cbn in Hpi, Hi, Hi'. apply elem_of_app in Hi as [Hi|Hi]; [by apply (Hs p i w i')|].
      destruct blocked as [id|]; [|by apply elem_of_nil in Hi]. apply list_elem_of_singleton in Hi as [= <- -> <-].
      by apply (offer_None _ _ _ Eo Hpi i').
    + intros p. unfold history, g1, store. cbn [senders received]. rewrite on_port_app. destruct blocked as [id|].
      * exists (if decide (q = p) then [v] else []). rewrite on_port_one, app_assoc. split; [done|]. split; [done|by right].
      * exists []. rewrite !app_nil_r. split; [done|]. split; [apply sublist_nil_l|]. case_decide; [by left|by right].
Qed.

Lemma receive_steps id p g : one_sided g -> steps_to (fun _ => []) (fun _ => False) g (fake_receive id p g).
Proof.
  intros Hs. unfold fake_receive. destruct (if decide _ then _ else _) as [[s rest]|] eqn:E.
  - case_decide as Hport; [|done]. apply pop_Some in E as (Hq & l1 & l2 & Hl & -> & Hl1). apply bool_decide_eq_true in Hq.
    destruct s as [i [q v]]. cbn in Hq. subst q. split; [|done|done|].
    + cbn. intros p' i' w' id' Hp' Hi'. apply (Hs p' i' w'); [done|]. rewrite Hl. set_solver.
    + intros p'. exists []. split; [|split; [done|by right]]. unfold history. cbn [senders received snd]. rewrite Hl, !on_port_app, app_nil_r.
      change ((i, (p, v)) :: l2) with ([(i, (p, v))] ++ l2). rewrite on_port_app, !on_port_one.
      assert (Hnil : p = p' -> on_port p' l1 = []).
      { intros <-. unfold on_port. enough (filter (fun s : nat * (Z * bool) => s.2.1 = p) l1 = []) as -> by done.
        clear -Hl1. induction Hl1 as [|x l Hx _ IH]; [done|]. apply bool_decide_eq_false in Hx. by rewrite filter_cons_False. }
      case_decide as Hpp; [rewrite Hnil by done|]; rewrite <- ?app_assoc; done.
  - split; cbn; [|done|done|].
    + intros p' i v i' Hp' Hi Hi'. cbn in *. apply elem_of_app in Hi' as [Hi'|Hi']; [by apply (Hs p' i v i')|].
      apply list_elem_of_singleton in Hi' as [= <- ->]. rewrite decide_True in E by done. apply pop_None in E.
      rewrite Forall_forall in E. specialize (E _ Hi). by apply bool_decide_eq_false in E.
    + intros p'. exists []. rewrite app_nil_r. split; [done|]. split; [done|by right].
Qed.

Lemma steps_trans w1 w2 d1 d2 g g1 g2 :
  steps_to w1 d1 g g1 -> steps_to w2 d2 g1 g2 -> steps_to (fun p => w1 p ++ w2 p) (fun p => d1 p \/ d2 p) g g2.
Proof.
  intros [_ P1 V1 H1] [S2 P2 V2 H2]. split; [done|congruence| |].
  - intros p. by rewrite V2, V1, last_or_app.
  - intros p. destruct (H1 p) as (h1 & E1 & L1 & D1), (H2 p) as (h2 & E2 & L2 & D2). exists (h1 ++ h2).
    rewrite E2, E1, app_assoc. split; [done|]. split; [by apply sublist_app|]. destruct D1 as [?| ->], D2 as [?| ->]; auto.
Qed.

Lemma set_one_steps g pv : one_sided g ->
  steps_to (fun p => if decide (pv.1 = p) then [pv.2] else []) (fun p => pv.1 = p) g (fake_set_one g pv).
Proof.
  intros Hs. pose proof (write_steps pv.1 pv.2 g None Hs) as [S1 S2 S3 S4]. unfold fake_set_one. cbv zeta in *.
  assert (E : match offer pv.1 pv.2 (store pv.1 pv.2 g) with Some g' => g' | None =>
      mk_fake (fv (store pv.1 pv.2 g)) (ports (store pv.1 pv.2 g)) (senders (store pv.1 pv.2 g) ++ [])
        (receivers (store pv.1 pv.2 g)) (received (store pv.1 pv.2 g)) end
    = default (store pv.1 pv.2 g) (offer pv.1 pv.2 (store pv.1 pv.2 g))).
  { destruct (offer _ _ _); [done|]. cbn. by rewrite app_nil_r. }
  rewrite E in *. split; [done..|]. intros p. destruct (S4 p) as (h & Hh & Hl & Hd). exists h. split_and!; [done..|]. naive_solver.
Qed.

Lemma setValues_steps l g : one_sided g ->
  steps_to (fun p => (filter (fun pv => pv.1 = p) l).*2) (fun p => p ∈ l.*1) g (foldl fake_set_one g l).
Proof.
  revert g. induction l as [|pv l IH]; intros g Hs.
  - split; [done|done|done|]. intros p. exists []. cbn. rewrite app_nil_r. split; [done|]. split; [done|by right].
  - cbn [foldl]. pose proof (set_one_steps g pv Hs) as H1. pose proof (IH _ (st_sided _ _ _ _ H1)) as H2.
    pose proof (steps_trans _ _ _ _ _ _ _ H1 H2) as [S1 S2 S3 S4].
    assert (Hw : forall p, (filter (fun pv => pv.1 = p) (pv :: l)).*2 =
      (if decide (pv.1 = p) then [pv.2] else []) ++ (filter (fun pv => pv.1 = p) l).*2).
    { intros p. rewrite filter_cons. by case_decide. }
    split; [done|done| |].
    + intros p. by rewrite Hw.
    + intros p. rewrite Hw. destruct (S4 p) as (h & Hh & Hl & Hd). exists h. split_and!; [done..|]. cbn. rewrite elem_of_cons. naive_solver.
Qed.

Lemma step_steps g o g' : one_sided g -> fake_step g o = Some g' ->
  steps_to (fun p => writes_of p o) (fun p => exists ls vals, o = OpSetValues ls vals /\ p ∈ ls) g g'.
Proof.
  intros Hs. destruct o as [id q v|id q|ls vals]; cbn [fake_step].
  - intros [= <-]. pose proof (write_steps q v g (Some id) Hs) as [S1 S2 S3 S4]. split; [done..|].
    intros p. destruct (S4 p) as (h & Hh & Hl & Hd). exists h. split_and!; [done..|]. naive_solver.
  - intros [= <-]. pose proof (receive_steps id q g Hs) as [S1 S2 S3 S4]. split; [done..|].
    intros p. destruct (S4 p) as (h & Hh & Hl & Hd). exists h. split_and!; [done..|]. naive_solver.
  - unfold fake_setValues. case_decide as Hlen; [|done]. intros [= <-].
    pose proof (setValues_steps (zip ls vals) g Hs) as [S1 S2 S3 S4]. split; [done..|].
    intros p. destruct (S4 p) as (h & Hh & Hl & Hd). exists h. split_and!; [done..|]. destruct Hd as [Hd|Hd]; [|by right].
    left. exists ls, vals. split; [done|]. apply list_elem_of_fmap in Hd as ([q v] & -> & Hin). by eapply elem_of_zip_l.
Qed.

Lemma run_steps g l g' : one_sided g -> fake_run g l = Some g' ->
  steps_to (fun p => concat (writes_of p <$> l)) (fun p => exists ls vals, OpSetValues ls vals ∈ l /\ p ∈ ls) g g'.
Proof.
  revert g. induction l as [|o l IH]; intros g Hs Hr.
  - injection Hr as <-. split; [done..|]. intros p. exists []. rewrite app_nil_r. split; [done|]. split; [done|by right].
  - cbn [fake_run] in Hr. destruct (fake_step g o) as [g1|] eqn:Eo; [|done]. cbn in Hr.
    pose proof (step_steps g o g1 Hs Eo) as H1. pose proof (IH g1 (st_sided _ _ _ _ H1) Hr) as H2.
    destruct (steps_trans _ _ _ _ _ _ _ H1 H2) as [S1 S2 S3 S4]. split; [done..|].
    intros p. destruct (S4 p) as (h & Hh & Hl & Hd). exists h. split_and!; [done..|].
    destruct Hd as [[(ls & vals & -> & Hp)|(ls & vals & Hin & Hp)]|Hd]; [| |by right]; left; exists ls, vals; (split; [|done]); set_solver.
Qed.

(** The test double keeps what it is told: over any sequence of operations the value of a port is
    the one written last, no goroutine waits to send while another waits to receive, and what was
    received from a port followed by what still waits in [Set] are values written to it in their
    order, all of them when [setValues] did not touch the port (which gives up a value nobody waits
    for). *)
Theorem fake_channels (startup : gmap Z bool) (l : list fake_op) (g : fakeGpio) (p : Z) :
  fake_run (FakeGpioImpl startup) l = Some g ->
  fv g !! p = last_or (concat (writes_of p <$> l)) (startup !! p) /\ one_sided g /\
  history p g `sublist_of` concat (writes_of p <$> l) /\
  ((forall ls vals, OpSetValues ls vals ∈ l -> p ∉ ls) -> history p g = concat (writes_of p <$> l)).
Proof.
  intros Hr. destruct (run_steps (FakeGpioImpl startup) l g) as [S1 _ S3 S4]; [by intros ? ? ? ? _ ?%elem_of_nil|done|].
  destruct (S4 p) as (h & Hh & Hl & Hd). cbn in Hh. split_and!; [apply S3|done|by rewrite Hh|].
  intros Hno. rewrite Hh. destruct Hd as [(ls & vals & Hin & Hp)|Hd]; [|done]. by destruct (Hno ls vals Hin).
Qed.
