(* ===== verification/Buttons.v ===== *)
(** * The button protocol (pkg/bmc/gpio.go, platform handlers)

    A push is a goroutine that offers its channel [pushc] to the button's manager,
    sends true, waits, sends false and closes it; [ManageButton] serves one push
    at a time and drives the line.  Pushes come from [PressButton] (RPC) and from
    the handlers of the physical power and reset buttons.  The channels are
    unbuffered, so a communication is one step of both sides. *)

From S2P Require Import Prelude Gpio.

(** Where a push comes from. *)
Inductive kind : Type := KRpc | KReset | KPower.

(** Where its goroutine is. *)
Inductive pstate : Type :=
| Offer        (* blocked on [c <- pushc] *)
| Check        (* RPC: before the test of [ctx.Err()] *)
| SendTrue     (* blocked on [pushc <- true] *)
| Held         (* sleeping, or waiting for the release event *)
| SendFalse    (* blocked on [pushc <- false] *)
| Closing      (* before [close(pushc)] *)
| Notify       (* RPC: closed, before the [select] on [cc] *)
| Finished     (* closed *)
| Cancelled    (* RPC: closed without a push *)
| Abandoned.   (* power button: [pushc] overwritten by a new press *)

(** Where the caller of [PressButton] is: inside the call, waiting on [cc],
    answered. *)
Inductive caller : Type := CCalling | CWaiting | CAnswered.

#[export] Instance kind_eq_dec : EqDecision kind.
Proof. solve_decision. Defined.
#[export] Instance pstate_eq_dec : EqDecision pstate.
Proof. solve_decision. Defined.
#[export] Instance caller_eq_dec : EqDecision caller.
Proof. solve_decision. Defined.

Record push : Type := mk_push { pk : kind; ps : pstate; pc : caller }.

(** A button: the push its manager is ranging over, the pushes, and the values
    written to the line, pressed being true. *)
Record button : Type := mk_button {
  serving : option nat; pushes : gmap nat push; written : list bool }.

Definition set_ps (i : nat) (st : pstate) (b : button) : gmap nat push :=
  alter (fun p => mk_push (pk p) st (pc p)) i (pushes b).

Definition set_pc (i : nat) (c : caller) (b : button) : gmap nat push :=
  alter (fun p => mk_push (pk p) (ps p) c) i (pushes b).

(** The manager's [for p := range pushc] ends when the channel is closed. *)
Definition closed (st : pstate) : Prop := st = Notify \/ st = Finished \/ st = Cancelled.

#[export] Instance closed_dec st : Decision (closed st).
Proof. unfold closed. apply _. Defined.

(** The value [ManageButton] gives to [setValues] for [p]. *)
Definition line_value (flags : Z) (p : bool) : bool :=
  if decide (Z.land flags GPIO_INVERTED <> 0) then negb p else p.

(** The beginning of [PressButton]: the duration of the press in nanoseconds, or
    the error; [known] are the buttons of the system. *)
Definition press_request (known : gset Z) (b durMs : Z) : result Z :=
  if decide (durMs > 1000 * 10) then Err "maximum allowed depress duration is 10 seconds"%string
  else if decide (b ∈ known) then Ok (durMs * 1000000) else Err "unknown button"%string.

(** [Button(b)]: the button's channel exists afterwards. *)
Definition Button (b : Z) (known : gset Z) : gset Z := known ∪ {[b]}.

Inductive label : Type :=
| LPress (i : nat) (k : kind) | LAccept (i : nat) | LCancel (i : nat) | LCommit (i : nat)
| LTrue (i : nat) | LRelease (i : nat) | LFalse (i : nat) | LClose (i : nat) | LEnd (i : nat)
| LWait (i : nat) | LNotify (i : nat) | LLost (i : nat) | LAgain (i : nat).

Inductive step : button -> label -> button -> Prop :=
(* a new push: an accepted call of [PressButton], or a press event *)
| st_press b i k : pushes b !! i = None ->
    step b (LPress i k) (mk_button (serving b) (<[i := mk_push k Offer CCalling]> (pushes b)) (written b))
(* [c <- pushc] meets [pushc := <-c] *)
| st_accept b i p : serving b = None -> pushes b !! i = Some p -> ps p = Offer ->
    step b (LAccept i) (mk_button (Some i)
      (set_ps i (if decide (pk p = KRpc) then Check else SendTrue) b) (written b))
(* [if ctx.Err() != nil { close(pushc); return }] *)
| st_cancel b i p : pushes b !! i = Some p -> ps p = Check ->
    step b (LCancel i) (mk_button (serving b) (set_ps i Cancelled b) (written b))
| st_commit b i p : pushes b !! i = Some p -> ps p = Check ->
    step b (LCommit i) (mk_button (serving b) (set_ps i SendTrue b) (written b))
(* [pushc <- true] meets the range loop *)
| st_true b i p : serving b = Some i -> pushes b !! i = Some p -> ps p = SendTrue ->
    step b (LTrue i) (mk_button (serving b) (set_ps i Held b) (written b ++ [true]))
(* the sleep ends, or the button is released *)
| st_release b i p : pushes b !! i = Some p -> ps p = Held ->
    step b (LRelease i) (mk_button (serving b) (set_ps i SendFalse b) (written b))
(* [pushc <- false] meets the range loop *)
| st_false b i p : serving b = Some i -> pushes b !! i = Some p -> ps p = SendFalse ->
    step b (LFalse i) (mk_button (serving b) (set_ps i Closing b) (written b ++ [false]))
(* [close(pushc)] *)
| st_close b i p : pushes b !! i = Some p -> ps p = Closing ->
    step b (LClose i) (mk_button (serving b)
      (set_ps i (if decide (pk p = KRpc) then Notify else Finished) b) (written b))
(* the range loop sees the closed channel *)
| st_end b i p : serving b = Some i -> pushes b !! i = Some p -> closed (ps p) ->
    step b (LEnd i) (mk_button None (pushes b) (written b))
(* [PressButton] returned and its caller waits for [cc] *)
| st_wait b i p : pushes b !! i = Some p -> ps p <> Offer -> pk p = KRpc -> pc p = CCalling ->
    step b (LWait i) (mk_button (serving b) (set_pc i CWaiting b) (written b))
(* [select { case cc <- true: default: }] *)
| st_notify b i p : pushes b !! i = Some p -> ps p = Notify -> pc p = CWaiting ->
    step b (LNotify i) (mk_button (serving b)
      (<[i := mk_push (pk p) Finished CAnswered]> (pushes b)) (written b))
| st_lost b i p : pushes b !! i = Some p -> ps p = Notify -> pc p <> CWaiting ->
    step b (LLost i) (mk_button (serving b) (set_ps i Finished b) (written b))
(* [PowerButtonHandler]: a press event while a push is held *)
| st_again b i p : pushes b !! i = Some p -> pk p = KPower -> ps p = Held ->
    step b (LAgain i) (mk_button (serving b) (set_ps i Abandoned b) (written b)).

Inductive run : button -> list label -> button -> Prop :=
| run_nil b : run b [] b
| run_cons b l b' tr b'' : step b l b' -> run b' tr b'' -> run b (l :: tr) b''.

Definition new_button : button := mk_button None ∅ [].

(** The steps as a function: what a label does, when it is enabled. *)
Definition exec (b : button) (l : label) : option button :=
  match l with
  | LPress i k =>
      match pushes b !! i with
      | None => Some (mk_button (serving b) (<[i := mk_push k Offer CCalling]> (pushes b)) (written b))
      | Some _ => None
      end
  | LAccept i =>
      p ← pushes b !! i; guard (serving b = None);; guard (ps p = Offer);;
      Some (mk_button (Some i) (set_ps i (if decide (pk p = KRpc) then Check else SendTrue) b) (written b))
  | LCancel i =>
      p ← pushes b !! i; guard (ps p = Check);;
      Some (mk_button (serving b) (set_ps i Cancelled b) (written b))
  | LCommit i =>
      p ← pushes b !! i; guard (ps p = Check);;
      Some (mk_button (serving b) (set_ps i SendTrue b) (written b))
  | LTrue i =>
      p ← pushes b !! i; guard (serving b = Some i);; guard (ps p = SendTrue);;
      Some (mk_button (serving b) (set_ps i Held b) (written b ++ [true]))
  | LRelease i =>
      p ← pushes b !! i; guard (ps p = Held);;
      Some (mk_button (serving b) (set_ps i SendFalse b) (written b))
  | LFalse i =>
      p ← pushes b !! i; guard (serving b = Some i);; guard (ps p = SendFalse);;
      Some (mk_button (serving b) (set_ps i Closing b) (written b ++ [false]))
  | LClose i =>
      p ← pushes b !! i; guard (ps p = Closing);;
      Some (mk_button (serving b) (set_ps i (if decide (pk p = KRpc) then Notify else Finished) b) (written b))
  | LEnd i =>
      p ← pushes b !! i; guard (serving b = Some i);; guard (closed (ps p));;
      Some (mk_button None (pushes b) (written b))
  | LWait i =>
      p ← pushes b !! i; guard (ps p <> Offer);; guard (pk p = KRpc);; guard (pc p = CCalling);;
      Some (mk_button (serving b) (set_pc i CWaiting b) (written b))
  | LNotify i =>
      p ← pushes b !! i; guard (ps p = Notify);; guard (pc p = CWaiting);;
      Some (mk_button (serving b) (<[i := mk_push (pk p) Finished CAnswered]> (pushes b)) (written b))
  | LLost i =>
      p ← pushes b !! i; guard (ps p = Notify);; guard (pc p <> CWaiting);;
      Some (mk_button (serving b) (set_ps i Finished b) (written b))
  | LAgain i =>
      p ← pushes b !! i; guard (pk p = KPower);; guard (ps p = Held);;
      Some (mk_button (serving b) (set_ps i Abandoned b) (written b))
  end.

Fixpoint exec_all (b : button) (tr : list label) : option button :=
  match tr with
  | [] => Some b
  | l :: tr => b' ← exec b l; exec_all b' tr
  end.

Lemma exec_step b l b' : exec b l = Some b' -> step b l b'.
Proof.
  destruct l as [i k|i|i|i|i|i|i|i|i|i|i|i|i]; cbn [exec]; destruct (pushes b !! i) as [p|] eqn:Hp;
    try discriminate; [|cbn [mbind option_bind]; repeat case_guard; try discriminate ..];
    intros Hb; injection Hb as <-; by econstructor.
Qed.

Lemma step_exec b l b' : step b l b' -> exec b l = Some b'.
Proof.
  destruct 1 as [b i k Hn|b i p ? Hp ?|b i p Hp ?|b i p Hp ?|b i p ? Hp ?|b i p Hp ?|b i p ? Hp ?|b i p Hp ?|b i p ? Hp ?
    |b i p Hp ???|b i p Hp ??|b i p Hp ??|b i p Hp ??]; cbn [exec]; rewrite ?Hn, ?Hp; [done|..];
    cbn [mbind option_bind]; repeat case_guard; done.
Qed.

Lemma exec_all_run tr : forall b b', exec_all b tr = Some b' -> run b tr b'.
Proof.
  induction tr as [|l tr IH]; intros b b' He; cbn [exec_all] in He.
  - injection He as <-. constructor.
  - destruct (exec b l) as [b1|] eqn:E; [|discriminate].
    econstructor; [by apply exec_step|by apply IH].
Qed.

(** ** Safety *)

(** The states in which a push's line is pressed. *)
Definition pressing (st : pstate) : Prop := st = Held \/ st = SendFalse \/ st = Abandoned.

#[export] Instance pressing_dec st : Decision (pressing st).
Proof. unfold pressing. apply _. Defined.

(** [n] complete presses. *)
Fixpoint presses (n : nat) : list bool :=
  match n with O => [] | S n => [true; false] ++ presses n end.

Definition active (st : pstate) : Prop := st <> Offer /\ ~ closed st.

Record inv (b : button) : Prop := {
  inv_active : forall i p, pushes b !! i = Some p -> active (ps p) -> serving b = Some i;
  inv_serving : forall i, serving b = Some i -> exists p, pushes b !! i = Some p /\ ps p <> Offer;
  inv_line : exists n, written b = presses n ++
    match serving b with
    | Some i => match pushes b !! i with
                | Some p => if decide (pressing (ps p)) then [true] else []
                | None => []
                end
    | None => []
    end;
}.

Lemma presses_snoc n : presses n ++ [true; false] = presses (S n).
Proof. induction n as [|n IH]; [done|]. cbn [presses]. rewrite <- !app_assoc. simpl in *. by rewrite IH. Qed.

Lemma lookup_set_ps i st b j :
  set_ps i st b !! j =
  if decide (i = j) then (fun p => mk_push (pk p) st (pc p)) <$> pushes b !! j else pushes b !! j.
Proof.
  unfold set_ps. case_decide as Hij; [subst; apply lookup_alter_eq|by apply lookup_alter_ne].
Qed.

(** A push changes state, writing [d] to the line; [m] is the new map. *)
Lemma inv_move b i p p' m d :
  inv b -> pushes b !! i = Some p -> m !! i = Some p' -> (forall j, j <> i -> m !! j = pushes b !! j) ->
  ps p <> Offer -> ps p' <> Offer ->
  (active (ps p') -> active (ps p)) ->
  (forall n, exists n', (presses n ++ (if decide (pressing (ps p)) then [true] else [])) ++ d =
     presses n' ++ (if decide (pressing (ps p')) then [true] else [])) ->
  (d <> [] -> serving b = Some i) ->
  inv (mk_button (serving b) m (written b ++ d)).
Proof.
  intros [Ha Hs [n Hl]] Hp Hp' Hm Hne Hne' Hact Hline Hd. split; cbn [serving pushes written].
  - intros j q Hq Hactive. destruct (decide (j = i)) as [->|Hj].
    + apply (Ha i p); [done|]. apply Hact. congruence.
    + apply (Ha j q); [|done]. by rewrite <- Hm.
  - intros j Hj. destruct (Hs j Hj) as (q & Hq & Hqo). destruct (decide (j = i)) as [->|Hji].
    + eauto.
    + exists q. by rewrite Hm.
  - destruct (serving b) as [j|] eqn:Esv.
    + destruct (decide (j = i)) as [->|Hji].
      * rewrite Hp in Hl. rewrite Hp', Hl. apply Hline.
      * exists n. rewrite Hm by done. rewrite Hl.
        destruct d as [|x d]; [by rewrite app_nil_r|].
        by injection (Hd ltac:(done)) as ->.
    + exists n. rewrite Hl. destruct d as [|x d]; [by rewrite app_nil_r|].
      by specialize (Hd ltac:(done)).
Qed.

Lemma inv_set_ps b i p st d :
  inv b -> pushes b !! i = Some p -> ps p <> Offer -> st <> Offer ->
  (active st -> active (ps p)) ->
  (forall n, exists n', (presses n ++ (if decide (pressing (ps p)) then [true] else [])) ++ d =
     presses n' ++ (if decide (pressing st) then [true] else [])) ->
  (d <> [] -> serving b = Some i) ->
  inv (mk_button (serving b) (set_ps i st b) (written b ++ d)).
Proof.
  intros Hi Hp Hne Hst Hact Hline Hd.
  eapply (inv_move b i p (mk_push (pk p) st (pc p))); try done.
  - by rewrite lookup_set_ps, decide_True, Hp.
  - intros j Hj. by rewrite lookup_set_ps, decide_False.
Qed.

Lemma inv_set_ps_quiet b i p st :
  inv b -> pushes b !! i = Some p -> ps p <> Offer -> st <> Offer ->
  (active st -> active (ps p)) -> (pressing st <-> pressing (ps p)) ->
  inv (mk_button (serving b) (set_ps i st b) (written b)).
Proof.
  intros Hi Hp Hne Hst Hact Hpr. rewrite <- (app_nil_r (written b)).
  eapply inv_set_ps; try done. intros n. exists n. rewrite app_nil_r. f_equal.
  by rewrite (decide_ext (pressing st) (pressing (ps p)) [true] []).
Qed.

(** Discharge the side conditions on concrete states. *)
Ltac state_facts :=
  unfold active, closed, pressing in *; naive_solver congruence.

Lemma step_inv b l b' : step b l b' -> inv b -> inv b'.
Proof.
  intros Hstep Hi. pose proof Hi as [Ha Hs Hl].
  destruct Hstep as [b i k Hnew|b i p Hsv Hp Hps|b i p Hp Hps|b i p Hp Hps|b i p Hsv Hp Hps
    |b i p Hp Hps|b i p Hsv Hp Hps|b i p Hp Hps|b i p Hsv Hp Hcl|b i p Hp Hps Hk Hc
    |b i p Hp Hps Hc|b i p Hp Hps Hc|b i p Hp Hk Hps].
  - (* press *) split; cbn [serving pushes written].
    + intros j q Hq Hactive. destruct (decide (j = i)) as [->|Hj].
      * rewrite lookup_insert_eq in Hq. injection Hq as <-. by destruct Hactive.
      * rewrite lookup_insert_ne in Hq by done. by apply (Ha j q).
    + intros j Hj. destruct (Hs j Hj) as (q & Hq & Hqo). exists q.
      rewrite lookup_insert_ne by congruence. done.
    + destruct Hl as [n Hl]. exists n. rewrite Hl. f_equal. destruct (serving b) as [j|]; [|done].
      destruct (Hs j eq_refl) as (q & Hq & _). by rewrite lookup_insert_ne by congruence.
  - (* accept *) set (st := if decide (pk p = KRpc) then Check else SendTrue).
    assert (Hst : st = Check \/ st = SendTrue) by (unfold st; case_decide; auto).
    split; cbn [serving pushes written].
    + intros j q Hq Hactive. rewrite lookup_set_ps in Hq. case_decide as Hij; [by rewrite Hij|].
      specialize (Ha j q Hq Hactive). congruence.
    + intros j [= <-]. rewrite lookup_set_ps, decide_True, Hp by done. eexists. split; [done|].
      simpl. destruct Hst as [-> | ->]; done.
    + destruct Hl as [n Hl]. exists n. rewrite Hl, Hsv, lookup_set_ps, decide_True, Hp by done.
      simpl. rewrite decide_False; [done|]. unfold pressing. destruct Hst as [-> | ->]; naive_solver.
  - (* cancel *) eapply inv_set_ps_quiet; try done; rewrite ?Hps; state_facts.
  - (* commit *) eapply inv_set_ps_quiet; try done; rewrite ?Hps; state_facts.
  - (* true *) eapply inv_set_ps; try done; rewrite ?Hps; try state_facts.
    intros n. exists n. simpl. by rewrite ?app_nil_r.
  - (* release *) eapply inv_set_ps_quiet; try done; rewrite ?Hps; state_facts.
  - (* false *) eapply inv_set_ps; try done; rewrite ?Hps; try state_facts.
    intros n. exists (S n). rewrite <- app_assoc. simpl. rewrite app_nil_r. apply presses_snoc.
  - (* close *) destruct (decide (pk p = KRpc));
      eapply inv_set_ps_quiet; try done; rewrite ?Hps; state_facts.
  - (* end *) split; cbn [serving pushes written].
    + intros j q Hq Hactive. specialize (Ha j q Hq Hactive). assert (j = i) as -> by congruence.
      assert (q = p) as -> by congruence. by destruct Hactive.
    + done.
    + destruct Hl as [n Hl]. exists n. rewrite Hsv, Hp, decide_False in Hl; [done|].
      unfold closed, pressing in *. naive_solver congruence.
  - (* wait *) rewrite <- (app_nil_r (written b)).
    eapply (inv_move b i p (mk_push (pk p) (ps p) CWaiting)); try done.
    + unfold set_pc. by rewrite lookup_alter_eq, Hp.
    + intros j Hj. unfold set_pc. by rewrite lookup_alter_ne.
    + intros n. exists n. by rewrite app_nil_r.
  - (* notify *) rewrite <- (app_nil_r (written b)).
    eapply (inv_move b i p (mk_push (pk p) Finished CAnswered)); try done; rewrite ?Hps; try state_facts.
    + by rewrite lookup_insert_eq.
    + intros j Hj. by rewrite lookup_insert_ne.
    + intros n. exists n. by rewrite app_nil_r.
  - (* lost *) eapply inv_set_ps_quiet; try done; rewrite ?Hps; state_facts.
  - (* again *) eapply inv_set_ps_quiet; try done; rewrite ?Hps; state_facts.
Qed.

Lemma button_run_inv b tr b' : run b tr b' -> inv b -> inv b'.
Proof. induction 1 as [|b l b' tr b'' Hs _ IH]; [done|]. intros Hi. apply IH. by eapply step_inv. Qed.

Lemma new_button_inv : inv new_button.
Proof. split; [intros i p Hp; simpl in Hp; by rewrite lookup_empty in Hp|done|by exists O]. Qed.

Lemma reachable_inv tr b : run new_button tr b -> inv b.
Proof. intros Hr. eapply button_run_inv; [done|apply new_button_inv]. Qed.

(** ** Progress: every push ends *)

(** What is left of a push: nothing once its goroutine is done. *)
Definition rank_ps (st : pstate) : nat :=
  match st with
  | Offer => 9 | Check => 7 | SendTrue => 6 | Held => 5 | SendFalse => 4 | Closing => 3
  | Notify => 2 | Finished => 1 | Cancelled => 1 | Abandoned => 1
  end.

Definition rank (p : push) : nat :=
  rank_ps (ps p) + match pc p with CCalling => 1 | _ => 0 end.

Definition measure (b : button) : nat :=
  map_fold (fun _ p acc => rank p + acc)%nat 0%nat (pushes b) +
  match serving b with Some _ => 1 | None => 0 end.

(** A step of the goroutines themselves, rather than of the operator. *)
Definition internal (l : label) : Prop :=
  match l with LPress _ _ => False | LAgain _ => False | _ => True end.

Lemma fold_rank_split (m : gmap nat push) i p :
  m !! i = Some p ->
  map_fold (fun _ p acc => rank p + acc)%nat 0%nat m =
  (rank p + map_fold (fun _ p acc => rank p + acc)%nat 0%nat (delete i m))%nat.
Proof. intros Hp. rewrite (map_fold_delete_L _ 0%nat i p m); [done|lia|done]. Qed.

Lemma fold_rank_change (m m' : gmap nat push) i p p' :
  m !! i = Some p -> m' !! i = Some p' -> (forall j, j <> i -> m' !! j = m !! j) ->
  (map_fold (fun _ p acc => rank p + acc)%nat 0%nat m' + rank p =
   map_fold (fun _ p acc => rank p + acc)%nat 0%nat m + rank p')%nat.
Proof.
  intros Hp Hp' Hm. rewrite (fold_rank_split m i p Hp), (fold_rank_split m' i p' Hp').
  replace (delete i m') with (delete i m); [lia|]. apply map_eq. intros j.
  destruct (decide (i = j)) as [->|Hj]; [by rewrite !lookup_delete_eq|].
  rewrite !lookup_delete_ne by done. by rewrite Hm.
Qed.

Lemma measure_set_ps b i p st sv w :
  pushes b !! i = Some p ->
  (measure (mk_button sv (set_ps i st b) w) + rank p =
   measure b + rank (mk_push (pk p) st (pc p)) +
     match sv with Some _ => 1 | None => 0 end - match serving b with Some _ => 1 | None => 0 end)%nat.
Proof.
  intros Hp. unfold measure. cbn [pushes serving].
  pose proof (fold_rank_change (pushes b) (set_ps i st b) i p (mk_push (pk p) st (pc p)) Hp
    ltac:(by rewrite lookup_set_ps, decide_True, Hp)
    ltac:(intros j Hj; by rewrite lookup_set_ps, decide_False)) as Hf.
  destruct sv, (serving b); lia.
Qed.

Ltac measure_step :=
  match goal with
  | Hp : pushes ?b !! ?i = Some ?p, Hps : ps ?p = _ |- context [mk_button ?sv (set_ps ?i ?st ?b) ?w] =>
      pose proof (measure_set_ps b i p st sv w Hp) as Hm;
      unfold rank in Hm; cbn [ps pc] in Hm; rewrite Hps in Hm;
      repeat case_decide; cbn [rank_ps] in Hm; lia
  end.

(** Each internal step does some of the work that is left. *)
Lemma step_measure b l b' : step b l b' -> internal l -> (measure b' < measure b)%nat.
Proof.
  intros Hstep Hint.
  destruct Hstep as [b i k Hnew|b i p Hsv Hp Hps|b i p Hp Hps|b i p Hp Hps|b i p Hsv Hp Hps
    |b i p Hp Hps|b i p Hsv Hp Hps|b i p Hp Hps|b i p Hsv Hp Hcl|b i p Hp Hps Hk Hc
    |b i p Hp Hps Hc|b i p Hp Hps Hc|b i p Hp Hk Hps]; cbn [internal] in Hint;
    try contradiction.
  2-7,11: measure_step.
  - pose proof (measure_set_ps b i p (if decide (pk p = KRpc) then Check else SendTrue) (Some i)
      (written b) Hp) as Hm.
    unfold rank in Hm. cbn [ps pc] in Hm. rewrite Hps, Hsv in Hm. case_decide; cbn [rank_ps] in Hm; lia.
  - unfold measure. cbn [pushes serving]. rewrite Hsv. lia.
  - unfold measure. cbn [pushes serving].
    pose proof (fold_rank_change (pushes b) (set_pc i CWaiting b) i p (mk_push (pk p) (ps p) CWaiting) Hp
      ltac:(unfold set_pc; by rewrite lookup_alter_eq, Hp)
      ltac:(intros j Hj; unfold set_pc; by rewrite lookup_alter_ne)) as Hf.
    unfold rank at 2 4 in Hf. cbn [ps pc] in Hf. rewrite Hc in Hf. lia.
  - unfold measure. cbn [pushes serving].
    pose proof (fold_rank_change (pushes b) (<[i:=mk_push (pk p) Finished CAnswered]> (pushes b)) i p
      (mk_push (pk p) Finished CAnswered) Hp
      ltac:(by rewrite lookup_insert_eq) ltac:(intros j Hj; by rewrite lookup_insert_ne)) as Hf.
    unfold rank at 2 4 in Hf. cbn [ps pc] in Hf. rewrite Hps in Hf. destruct (pc p); cbn [rank_ps] in Hf; lia.
Qed.

(** No press of the power button was abandoned. *)
Definition none_abandoned (b : button) : Prop :=
  forall i p, pushes b !! i = Some p -> ps p <> Abandoned.

(** All goroutines are done and the manager waits for the next push. *)
Definition quiet (b : button) : Prop :=
  serving b = None /\ forall i p, pushes b !! i = Some p -> ps p = Finished \/ ps p = Cancelled.

(** The caller of an RPC is about to wait. *)
Definition is_wait (l : label) : Prop := match l with LWait _ => True | _ => False end.

(** A push that is not over can move, or the push ahead of it can. *)
Lemma serving_moves b i p :
  pushes b !! i = Some p -> serving b = Some i -> ps p <> Offer -> ps p <> Abandoned ->
  exists l b', internal l /\ ~ is_wait l /\ step b l b'.
Proof.
  intros Hp Hsv Ho Ha. destruct (ps p) eqn:E; try done.
  - exists (LCommit i). eexists. split_and!; [done|by intros []|by econstructor].
  - exists (LTrue i). eexists. split_and!; [done|by intros []|by econstructor].
  - exists (LRelease i). eexists. split_and!; [done|by intros []|by econstructor].
  - exists (LFalse i). eexists. split_and!; [done|by intros []|by econstructor].
  - exists (LClose i). eexists. split_and!; [done|by intros []|by econstructor].
  - exists (LEnd i). eexists. split_and!; [done|by intros []|econstructor; [done..|]; rewrite E; by left].
  - exists (LEnd i). eexists. split_and!; [done|by intros []|econstructor; [done..|]; rewrite E; by right; left].
  - exists (LEnd i). eexists. split_and!; [done|by intros []|econstructor; [done..|]; rewrite E; by right; right].
Qed.

Lemma quiet_or_moves b :
  inv b -> none_abandoned b -> quiet b \/ exists l b', internal l /\ ~ is_wait l /\ step b l b'.
Proof.
  intros [Hact Hs _] Hna. destruct (serving b) as [i|] eqn:Hsv.
  - destruct (Hs i eq_refl) as (p & Hp & Ho). right. eapply serving_moves; eauto.
  - destruct (decide (map_Forall (fun _ p => ps p = Finished \/ ps p = Cancelled) (pushes b)))
      as [Hall|Hnot]; [by left|]. right.
    apply map_not_Forall in Hnot; [|apply _]. destruct Hnot as (i & p & Hp & Hn).
    destruct (decide (ps p = Offer)) as [Eo|Eo].
    { exists (LAccept i). eexists. split_and!; [done|by intros []|by econstructor]. }
    destruct (decide (closed (ps p))) as [Hc|Hc].
    + assert (En : ps p = Notify) by (destruct Hc as [?|[?|?]]; [done|exfalso; auto..]).
      destruct (decide (pc p = CWaiting)).
      * exists (LNotify i). eexists. split_and!; [done|by intros []|by econstructor].
      * exists (LLost i). eexists. split_and!; [done|by intros []|by econstructor].
    + by specialize (Hact i p Hp (conj Eo Hc)).
Qed.

Lemma lookup_step_abandoned b l b' :
  step b l b' -> internal l -> none_abandoned b -> none_abandoned b'.
Proof.
  intros Hstep Hint Hn j q. specialize (Hn j).
  destruct Hstep; cbn [internal pushes] in *; try contradiction;
    unfold set_pc; rewrite ?lookup_set_ps, ?lookup_alter, ?lookup_insert; try (by apply Hn).
  all: repeat case_decide; subst; try (by apply Hn).
  all: try (intros Hq; injection Hq as <-; done).
  all: intros (q0 & Hq0 & ->)%fmap_Some; simpl; try done. all: by apply Hn.
Qed.

Lemma run_internal b tr b' :
  run b tr b' -> Forall internal tr -> none_abandoned b ->
  none_abandoned b' /\ (length tr + measure b' <= measure b)%nat.
Proof.
  induction 1 as [b|b l b' tr b'' Hs _ IH]; intros Hf Hn; [split; [done|simpl; lia]|].
  apply Forall_cons in Hf as [Hl Hf]. pose proof (step_measure b l b' Hs Hl).
  destruct (IH Hf) as [? ?]; [by eapply lookup_step_abandoned|]. split; [done|simpl; lia].
Qed.

Lemma quiet_released b : inv b -> serving b = None -> exists n, written b = presses n.
Proof. intros [_ _ [n Hn]] Hs. exists n. by rewrite Hn, Hs, app_nil_r. Qed.

(** ** What a step leaves alone *)

(** A push that is over stays so, and an answer it did not get never comes. *)
Definition unanswered (i : nat) (b : button) : Prop :=
  exists p, pushes b !! i = Some p /\ (ps p = Finished \/ ps p = Cancelled) /\ pc p <> CAnswered.

(** The manager serves the abandoned push [i]. *)
Definition wedged (i : nat) (b : button) : Prop :=
  serving b = Some i /\ exists p, pushes b !! i = Some p /\ ps p = Abandoned.

(** A step of another push, or one that changes only where push [i] is. *)
Lemma step_lookup b l b' i p :
  step b l b' -> pushes b !! i = Some p ->
  (ps p = Finished \/ ps p = Cancelled \/ ps p = Abandoned) ->
  exists p', pushes b' !! i = Some p' /\ ps p' = ps p /\ (pc p' = CAnswered -> pc p = CAnswered).
Proof.
  intros Hstep Hp Hst. destruct Hstep as [b j k Hnew|b j q ? Hq Hqs|b j q Hq Hqs|b j q Hq Hqs
    |b j q ? Hq Hqs|b j q Hq Hqs|b j q ? Hq Hqs|b j q Hq Hqs|b j q ? Hq Hqs|b j q Hq Hqs ? Hc
    |b j q Hq Hqs Hc|b j q Hq Hqs Hc|b j q Hq Hk Hqs]; cbn [pushes].
  all: destruct (decide (j = i)) as [->|Hji].
  all: try congruence.
  all: try (assert (q = p) as -> by congruence; naive_solver congruence).
  all: try (exists p; unfold set_pc; rewrite ?lookup_set_ps, ?decide_False, ?lookup_alter_ne,
    ?lookup_insert_ne by done; done).
  assert (q = p) as -> by congruence. unfold set_pc. rewrite lookup_alter_eq, Hp. simpl.
  eexists. by split.
Qed.

Lemma step_unanswered b l b' i : step b l b' -> unanswered i b -> unanswered i b'.
Proof.
  intros Hs (p & Hp & Hst & Hc).
  destruct (step_lookup b l b' i p Hs Hp) as (p' & Hp' & Es & Ec); [tauto|].
  exists p'. rewrite Es. split_and!; auto.
Qed.

Lemma step_wedged b l b' i :
  step b l b' -> wedged i b -> wedged i b' /\ written b' = written b.
Proof.
  intros Hs [Hsv (p & Hp & Hst)].
  destruct (step_lookup b l b' i p Hs Hp) as (p' & Hp' & Es & _); [tauto|].
  unfold wedged. split; [split; [|exists p'; split; congruence]|];
    destruct Hs; cbn [serving written] in *; try congruence;
    (assert (i0 = i) as -> by congruence); unfold closed in *; naive_solver congruence.
Qed.

Lemma run_unanswered b tr b' i : run b tr b' -> unanswered i b -> unanswered i b'.
Proof. induction 1; eauto using step_unanswered. Qed.

Lemma run_wedged b tr b' i :
  run b tr b' -> wedged i b -> wedged i b' /\ written b' = written b.
Proof.
  induction 1 as [b|b l b' tr b'' Hs _ IH]; [done|]. intros Hw.
  destruct (step_wedged b l b' i Hs Hw) as [Hw' E]. rewrite <- E. auto.
Qed.

(** ** The protocol's contract *)

(** C11:  Whatever the interleaving of presses, cancellations and physical button
    events, the manager serves one push at a time and the line sees complete
    presses: the values written alternate true, false from the first, with at
    most one press still open, and it is open only while the served push is held. *)
Theorem button_one_press_at_a_time tr b :
  run new_button tr b ->
  (forall i j p q, pushes b !! i = Some p -> pushes b !! j = Some q ->
     active (ps p) -> active (ps q) -> i = j) /\
  (exists n, written b = presses n \/
     (written b = presses n ++ [true] /\
      exists i p, serving b = Some i /\ pushes b !! i = Some p /\ pressing (ps p))).
Proof.
  intros Hr. destruct (reachable_inv tr b Hr) as [Ha Hs [n Hl]]. split.
  - intros i j p q Hp Hq Hpa Hqa. pose proof (Ha i p Hp Hpa). pose proof (Ha j q Hq Hqa). congruence.
  - exists n. destruct (serving b) as [i|] eqn:Hsv; [|left; by rewrite Hl, app_nil_r].
    destruct (Hs i eq_refl) as (p & Hp & _). rewrite Hp in Hl.
    case_decide; [right; eauto 10|left; by rewrite Hl, app_nil_r].
Qed.


(** [PressButton] never closes [cc]: a push that was cancelled, or whose
    completion came before its caller waited, leaves the caller of the RPC waiting
    in every continuation. *)
Theorem press_answer_can_be_lost tr b i tr' b' :
  run new_button tr b -> unanswered i b -> run b tr' b' ->
  exists p, pushes b' !! i = Some p /\ pc p <> CAnswered.
Proof. intros _ Hu Hr. destruct (run_unanswered b tr' b' i Hr Hu) as (p & Hp & _ & Hc). eauto. Qed.

(** C38: A second press event during a press of the physical power button wedges
    the button: [pushc] is replaced without being closed, the manager ranges over
    the old channel for ever, and the power line stays pressed. *)
Theorem power_second_press_wedges tr b i p tr' b' :
  run new_button tr b -> pushes b !! i = Some p -> ps p = Abandoned -> run b tr' b' ->
  serving b' = Some i /\ written b' = written b /\ exists n, written b' = presses n ++ [true].
Proof.
  intros Hr Hp Hst Hr'. pose proof (reachable_inv tr b Hr) as [Ha _ [n Hl]].
  assert (Hsv : serving b = Some i).
  { apply (Ha i p Hp). rewrite Hst. split; [done|]. unfold closed. naive_solver. }
  destruct (run_wedged b tr' b' i Hr') as [[Hsv' _] Hw]; [split; eauto|].
  split_and!; [done..|]. exists n. rewrite Hw, Hl, Hsv, Hp, decide_True; [done|]. rewrite Hst.
  by right; right.
Qed.

(** ** Concrete runs *)

(** An RPC press queued behind a press of the reset button. *)
Definition trace_two : list label :=
  [LPress 0 KReset; LAccept 0; LTrue 0; LPress 1 KRpc; LRelease 0; LFalse 0; LClose 0; LEnd 0;
   LAccept 1; LWait 1; LCommit 1; LTrue 1]%nat.

Definition trace_rest : list label :=
  [LRelease 1; LFalse 1; LClose 1; LNotify 1; LEnd 1]%nat.

Definition after (tr : list label) : button := default new_button (exec_all new_button tr).

Lemma after_run tr : exec_all new_button tr = Some (after tr) -> run new_button tr (after tr).
Proof. apply exec_all_run. Qed.

Lemma button_one_press_at_a_time_witness :
  exists b, exec_all new_button trace_two = Some b /\ written b = [true; false; true] /\
  exists n, written b = presses n \/
     (written b = presses n ++ [true] /\
      exists i p, serving b = Some i /\ pushes b !! i = Some p /\ pressing (ps p)).
Proof.
  exists (after trace_two). split; [by vm_compute|]. split; [done|].
  refine (proj2 (button_one_press_at_a_time trace_two _ _)). apply exec_all_run. by vm_compute.
Defined.


(** A press whose completion comes before its caller waits. *)
Definition trace_lost : list label :=
  [LPress 0 KRpc; LAccept 0; LCommit 0; LTrue 0; LRelease 0; LFalse 0; LClose 0; LLost 0]%nat.

Lemma press_answer_can_be_lost_witness :
  exists b', exec_all (after trace_lost) [LEnd 0; LWait 0]%nat = Some b' /\
    written b' = [true; false] /\ exists p, pushes b' !! 0%nat = Some p /\ pc p <> CAnswered.
Proof.
  exists (after (trace_lost ++ [LEnd 0; LWait 0]%nat)). split; [by vm_compute|]. split; [done|].
  eapply (press_answer_can_be_lost trace_lost (after trace_lost) 0%nat [LEnd 0; LWait 0]%nat).
  - apply after_run. by vm_compute.
  - exists (mk_push KRpc Finished CCalling). split; [by vm_compute|]. split; [by left|done].
  - apply exec_all_run. by vm_compute.
Defined.

Definition trace_again : list label := [LPress 0 KPower; LAccept 0; LTrue 0; LAgain 0]%nat.

Lemma power_second_press_wedges_witness :
  exists b', exec_all (after trace_again) [LPress 1 KPower; LPress 2 KRpc]%nat = Some b' /\
    serving b' = Some 0%nat /\ written b' = written (after trace_again) /\
    exists n, written b' = presses n ++ [true].
Proof.
  exists (after (trace_again ++ [LPress 1 KPower; LPress 2 KRpc]%nat)). split; [by vm_compute|].
  eapply (power_second_press_wedges trace_again (after trace_again) 0%nat (mk_push KPower Abandoned CCalling)
    [LPress 1 KPower; LPress 2 KRpc]%nat).
  - apply after_run. by vm_compute.
  - by vm_compute.
  - done.
  - apply exec_all_run. by vm_compute.
Defined.
