(* ===== verification/GpioSystem.v ===== *)
(** * The GPIO system as a whole (pkg/bmc/gpio.go, PressButton of grpc.go)

    All buttons of a board with what they share: the map [g.button] under the lock
    [g.m].  [Button] takes the lock for writing to create a channel; [PressButton] takes
    it for reading and keeps it while it waits for the manager of its button to take
    the push.  A [sync.RWMutex] lets no reader in while a writer waits.  Each button is
    one of [Buttons]; the goroutines around it are the managers, the handlers of the physical
    buttons and the calls of the RPC. *)

From S2P Require Import Prelude GoMonad Gpio Buttons.
#[local] Open Scope Z_scope.
#[local] Arguments exec : simpl never.

(** Who calls [Button]: the manager of a button, or the handler of a physical one. *)
Inductive writer : Type := WManager (b : Z) | WHandler (b : Z).

#[export] Instance writer_eq_dec : EqDecision writer.
Proof. solve_decision. Defined.

(** A handler: whether it is in [Button], and the push it made last ([pushc]). *)
Record handler : Type := mk_handler { in_Button : bool; pushc : option nat }.

(** [GpioSystem] with its goroutines: the buttons that have a channel; the managers that
    call [Button] first and those in their loop; the handlers; the calls of
    [PressButton] that hold the lock for reading; the writer that waits for it. *)
Record gsys : Type := mk_gsys {
  gbuttons : gmap Z button; starting : gset Z; loops : gset Z; handlers : gmap Z handler;
  readers : gset (Z * nat); pending : option writer }.

Definition set_button (b : Z) (bt : button) (s : gsys) : gsys :=
  mk_gsys (<[b := bt]> (gbuttons s)) (starting s) (loops s) (handlers s) (readers s) (pending s).
Definition set_handler (b : Z) (h : handler) (s : gsys) : gsys :=
  mk_gsys (gbuttons s) (starting s) (loops s) (<[b := h]> (handlers s)) (readers s) (pending s).
Definition set_readers (r : gset (Z * nat)) (s : gsys) : gsys :=
  mk_gsys (gbuttons s) (starting s) (loops s) (handlers s) r (pending s).
Definition set_pending (w : option writer) (s : gsys) : gsys :=
  mk_gsys (gbuttons s) (starting s) (loops s) (handlers s) (readers s) w.

(** [NewGpioSystem] after [InitializeGpio] has started its goroutines: the managers whose line was
    granted, and the handlers. *)
Definition new_gpio (managers physical : gset Z) : gsys :=
  mk_gsys ∅ managers ∅ (gset_to_gmap (mk_handler false None) physical) ∅ None.

(** The power button of a board holds its push until it is released. *)
Definition kind_of (power b : Z) : kind := if decide (b = power) then KPower else KReset.

Definition calling (s : gsys) (w : writer) : bool :=
  match w with
  | WManager b => bool_decide (b ∈ starting s)
  | WHandler b => match handlers s !! b with Some h => in_Button h | None => false end
  end.

(** The channel of [b]: [make(chan chan bool)] when there is none. *)
Definition channel (s : gsys) (b : Z) : button := default new_button (gbuttons s !! b).

Inductive act : Type :=
| PressEvent (b : Z)             (* a physical button is pressed *)
| Announce (w : writer)          (* [g.m.Lock()] begins: readers are held off from here on *)
| Locked (w : writer) (i : nat)  (* the body of [Button]; a handler then offers push [i] *)
| Rpc (b durMs : Z) (i : nat)    (* [PressButton] up to [c <- pushc] *)
| RUnlock (b : Z) (i : nat)      (* [PressButton] returns *)
| Inner (b : Z) (l : label).     (* the goroutines of a button *)

(** The steps of a button that belong to its goroutines: the manager takes a push only
    in its loop, and the caller waits only after [PressButton] has returned. *)
Definition may (s : gsys) (b : Z) (l : label) : bool :=
  match l with
  | LPress _ _ | LAgain _ => false
  | LAccept _ => bool_decide (b ∈ loops s)
  | LWait i => bool_decide ((b, i) ∉ readers s)
  | _ => true
  end.

Section Step.
Context (power : Z).

(** A press event: the handler is back in its range loop, and makes a new push; the one
    of the power button forgets the push it still holds. *)
Definition press_event (s : gsys) (b : Z) : option gsys :=
  h ← handlers s !! b;
  guard (in_Button h = false);;
  match pushc h with
  | None => Some (set_handler b (mk_handler true None) s)
  | Some i =>
      bt ← gbuttons s !! b;
      p ← pushes bt !! i;
      if decide (closed (ps p)) then Some (set_handler b (mk_handler true None) s)
      else bt' ← exec bt (LAgain i); Some (set_handler b (mk_handler true None) (set_button b bt' s))
  end.

(** [Button(b)] under the lock, and what its caller does next. *)
Definition locked (s : gsys) (w : writer) (i : nat) : option gsys :=
  guard (pending s = Some w);; guard (readers s = ∅);;
  match w with
  | WManager b =>
      Some (mk_gsys (<[b := channel s b]> (gbuttons s)) (starting s ∖ {[b]}) (loops s ∪ {[b]}) (handlers s) (readers s) None)
  | WHandler b =>
      bt ← exec (channel s b) (LPress i (kind_of power b));
      Some (set_handler b (mk_handler false (Some i)) (set_pending None (set_button b bt s)))
  end.

Definition fire (s : gsys) (a : act) : option gsys :=
  match a with
  | PressEvent b => press_event s b
  | Announce w => guard (pending s = None);; guard (calling s w = true);; Some (set_pending (Some w) s)
  | Locked w i => locked s w i
  | Rpc b durMs i =>
      guard (pending s = None);;
      match press_request (dom (gbuttons s)) b durMs with
      | Err _ => None
      | Ok _ =>
          bt ← gbuttons s !! b;
          bt' ← exec bt (LPress i KRpc);
          Some (set_readers (readers s ∪ {[(b, i)]}) (set_button b bt' s))
      end
  | RUnlock b i =>
      guard ((b, i) ∈ readers s);;
      bt ← gbuttons s !! b;
      p ← pushes bt !! i;
      guard (ps p <> Offer);;
      Some (set_readers (readers s ∖ {[(b, i)]}) s)
  | Inner b l =>
      guard (may s b l = true);;
      bt ← gbuttons s !! b;
      bt' ← exec bt l;
      Some (set_button b bt' s)
  end.

Fixpoint runs (s : gsys) (l : list act) : option gsys :=
  match l with [] => Some s | a :: l => s' ← fire s a; runs s' l end.

(** ** Each button behaves as one of [Buttons] *)

Definition from_new (s : gsys) : Prop := forall b bt, gbuttons s !! b = Some bt -> exists tr, run new_button tr bt.

Lemma run_snoc bt tr bt' l bt'' : run bt tr bt' -> step bt' l bt'' -> run bt (tr ++ [l]) bt''.
Proof. induction 1 as [|? ? ? ? ? Hs _ IH]; intros Hl; [by repeat econstructor|]. econstructor; [done|by apply IH]. Qed.

Lemma from_new_step s b bt l bt' : from_new s -> gbuttons s !! b = Some bt -> exec bt l = Some bt' ->
  forall b' x, <[b := bt']> (gbuttons s) !! b' = Some x -> exists tr, run new_button tr x.
Proof.
  intros Hs Hb E b' x. rewrite lookup_insert_Some. intros [[<- <-]|[_ Hx]]; [|by eapply Hs].
  destruct (Hs _ _ Hb) as [tr Hr]. eexists. eapply run_snoc; [done|]. by apply exec_step.
Qed.

Lemma channel_from_new s b : from_new s -> exists tr, run new_button tr (channel s b).
Proof. intros Hs. unfold channel. destruct (gbuttons s !! b) eqn:E; [by eapply Hs|]. exists []. constructor. Qed.

(** ** What a step of a button does to a push *)

Lemma step_forward b l b' i p : step b l b' -> pushes b !! i = Some p ->
  exists p', pushes b' !! i = Some p' /\ pk p' = pk p /\ (ps p' = Offer -> ps p = Offer) /\
    (pc p = CCalling -> l <> LWait i -> pc p' = CCalling).
Proof.
  intros Hs Hp. destruct Hs as [b j k Hn|b j q ? Hq Hqs|b j q Hq Hqs|b j q Hq Hqs|b j q ? Hq Hqs|b j q Hq Hqs|b j q ? Hq Hqs
    |b j q Hq Hqs|b j q ? Hq Hqs|b j q Hq Hqs ? Hc|b j q Hq Hqs Hc|b j q Hq Hqs Hc|b j q Hq Hk Hqs]; cbn [pushes].
  all: destruct (decide (j = i)) as [->|Hji].
  all: try (exists p; unfold set_pc; rewrite ?lookup_set_ps, ?decide_False, ?lookup_alter_ne, ?lookup_insert_ne by done; done).
  all: try congruence.
  all: assert (q = p) as -> by congruence; unfold set_pc; rewrite ?lookup_set_ps, ?decide_True, ?lookup_alter_eq, ?lookup_insert_eq, ?Hp by done;
    cbn; eexists; (split; [reflexivity|]); cbn; split_and!; try done; try congruence; try (by case_decide).
Qed.

Lemma step_backward b l b' i p' : step b l b' -> pushes b' !! i = Some p' ->
  is_Some (pushes b !! i) \/ exists k, l = LPress i k /\ p' = mk_push k Offer CCalling.
Proof.
  intros Hs Hp. destruct (pushes b !! i) eqn:E; [by left; eexists|right].
  destruct Hs as [b j k Hn|b j q ? Hq Hqs|b j q Hq Hqs|b j q Hq Hqs|b j q ? Hq Hqs|b j q Hq Hqs|b j q ? Hq Hqs
    |b j q Hq Hqs|b j q ? Hq Hqs|b j q Hq Hqs ? Hc|b j q Hq Hqs Hc|b j q Hq Hqs Hc|b j q Hq Hk Hqs]; cbn [pushes] in Hp.
  all: destruct (decide (j = i)) as [->|Hji]; try congruence.
  all: unfold set_pc in Hp; rewrite ?lookup_set_ps, ?decide_False, ?lookup_alter_ne, ?lookup_insert_ne in Hp by done; try congruence.
  exists k. rewrite lookup_insert_eq in Hp. by injection Hp as <-.
Qed.

(** ** The lock *)

(** Who holds the lock for reading: exactly the calls of the RPC that offer a push, and those
    about to return; and the writer that waits for it is in [Button]. *)
Record lock_ok (s : gsys) : Prop := {
  ok_new : from_new s;
  ok_reader : forall b i, (b, i) ∈ readers s ->
    exists bt p, gbuttons s !! b = Some bt /\ pushes bt !! i = Some p /\ pk p = KRpc /\ pc p = CCalling;
  ok_offer : forall b bt i p, gbuttons s !! b = Some bt -> pushes bt !! i = Some p -> pk p = KRpc -> ps p = Offer ->
    (b, i) ∈ readers s;
  ok_pending : forall w, pending s = Some w -> calling s w = true }.

(** One button makes a step that is not of the RPC. *)
Lemma lock_ok_button s b bt l bt' :
  lock_ok s -> gbuttons s !! b = Some bt -> exec bt l = Some bt' -> (forall i, l <> LPress i KRpc) ->
  (forall i, (b, i) ∈ readers s -> l <> LWait i) -> lock_ok (set_button b bt' s).
Proof.
  intros [Hn Hr Ho Hp] Hb E Hl Hw. pose proof (exec_step _ _ _ E) as Hs. split; cbn.
  - exact (from_new_step s b bt l bt' Hn Hb E).
  - intros b' i Hi. destruct (Hr _ _ Hi) as (bt0 & p & Hb' & Hpi & Hk & Hc). destruct (decide (b = b')) as [<-|Hne].
    + assert (bt0 = bt) as -> by congruence. destruct (step_forward _ _ _ _ _ Hs Hpi) as (p' & Hp' & Hk' & _ & Hc').
      exists bt', p'. rewrite lookup_insert_eq. split_and!; [done|done|congruence|]. apply Hc'; [done|by apply Hw].
    + exists bt0, p. by rewrite lookup_insert_ne.
  - intros b' bt0 i p Hb' Hpi Hk Hof. destruct (decide (b = b')) as [<-|Hne].
    + rewrite lookup_insert_eq in Hb'. injection Hb' as <-. destruct (step_backward _ _ _ _ _ Hs Hpi) as [[q Hq]|(k & -> & ->)].
      * destruct (step_forward _ _ _ _ _ Hs Hq) as (p' & Hp' & Hk' & Hof' & _). assert (p' = p) as -> by congruence.
        eapply Ho; [done..|congruence|by apply Hof'].
      * cbn in Hk. subst k. by destruct (Hl i).
    + rewrite lookup_insert_ne in Hb' by done. by eapply Ho.
  - exact Hp.
Qed.

(** A channel that is there, or a new one. *)
Lemma lock_ok_channel s b : lock_ok s -> lock_ok (set_button b (channel s b) s).
Proof.
  intros [Hn Hr Ho Hp]. unfold channel. destruct (gbuttons s !! b) as [bt|] eqn:Eb; cbn [default].
  - unfold set_button. rewrite insert_id by done. by destruct s.
  - split; cbn; [| |  |exact Hp].
    + intros b' bt Hbt. cbn in Hbt. apply lookup_insert_Some in Hbt as [[_ <-]|[_ H]]; [exists []; constructor|by eapply Hn].
    + intros b' i Hi. destruct (Hr _ _ Hi) as (bt & p & Hb & ?). exists bt, p. rewrite lookup_insert_ne by congruence. done.
    + intros b' bt i p [[_ <-]|[_ H]]%lookup_insert_Some; [done|by eapply Ho].
Qed.

Lemma lock_ok_handler s b h : lock_ok s -> (pending s = Some (WHandler b) -> in_Button h = true) -> lock_ok (set_handler b h s).
Proof.
  intros [Hn Hr Ho Hp] Hh. split; [exact Hn|exact Hr|exact Ho|]. cbn. intros [b'|b'] Hw; cbn; [by apply (Hp (WManager b'))|].
  rewrite lookup_insert. case_decide as Hbb; [subst; by apply Hh|]. by apply (Hp (WHandler b')).
Qed.

Lemma exec_press_fresh bt i k bt' : exec bt (LPress i k) = Some bt' -> pushes bt !! i = None.
Proof. unfold exec. by destruct (pushes bt !! i). Qed.

Lemma lock_ok_rpc s b bt i bt' : lock_ok s -> gbuttons s !! b = Some bt -> exec bt (LPress i KRpc) = Some bt' ->
  lock_ok (set_readers (readers s ∪ {[(b, i)]}) (set_button b bt' s)).
Proof.
  intros [Hn Hr Ho Hp] Hb E. pose proof (exec_step _ _ _ E) as Hs. split; cbn; [| | |exact Hp].
  - exact (from_new_step s b bt _ bt' Hn Hb E).
  - intros b' j [Hj|Hj]%elem_of_union.
    + destruct (Hr _ _ Hj) as (bt0 & p & Hb' & Hpj & Hk & Hc). destruct (decide (b = b')) as [<-|Hne].
      * assert (bt0 = bt) as -> by congruence. destruct (step_forward _ _ _ _ _ Hs Hpj) as (p' & Hp' & Hk' & _ & Hc').
        exists bt', p'. rewrite lookup_insert_eq. split_and!; [done|done|congruence|by apply Hc'].
      * exists bt0, p. by rewrite lookup_insert_ne.
    + apply elem_of_singleton in Hj as [= -> ->]. unfold exec in E. destruct (pushes bt !! i) eqn:Ei; [done|]. injection E as <-.
      eexists _, (mk_push KRpc Offer CCalling). rewrite lookup_insert_eq. split; [done|]. cbn. by rewrite lookup_insert_eq.
  - intros b' bt0 j p [[<- <-]|[_ Hb']]%lookup_insert_Some Hpj Hk Hof; apply elem_of_union.
    + destruct (step_backward _ _ _ _ _ Hs Hpj) as [[q Hq]|(k & [= <- <-] & _)]; [left|right; by apply elem_of_singleton].
      destruct (step_forward _ _ _ _ _ Hs Hq) as (p' & Hp' & Hk' & Hof' & _). assert (p' = p) as -> by congruence.
      eapply Ho; [done..|congruence|by apply Hof'].
    + left. by eapply Ho.
Qed.

Lemma fire_lock_ok s a s' : lock_ok s -> fire s a = Some s' -> lock_ok s'.
Proof.
  intros Hok Hf. pose proof Hok as [Hn Hr Ho Hp]. destruct a as [b|w|w i|b d i|b i|b l]; cbn [fire] in Hf.
  - unfold press_event in Hf. destruct (handlers s !! b) as [[c o]|] eqn:Eh; [|done]. cbn in Hf. simplify_option_eq.
    destruct o as [i|]; simplify_option_eq; apply lock_ok_handler; try done. by eapply lock_ok_button.
  - simplify_option_eq. split; [exact Hn|exact Hr|exact Ho|]. cbn. by intros w' [= <-].
  - unfold locked in Hf. destruct w as [b|b]; simplify_option_eq.
    + pose proof (lock_ok_channel s b Hok) as [Hn' Hr' Ho' _]. by split.
    + pose proof (lock_ok_channel s b Hok) as Hok'.
      match goal with E : exec (channel s b) _ = Some ?bt |- _ =>
        pose proof (lock_ok_button (set_button b (channel s b) s) b (channel s b) _ bt Hok' ltac:(apply lookup_insert_eq) E) as Hb end.
      destruct Hb as [Hn' Hr' Ho' _]; [intros j [= _ Hk]; unfold kind_of in Hk; by case_decide|done|].
      unfold from_new in Hn'. cbn in Hn', Hr', Ho'. rewrite insert_insert_eq in Hn', Hr', Ho'. by split.
  - simplify_option_eq. case_match; simplify_option_eq. by eapply lock_ok_rpc.
  - simplify_option_eq. split; [exact Hn| | |exact Hp]; cbn.
    + intros b' j [Hj _]%elem_of_difference. by apply Hr.
    + intros b' bt' j p Hb' Hpj Hk Hof. apply elem_of_difference. split; [by eapply Ho|].
      intros [= -> ->]%elem_of_singleton. congruence.
  - simplify_option_eq. eapply lock_ok_button; [done..| |].
    + by intros i ->.
    + intros i Hi ->. cbn in *. by case_bool_decide.
Qed.

Lemma runs_lock_ok l s s' : lock_ok s -> runs s l = Some s' -> lock_ok s'.
Proof.
  revert s. induction l as [|a l IH]; intros s Hok Hr; cbn in Hr; [by injection Hr as <-|].
  destruct (fire s a) as [s1|] eqn:E; [|done]. eapply IH; [by eapply fire_lock_ok|done].
Qed.

Lemma new_gpio_ok ms ps : lock_ok (new_gpio ms ps).
Proof. split; done. Qed.

(** ** No push is lost *)

Lemma runs_snoc s l a : runs s (l ++ [a]) = s1 ← runs s l; fire s1 a.
Proof.
  revert s. induction l as [|x l IH]; intros s; [cbn; by destruct (fire s a)|]. cbn. destruct (fire s x); [apply IH|done].
Qed.

Lemma set_button_keeps s b bt l bt' b0 bt0 i p : gbuttons s !! b = Some bt -> exec bt l = Some bt' ->
  gbuttons s !! b0 = Some bt0 -> pushes bt0 !! i = Some p ->
  exists bt1 p', <[b := bt']> (gbuttons s) !! b0 = Some bt1 /\ pushes bt1 !! i = Some p' /\ pk p' = pk p.
Proof.
  intros Hb E Hb0 Hp. destruct (decide (b = b0)) as [<-|Hne]; [|exists bt0, p; by rewrite lookup_insert_ne].
  assert (bt0 = bt) as -> by congruence. destruct (step_forward _ _ _ _ _ (exec_step _ _ _ E) Hp) as (p' & Hp' & Hk & _).
  exists bt', p'. by rewrite lookup_insert_eq.
Qed.

(** A push stays a push of its button: in particular [Button] does not replace a channel. *)
Lemma fire_keeps s a s' b0 bt0 i p : fire s a = Some s' -> gbuttons s !! b0 = Some bt0 -> pushes bt0 !! i = Some p ->
  exists bt1 p', gbuttons s' !! b0 = Some bt1 /\ pushes bt1 !! i = Some p' /\ pk p' = pk p.
Proof.
  intros Hf Hb0 Hp. assert (Hsame : exists bt1 p', gbuttons s !! b0 = Some bt1 /\ pushes bt1 !! i = Some p' /\ pk p' = pk p) by eauto.
  destruct a as [b|w|w j|b d j|b j|b l]; cbn [fire] in Hf.
  - unfold press_event in Hf. destruct (handlers s !! b) as [[c o]|]; [|done]. cbn in Hf. simplify_option_eq.
    destruct o; simplify_option_eq; [done|by eapply set_button_keeps|done].
  - by simplify_option_eq.
  - unfold locked in Hf. destruct w as [b|b]; simplify_option_eq.
    + destruct (decide (b = b0)) as [<-|Hne]; [|by rewrite lookup_insert_ne]. unfold channel. rewrite Hb0. cbn. rewrite lookup_insert_eq. eauto.
    + destruct (decide (b = b0)) as [<-|Hne]; [|by rewrite lookup_insert_ne]. unfold channel in *. rewrite Hb0 in *. by eapply set_button_keeps.
  - simplify_option_eq. case_match; simplify_option_eq. by eapply set_button_keeps.
  - by simplify_option_eq.
  - simplify_option_eq. by eapply set_button_keeps.
Qed.

(** What a step does to the readers. *)
Lemma fire_readers s a s' : fire s a = Some s' ->
  match a with
  | Rpc b _ i => readers s' = readers s ∪ {[(b, i)]} /\
      exists bt bt' p, gbuttons s !! b = Some bt /\ pushes bt !! i = None /\ gbuttons s' !! b = Some bt' /\ pushes bt' !! i = Some p /\ pk p = KRpc
  | RUnlock b i => readers s' = readers s ∖ {[(b, i)]} /\ (b, i) ∈ readers s
  | _ => readers s' = readers s
  end.
Proof.
  intros Hf. destruct a as [b|w|w j|b d j|b j|b l]; cbn [fire] in Hf.
  - unfold press_event in Hf. destruct (handlers s !! b) as [[c o]|]; [|done]. cbn in Hf. simplify_option_eq. by destruct o; simplify_option_eq.
  - by simplify_option_eq.
  - unfold locked in Hf. by destruct w as [b|b]; simplify_option_eq.
  - simplify_option_eq. case_match; simplify_option_eq. split; [done|].
    match goal with Hb : gbuttons s !! b = Some ?x, E : exec ?x _ = Some ?y |- _ =>
      exists x, y, (mk_push KRpc Offer CCalling); pose proof (exec_press_fresh _ _ _ _ E) as Hfr; unfold exec in E end.
    rewrite Hfr in *. simplify_eq. cbn. by rewrite !lookup_insert_eq.
  - by simplify_option_eq.
  - by simplify_option_eq.
Qed.

(** The calls of [PressButton] in a run: their pushes are there, and they hold the lock from their
    push until they return. *)
Definition calls_kept (l : list act) (s : gsys) : Prop :=
  (forall b d i, Rpc b d i ∈ l -> exists bt p, gbuttons s !! b = Some bt /\ pushes bt !! i = Some p /\ pk p = KRpc) /\
  (forall b i, RUnlock b i ∈ l -> exists d, Rpc b d i ∈ l) /\
  (forall b i, (b, i) ∈ readers s <-> (exists d, Rpc b d i ∈ l) /\ RUnlock b i ∉ l).

Lemma runs_calls_kept l : forall s0 s, readers s0 = ∅ -> runs s0 l = Some s -> calls_kept l s.
Proof.
  induction l as [|a l IH] using rev_ind; intros s0 s Hr0 Hr.
  { injection Hr as <-. unfold calls_kept. rewrite Hr0. setoid_rewrite elem_of_nil. set_solver. }
  rewrite runs_snoc in Hr. apply bind_Some in Hr as (s1 & Hr & Hf). destruct (IH s0 s1 Hr0 Hr) as (Hp & Hu & Hrd).
  pose proof (fire_readers _ _ _ Hf) as Ha. split_and!.
  - intros b d i [Hin|Hin%list_elem_of_singleton]%elem_of_app.
    + destruct (Hp _ _ _ Hin) as (bt & p & Hb & Hpi & Hk). destruct (fire_keeps _ _ _ _ _ _ _ Hf Hb Hpi) as (bt1 & p' & ? & ? & ?).
      exists bt1, p'. split_and!; [done..|congruence].
    + subst a. destruct Ha as (_ & bt & bt' & p & _ & _ & ? & ? & ?). eauto.
  - intros b i [Hin|Hin%list_elem_of_singleton]%elem_of_app.
    + destruct (Hu _ _ Hin) as [d Hd]. exists d. set_solver.
    + subst a. destruct Ha as [_ [[d Hd] _]%Hrd]. exists d. set_solver.
  - intros b i. assert (Hother : readers s = readers s1 -> (forall d, a <> Rpc b d i) -> a <> RUnlock b i ->
      ((b, i) ∈ readers s <-> (exists d, Rpc b d i ∈ l ++ [a]) /\ RUnlock b i ∉ l ++ [a])).
    { intros -> H1 H2. rewrite Hrd. setoid_rewrite elem_of_app. setoid_rewrite list_elem_of_singleton. naive_solver. }
    destruct a as [b'|w|w j|b' d j|b' j|b' lb]; try (by apply Hother).
    + destruct Ha as (Hrs & bt & bt' & p & Hb & Hfr & _). rewrite Hrs, elem_of_union, elem_of_singleton, Hrd.
      setoid_rewrite elem_of_app. setoid_rewrite list_elem_of_singleton.
      assert (Hno : forall d', Rpc b' d' j ∉ l) by (intros d' Hin; destruct (Hp _ _ _ Hin) as (? & ? & ? & ? & _); congruence).
      assert (Hnu : RUnlock b' j ∉ l) by (intros [d' Hd]%Hu; by eapply Hno).
      split; [intros [?|[= -> ->]]; naive_solver|]. intros [[d' [?|[= -> -> ->]]] Hn]; [left|by right]. naive_solver.
    + destruct Ha as (Hrs & Hin). rewrite Hrs, elem_of_difference, elem_of_singleton, Hrd.
      setoid_rewrite elem_of_app. setoid_rewrite list_elem_of_singleton. split; [naive_solver|].
      intros [[d [?|?]] Hn]; [|done]. split; [naive_solver|]. intros [= -> ->]. naive_solver.
Qed.

(** ** The system comes to rest *)

(** Steps of the goroutines, rather than of an operator or a client. *)
Definition internal_act (a : act) : Prop := match a with PressEvent _ | Rpc _ _ _ => False | _ => True end.

(** Every button with a channel or a handler has a manager in its loop, and no press was
    abandoned. *)
Definition healthy (s : gsys) : Prop :=
  (forall b, is_Some (gbuttons s !! b) \/ is_Some (handlers s !! b) -> b ∈ loops s) /\
  (forall b bt, gbuttons s !! b = Some bt -> none_abandoned bt).

Definition handler_work (h : handler) : nat := if in_Button h then 12 else 0.

(** The work that is left. *)
Definition work (s : gsys) : nat :=
  msum measure (gbuttons s) + size (readers s) + 2 * size (starting s) + msum handler_work (handlers s) +
  (match pending s with None => 1 | Some _ => 0 end).

Lemma measure_new : measure new_button = O.
Proof. done. Qed.

Lemma measure_press bt i k bt' : exec bt (LPress i k) = Some bt' -> measure bt' = (measure bt + 10)%nat.
Proof.
  unfold exec. destruct (pushes bt !! i) eqn:E; [done|]. intros [= <-]. unfold measure. cbn [pushes serving].
  rewrite map_fold_insert_L by (lia || done). cbn. lia.
Qed.

Lemma abandoned_press bt i k bt' : exec bt (LPress i k) = Some bt' -> none_abandoned bt -> none_abandoned bt'.
Proof.
  unfold exec. destruct (pushes bt !! i) eqn:E; [done|]. intros [= <-] Hn j p. cbn.
  intros [[_ <-]|[_ Hp]]%lookup_insert_Some; [done|by eapply Hn].
Qed.

Lemma may_internal s b l : may s b l = true -> internal l.
Proof. by destruct l. Qed.

Lemma none_abandoned_channel s b : healthy s -> none_abandoned (channel s b).
Proof. intros [_ Hn]. unfold channel. destruct (gbuttons s !! b) eqn:E; [by eapply Hn|]. by intros i p. Qed.

Lemma healthy_update s s' b bt : healthy s -> gbuttons s' = <[b := bt]> (gbuttons s) -> none_abandoned bt -> b ∈ loops s' ->
  loops s ⊆ loops s' -> (forall b', is_Some (handlers s' !! b') -> is_Some (handlers s !! b')) -> healthy s'.
Proof.
  intros [H1 H2] Eb Hbt Hin Hl Hh. unfold healthy. rewrite Eb. split.
  - intros b' [Hb'|Hb'].
    + destruct (decide (b = b')) as [<-|Hne]; [done|]. rewrite lookup_insert_ne in Hb' by done. apply Hl, H1. by left.
    + apply Hl, H1. right. by apply Hh.
  - intros b' bt' [[_ <-]|[_ Hb']]%lookup_insert_Some; [done|by eapply H2].
Qed.

Lemma fire_healthy s a s' : healthy s -> lock_ok s -> fire s a = Some s' -> internal_act a -> healthy s'.
Proof.
  intros Hh Hok Hf Hi. destruct a as [b|w|w i|b d i|b i|b l]; cbn [fire] in Hf; try done.
  - simplify_option_eq. exact Hh.
  - unfold locked in Hf. destruct w as [b|b]; simplify_option_eq.
    + eapply (healthy_update s _ b); [done|reflexivity|by apply none_abandoned_channel|cbn; set_solver|cbn; set_solver|done].
    + assert (Hb : is_Some (handlers s !! b)).
      { pose proof (ok_pending s Hok (WHandler b) ltac:(done)) as Hc. cbn in Hc. by destruct (handlers s !! b). }
      eapply (healthy_update s _ b); [done|reflexivity| | |done|].
      * eapply abandoned_press; [done|by apply none_abandoned_channel].
      * cbn. apply (proj1 Hh). by right.
      * cbn. intros b'. rewrite lookup_insert. by case_decide as Hbb; [rewrite <- Hbb|].
  - simplify_option_eq. exact Hh.
  - simplify_option_eq. eapply (healthy_update s _ b); [done|reflexivity| | |done|done].
    + eapply lookup_step_abandoned; [by apply exec_step|by eapply may_internal|]. by eapply (proj2 Hh).
    + cbn. apply (proj1 Hh). left. by eexists.
Qed.

Lemma locked_inv s w i s' : locked s w i = Some s' -> pending s = Some w /\ readers s = ∅.
Proof. unfold locked. by case_guard; case_guard. Qed.

Lemma fire_work s a s' : lock_ok s -> fire s a = Some s' -> internal_act a -> (work s' < work s)%nat.
Proof.
  intros Hok Hf Hi. destruct a as [b|w|w i|b d i|b i|b l]; cbn [fire] in Hf; try done; unfold work.
  - simplify_option_eq. lia.
  - destruct (locked_inv _ _ _ _ Hf) as [Epd _]. pose proof (ok_pending s Hok _ Epd) as Hc. rewrite Epd.
    unfold locked in Hf. destruct w as [b|b]; cbn in Hc.
    + apply bool_decide_eq_true_1 in Hc. simplify_option_eq. rewrite size_difference, size_singleton by set_solver.
      assert (size (starting s) <> 0)%nat by (intros ?%size_empty_inv; set_solver).
      unfold channel. destruct (gbuttons s !! b) eqn:Eb; cbn [default]; [rewrite insert_id by done|rewrite msum_new, measure_new by done]; lia.
    + destruct (handlers s !! b) as [h|] eqn:Eh; [|done].
      pose proof (msum_update handler_work (handlers s) b (mk_handler false (Some i)) h Eh) as Hm.
      unfold handler_work in Hm at 2 4. rewrite Hc in Hm. simplify_option_eq.
      match goal with E : exec (channel s b) _ = Some ?bt |- _ => pose proof (measure_press _ _ _ _ E) as Hp; set (bt' := bt) in * end.
      unfold channel in Hp. destruct (gbuttons s !! b) as [bt|] eqn:Eb; cbn [default] in Hp.
      * pose proof (msum_update measure (gbuttons s) b bt' bt Eb). cbn in *. lia.
      * rewrite measure_new in Hp. rewrite msum_new by done. cbn in *. lia.
  - simplify_option_eq. cbn. rewrite size_difference, size_singleton by set_solver.
    assert (size (readers s) <> 0)%nat by (intros ?%size_empty_inv; set_solver). lia.
  - simplify_option_eq. cbn. match goal with E : exec ?bt _ = Some ?bt', Eb : gbuttons s !! b = Some ?bt |- _ =>
      pose proof (msum_update measure (gbuttons s) b bt' bt Eb); pose proof (step_measure _ _ _ (exec_step _ _ _ E)) as Hm end.
    specialize (Hm ltac:(by eapply may_internal)). lia.
Qed.

(** At rest: the lock is free, no goroutine is in [Button], no push is under way on any button and every
    call of [PressButton] has returned. *)
Definition at_rest (s : gsys) : Prop :=
  readers s = ∅ /\ pending s = None /\ (forall w, calling s w = false) /\
  (forall b bt, gbuttons s !! b = Some bt -> quiet bt /\ (exists n, written bt = presses n) /\
     forall i p, pushes bt !! i = Some p -> pk p = KRpc -> pc p <> CCalling).

Section Stuck.
Context (s : gsys) (Hok : lock_ok s) (Hh : healthy s) (Hstuck : forall a, internal_act a -> fire s a = None).

Lemma stuck_quiet b bt : gbuttons s !! b = Some bt -> quiet bt.
Proof.
  intros Hb. destruct (ok_new s Hok b bt Hb) as [tr Hr].
  destruct (quiet_or_moves bt (reachable_inv _ _ Hr) (proj2 Hh _ _ Hb)) as [Hq|(l & bt' & Hl & Hw & Hs)]; [done|].
  assert (Hm : may s b l = true).
  { destruct l; try done; cbn; apply bool_decide_eq_true_2, (proj1 Hh); left; by eexists. }
  pose proof (Hstuck (Inner b l) I) as Hx. cbn [fire] in Hx. rewrite Hm, Hb in Hx. cbn in Hx.
  by rewrite (step_exec _ _ _ Hs) in Hx.
Qed.

Lemma stuck_readers : readers s = ∅.
Proof.
  destruct (set_choose_or_empty (readers s)) as [[[b i] Hi]|He]; [exfalso|by apply leibniz_equiv].
  destruct (ok_reader s Hok b i Hi) as (bt & p & Hb & Hp & _). destruct (stuck_quiet b bt Hb) as [_ Hq].
  pose proof (Hstuck (RUnlock b i) I) as Hx. cbn [fire] in Hx. rewrite Hb in Hx. cbn in Hx. rewrite Hp in Hx. cbn in Hx.
  assert (ps p <> Offer) by (by destruct (Hq i p Hp) as [-> | ->]). by case_guard; case_guard.
Qed.

Lemma stuck_pending : pending s = None.
Proof.
  destruct (pending s) as [w|] eqn:E; [exfalso|done].
  destruct w as [b|b].
  - pose proof (Hstuck (Locked (WManager b) 0) I) as Hx. cbn [fire] in Hx. unfold locked in Hx.
    rewrite E, stuck_readers in Hx. by case_guard; case_guard.
  - pose proof (Hstuck (Locked (WHandler b) (fresh (dom (pushes (channel s b))))) I) as Hx. cbn [fire] in Hx. unfold locked in Hx.
    assert (Hfr : pushes (channel s b) !! fresh (dom (pushes (channel s b))) = None) by (apply not_elem_of_dom, is_fresh).
    rewrite E, stuck_readers in Hx. unfold exec in Hx. rewrite Hfr in Hx. by case_guard; case_guard.
Qed.

Lemma stuck_at_rest : at_rest s.
Proof.
  split_and!; [apply stuck_readers|apply stuck_pending| |].
  - intros w. destruct (calling s w) eqn:Ec; [exfalso|done]. pose proof (Hstuck (Announce w) I) as Hx. cbn [fire] in Hx.
    rewrite stuck_pending, Ec in Hx. by case_guard; case_guard.
  - intros b bt Hb. pose proof (stuck_quiet b bt Hb) as Hq. destruct (ok_new s Hok b bt Hb) as [tr Hr]. split_and!; [done| |].
    + apply quiet_released; [by eapply reachable_inv|apply Hq].
    + intros i p Hp Hk Hc. pose proof (Hstuck (Inner b (LWait i)) I) as Hx. cbn [fire may] in Hx.
      rewrite stuck_readers, bool_decide_eq_true_2, Hb in Hx by set_solver. cbn in Hx.
      rewrite (step_exec bt (LWait i) (mk_button (serving bt) (set_pc i CWaiting bt) (written bt))) in Hx; [done|].
      econstructor; [done| |done|done]. destruct Hq as [_ Hq]. by destruct (Hq i p Hp) as [-> | ->].
Qed.
End Stuck.

Lemma runs_rest l s s' : lock_ok s -> healthy s -> Forall internal_act l -> runs s l = Some s' ->
  lock_ok s' /\ healthy s' /\ (length l + work s' <= work s)%nat.
Proof.
  revert s. induction l as [|a l IH]; intros s Hok Hh Hl Hr; cbn in Hr; [injection Hr as <-; split_and!; [done|done|cbn; lia]|].
  destruct (fire s a) as [s1|] eqn:E; [|done]. apply Forall_cons in Hl as [Ha Hl].
  pose proof (fire_work _ _ _ Hok E Ha). destruct (IH s1) as (? & ? & ?); [by eapply fire_lock_ok|by eapply fire_healthy|done|done|].
  split_and!; [done|done|cbn; lia].
Qed.

(** ** How it can hang *)

(** A call of the RPC that waits for a manager that will not come, while a writer waits for the lock. *)
Definition hung (w : writer) (b : Z) (i : nat) (s : gsys) : Prop :=
  pending s = Some w /\ (b, i) ∈ readers s /\ exists bt p, gbuttons s !! b = Some bt /\ pushes bt !! i = Some p /\ ps p = Offer /\
    (b ∉ loops s \/ exists j, wedged j bt).

(** An offer stands until it is taken. *)
Lemma step_offer b l b' i p : step b l b' -> pushes b !! i = Some p -> ps p = Offer -> l <> LAccept i -> pushes b' !! i = Some p.
Proof.
  intros Hs Hp Ho Hl. destruct Hs as [b j k Hn|b j q ? Hq Hqs|b j q Hq Hqs|b j q Hq Hqs|b j q ? Hq Hqs|b j q Hq Hqs|b j q ? Hq Hqs
    |b j q Hq Hqs|b j q ? Hq Hqs|b j q Hq Hqs ? Hc|b j q Hq Hqs Hc|b j q Hq Hqs Hc|b j q Hq Hk Hqs]; cbn [pushes].
  all: destruct (decide (j = i)) as [->|Hji]; try congruence.
  all: try (unfold set_pc; rewrite ?lookup_set_ps, ?decide_False, ?lookup_alter_ne, ?lookup_insert_ne by done; done).
Qed.

Lemma hung_button w b i b' bt l bt' s : hung w b i s -> gbuttons s !! b' = Some bt -> exec bt l = Some bt' ->
  (b' = b -> l = LAccept i -> b ∈ loops s) -> hung w b i (set_button b' bt' s).
Proof.
  intros (Hw & Hi & bt0 & p & Hb & Hp & Ho & Hcase) Hb' E Hacc. split; [done|]. split; [done|]. cbn.
  destruct (decide (b' = b)) as [->|Hne]; [|exists bt0, p; by rewrite lookup_insert_ne].
  assert (bt0 = bt) as -> by congruence. pose proof (exec_step _ _ _ E) as Hs.
  assert (Hl : l <> LAccept i).
  { intros ->. destruct Hcase as [Hn|(j & Hj & _)]; [by apply Hn, Hacc|]. inversion Hs; congruence. }
  exists bt', p. rewrite lookup_insert_eq. split_and!; [done|by eapply step_offer|done|].
  destruct Hcase as [Hn|(j & Hj)]; [by left|right]. exists j. by eapply step_wedged.
Qed.

Lemma fire_hung w b i s a s' : hung w b i s -> fire s a = Some s' -> hung w b i s'.
Proof.
  intros Hh Hf. pose proof Hh as (Hw & Hi & bt & p & Hb & Hp & Ho & Hcase).
  destruct a as [b'|w'|w' j|b' d j|b' j|b' l]; cbn [fire] in Hf.
  - unfold press_event in Hf. destruct (handlers s !! b') as [[c o]|]; [|done]. cbn in Hf. simplify_option_eq.
    destruct o as [j|]; simplify_option_eq; try exact Hh. by eapply (hung_button w b i b').
  - rewrite Hw in Hf. by case_guard.
  - apply locked_inv in Hf as [_ He]. set_solver.
  - rewrite Hw in Hf. by case_guard.
  - simplify_option_eq. split; [done|]. cbn. split; [|by eauto 10]. apply elem_of_difference. split; [done|].
    intros [= -> ->]%elem_of_singleton. congruence.
  - simplify_option_eq. eapply (hung_button w b i b'); [done..|]. intros -> ->. cbn in *. by case_bool_decide.
Qed.

Lemma runs_hung w b i l s s' : hung w b i s -> runs s l = Some s' -> hung w b i s'.
Proof.
  revert s. induction l as [|a l IH]; intros s Hh Hr; cbn in Hr; [by injection Hr as <-|].
  destruct (fire s a) as [s1|] eqn:E; [|done]. eapply IH; [by eapply fire_hung|done].
Qed.
End Step.

(** C6:  The presses of a board, whatever its goroutines do and in any order.  The push of every call of
    [PressButton] that got past the lock stays a push of its button: no call of [Button] replaces the channel it was made
    on.  The lock is held for reading by exactly the calls that have pushed and not returned; a
    call whose push was not taken yet is among them, cannot return, and keeps every call of [Button] out; and while a writer
    waits, which is in [Button], no call of [PressButton] gets in.  Each button serves one push at a
    time, and its line saw complete presses, with at most the one that is being served still open. *)
Theorem gpio_presses_kept (power : Z) (managers physical : gset Z) (l : list act) (s : gsys) :
  runs power (new_gpio managers physical) l = Some s ->
  (forall b d i, Rpc b d i ∈ l -> exists bt p, gbuttons s !! b = Some bt /\ pushes bt !! i = Some p /\ pk p = KRpc /\
     (ps p = Offer -> (b, i) ∈ readers s /\ fire power s (RUnlock b i) = None /\ forall w j, fire power s (Locked w j) = None)) /\
  (forall b i, (b, i) ∈ readers s <-> (exists d, Rpc b d i ∈ l) /\ RUnlock b i ∉ l) /\
  (forall w, pending s = Some w -> calling s w = true /\ forall b d i, fire power s (Rpc b d i) = None) /\
  (forall b bt, gbuttons s !! b = Some bt ->
     (forall i j p q, pushes bt !! i = Some p -> pushes bt !! j = Some q -> active (ps p) -> active (ps q) -> i = j) /\
     exists n, written bt = presses n ++
       match serving bt ≫= (fun i => pushes bt !! i) with
       | Some p => if decide (pressing (ps p)) then [true] else []
       | None => []
       end).
Proof.
  intros Hr. destruct (runs_lock_ok power _ _ _ (new_gpio_ok managers physical) Hr) as [Hn Hrd Ho Hp].
  destruct (runs_calls_kept power l (new_gpio managers physical) s eq_refl Hr) as (Hk & _ & Hx). split_and!; [|exact Hx| |].
  - intros b d i Hin. destruct (Hk _ _ _ Hin) as (bt & p & Hb & Hpi & Hkp). exists bt, p. split_and!; [done..|]. intros Hof.
    assert (Hrr : (b, i) ∈ readers s) by (by eapply Ho). split_and!; [done| |].
    + cbn [fire]. rewrite Hb. cbn. rewrite Hpi. cbn. by case_guard; case_guard.
    + intros w j. cbn [fire]. destruct (locked power s w j) eqn:E; [|done]. apply locked_inv in E as [_ E]. set_solver.
  - intros w Hw. split; [by apply Hp|]. intros b d i. cbn [fire]. rewrite Hw. by case_guard.
  - intros b bt Hb. destruct (Hn b bt Hb) as [tr Htr]. destruct (reachable_inv tr bt Htr) as [Ha _ [n Hl]]. split.
    + intros i j p q Hpi Hq Hpa Hqa. pose proof (Ha i p Hpi Hpa). pose proof (Ha j q Hq Hqa). congruence.
    + exists n. rewrite Hl. by destruct (serving bt).
Qed.

(** C17:  Once the managers of all buttons are in their loops and as long as no press of the power button
    is abandoned, the system comes to rest without new presses: after at most [work s] steps in any
    order no goroutine can move, and then the lock is free, every call of
    [PressButton] has returned, every line saw complete presses and is released. *)
Theorem gpio_comes_to_rest (power : Z) (managers physical : gset Z) (l l' : list act) (s s' : gsys) :
  runs power (new_gpio managers physical) l = Some s -> healthy s -> Forall internal_act l' -> runs power s l' = Some s' ->
  (length l' <= work s)%nat /\ ((forall a, internal_act a -> fire power s' a = None) -> at_rest s').
Proof.
  intros Hr Hh Hl Hr'. pose proof (runs_lock_ok power _ _ _ (new_gpio_ok managers physical) Hr) as Hok.
  destruct (runs_rest power l' s s' Hok Hh Hl Hr') as (Hok' & Hh' & Hw). split; [lia|]. by apply stuck_at_rest.
Qed.

(** C39:  One button can block all of them: when a call of [PressButton] waits on a button whose manager
    will not take its push, because the press before it was abandoned or because the
    manager has not reached its loop, and some goroutine then calls [Button], no
    call of [PressButton] gets past the lock any more, for any button, and no call of [Button] returns. *)
Theorem gpio_lock_hangs (power : Z) (l : list act) (s s' : gsys) (w : writer) (b : Z) (i : nat) :
  hung w b i s -> runs power s l = Some s' ->
  (forall b' durMs j, fire power s' (Rpc b' durMs j) = None) /\
  (forall w' j, fire power s' (Locked w' j) = None) /\ hung w b i s'.
Proof.
  intros Hh Hr. pose proof (runs_hung power _ _ _ _ _ _ Hh Hr) as Hh'. pose proof Hh' as (Hw & Hi & _). split_and!; [| |done].
  - intros b' d j. cbn [fire]. rewrite Hw. by case_guard.
  - intros w' j. cbn [fire]. destruct (locked power s' w' j) eqn:E; [|done]. apply locked_inv in E as [_ E]. set_solver.
Qed.

(** ** A board with a power button (1) and a reset button (2) *)

Module SimBoard.
Definition board : gsys := new_gpio {[1; 2]} {[1; 2]}.
Definition after (l : list act) : gsys := default board (runs 1 board l).

(** Both managers start. *)
Definition up : list act := [Announce (WManager 1); Locked (WManager 1) 0; Announce (WManager 2); Locked (WManager 2) 0].
(** A press over the network, and the reset button, which waits for the lock. *)
Definition busy : list act := up ++ [Rpc 1 200 0; PressEvent 2; Announce (WHandler 2)].
Definition finish : list act :=
  [Inner 1 (LAccept 0); RUnlock 1 0; Locked (WHandler 2) 0; Inner 1 (LWait 0); Inner 1 (LCommit 0); Inner 1 (LTrue 0);
   Inner 2 (LAccept 0); Inner 2 (LTrue 0); Inner 2 (LRelease 0); Inner 2 (LFalse 0); Inner 2 (LClose 0); Inner 2 (LEnd 0);
   Inner 1 (LRelease 0); Inner 1 (LFalse 0); Inner 1 (LClose 0); Inner 1 (LNotify 0); Inner 1 (LEnd 0)].
(** The power button is pressed twice without a release, pressed over the network, and
    then the reset button is pressed. *)
Definition wedge : list act :=
  up ++ [PressEvent 1; Announce (WHandler 1); Locked (WHandler 1) 0; Inner 1 (LAccept 0); Inner 1 (LTrue 0); PressEvent 1;
         Rpc 1 200 1; PressEvent 2; Announce (WHandler 2)].
(** The power button is pressed before its manager has reached its loop. *)
Definition early : list act :=
  [PressEvent 1; Announce (WHandler 1); Locked (WHandler 1) 0; Rpc 1 200 1; Announce (WManager 1)].

Lemma busy_healthy : healthy (after busy).
Proof.
  split.
  - intros b Hb. assert (Hd : b ∈ dom (gbuttons (after busy)) ∪ dom (handlers (after busy))).
    { rewrite elem_of_union, !elem_of_dom. exact Hb. }
    clear Hb. revert b Hd. apply (bool_decide_eq_true_1 (set_Forall (fun b => b ∈ loops (after busy)) _)). by vm_compute.
  - apply (bool_decide_eq_true_1 (map_Forall (fun _ bt => map_Forall (fun _ p => ps p <> Abandoned) (pushes bt)) (gbuttons (after busy)))).
    by vm_compute.
Qed.
End SimBoard.
Import SimBoard.

Lemma gpio_presses_kept_witness :
  ((1, O) ∈ readers (after busy) <-> (exists d, Rpc 1 d 0 ∈ busy) /\ RUnlock 1 0 ∉ busy) /\
  (forall b d i, fire 1 (after busy) (Rpc b d i) = None).
Proof.
  destruct (gpio_presses_kept 1 {[1; 2]} {[1; 2]} busy (after busy)) as (_ & Hx & Hp & _); [by vm_compute|].
  split; [apply Hx|]. by apply (Hp (WHandler 2)).
Defined.

Lemma gpio_comes_to_rest_witness :
  (length finish <= work (after busy))%nat /\
  ((forall a, internal_act a -> fire 1 (after (busy ++ finish)) a = None) -> at_rest (after (busy ++ finish))) /\
  readers (after (busy ++ finish)) = ∅.
Proof.
  destruct (gpio_comes_to_rest 1 {[1; 2]} {[1; 2]} busy finish (after busy) (after (busy ++ finish))) as [H1 H2];
    [by vm_compute|apply busy_healthy|by repeat constructor|by vm_compute|]. split_and!; [exact H1|exact H2|by vm_compute].
Defined.

Lemma gpio_lock_hangs_witness :
  (forall b' durMs j, fire 1 (after wedge) (Rpc b' durMs j) = None) /\
  (forall b' durMs j, fire 1 (after early) (Rpc b' durMs j) = None).
Proof.
  split.
  - apply (gpio_lock_hangs 1 [] (after wedge) (after wedge) (WHandler 2) 1 1); [|done].
    split; [done|]. split; [by vm_compute|]. eexists _, _. split_and!; [by vm_compute..|]. right. exists O. split; [by vm_compute|].
    eexists. split; by vm_compute.
  - apply (gpio_lock_hangs 1 [] (after early) (after early) (WManager 1) 1 1); [|done].
    split; [done|]. split; [by vm_compute|]. eexists _, _. split_and!; [by vm_compute..|]. left. by vm_compute.
Defined.
