(* ===== verification/Quanta.v ===== *)
(** * The Quanta F06 Leopard board (platform/quanta-f06-leopard-ddr3)

    Its line names (pkg/gpio), what [InitializeGpio] asks of the GPIO system, the
    handlers of the physical buttons, the register programming of
    [InitializeSystem] and the tables of its fans and sensors (pkg/platform). *)

From S2P Require Import Prelude GoMonad Mem Scu GpioReg Gpio Buttons.
#[local] Open Scope string_scope.
#[local] Open Scope list_scope.
#[local] Open Scope Z_scope.

(** ** Line names (pkg/gpio/platform.go) *)

(** The pins of [linePortMap], as written. *)
Definition linePins : list (string * string) :=
  [ ("UNKN_BOOT1", "A2"); ("UNKN_PWR_CAP", "A3"); ("FAST_PROCHOT", "B3");
    ("CPU0_THERMTRIP_N", "B5"); ("CPU1_THERMTRIP_N", "B6"); ("MEMAB_MEMHOT_N", "C2");
    ("MEMCD_MEMHOT_N", "C3"); ("MEMEF_MEMHOT_N", "C6"); ("MEMGH_MEMHOT_N", "C7");
    ("NMI_BTN_N", "D0"); ("BMC_NMI_N", "D1"); ("PWR_BTN_N", "D2");
    ("BMC_PWR_BTN_OUT_N", "D3"); ("RST_BTN_N", "D4"); ("BMC_RST_BTN_OUT_N", "D5");
    ("PCH_PWR_OK", "E1"); ("SYS_PWR_OK", "E2"); ("UNKN_E4", "E4"); ("BMC_SMI_INT_N", "E5");
    ("PCH_BMC_THERMTRIP_N", "F0"); ("CPU_CATERR_N", "F1"); ("SLP_S3_N", "G2");
    ("UNKN_BOOT0", "G3"); ("BAT_SENSE_EN_N", "G4"); ("BIOS_SEL", "N4"); ("SPI_SEL", "N5");
    ("UART_SELECT0", "N6"); ("UART_SELECT1", "N7"); ("SKU0", "P0"); ("SKU1", "P1");
    ("SKU2", "P2"); ("SKU3", "P3"); ("CPU0_PROCHOT_N", "P6"); ("CPU1_PROCHOT_N", "P7");
    ("UNKN_Q4", "Q4"); ("PWR_LED_N", "Q5"); ("CPU0_FIVR_FAULT_N", "Q6");
    ("CPU1_FIVR_FAULT_N", "Q7"); ("MB_SLOT_ID", "R1"); ("SYS_THROTTLE", "R4") ].

(** The initialisation of the package: [None] if a pin name does not parse. *)
Fixpoint lines_of (pins : list (string * string)) : option (list (string * Z)) :=
  match pins with
  | [] => Some []
  | (l, n) :: pins =>
      match GpioPort n with
      | Ret port => rest ← lines_of pins; Some ((l, port) :: rest)
      | _ => None
      end
  end.

Definition linePortMap : gmap string Z := list_to_map (default [] (lines_of linePins)).

(** [init]: the reverse map, built by iterating over [linePortMap]. *)
Definition portLineMap : gmap Z string :=
  list_to_map ((fun kv => (kv.2, kv.1)) <$> map_to_list linePortMap).

(** [Gpio]: the board's names as a [GpioPlatform]. *)
Inductive Gpio : Type := mk_Gpio.

#[export] Instance quanta_gpio : GpioPlatform Gpio := {
  GpioNameToPort _ l := linePortMap !! l;
  GpioPortToName _ i := portLineMap !! i;
}.

(** ** [InitializeGpio] *)

Inductive handler : Type := HLog | HPowerButton | HResetButton.

(** The argument of [g.Monitor]. *)
Definition monitored : list (string * handler) :=
  [ ("CPU0_FIVR_FAULT_N", HLog); ("CPU0_PROCHOT_N", HLog); ("CPU0_THERMTRIP_N", HLog);
    ("CPU1_FIVR_FAULT_N", HLog); ("CPU1_PROCHOT_N", HLog); ("CPU1_THERMTRIP_N", HLog);
    ("CPU_CATERR_N", HLog); ("MB_SLOT_ID", HLog); ("MEMAB_MEMHOT_N", HLog);
    ("MEMCD_MEMHOT_N", HLog); ("MEMEF_MEMHOT_N", HLog); ("MEMGH_MEMHOT_N", HLog);
    ("NMI_BTN_N", HLog); ("PCH_BMC_THERMTRIP_N", HLog); ("PCH_PWR_OK", HLog);
    ("PWR_BTN_N", HPowerButton); ("RST_BTN_N", HResetButton); ("SKU0", HLog); ("SKU1", HLog);
    ("SKU2", HLog); ("SKU3", HLog); ("SLP_S3_N", HLog); ("SPI_SEL", HLog);
    ("SYS_PWR_OK", HLog); ("SYS_THROTTLE", HLog); ("UART_SELECT0", HLog);
    ("UART_SELECT1", HLog); ("UNKN_BOOT0", HLog); ("UNKN_BOOT1", HLog) ].

(** The argument of [g.Hog]. *)
Definition hogged : list (string * bool) :=
  [ ("BMC_NMI_N", true); ("BMC_SMI_INT_N", true); ("UNKN_E4", true); ("UNKN_PWR_CAP", true);
    ("BAT_SENSE_EN_N", false); ("BIOS_SEL", false); ("FAST_PROCHOT", false);
    ("PWR_LED_N", false); ("UNKN_Q4", false) ].

Definition BUTTON_POWER : Z := 1.
Definition BUTTON_RESET : Z := 2.

(** The calls of [g.ManageButton]. *)
Definition managed : list (string * Z * Z) :=
  [ ("BMC_PWR_BTN_OUT_N", BUTTON_POWER, GPIO_INVERTED);
    ("BMC_RST_BTN_OUT_N", BUTTON_RESET, GPIO_INVERTED) ].

(** What [InitializeGpio] asks of the GPIO system, in order. *)
Inductive gpio_call : Type :=
| CMonitor (ls : list (string * handler))
| CHog (ls : list (string * bool))
| CManageButton (line : string) (b flags : Z).

Definition InitializeGpio : list gpio_call :=
  [CMonitor monitored; CHog hogged] ++ ((fun '(l, bt, fl) => CManageButton l bt fl) <$> managed).

(** ** The handlers of the physical buttons *)

(** What a handler does with its button's channel and its push. *)
Inductive action : Type := AOffer (button : Z) | ASend (v : bool) | ASleep (ms : Z) | AClose.

(** [PowerButtonHandler], with whether [pushc] is non-nil, on the values of the line. *)
Fixpoint PowerButtonHandler (pushc : bool) (c : list bool) : list action :=
  match c with
  | [] => []
  | state :: c =>
      let pressed := negb state in
      if pressed then [AOffer BUTTON_POWER; ASend true] ++ PowerButtonHandler true c
      else if pushc then [ASend false; AClose] ++ PowerButtonHandler false c
      else PowerButtonHandler pushc c
  end.

Fixpoint ResetButtonHandler (c : list bool) : list action :=
  match c with
  | [] => []
  | state :: c =>
      let pressed := negb state in
      if pressed then
        [AOffer BUTTON_RESET; ASend true; ASleep 100; ASend false; AClose] ++ ResetButtonHandler c
      else ResetButtonHandler c
  end.

(** ** [InitializeSystem] and the board's tables *)

Section System.
Context {S : Type} `{memProvider S}.

Definition InitializeSystem : M S unit :=
  _ ← MustWrite32 (0x1E789000 + 0x9c) (Z.lor (Z.shiftl 0x6 22) (Z.shiftl 0x4 19));
  _ ← MustWrite32 (SCU_BASE + 0x0) SCU_PASSWORD;
  csr ← MustRead32 (SCU_BASE + 0x0c);
  _ ← MustWrite32 (SCU_BASE + 0x0c) (Z.land csr (unot 32 (Z.shiftl 1 16)));
  mfr ← MustRead32 (SCU_BASE + 0x84);
  _ ← MustWrite32 (SCU_BASE + 0x84) (Z.lor mfr 0xffff0000);
  hws ← MustRead32 (SCU_BASE + 0x70);
  _ ← MustWrite32 (SCU_BASE + 0x70) (Z.land hws (unot 32 (Z.shiftl 3 21)));
  _ ← MustWrite32 (SCU_BASE + 0x8c) 0;
  MustWrite32 (SCU_BASE + 0x0) 0x0.
End System.

Definition PwmMap : gmap Z string :=
  list_to_map [(0, "/sys/class/hwmon/hwmon0/pwm1"); (1, "/sys/class/hwmon/hwmon0/pwm2")].

Definition FanMap : gmap Z string :=
  list_to_map [(0, "/sys/class/hwmon/hwmon0/fan1_input"); (1, "/sys/class/hwmon/hwmon0/fan3_input")].

Definition ThermometerMap : gmap Z string :=
  list_to_map [(0, "/sys/class/hwmon/hwmon1/temp1_input"); (1, "/sys/class/hwmon/hwmon2/temp1_input")].

Definition HostUart : string * Z := ("/dev/ttyS2", 57600).

(** ** The line names *)

Lemma list_to_map_swap {K V} `{Countable K, Countable V} (m : gmap K V) k v :
  NoDup (map_to_list m).*2 ->
  (list_to_map ((fun kv => (kv.2, kv.1)) <$> map_to_list m) : gmap V K) !! v = Some k <->
  m !! k = Some v.
Proof.
  intros Hnd. rewrite <- elem_of_list_to_map.
  - rewrite list_elem_of_fmap, <- elem_of_map_to_list. split.
    + intros ([k' v'] & [= <- <-] & He). done.
    + intros He. by exists (k, v).
  - rewrite <- list_fmap_compose. by rewrite (list_fmap_ext _ snd).
Qed.

(** The names of the Quanta board and its ports are in bijection: every pin
    name of the table parses, no two lines share a port, and [GpioPortToName]
    inverts [GpioNameToPort]. *)
Theorem quanta_lines_bijective :
  (forall l n, (l, n) ∈ linePins -> exists port,
     GpioPort n = Ret port /\ GpioNameToPort mk_Gpio l = Some port /\
     GpioReg.GpioPortToName 32 port = n) /\
  (forall l port, GpioPortToName mk_Gpio port = Some l <-> GpioNameToPort mk_Gpio l = Some port) /\
  size linePortMap = length linePins.
Proof.
  split_and!.
  - intros l n Hin.
    assert (Hall : Forall (fun ln => match GpioPort ln.2 with
              | Ret port => bool_decide (linePortMap !! ln.1 = Some port) &&
                            bool_decide (GpioReg.GpioPortToName 32 port = ln.2)
              | _ => false end = true) linePins)
      by (apply (bool_decide_eq_true_1 _); by vm_compute).
    rewrite Forall_forall in Hall. specialize (Hall (l, n) Hin). cbn [fst snd] in Hall.
    destruct (GpioPort n) as [port| | |]; [|done..]. apply andb_true_iff in Hall as [H1 H2].
    exists port. split_and!; [done|by apply bool_decide_eq_true_1 in H1|by apply bool_decide_eq_true_1 in H2].
  - intros l port. apply list_to_map_swap. apply (bool_decide_eq_true_1 _). by vm_compute.
  - by vm_compute.
Qed.

(** ** [InitializeGpio] *)

(** The ports of a list of lines. *)
Definition ports (ls : list string) : option (list Z) := mapM (GpioNameToPort mk_Gpio) ls.

Definition monitored_lines : list string := monitored.*1.
Definition driven_lines : list string := hogged.*1 ++ managed.*1.*1.

(** What [InitializeGpio] asks for can be granted: every line it names
    exists, the ports it drives (hogged lines and button outputs) and the ports it
    watches are pairwise different and together are all the named lines, and the
    hog is one request of at most 64 lines. *)
Theorem quanta_InitializeGpio_consistent :
  exists ps, ports (monitored_lines ++ driven_lines) = Some ps /\ NoDup ps /\
    (forall l port, GpioNameToPort mk_Gpio l = Some port -> l ∈ monitored_lines ++ driven_lines) /\
    exists r, Hog mk_Gpio hogged = Some (Some r) /\
      lines r = 9 /\ flags r = GPIOHANDLE_REQUEST_OUTPUT /\
      Forall (fun '(l, b, fl) => exists port, GpioNameToPort mk_Gpio l = Some port /\
                is_Some (button_request mk_Gpio l) /\
                port ∉ take 9 (lineoffsets r)) managed.
Proof.
  assert (Hsome : exists ps, ports (monitored_lines ++ driven_lines) = Some ps)
    by (eexists; vm_compute; reflexivity).
  destruct Hsome as [ps Hps]. exists ps. split; [done|]. split_and!.
  - assert (Hd : option_map (fun ps => bool_decide (NoDup ps)) (ports (monitored_lines ++ driven_lines)) = Some true)
      by (by vm_compute).
    rewrite Hps in Hd. simpl in Hd. injection Hd as Hd. by apply bool_decide_eq_true_1 in Hd.
  - intros l port Hl. change (GpioNameToPort mk_Gpio l) with (linePortMap !! l) in Hl.
    assert (Hall : map_Forall (fun l _ => l ∈ monitored_lines ++ driven_lines) linePortMap)
      by (apply (bool_decide_eq_true_1 _); by vm_compute).
    by apply (Hall l port).
  - eexists. split; [vm_compute; reflexivity|]. split_and!; [done..|].
    apply Forall_cons; split; [|apply Forall_cons; split; [|by apply Forall_nil]];
      (eexists; split; [vm_compute; reflexivity|split; [eexists; vm_compute; reflexivity|
        apply (bool_decide_eq_true_1 _); by vm_compute]]).
Qed.

(** ** The button handlers *)

(** The values a handler sends on its pushes. *)
Definition sends (l : list action) : list bool :=
  omap (fun a => match a with ASend v => Some v | _ => None end) l.

(** Every channel that was offered has been sent true, then false, and closed. *)
Fixpoint complete (l : list action) : bool :=
  match l with
  | [] => true
  | AOffer _ :: ASend true :: ASend false :: AClose :: l => complete l
  | AOffer _ :: ASend true :: ASleep _ :: ASend false :: AClose :: l => complete l
  | _ => false
  end.

(** The line's values, from a released line, when presses and releases
    alternate; [k] complete presses. *)
Fixpoint alternating (k : nat) : list bool :=
  match k with O => [] | S k => [false; true] ++ alternating k end.

Lemma power_alternating k c :
  PowerButtonHandler false (alternating k ++ c) =
  concat (replicate k [AOffer BUTTON_POWER; ASend true; ASend false; AClose]) ++ PowerButtonHandler false c.
Proof. induction k as [|k IH]; [done|]. simpl. by rewrite IH. Qed.

(** The physical buttons.  For [k] presses of the power button the handler
    makes [k] complete pushes that mirror them; during a press its push is open; a
    release before the first press does nothing.  Every falling edge of the reset
    line makes one complete 100 ms push, releases make none. *)
Theorem physical_buttons_push k c :
  sends (PowerButtonHandler false (alternating k)) = presses k /\
  complete (PowerButtonHandler false (alternating k)) = true /\
  sends (PowerButtonHandler false (alternating k ++ [false])) = presses k ++ [true] /\
  PowerButtonHandler false (true :: c) = PowerButtonHandler false c /\
  sends (ResetButtonHandler c) = presses (length (filter (fun v => v = false) c)) /\
  complete (ResetButtonHandler c) = true.
Proof.
  assert (Hsends : forall l l', sends (l ++ l') = sends l ++ sends l') by (intros; apply omap_app).
  assert (Hconc : sends (concat (replicate k [AOffer BUTTON_POWER; ASend true; ASend false; AClose])) = presses k).
  { clear. induction k as [|k IH]; [done|]. simpl. by f_equal; f_equal. }
  split_and!.
  - by rewrite <- (app_nil_r (alternating k)), power_alternating, Hsends, Hconc, app_nil_r.
  - rewrite <- (app_nil_r (alternating k)), power_alternating, app_nil_r.
    clear. induction k as [|k IH]; [done|]. exact IH.
  - by rewrite power_alternating, Hsends, Hconc.
  - done.
  - clear. induction c as [|[] c IH]; [done| |]; simpl; [done|]. by rewrite IH.
  - clear. induction c as [|[] c IH]; [done| |]; simpl; done.
Qed.

(** ** [InitializeSystem] *)

Lemma clear_range v mask : is_uint 32 v -> is_uint 32 mask -> is_uint 32 (Z.land v (unot 32 mask)).
Proof.
  intros Hv Hm. pose proof (strap_update_range mask 0 v Hv Hm ltac:(hw_side)) as R.
  unfold strap_update in R. by rewrite Z.lor_0_r in R.
Qed.

Lemma clear_testbit v mask i :
  0 <= i < 32 -> Z.testbit (Z.land v (unot 32 mask)) i = Z.testbit v i && negb (Z.testbit mask i).
Proof.
  intros Hi. pose proof (strap_update_testbit mask 0 v i Hi) as R. unfold strap_update in R.
  by rewrite Z.lor_0_r, Z.bits_0 in R.
Qed.

(** [InitializeSystem] routes the UARTs, re-enables the clock of UART2,
    selects the UART pins, turns off GPIO pass-through, keeps every other bit of
    those registers and every other register, and leaves the SCU write
    protected. *)
Theorem quanta_InitializeSystem_correct {S} `{ScuHardware S} (s : S) :
  wp InitializeSystem (fun _ s' =>
    unlocked s' = false /\
    reg s' (0x1E789000 + 0x9c) = 0x1a00000 /\
    (forall i, 0 <= i < 32 ->
       Z.testbit (reg s' (SCU_BASE + 0x0c)) i = Z.testbit (reg s (SCU_BASE + 0x0c)) i && negb (bool_decide (i = 16)) /\
       Z.testbit (reg s' (SCU_BASE + 0x84)) i = Z.testbit (reg s (SCU_BASE + 0x84)) i || bool_decide (16 <= i) /\
       Z.testbit (reg s' (SCU_BASE + 0x70)) i =
         Z.testbit (reg s (SCU_BASE + 0x70)) i && negb (bool_decide (i = 21 \/ i = 22))) /\
    reg s' (SCU_BASE + 0x8c) = 0 /\
    only_changes [0x1E789000 + 0x9c; SCU_BASE + 0x0c; SCU_BASE + 0x84; SCU_BASE + 0x70; SCU_BASE + 0x8c] s s') s.
Proof.
  unfold InitializeSystem. apply wp_bind, wp_hw_plain; [hw_side|hw_side|]. intros s1 Hu1 Hr1.
  apply wp_bind, wp_hw_key. intros s2 Hu2 Hr2. rewrite bool_decide_eq_true_2 in Hu2 by done.
  apply wp_bind, wp_hw_read; [hw_side|].
  apply wp_bind, wp_hw_scu; [hw_side|apply clear_range; [apply reg_range|hw_side]|done|]. intros s3 Hu3 Hr3.
  apply wp_bind, wp_hw_read; [hw_side|].
  apply wp_bind, wp_hw_scu; [hw_side|apply is_uint_lor; [lia|apply reg_range|hw_side]|done|]. intros s4 Hu4 Hr4.
  apply wp_bind, wp_hw_read; [hw_side|].
  apply wp_bind, wp_hw_scu; [hw_side|apply clear_range; [apply reg_range|hw_side]|done|]. intros s5 Hu5 Hr5.
  apply wp_bind, wp_hw_scu; [hw_side|hw_side|done|]. intros s6 Hu6 Hr6.
  apply wp_hw_key. intros s7 Hu7 Hr7.
  assert (Hb : forall b, b <> SCU_BASE -> reg s7 b =
    if decide (b = SCU_BASE + 0x8c) then 0
    else if decide (b = SCU_BASE + 0x70) then Z.land (reg s b) (unot 32 (Z.shiftl 3 21))
    else if decide (b = SCU_BASE + 0x84) then Z.lor (reg s b) 0xffff0000
    else if decide (b = SCU_BASE + 0x0c) then Z.land (reg s b) (unot 32 (Z.shiftl 1 16))
    else if decide (b = 0x1E789000 + 0x9c) then 0x1a00000 else reg s b).
  { intros b Hne. rewrite Hr7 by done. rewrite !Hr6, !Hr5, !Hr4, !Hr3, !Hr2 by (done || hw_side).
    rewrite !Hr1. repeat case_decide; subst; try done; exfalso; unfold SCU_BASE in *; lia. }
  split_and!; [by rewrite Hu7|by rewrite Hb by hw_side| |by rewrite Hb by hw_side|].
  - intros i Hi. rewrite !Hb by hw_side. cbn [decide]. split_and!.
    + change (Z.testbit (Z.land (reg s (SCU_BASE + 0x0c)) (unot 32 (Z.shiftl 1 16))) i = 
        Z.testbit (reg s (SCU_BASE + 0x0c)) i && negb (bool_decide (i = 16))).
      rewrite clear_testbit by done. do 2 f_equal. revert i Hi. apply (forall_range _ 0 32). by vm_compute.
    + change (Z.testbit (Z.lor (reg s (SCU_BASE + 0x84)) 0xffff0000) i = 
        Z.testbit (reg s (SCU_BASE + 0x84)) i || bool_decide (16 <= i)).
      rewrite Z.lor_spec. f_equal. revert i Hi. apply (forall_range _ 0 32). by vm_compute.
    + change (Z.testbit (Z.land (reg s (SCU_BASE + 0x70)) (unot 32 (Z.shiftl 3 21))) i = 
        Z.testbit (reg s (SCU_BASE + 0x70)) i && negb (bool_decide (i = 21 \/ i = 22))).
      rewrite clear_testbit by done. do 2 f_equal. revert i Hi. apply (forall_range _ 0 32). by vm_compute.
  - intros a Ha Hn. rewrite !not_elem_of_cons in Hn. destruct_and! Hn.
    by rewrite Hb, !decide_False by done.
Qed.

Import SimSoc.

Lemma quanta_InitializeSystem_correct_witness :
  wp InitializeSystem (fun _ s' => unlocked s' = false /\ reg s' (SCU_BASE + 0x8c) = 0) SimSoc.ast2400.
Proof.
  eapply wp_mono; [apply (quanta_InitializeSystem_correct SimSoc.ast2400)|].
  intros [] s' (Hu & _ & _ & Hz & _). split; [exact Hu|exact Hz].
Defined.

(** [Hog] on this board's lines. *)
Lemma Hog_correct_witness :
  exists r, Hog mk_Gpio (rev hogged) = Some (Some r) /\ lines r = 9.
Proof.
  destruct (resolve mk_Gpio hogged) as [pairs|] eqn:E; [|vm_compute in E; discriminate].
  destruct (Hog_correct mk_Gpio hogged (rev hogged) pairs) as (r & Hr & _ & Hl & _).
  - vm_compute. lia.
  - exact E.
  - symmetry. apply Permutation_rev.
  - exists r. split; [exact Hr|exact Hl].
Defined.
