(* ===== verification/BoardGpio.v ===== *)
(** * Starting the GPIO system of the Quanta board (startGpio, Monitor and NewGpioSystem of pkg/bmc/gpio.go)

    [startGpio] opens the GPIO device, creates the system and lets the platform's [InitializeGpio] start its goroutines.
    Which of them get past their first requests depends on the kernel; the buttons of [GpioSystem] start from there. *)

From S2P Require Import Prelude GoMonad Gpio Buttons Quanta GpioSystem.
#[local] Open Scope string_scope.
#[local] Open Scope list_scope.
#[local] Open Scope Z_scope.

(** What the kernel grants: events of a port with their value, and a line handle. *)
Record chip : Type := mk_chip { chip_open : result unit; event_ok : Z -> bool; handle_ok : Z -> bool }.

Section Start.
Context (c : chip).

(** The goroutine of one monitored line: its callback runs when the name is known and the event is granted. *)
Definition monitor_started (line : string) : bool :=
  match GpioNameToPort mk_Gpio line with Some port => event_ok c port | None => false end.

(** The button whose handler is a callback. *)
Definition handler_button (h : Quanta.handler) : option Z :=
  match h with HLog => None | HPowerButton => Some BUTTON_POWER | HResetButton => Some BUTTON_RESET end.

(** [Monitor(lines)]: one goroutine per line; those of the physical buttons run their handlers. *)
Definition Monitor (lines : list (string * Quanta.handler)) : gset Z :=
  list_to_set (omap (fun '(l, h) => if monitor_started l then handler_button h else None) lines).

(** [ManageButton] up to its call of [Button]. *)
Definition manager_started (line : string) : bool :=
  match GpioNameToPort mk_Gpio line with Some port => handle_ok c port | None => false end.

(** The goroutines that the calls of the platform start: managers and handlers of buttons. *)
Definition started (calls : list gpio_call) : gset Z * gset Z :=
  foldl (fun '(ms, ps) call =>
    match call with
    | CMonitor ls => (ms, ps ∪ Monitor ls)
    | CHog _ => (ms, ps)
    | CManageButton line b _ => (if manager_started line then ms ∪ {[b]} else ms, ps)
    end) (∅, ∅) calls.

(** [startGpio]; the platform's [InitializeGpio] does not fail. *)
Definition startGpio : result gsys :=
  match chip_open c with
  | Err e => Err e
  | Ok _ => let '(ms, ps) := started InitializeGpio in Ok (new_gpio ms ps)
  end.
End Start.

(** The lines of the two buttons. *)
Definition button_lines : list string := ["PWR_BTN_N"; "RST_BTN_N"].

(** Only the lines of buttons count. *)
Lemma Monitor_buttons c lines : Monitor c lines = Monitor c (filter (fun x => handler_button x.2 <> None) lines).
Proof.
  unfold Monitor. f_equal. induction lines as [|[l h] lines IH]; [done|]. rewrite filter_cons. cbn [snd].
  destruct h; cbn [handler_button]; [rewrite decide_False by tauto|rewrite decide_True by done|rewrite decide_True by done];
    cbn [omap list_omap]; unfold omap in IH |- *; rewrite IH; [by destruct (monitor_started c l)|done|done].
Qed.

Lemma started_all c :
  (forall l, l ∈ managed.*1.*1 -> manager_started c l = true) -> (forall l, l ∈ button_lines -> monitor_started c l = true) ->
  started c InitializeGpio = ({[BUTTON_POWER; BUTTON_RESET]}, {[BUTTON_POWER; BUTTON_RESET]}).
Proof.
  intros Hm Hb. unfold started, InitializeGpio, managed. cbn [app fmap list_fmap foldl].
  rewrite !Hm by (cbn; set_solver). apply (f_equal2 pair); [set_solver|].
  rewrite Monitor_buttons.
  assert (filter (fun x => handler_button x.2 <> None) monitored = [("PWR_BTN_N", HPowerButton); ("RST_BTN_N", HResetButton)]) as ->
    by (vm_compute; reflexivity).
  unfold Monitor. cbn [omap list_omap].
  rewrite (Hb "PWR_BTN_N"), (Hb "RST_BTN_N") by (unfold button_lines; set_solver). cbn [handler_button list_to_set]. set_solver.
Qed.

(** The board's buttons: when the kernel grants the lines, both managers and both handlers run; and from then on,
    once the managers are in their loops and no press of the power button is abandoned, the presses there are, physical or
    over the network, finish within [work] steps and leave the lock free and the lines released. *)
Theorem quanta_buttons_rest (c : chip) (s0 s s' : gsys) (l l' : list act) :
  (forall line, line ∈ managed.*1.*1 -> manager_started c line = true) ->
  (forall line, line ∈ button_lines -> monitor_started c line = true) ->
  startGpio c = Ok s0 -> runs BUTTON_POWER s0 l = Some s -> healthy s ->
  Forall internal_act l' -> runs BUTTON_POWER s l' = Some s' ->
  starting s0 = {[BUTTON_POWER; BUTTON_RESET]} /\ dom (handlers s0) = {[BUTTON_POWER; BUTTON_RESET]} /\
  (length l' <= work s)%nat /\ ((forall a, internal_act a -> fire BUTTON_POWER s' a = None) -> at_rest s').
Proof.
  intros Hm Hb. unfold startGpio. destruct (chip_open c) as [|[]]; [done|]. rewrite started_all by done. intros [= <-] Hr Hh Hi Hr'.
  pose proof (runs_lock_ok _ _ _ _ (new_gpio_ok _ _) Hr) as Hok. destruct (runs_rest _ l' s s' Hok Hh Hi Hr') as (Hok' & Hh' & Hw).
  split; [done|]. split; [cbn; by rewrite dom_gset_to_gmap|]. split; [lia|]. by apply stuck_at_rest.
Qed.
