(* ===== verification/Drivers.v ===== *)
(** * The drivers on any memory provider

    The drivers of [Scu], [Pwm], [Flash], [GpioReg] and the board set-up of [Quanta] are written
    against the interface [memProvider].  This file states what they need of a provider (accesses to
    32-bit addresses, aligned for words, with values of the access width) and concludes that two providers
    that agree on such accesses cannot be told apart by any sequence of driver calls: so the drivers on /dev/mem
    ([HostMem]) and those behind the LPC bridge ([Lpc]) do what they do on the SoC's own bus. *)

From S2P Require Import Prelude GoMonad Mem Scu Pwm Flash GpioReg Quanta Lpc HostMem.
#[local] Open Scope list_scope.
#[local] Open Scope Z_scope.

(** ** Well-typed accesses *)

Definition word_addr (a : Z) : Prop := is_uint 32 a /\ a mod 4 = 0.
Definition byte_addr (a : Z) : Prop := is_uint 32 a.

#[export] Instance word_addr_dec a : Decision (word_addr a).
Proof. unfold word_addr. apply _. Defined.

Definition access_ok (e : access) : Prop :=
  match e with
  | W32 a v | R32 a v => word_addr a /\ is_uint 32 v
  | W8 a v | R8 a v => byte_addr a /\ is_uint 8 v
  end.

(** ** Computations on two providers *)

Section Sim.
Context {S1 S2 : Type} (R : S1 -> S2 -> Prop).

(** From related states both end the same way, in related states, and a result is in [T]. *)
Definition sim {A} (T : A -> Prop) (m1 : M S1 A) (m2 : M S2 A) : Prop :=
  forall s1 s2, R s1 s2 -> exists o s1' s2', m1 s1 = (o, s1') /\ m2 s2 = (o, s2') /\ R s1' s2' /\
    forall a, o = Ret a -> T a.

Lemma sim_ret {A} (T : A -> Prop) a : T a -> sim T (mret a) (mret a).
Proof. intros Ha s1 s2 Hs. eexists _, _, _. split_and!; [done..|]. by intros ? [= <-]. Qed.

Lemma sim_bind {A B} (T : A -> Prop) (U : B -> Prop) m1 m2 (f1 : A -> M S1 B) (f2 : A -> M S2 B) :
  sim T m1 m2 -> (forall a, T a -> sim U (f1 a) (f2 a)) -> sim U (m1 ≫= f1) (m2 ≫= f2).
Proof.
  intros Hm Hf s1 s2 Hs. destruct (Hm s1 s2 Hs) as (o & s1' & s2' & E1 & E2 & Hs' & HT).
  unfold mbind, M_bind. rewrite E1, E2. destruct o as [a| | |].
  - by apply Hf; [apply HT|].
  - eexists _, _, _. by split_and!.
  - eexists _, _, _. by split_and!.
  - eexists _, _, _. by split_and!.
Qed.

Lemma sim_mono {A} (T U : A -> Prop) m1 m2 : (forall a, T a -> U a) -> sim T m1 m2 -> sim U m1 m2.
Proof.
  intros HTU Hm s1 s2 Hs. destruct (Hm s1 s2 Hs) as (o & s1' & s2' & E1 & E2 & Hs' & HT).
  exists o, s1', s2'. split_and!; [done..|]. auto.
Qed.

Lemma sim_panic {A} (T : A -> Prop) : sim T go_panic go_panic.
Proof. intros s1 s2 Hs. eexists _, _, _. by split_and!. Qed.

Lemma sim_blocked {A} (T : A -> Prop) : sim T (fun s => (Blocked, s)) (fun s => (Blocked, s)).
Proof. intros s1 s2 Hs. eexists _, _, _. by split_and!. Qed.

Lemma sim_deferring {A} (T : A -> Prop) d1 d2 m1 m2 :
  sim (fun _ => True) d1 d2 -> sim T m1 m2 -> sim T (deferring d1 m1) (deferring d2 m2).
Proof.
  intros Hd Hm s1 s2 Hs. destruct (Hm s1 s2 Hs) as (o & s1' & s2' & E1 & E2 & Hs' & HT).
  unfold deferring. rewrite E1, E2. destruct o as [a| | |]; [| |by eexists _, _, _; split_and!..].
  - apply (sim_bind (fun _ => True) T d1 d2 (fun _ => mret a) (fun _ => mret a)); [done| |done]. intros _ _. apply sim_ret. by apply HT.
  - apply (sim_bind (fun _ => True) T d1 d2 (fun _ => go_panic) (fun _ => go_panic)); [done| |done]. intros _ _. apply sim_panic.
Qed.

Lemma sim_for_each {A} (l : list A) b1 b2 :
  (forall x, x ∈ l -> sim (fun _ => True) (b1 x) (b2 x)) -> sim (fun _ => True) (for_each l b1) (for_each l b2).
Proof.
  induction l as [|x l IH]; intros Hb; [by apply sim_ret|]. cbn [for_each].
  eapply sim_bind; [apply Hb; by left|]. intros _ _. apply IH. intros y Hy. apply Hb. by right.
Qed.

Lemma sim_collect {A B} (T : B -> Prop) (l : list A) b1 b2 :
  (forall x, x ∈ l -> sim T (b1 x) (b2 x)) -> sim (Forall T) (collect l b1) (collect l b2).
Proof.
  induction l as [|x l IH]; intros Hb; [by apply sim_ret|]. cbn [collect].
  eapply sim_bind; [apply Hb; by left|]. intros y Hy. eapply sim_bind; [apply IH; intros z Hz; apply Hb; by right|].
  intros ys Hys. apply sim_ret. by constructor.
Qed.

Lemma sim_while fuel c1 c2 b1 b2 :
  sim (fun _ => True) c1 c2 -> sim (fun _ => True) b1 b2 -> sim (fun _ => True) (while fuel c1 b1) (while fuel c2 b2).
Proof.
  intros Hc Hb. induction fuel as [|fuel IH]; [apply sim_blocked|]. cbn [while].
  eapply sim_bind; [exact Hc|]. intros [] _; [|by apply sim_ret]. by eapply sim_bind.
Qed.
End Sim.

(** Two providers that agree on well-typed accesses. *)
Class MemSim {S1 S2 : Type} `{memProvider S1} `{memProvider S2} (R : S1 -> S2 -> Prop) : Prop := {
  sim_read32 : forall a, word_addr a -> sim R (is_uint 32) (MustRead32 a) (MustRead32 a);
  sim_read8 : forall a, byte_addr a -> sim R (is_uint 8) (MustRead8 a) (MustRead8 a);
  sim_write32 : forall a v, word_addr a -> is_uint 32 v -> sim R (fun _ => True) (MustWrite32 a v) (MustWrite32 a v);
  sim_write8 : forall a v, byte_addr a -> is_uint 8 v -> sim R (fun _ => True) (MustWrite8 a v) (MustWrite8 a v) }.

(** ** Widths *)

Lemma is_uint_land_l w x y : 0 <= w -> is_uint w x -> is_uint w (Z.land x y).
Proof.
  intros Hw Hx. apply testbit_uint; [done|apply Z.land_nonneg; left; unfold is_uint in Hx; lia|].
  intros i Hi. by rewrite Z.land_spec, (uint_testbit_high w x).
Qed.

Lemma is_uint_mask w x y : 0 <= w -> is_uint w y -> is_uint w (Z.land x y).
Proof. intros Hw Hy. rewrite Z.land_comm. by apply is_uint_land_l. Qed.

Lemma sint_range w x : 0 < w -> is_sint w (sint w x).
Proof.
  intros Hw. unfold sint, is_sint.
  assert (E : 2 ^ w = 2 * 2 ^ (w - 1)) by (rewrite <- Z.pow_succ_r by lia; f_equal; lia).
  pose proof (Z.mod_pos_bound (x + 2 ^ (w - 1)) (2 ^ w) ltac:(apply Z.pow_pos_nonneg; lia)). lia.
Qed.

(** A closed decidable goal. *)
Ltac closed := apply (bool_decide_eq_true_1 _); vm_compute; reflexivity.

(** A width side condition. *)
Ltac width :=
  solve
    [ assumption
    | unfold ushl; apply uint_range; lia
    | apply is_uint_mask; [lia|width]
    | apply is_uint_land_l; [lia|width]
    | apply is_uint_lor; [lia|width|width]
    | tryif (match goal with |- context [?x] => is_var x end) then fail else closed ].

(** One step of a driver. *)
Ltac sim_step :=
  lazymatch goal with
  | |- sim _ _ (mbind _ _) _ => eapply sim_bind
  | |- sim _ _ (deferring _ _) _ => apply sim_deferring
  | |- sim _ _ (mret _) _ => apply sim_ret
  | |- sim _ _ go_panic _ => apply sim_panic
  | |- sim _ _ (MustRead32 _) _ => apply sim_read32; width
  | |- sim _ _ (MustRead8 _) _ => apply sim_read8; width
  | |- sim _ _ (MustWrite32 _ _) _ => apply sim_write32; width
  | |- sim _ _ (MustWrite8 _ _) _ => apply sim_write8; width
  | |- forall _, _ -> sim _ _ _ _ => intros ? ?
  | |- sim _ _ (if ?b then _ else _) _ => destruct b
  | |- sim _ _ (match ?r with Ok _ => _ | Err _ => _ end) _ => destruct r
  | |- sim _ _ (let _ := _ in _) _ => cbv zeta
  | |- True => exact I
  end.
Ltac sim_run := cbv zeta; repeat sim_step.

(** ** The drivers *)

Section Drivers.
Context {S1 S2 : Type} `{memProvider S1} `{memProvider S2} (R : S1 -> S2 -> Prop) `{!MemSim R}.

Notation is_any := (fun _ => True).

Lemma sim_SetSpiMaster b : sim R is_any (SetSpiMaster b) (SetSpiMaster b).
Proof. unfold SetSpiMaster, unlockScuWriteAccess, lockScuWriteAccess, GetHardwareStrapping. destruct b; sim_run. Qed.

Lemma sim_setCpuEnable b : sim R is_any (setCpuEnable b) (setCpuEnable b).
Proof. unfold setCpuEnable, unlockScuWriteAccess, lockScuWriteAccess, GetHardwareStrapping. destruct b; sim_run. Qed.

Lemma sim_SetResetControl v : is_uint 32 v -> sim R is_any (SetResetControl v) (SetResetControl v).
Proof. intros Hv. unfold SetResetControl, unlockScuWriteAccess, lockScuWriteAccess. sim_run. Qed.

Lemma sim_ModelName : sim R is_any ModelName ModelName.
Proof. unfold ModelName, GetSiliconRevision. sim_run. destruct (model_names !! _); by apply sim_ret. Qed.

Lemma sim_IsSpiMaster : sim R is_any IsSpiMaster IsSpiMaster.
Proof. unfold IsSpiMaster, GetHardwareStrapping. sim_run. Qed.

Lemma sim_DisableWdt : sim R is_any DisableWdt DisableWdt.
Proof. unfold DisableWdt. sim_run. Qed.

Lemma sim_EnableWdt : sim R is_any EnableWdt EnableWdt.
Proof. unfold EnableWdt. sim_run. Qed.

Lemma sim_ResetCpu : sim R is_any ResetCpu ResetCpu.
Proof. unfold ResetCpu. sim_run. Qed.

Lemma sim_FreezeCpu : sim R is_any FreezeCpu FreezeCpu.
Proof. eapply sim_bind; [apply sim_setCpuEnable|]. intros _ _. apply sim_DisableWdt. Qed.

Lemma sim_UnfreezeCpu : sim R is_any UnfreezeCpu UnfreezeCpu.
Proof. eapply sim_bind; [apply sim_setCpuEnable|]. intros _ _. apply sim_EnableWdt. Qed.

Lemma sim_InitializeSystem : sim R is_any InitializeSystem InitializeSystem.
Proof. unfold InitializeSystem. sim_run. Qed.

(** *** Fans *)

Lemma sim_DumpPwm : sim R (Forall (is_uint 32)) DumpPwm DumpPwm.
Proof.
  apply sim_collect. intros o Ho. apply sim_read32.
  assert (Hall : Forall (fun o => word_addr (PWM_BASE + o)) dump_offsets) by closed.
  rewrite Forall_forall in Hall. by apply Hall.
Qed.

Lemma sim_wait_result fuel v : is_uint 32 v -> sim R (is_uint 32) (wait_result fuel v) (wait_result fuel v).
Proof.
  revert v. induction fuel as [|fuel IH]; intros v Hv; cbn [wait_result]; case_decide.
  - apply sim_blocked.
  - by apply sim_ret.
  - eapply sim_bind; [apply sim_read32; width|]. intros v' Hv'. by apply IH.
  - by apply sim_ret.
Qed.

Lemma sim_MeasureFanRpm w fuel fan : 0 < w -> sim R (is_sint w) (MeasureFanRpm w fuel fan) (MeasureFanRpm w fuel fan).
Proof.
  intros Hw. unfold MeasureFanRpm. do 3 (eapply sim_bind; [first [apply sim_write32; width|apply sim_read32; width]|]; intros ? ?).
  cbv zeta. eapply sim_bind; [by apply sim_wait_result|]. intros v0 Hv0. unfold int_div. case_decide; [apply sim_panic|].
  apply sim_ret. by apply sint_range.
Qed.

Lemma sim_SetFanDutyCycle fan p : sim R is_any (SetFanDutyCycle fan p) (SetFanDutyCycle fan p).
Proof.
  unfold SetFanDutyCycle. eapply sim_bind; [apply sim_read32; width|]. intros v Hv. repeat case_decide; sim_run.
Qed.

(** *** GPIO snapshots *)

Definition words (m : gmap Z Z) : Prop := map_Forall (fun _ => is_uint 32) m.

Lemma sim_read_regs base rs m :
  Forall (fun r => word_addr (base + r)) rs -> words m -> sim R words (read_regs base rs m) (read_regs base rs m).
Proof.
  intros Hrs. revert m. induction Hrs as [|r rs Hr Hrs IH]; intros m Hm; cbn [read_regs]; [by apply sim_ret|].
  eapply sim_bind; [by apply sim_read32|]. intros v Hv. apply IH. by apply map_Forall_insert_2.
Qed.

Lemma sim_SnapshotGpio dirs datas :
  dirs ≡ₚ gpioDirRegs -> datas ≡ₚ gpioDataRegs ->
  sim R (fun s => words (GpioReg.Gpio s) /\ words (GpioReg.Scu s)) (SnapshotGpio dirs datas) (SnapshotGpio dirs datas).
Proof.
  intros Hdir Hdat. unfold SnapshotGpio. cbv zeta.
  eapply sim_bind; [apply sim_read_regs; [rewrite Hdir; closed|done]|]. intros g Hg.
  eapply sim_bind; [apply sim_read_regs; [rewrite Hdat; closed|done]|]. intros g' Hg'.
  eapply sim_bind; [apply sim_read_regs; [closed|done]|]. intros c Hc.
  by apply sim_ret.
Qed.

(** *** Flash *)

Lemma sim_cs f h : sim R is_any (cs f h) (cs f h).
Proof. unfold cs. sim_run. Qed.

Lemma sim_cmd8 f c : sim R is_any (cmd8 f c) (cmd8 f c).
Proof. unfold cmd8. eapply sim_bind; [apply sim_cs|]. intros _ _. apply sim_deferring; [apply sim_cs|]. sim_run. Qed.

Lemma sim_flash_isReady f : sim R is_any (isReady f) (isReady f).
Proof.
  unfold isReady, status, cmd8Read8. eapply sim_bind; [|intros; by apply sim_ret].
  eapply sim_bind; [apply sim_cs|]. intros _ _. apply sim_deferring; [apply sim_cs|]. sim_run.
Qed.

Lemma sim_Id f : sim R (is_uint 24) (Id f) (Id f).
Proof.
  unfold Id, cmd8Read32. eapply sim_bind; [|intros v _; apply sim_ret, is_uint_mask; [lia|closed]].
  eapply sim_bind; [apply sim_cs|]. intros _ _. apply sim_deferring; [apply sim_cs|]. sim_run.
Qed.

Lemma sim_wait_ready fuel f : sim R is_any (wait_ready fuel f) (wait_ready fuel f).
Proof.
  apply sim_while; [|by apply sim_ret]. eapply sim_bind; [apply sim_flash_isReady|]. intros b _. by apply sim_ret.
Qed.

Lemma sim_SystemFlash fuel : sim R (fun r => match r with Ok f => f = mk_spiflash 6 | Err _ => True end) (SystemFlash fuel) (SystemFlash fuel).
Proof.
  unfold SystemFlash. do 3 (eapply sim_bind; [apply sim_write32; width|]; intros _ _). cbv zeta.
  eapply sim_bind; [apply sim_wait_ready|]. intros _ _. eapply sim_bind; [apply sim_Id|]. intros id _.
  case_decide; [|by apply sim_ret]. eapply (sim_bind _ (fun f => f = mk_spiflash 6)); [|intros f ->; by apply sim_ret].
  unfold newMX25L256Flash. cbv zeta. eapply (sim_bind _ is_any); [apply sim_cmd8|]. intros _ _. by apply sim_ret.
Qed.

Lemma sim_Flash_Close f : sim R is_any (Flash.Close f) (Flash.Close f).
Proof. apply sim_cmd8. Qed.

Notation bytes := (Forall is_byte).

Lemma insert_byte i v b : bytes b -> is_byte (Z.land v 0xff) /\ bytes (<[i := Z.land v 0xff]> b).
Proof. intros Hb. assert (is_byte (Z.land v 0xff)) by (unfold is_byte; width). split; [done|]. by apply Forall_insert. Qed.

(** What the loops of [ReadAt] keep of the buffer [b0]: its length, its bytes, and an index into it. *)
Definition filling (b0 : list Z) (r : list Z * Z) : Prop :=
  bytes r.1 /\ length r.1 = length b0 /\ 0 <= r.2 <= Z.of_nat (length b0).

Lemma sim_read_words b0 fuel b i : filling b0 (b, i) -> sim R (filling b0) (read_words fuel b i) (read_words fuel b i).
Proof.
  revert b i. induction fuel as [|fuel IH]; intros b i Hb; cbn [read_words]; case_decide as Hi.
  - apply sim_blocked.
  - by apply sim_ret.
  - eapply sim_bind; [apply sim_read32; width|]. intros d Hd. cbv zeta. apply IH. destruct Hb as (Hb & Hl & Hr). cbn in *.
    split_and!; cbn; [by do 4 apply insert_byte|by rewrite !length_insert|lia|lia].
  - by apply sim_ret.
Qed.

Lemma put_if_filling b0 x r : is_byte x -> filling b0 r -> filling b0 (put_if x r).
Proof.
  destruct r as [b i]. intros Hx (Hb & Hl & Hr). cbn in *. unfold put_if. case_decide; [|done].
  split_and!; cbn; [by apply Forall_insert|by rewrite length_insert|lia|lia].
Qed.

(** The second loop ends only with the buffer full. *)
Lemma sim_read_tail b0 fuel b i : filling b0 (b, i) ->
  sim R (fun r => filling b0 r /\ r.2 = Z.of_nat (length b0)) (read_tail fuel b i) (read_tail fuel b i).
Proof.
  revert b i. induction fuel as [|fuel IH]; intros b i Hb; cbn [read_tail]; case_decide as Hi.
  - apply sim_blocked.
  - apply sim_ret. destruct Hb as (Hb & Hl & Hr). cbn in *. split; [done|cbn; lia].
  - eapply sim_bind; [apply sim_read32; width|]. intros d Hd.
    assert (Hby : forall x, is_byte (Z.land x 0xff)) by (intros x; unfold is_byte; width).
    assert (Hfill : filling b0 (put_if (Z.land (Z.shiftr d 24) 0xff) (put_if (Z.land (Z.shiftr d 16) 0xff)
      (put_if (Z.land (Z.shiftr d 8) 0xff) (<[Z.to_nat i := Z.land d 0xff]> b, i + 1))))).
    { do 3 (apply put_if_filling; [apply Hby|]). destruct Hb as (Hb & Hl & Hr). cbn in *.
      split_and!; cbn; [by apply insert_byte|by rewrite length_insert|lia|lia]. }
    destruct (put_if _ (<[_ := _]> b, i + 1)) as [b1 i1]. destruct (put_if _ (b1, i1)) as [b2 i2].
    destruct (put_if _ (b2, i2)) as [b3 i3]. by apply IH.
  - apply sim_ret. destruct Hb as (Hb & Hl & Hr). cbn in *. split; [done|cbn; lia].
Qed.

(** A read fills the whole buffer, or is refused and leaves it alone. *)
Definition read_done (b : list Z) (r : list Z * result Z) : Prop :=
  bytes r.1 /\ length r.1 = length b /\
  match r.2 with Ok n => n = Z.of_nat (length b) | Err _ => r.1 = b end.

Lemma sim_ReadAt f b off : bytes b -> sim R (read_done b) (ReadAt f b off) (ReadAt f b off).
Proof.
  intros Hb. unfold ReadAt. cbv zeta. case_decide; [by apply sim_ret|].
  eapply sim_bind; [apply sim_cs|]. intros _ _. apply sim_deferring; [apply sim_cs|].
  do 6 (eapply sim_bind; [apply sim_write8; width|]; intros _ _).
  eapply sim_bind; [apply (sim_read_words b); split_and!; cbn; [done|done|lia|lia]|]. intros [b1 i1] Hr.
  eapply sim_bind; [by apply (sim_read_tail b)|]. intros [b2 i2] [(Hb2 & Hl & _) Hi]. apply sim_ret. by split_and!.
Qed.

Lemma sim_eraseBlock fuel f b : sim R is_any (eraseBlock fuel f b) (eraseBlock fuel f b).
Proof.
  unfold eraseBlock. eapply sim_bind; [apply sim_cmd8|]. intros _ _. eapply sim_bind; [apply sim_cs|]. intros _ _.
  do 5 (eapply sim_bind; [apply sim_write8; width|]; intros _ _). eapply sim_bind; [apply sim_cs|]. intros _ _.
  apply sim_wait_ready.
Qed.

Lemma sim_write_words d : bytes d -> sim R is_any (write_words d) (write_words d).
Proof.
  remember (length d) as n eqn:En. revert d En. induction (lt_wf n) as [n _ IH]. intros d -> Hd.
  destruct d as [|b0 [|b1 [|b2 [|b3 d]]]]; cbn [write_words]; try apply sim_panic; [by apply sim_ret|].
  repeat match goal with H : bytes (_ :: _) |- _ => inversion_clear H end.
  assert (is_uint 32 b0) by (apply (is_uint_le 8); [lia|done]). cbv zeta.
  eapply sim_bind; [apply sim_write32; width|]. intros _ _. eapply IH; [|done|done]. cbn. lia.
Qed.

Lemma sim_programPage fuel f p d : bytes d -> sim R is_any (programPage fuel f p d) (programPage fuel f p d).
Proof.
  intros Hd. unfold programPage. case_decide; [apply sim_panic|].
  eapply sim_bind; [apply sim_cmd8|]. intros _ _. eapply sim_bind; [apply sim_cs|]. intros _ _.
  do 5 (eapply sim_bind; [apply sim_write8; width|]; intros _ _). eapply sim_bind; [by apply sim_write_words|]. intros _ _.
  eapply sim_bind; [apply sim_cs|]. intros _ _. apply sim_wait_ready.
Qed.

Lemma sim_slice b lo hi : bytes b -> sim R bytes (slice b lo hi) (slice b lo hi).
Proof. intros Hb. unfold slice. case_decide; [|apply sim_panic]. apply sim_ret. by apply Forall_take, Forall_drop. Qed.

Lemma sim_WriteAt fuel f b off : bytes b ->
  sim R (fun r => match r with Ok n => n = Z.of_nat (length b) | Err _ => True end) (WriteAt fuel f b off) (WriteAt fuel f b off).
Proof.
  intros Hb. unfold WriteAt. cbv zeta. repeat (case_decide; [by apply sim_ret|]).
  eapply sim_bind; [apply sim_for_each; intros i _; apply sim_eraseBlock|]. intros _ _.
  eapply sim_bind; [|intros; by apply sim_ret]. apply sim_for_each. intros i _.
  eapply sim_bind; [by apply sim_slice|]. intros d Hd. by apply sim_programPage.
Qed.
End Drivers.

(** ** Sequences of driver calls *)

(** The calls of package aspeed (and the board's set-up) with their arguments. *)
Inductive driver_call : Type :=
| CallModelName | CallIsSpiMaster | CallSetSpiMaster (master : bool) | CallSetResetControl (v : Z)
| CallResetCpu | CallFreezeCpu | CallUnfreezeCpu | CallInitializeSystem
| CallDumpPwm | CallMeasureFanRpm (w : Z) (fuel : nat) (fan : Z) | CallSetFanDutyCycle (fan p : Z)
| CallSnapshotGpio (dirs datas : list (Z * gpioReg))
| CallSystemFlash (fuel : nat) | CallFlashClose (f : spiflash) | CallFlashId (f : spiflash)
| CallReadAt (f : spiflash) (b : list Z) (off : Z) | CallWriteAt (fuel : nat) (f : spiflash) (b : list Z) (off : Z).

(** What a call returns. *)
Inductive driver_result : Type :=
| NoResult | ResName (r : result string) | ResBool (b : bool) | ResInt (v : Z) | ResWords (l : list Z) | ResState (s : State)
| ResFlash (r : result spiflash) | ResRead (r : list Z * result Z) | ResWritten (r : result Z).

Definition run_call {S} `{memProvider S} (c : driver_call) : M S driver_result :=
  match c with
  | CallModelName => r ← ModelName; mret (ResName r)
  | CallIsSpiMaster => r ← IsSpiMaster; mret (ResBool r)
  | CallSetSpiMaster b => _ ← SetSpiMaster b; mret NoResult
  | CallSetResetControl v => _ ← SetResetControl v; mret NoResult
  | CallResetCpu => _ ← ResetCpu; mret NoResult
  | CallFreezeCpu => _ ← FreezeCpu; mret NoResult
  | CallUnfreezeCpu => _ ← UnfreezeCpu; mret NoResult
  | CallInitializeSystem => _ ← InitializeSystem; mret NoResult
  | CallDumpPwm => r ← DumpPwm; mret (ResWords r)
  | CallMeasureFanRpm w fuel fan => r ← MeasureFanRpm w fuel fan; mret (ResInt r)
  | CallSetFanDutyCycle fan p => _ ← SetFanDutyCycle fan p; mret NoResult
  | CallSnapshotGpio dirs datas => r ← SnapshotGpio dirs datas; mret (ResState r)
  | CallSystemFlash fuel => r ← SystemFlash fuel; mret (ResFlash r)
  | CallFlashClose f => _ ← Flash.Close f; mret NoResult
  | CallFlashId f => r ← Id f; mret (ResInt r)
  | CallReadAt f b off => r ← ReadAt f b off; mret (ResRead r)
  | CallWriteAt fuel f b off => r ← WriteAt fuel f b off; mret (ResWritten r)
  end.

(** Arguments of the types they have in the source; the tables of a snapshot are Go maps, in any order. *)
Definition args_ok (c : driver_call) : Prop :=
  match c with
  | CallSetResetControl v => is_uint 32 v
  | CallMeasureFanRpm w _ _ => w = 32 \/ w = 64
  | CallSnapshotGpio dirs datas => dirs ≡ₚ gpioDirRegs /\ datas ≡ₚ gpioDataRegs
  | CallReadAt _ b _ | CallWriteAt _ _ b _ => Forall is_byte b
  | _ => True
  end.

(** What a result is: words of 32 bits, a number of revolutions that fits an [int], an identifier of 24 bits,
    the flash at its working clock, a buffer that is full or untouched, and the number of bytes of the whole buffer. *)
Definition result_ok (c : driver_call) (r : driver_result) : Prop :=
  match c, r with
  | CallModelName, ResName _ => True
  | CallIsSpiMaster, ResBool _ => True
  | CallDumpPwm, ResWords l => Forall (is_uint 32) l
  | CallMeasureFanRpm w _ _, ResInt v => is_sint w v
  | CallSnapshotGpio _ _, ResState s => words (GpioReg.Gpio s) /\ words (GpioReg.Scu s)
  | CallSystemFlash _, ResFlash r => match r with Ok f => f = mk_spiflash 6 | Err _ => True end
  | CallFlashId _, ResInt v => is_uint 24 v
  | CallReadAt _ b _, ResRead r => read_done b r
  | CallWriteAt _ _ b _, ResWritten r => match r with Ok n => n = Z.of_nat (length b) | Err _ => True end
  | (CallSetSpiMaster _ | CallSetResetControl _ | CallResetCpu | CallFreezeCpu | CallUnfreezeCpu | CallInitializeSystem
     | CallSetFanDutyCycle _ _ | CallFlashClose _), NoResult => True
  | _, _ => False
  end.

Fixpoint run_calls {S} `{memProvider S} (cs : list driver_call) : M S (list driver_result) :=
  match cs with
  | [] => mret []
  | c :: cs => r ← run_call c; rs ← run_calls cs; mret (r :: rs)
  end.

Section Calls.
Context {S1 S2 : Type} `{memProvider S1} `{memProvider S2} (R : S1 -> S2 -> Prop) `{!MemSim R}.

Lemma sim_result {A} (T : A -> Prop) (U : driver_result -> Prop) (m1 : M S1 A) (m2 : M S2 A) (f : A -> driver_result) :
  sim R T m1 m2 -> (forall a, T a -> U (f a)) -> sim R U (a ← m1; mret (f a)) (a ← m2; mret (f a)).
Proof. intros Hm Hf. eapply sim_bind; [exact Hm|]. intros a Ha. apply sim_ret. auto. Qed.

Lemma sim_call c : args_ok c -> sim R (result_ok c) (run_call c) (run_call c).
Proof.
  intros Hc. destruct c; cbn [run_call args_ok] in *.
  - eapply sim_result; [apply sim_ModelName; exact _|done].
  - eapply sim_result; [apply sim_IsSpiMaster; exact _|done].
  - eapply sim_result; [apply sim_SetSpiMaster; exact _|done].
  - eapply sim_result; [apply sim_SetResetControl; [exact _|exact Hc]|done].
  - eapply sim_result; [apply sim_ResetCpu; exact _|done].
  - eapply sim_result; [apply sim_FreezeCpu; exact _|done].
  - eapply sim_result; [apply sim_UnfreezeCpu; exact _|done].
  - eapply sim_result; [apply sim_InitializeSystem; exact _|done].
  - eapply sim_result; [apply sim_DumpPwm; exact _|done].
  - eapply sim_result; [apply sim_MeasureFanRpm; [exact _|lia]|done].
  - eapply sim_result; [apply sim_SetFanDutyCycle; exact _|done].
  - eapply sim_result; [apply sim_SnapshotGpio; [exact _|apply Hc..]|done].
  - eapply sim_result; [apply sim_SystemFlash; exact _|done].
  - eapply sim_result; [apply sim_Flash_Close; exact _|done].
  - eapply sim_result; [apply sim_Id; exact _|done].
  - eapply sim_result; [apply sim_ReadAt; [exact _|exact Hc]|done].
  - eapply sim_result; [apply sim_WriteAt; [exact _|exact Hc]|done].
Qed.

Lemma sim_calls cs : Forall args_ok cs -> sim R (Forall2 result_ok cs) (run_calls cs) (run_calls cs).
Proof.
  induction 1 as [|c cs Hc Hcs IH]; cbn [run_calls]; [by apply sim_ret|].
  eapply sim_bind; [by apply sim_call|]. intros r Hr. eapply sim_bind; [exact IH|]. intros rs Hrs. apply sim_ret. by constructor.
Qed.
End Calls.

(** ** Typing on the bus *)

(** A provider whose reads give values of the access width. *)
Class TypedReads (E : Type) `{memProvider E} : Prop := {
  typed_read32 : forall a (e : E) v e', MustRead32 a e = (Ret v, e') -> is_uint 32 v;
  typed_read8 : forall a (e : E) v e', MustRead8 a e = (Ret v, e') -> is_uint 8 v }.

Section Typing.
Context {E : Type} `{!memProvider E} `{!TypedReads E} (t0 : list access).

(** The accesses since [t0] are well-typed. *)
Definition well_typed (b1 b2 : @Recorder.bus E) : Prop := b1 = b2 /\ exists l, b1.2 = t0 ++ l /\ Forall access_ok l.

Lemma well_typed_snoc (e : E) t l x : t = t0 ++ l -> Forall access_ok l -> access_ok x -> well_typed (e, t ++ [x]) (e, t ++ [x]).
Proof. intros -> Hl Hx. split; [done|]. exists (l ++ [x]). rewrite <- app_assoc. split; [done|]. apply Forall_app. by split; [|constructor]. Qed.

Lemma sim_recorded_read w a m (T : Z -> Prop) :
  (forall e v e', m e = (Ret v, e') -> T v /\ access_ok (w a v)) ->
  sim well_typed T (Recorder.record_read w a m) (Recorder.record_read w a m).
Proof.
  intros Hm [e t] b2 [<- (l & Ht & Hl)]. unfold Recorder.record_read. cbn in Ht. destruct (m e) as [o e'] eqn:Em.
  destruct o as [v| | |].
  - destruct (Hm _ _ _ Em) as [HT Hok]. eexists _, _, _. split_and!; [done|done|by eapply well_typed_snoc|]. by intros ? [= <-].
  - eexists _, _, _. split_and!; [done|done|by split; eauto|done].
  - eexists _, _, _. split_and!; [done|done|by split; eauto|done].
  - eexists _, _, _. split_and!; [done|done|by split; eauto|done].
Qed.

Lemma sim_recorded_write ev m :
  access_ok ev -> sim well_typed (fun _ => True) (Recorder.record_write ev m) (Recorder.record_write ev m).
Proof.
  intros Hok [e t] b2 [<- (l & Ht & Hl)]. unfold Recorder.record_write. cbn in Ht. destruct (m e) as [o e'] eqn:Em.
  destruct o as [v| | |].
  - eexists _, _, _. split_and!; [done|done|by eapply well_typed_snoc|done].
  - eexists _, _, _. split_and!; [done|done|by split; eauto|done].
  - eexists _, _, _. split_and!; [done|done|by split; eauto|done].
  - eexists _, _, _. split_and!; [done|done|by split; eauto|done].
Qed.

#[local] Instance well_typed_sim : MemSim well_typed.
Proof.
  split.
  - intros a Ha. apply sim_recorded_read. intros e v e' Hr. apply typed_read32 in Hr. exact (conj Hr (conj Ha Hr)).
  - intros a Ha. apply sim_recorded_read. intros e v e' Hr. apply typed_read8 in Hr. exact (conj Hr (conj Ha Hr)).
  - intros a v Ha Hv. by apply sim_recorded_write.
  - intros a v Ha Hv. by apply sim_recorded_write.
Qed.

Lemma calls_well_typed cs (e : E) :
  Forall args_ok cs -> exists o e' l, run_calls cs (e, t0) = (o, (e', t0 ++ l)) /\ Forall access_ok l /\
    forall rs, o = Ret rs -> Forall2 result_ok cs rs.
Proof.
  intros Hcs. destruct (sim_calls well_typed cs Hcs (e, t0) (e, t0)) as (o & s1 & s2 & E1 & _ & [_ (l & Hl & Hok)] & HT).
  { split; [done|]. exists []. by rewrite app_nil_r. }
  destruct s1 as [e' t']. cbn in Hl. subst t'. by exists o, e', l.
Qed.
End Typing.


(** ** The two backends *)

Section Host.
Context {K B : Type} `{DevMem K B} `{!TypedReads B} (w : Z) (Hw : w = 32 \/ w = 64).

(** [hostMem] as a provider; closing the device does not touch the memory. *)
Definition host_provider : memProvider K := {|
  MustRead32 := host_MustRead32 w; MustRead8 := host_MustRead8 w;
  MustWrite32 := host_MustWrite32 w; MustWrite8 := host_MustWrite8 w; Mem.Close := mret tt |}.

Definition same_phys (k : K) (b : B) : Prop := phys k = b.

Lemma sim_of_wp {A} (T : A -> Prop) (m1 : M K A) (m2 : M B A) :
  (forall k, wp m1 (fun v k' => m2 (phys k) = (Ret v, phys k') /\ T v) k) -> sim same_phys T m1 m2.
Proof.
  intros Hm k b <-. destruct (proj1 (wp_run _ _ _) (Hm k)) as (v & k' & E1 & E2 & HT).
  exists (Ret v), k', (phys k'). split_and!; [done..|]. by intros ? [= <-].
Qed.

#[local] Instance host_sim : MemSim (H := host_provider) same_phys.
Proof.
  assert (Hadr : forall a, is_uint 32 a -> is_uint w a) by (intros a; apply is_uint_le; lia).
  split; cbn.
  - intros a [Ha H4]. apply sim_of_wp. intros k. destruct (hostMem_accesses w a 0 k Hw (Hadr a Ha)) as (_ & _ & H32).
    eapply wp_mono; [exact (proj1 (H32 H4))|]. intros v k' Hv. split; [done|]. exact (typed_read32 _ _ _ _ Hv).
  - intros a Ha. apply sim_of_wp. intros k. destruct (hostMem_accesses w a 0 k Hw (Hadr a Ha)) as (H8 & _ & _).
    eapply wp_mono; [exact H8|]. intros v k' Hv. split; [done|]. exact (typed_read8 _ _ _ _ Hv).
  - intros a v [Ha H4] Hv. apply sim_of_wp. intros k. destruct (hostMem_accesses w a v k Hw (Hadr a Ha)) as (_ & _ & H32).
    eapply wp_mono; [exact (proj2 (H32 H4))|]. by intros [] k' Hr.
  - intros a v Ha Hv. apply sim_of_wp. intros k. destruct (hostMem_accesses w a v k Hw (Hadr a Ha)) as (_ & H8 & _).
    eapply wp_mono; [exact H8|]. by intros [] k' Hr.
Qed.

Lemma calls_on_host cs (k : K) :
  Forall args_ok cs -> exists o k', @run_calls K host_provider cs k = (o, k') /\ run_calls cs (phys k) = (o, phys k').
Proof.
  intros Hcs. destruct (sim_calls (H := host_provider) same_phys cs Hcs k (phys k) eq_refl) as (o & k' & b & E1 & E2 & <- & _).
  by exists o, k'.
Qed.
End Host.

Section Bridge.
Context {P B : Type} `{AhbBridge P B} `{!TypedReads B} (lpcCache : bool) (Hstable : lpcCache = false \/ StableRead8 P B).

(** The device is selected over the bus state, with the cache in step. *)
Definition bridged (s : lpc * P) (b : B) : Prop := exists F, view lpcCache F b s.

Lemma sim_of_view {A} (T : A -> Prop) (m1 : M (lpc * P) A) (m2 : M B A) :
  (forall F b s, view lpcCache F b s ->
     wp m1 (fun v s' => exists F' b', view lpcCache F' b' s' /\ m2 b = (Ret v, b')) s) ->
  (forall b v b', m2 b = (Ret v, b') -> T v) -> sim bridged T m1 m2.
Proof.
  intros Hm HT s b [F Hv]. destruct (proj1 (wp_run _ _ _) (Hm F b s Hv)) as (v & s' & E1 & F' & b' & Hv' & E2).
  exists (Ret v), s', b'. split_and!; [done|done|by exists F'|]. intros ? [= <-]. by eapply HT.
Qed.

#[local] Instance bridge_sim : MemSim (H := lpc_provider lpcCache) bridged.
Proof.
  split; cbn.
  - intros a [Ha _]. apply sim_of_view; [|intros; by eapply typed_read32]. intros F b s Hv.
    pose proof (lpc_MustRead32_spec lpcCache a F b s Hv) as Hr. by rewrite (uint_id 32 a Ha) in Hr.
  - intros a Ha. apply sim_of_view; [|intros; by eapply typed_read8]. intros F b s Hv.
    pose proof (lpc_MustRead8_spec lpcCache a F b s Hstable Hv) as Hr. by rewrite (uint_id 32 a Ha) in Hr.
  - intros a v [Ha _] Hd. apply sim_of_view; [|done]. intros F b s Hv.
    pose proof (lpc_MustWrite32_spec lpcCache a v F b s Hv) as Hr. rewrite (uint_id 32 a Ha), (uint_id 32 v Hd) in Hr.
    eapply wp_mono; [exact Hr|]. by intros [].
  - intros a v Ha Hd. apply sim_of_view; [|done]. intros F b s Hv.
    pose proof (lpc_MustWrite8_spec lpcCache a v F b s Hv Hd) as Hr. rewrite (uint_id 32 a Ha) in Hr.
    eapply wp_mono; [exact Hr|]. by intros [].
Qed.

Lemma calls_on_bridge cs s b :
  Forall args_ok cs -> bridged s b ->
  exists o s' b', @run_calls _ (lpc_provider lpcCache) cs s = (o, s') /\ run_calls cs b = (o, b') /\ bridged s' b'.
Proof.
  intros Hcs Hb. destruct (sim_calls (H := lpc_provider lpcCache) bridged cs Hcs s b Hb) as (o & s' & b' & E1 & E2 & Hb' & _).
  by exists o, s', b'.
Qed.
End Bridge.

(** C7: The drivers cannot tell where they run: any sequence of driver calls, on the BMC through
    /dev/mem and from the host through the LPC bridge (freshly opened; its register cache off, or the bridge one that
    leaves F4 to F6 alone in byte reads), ends exactly as on the SoC's bus, with the same results and the same bus afterwards. *)
Theorem drivers_backend_independent {K P B : Type} `{DevMem K B} `{!PortFile P} `{!AhbBridge P B} `{!TypedReads B}
    (w : Z) (lpcCache : bool) (cs : list driver_call) (k : K) (p : P) :
  w = 32 \/ w = 64 -> lpcCache = false \/ StableRead8 P B -> Forall args_ok cs ->
  (exists o k', @run_calls K (host_provider w) cs k = (o, k') /\ run_calls cs (phys k) = (o, phys k')) /\
  (exists o s' b', (_ ← openLpcMemory; @run_calls _ (lpc_provider lpcCache) cs) (new_lpc port0, p) = (o, s') /\
     run_calls cs (ahb p) = (o, b') /\ bridged lpcCache s' b').
Proof.
  intros Hw Hst Hcs. split; [by apply calls_on_host|].
  destruct (proj1 (wp_run _ _ _) (openLpcMemory_spec lpcCache p)) as (u & s & Eo & Hv).
  destruct (calls_on_bridge lpcCache Hst cs s (ahb p) Hcs ltac:(by eexists)) as (o & s' & b' & E1 & E2 & Hb').
  exists o, s', b'. split_and!; [|done|done]. unfold mbind, M_bind. by rewrite Eo.
Qed.

Module SimDrivers.
#[local] Instance ram_typed : TypedReads SimBus.ram.
Proof. split; intros a e v e' [= <- _]; by apply uint_range. Qed.

Definition calls : list driver_call :=
  [CallSetSpiMaster true; CallSetFanDutyCycle 1 100; CallFlashId (mk_spiflash 6); CallReadAt (mk_spiflash 6) [0; 0; 0; 0; 0] 77].

Lemma calls_ok : Forall args_ok calls.
Proof. repeat (apply Forall_cons; split; [first [exact I|closed]|]); done. Qed.

(** Registers of an AST2400. *)
Definition ram0 : SimBus.ram := {[SCU_BASE + 0x70 := 0x1000; SCU_BASE + 0x7c := 0x02010303]}.


Lemma drivers_backend_independent_witness :
  exists o k', @run_calls SimBus.ram (host_provider 32) calls ram0 = (o, k') /\ run_calls calls ram0 = (o, k').
Proof.
  exact (proj1 (drivers_backend_independent 32 true calls (ram0 : SimBus.ram) SimSio.sio0 (or_introl eq_refl)
    (or_intror SimSio.sim_stable) calls_ok)).
Defined.
End SimDrivers.
