(* ===== verification/Boards.v ===== *)
(** * The other boards (platform/aspeed-ast2500evb, platform/qemu-virt-a15,
    platform/qemu-virt-a72)

    They name no GPIO lines and program no hardware; their tables of fans and
    sensors and their consoles. *)

From S2P Require Import Prelude Gpio Quanta.
#[local] Open Scope string_scope.
#[local] Open Scope list_scope.
#[local] Open Scope Z_scope.

Module Ast2500Evb.
Definition linePortMap : gmap string Z := ∅.

(** [init]: the reverse of [linePortMap]. *)
Definition portLineMap : gmap Z string :=
  list_to_map ((fun kv => (kv.2, kv.1)) <$> map_to_list linePortMap).

Inductive Gpio : Type := mk_Gpio.

#[export] Instance gpio : GpioPlatform Gpio := {
  GpioNameToPort _ l := linePortMap !! l;
  GpioPortToName _ i := portLineMap !! i;
}.

Definition InitializeGpio : list gpio_call := [].
Definition PwmMap : gmap Z string := list_to_map [(0, "/sys/class/hwmon/hwmon0/pwm1")].
Definition FanMap : gmap Z string := list_to_map [(0, "/sys/class/hwmon/hwmon0/fan1_input")].
Definition ThermometerMap : gmap Z string := list_to_map [(0, "/sys/class/hwmon/hwmon1/temp1_input")].
Definition HostUart : string * Z := ("/dev/ttyS2", 115200).
End Ast2500Evb.

Module QemuVirtA15.
Definition linePortMap : gmap string Z := ∅.

Definition portLineMap : gmap Z string :=
  list_to_map ((fun kv => (kv.2, kv.1)) <$> map_to_list linePortMap).

Inductive Gpio : Type := mk_Gpio.

#[export] Instance gpio : GpioPlatform Gpio := {
  GpioNameToPort _ l := linePortMap !! l;
  GpioPortToName _ i := portLineMap !! i;
}.

Definition InitializeGpio : list gpio_call := [].
Definition PwmMap : gmap Z string := ∅.
Definition FanMap : gmap Z string := ∅.
Definition ThermometerMap : gmap Z string := ∅.
Definition HostUart : string * Z := ("/dev/ttyAMA0", 115200).
End QemuVirtA15.

Module QemuVirtA72.
Definition linePortMap : gmap string Z := ∅.

Definition portLineMap : gmap Z string :=
  list_to_map ((fun kv => (kv.2, kv.1)) <$> map_to_list linePortMap).

Inductive Gpio : Type := mk_Gpio.

#[export] Instance gpio : GpioPlatform Gpio := {
  GpioNameToPort _ l := linePortMap !! l;
  GpioPortToName _ i := portLineMap !! i;
}.

Definition InitializeGpio : list gpio_call := [].
Definition PwmMap : gmap Z string := ∅.
Definition FanMap : gmap Z string := ∅.
Definition ThermometerMap : gmap Z string := ∅.
Definition HostUart : string * Z := ("/dev/ttyAMA0", 115200).
End QemuVirtA72.

(** The fans of every board are numbered from 0, as [GetFans] needs, and each has
    a duty cycle file. *)
Definition numbered (fans pwms : gmap Z string) : Prop :=
  forall i, 0 <= i < Z.of_nat (size fans) -> is_Some (fans !! i) /\ is_Some (pwms !! i).

Lemma boards_fans_numbered :
  numbered Quanta.FanMap Quanta.PwmMap /\ numbered Ast2500Evb.FanMap Ast2500Evb.PwmMap /\
  numbered QemuVirtA15.FanMap QemuVirtA15.PwmMap /\ numbered QemuVirtA72.FanMap QemuVirtA72.PwmMap.
Proof.
  assert (Hn : forall fans pwms : gmap Z string,
    forallb (fun i => bool_decide (is_Some (fans !! i) /\ is_Some (pwms !! i))) (seqZ 0 (Z.of_nat (size fans))) = true ->
    numbered fans pwms).
  { intros fans pwms Hb i Hi. exact (forall_range (fun i => is_Some (fans !! i) /\ is_Some (pwms !! i)) 0 _ Hb i Hi). }
  split_and!; apply Hn; by vm_compute.
Qed.
