(* ===== verification/Fan.v ===== *)
(** * Fans over hwmon and the fan RPC (pkg/bmc/fan.go, GetFans of pkg/bmc/grpc.go)

    The hwmon files are a parameter: reading one gives the bytes of one [Read], or
    an error.  [int] has [w] bits.  The percentage is computed in IEEE binary32,
    as [float32] does. *)

From Stdlib Require Import Floats.SpecFloat.
From S2P Require Import Prelude GoMonad GoStrings Quanta.
#[local] Open Scope string_scope.
#[local] Open Scope list_scope.
#[local] Open Scope Z_scope.

(** ** float32 *)

(** [float32(z)], products and quotients, rounded to nearest even. *)
Definition f32_of_int (z : Z) : spec_float := binary_normalize 24 128 z 0 false.
Definition f32_mul : spec_float -> spec_float -> spec_float := SFmul 24 128.
Definition f32_div : spec_float -> spec_float -> spec_float := SFdiv 24 128.

(** [int(f)]: truncation towards zero; [None] for infinities and NaN, whose
    conversion the language leaves open. *)
Definition int_of_f32 (f : spec_float) : option Z :=
  match f with
  | S754_zero _ => Some 0
  | S754_finite s m e =>
      let a := if decide (0 <= e) then Zpos m * 2 ^ e else Zpos m / 2 ^ (- e) in
      Some (if s then - a else a)
  | _ => None
  end.

(** ** Numbers in files *)

(** [strings.Trim(s, "\n")]. *)
Definition newline : Ascii.ascii := byte_chr 10.

Fixpoint trim_left (s : string) : string :=
  match s with
  | String c s' => if decide (c = newline) then trim_left s' else s
  | EmptyString => EmptyString
  end.

Fixpoint trim_right (s : string) : string :=
  match s with
  | EmptyString => EmptyString
  | String c s =>
      match trim_right s with
      | EmptyString => if decide (c = newline) then EmptyString else String c EmptyString
      | s' => String c s'
      end
  end.

Definition Trim (s : string) : string := trim_right (trim_left s).

(** ** The fan system *)

Record FanSystem : Type := mk_fans { fanMap : gmap Z string; pwmMap : gmap Z string }.

(** [startFan] on the platform's tables. *)
Definition startFan (FanMap PwmMap : gmap Z string) : FanSystem := mk_fans FanMap PwmMap.

Section Hwmon.
Context (w : Z) (read_file : string -> result string).

Definition readHwmon (m : gmap Z string) (fan : Z) : result Z :=
  match m !! fan with
  | None => Err "no such fan"
  | Some fname =>
      match read_file fname with
      | Err e => Err e
      | Ok b => Atoi w (Trim b)
      end
  end.

(** [writeHwmon(m, fan, v)]: the file and what is written to it. *)
Definition writeHwmon (m : gmap Z string) (fan v : Z) : result (string * string) :=
  match m !! fan with
  | None => Err "no such fan"
  | Some fname => Ok (fname, itoa v)
  end.

Definition ReadFanRpm (f : FanSystem) (fan : Z) : result Z := readHwmon (fanMap f) fan.

Definition FanCount (f : FanSystem) : Z := Z.of_nat (size (fanMap f)).

(** The result is [None] when the language leaves the conversion open. *)
Definition ReadFanPercentage (f : FanSystem) (fan : Z) : result (option Z) :=
  match readHwmon (pwmMap f) fan with
  | Err e => Err e
  | Ok v => Ok (int_of_f32 (f32_div (f32_mul (f32_of_int v) (f32_of_int 100)) (f32_of_int 255)))
  end.

(** ** [GetFans] *)

Record pb_Fan : Type := mk_pb_Fan { pb_fan : Z; pb_percentage : Z; pb_rpm : Z }.

(** The iterations [i, i + 1, ..., i + n - 1] of the loop. *)
Fixpoint fan_loop (f : FanSystem) (i : Z) (n : nat) (acc : list pb_Fan) : result (list pb_Fan) :=
  match n with
  | O => Ok acc
  | S n =>
      match ReadFanRpm f i with
      | Err e => Err e
      | Ok rpm =>
          match ReadFanPercentage f i with
          | Err e => Err e
          | Ok prct =>
              fan_loop f (i + 1) n
                (acc ++ [mk_pb_Fan (uint 32 i) (uint 32 (default 0 prct)) (uint 32 rpm)])
          end
      end
  end.

Definition GetFans (f : FanSystem) : result (list pb_Fan) :=
  fan_loop f 0 (Z.to_nat (FanCount f)) [].
End Hwmon.

(** ** Reading back what the kernel prints *)

Lemma trim_right_digits s : str_forall is_digit s -> trim_right (s +:+ String newline EmptyString) = s.
Proof.
  induction s as [|c s IH]; [done|]. intros [Hc Hs].
  change (String c s +:+ String newline EmptyString) with (String c (s +:+ String newline EmptyString)).
  cbn [trim_right]. rewrite IH by done. destruct s as [|c' s]; [|done].
  rewrite decide_False; [done|]. by apply digit_ne.
Qed.

Lemma itoa_digits n : 0 <= n -> str_forall is_digit (itoa n).
Proof. intros Hn. unfold itoa. rewrite decide_False by lia. by apply digits_are_digits. Qed.

Lemma trim_left_digit c s : is_digit c -> trim_left (String c s) = String c s.
Proof.
  intros Hc. cbn [trim_left]. rewrite decide_False; [done|]. by apply digit_ne.
Qed.

Lemma Trim_line n : 0 <= n -> Trim (itoa n +:+ String newline EmptyString) = itoa n.
Proof.
  intros Hn. pose proof (itoa_digits n Hn) as Hd. destruct (itoa_head n Hn) as (c & s & E & Hc).
  unfold Trim. rewrite E.
  change (String c s +:+ String newline EmptyString) with (String c (s +:+ String newline EmptyString)).
  rewrite trim_left_digit by done. rewrite E in Hd. exact (trim_right_digits (String c s) Hd).
Qed.

Lemma readHwmon_line w rf m fan fname n :
  0 < w -> 0 <= n < 2 ^ (w - 1) -> m !! fan = Some fname ->
  rf fname = Ok (itoa n +:+ String newline EmptyString) -> readHwmon w rf m fan = Ok n.
Proof. intros Hw Hn Hm Hr. unfold readHwmon. rewrite Hm, Hr, Trim_line by lia. by apply Atoi_itoa. Qed.

(** The float computation is exact on duty cycles. *)
Lemma percentage_exact v : 0 <= v < 256 ->
  int_of_f32 (f32_div (f32_mul (f32_of_int v) (f32_of_int 100)) (f32_of_int 255)) = Some (v * 100 / 255).
Proof.
  revert v. apply (forall_range (fun v =>
    int_of_f32 (f32_div (f32_mul (f32_of_int v) (f32_of_int 100)) (f32_of_int 255)) = Some (v * 100 / 255)) 0 256).
  by vm_compute.
Qed.

(** For every duty cycle the kernel can report, [ReadFanPercentage] gives the
    percentage rounded down, between 0 and 100, despite computing in float32. *)
Theorem ReadFanPercentage_exact w rf f fan fname v :
  32 <= w -> 0 <= v <= 255 -> pwmMap f !! fan = Some fname ->
  rf fname = Ok (itoa v +:+ String newline EmptyString) ->
  ReadFanPercentage w rf f fan = Ok (Some (v * 100 / 255)) /\ 0 <= v * 100 / 255 <= 100.
Proof.
  intros Hw Hv Hm Hr. unfold ReadFanPercentage.
  assert (2 ^ 31 <= 2 ^ (w - 1)) by (apply Z.pow_le_mono_r; lia).
  rewrite (readHwmon_line w rf _ fan fname v) by (done || lia). rewrite percentage_exact by lia.
  split; [done|]. split; [apply Z.div_pos; lia|]. apply Z.lt_succ_r, Z.div_lt_upper_bound; lia.
Qed.

(** A fan whose files hold a speed and a duty cycle. *)
Definition fan_reads (rf : string -> result string) (f : FanSystem) (i : Z) (vr : Z * Z) : Prop :=
  0 <= vr.1 <= 255 /\ 0 <= vr.2 < 2 ^ 31 /\
  (exists fn, fanMap f !! i = Some fn /\ rf fn = Ok (itoa vr.2 +:+ String newline EmptyString)) /\
  (exists pn, pwmMap f !! i = Some pn /\ rf pn = Ok (itoa vr.1 +:+ String newline EmptyString)).

Lemma fan_loop_spec w rf f vs : forall i acc,
  32 <= w -> (forall j v, vs !! j = Some v -> fan_reads rf f (i + Z.of_nat j) v) ->
  0 <= i -> i + Z.of_nat (length vs) < 2 ^ 32 ->
  fan_loop w rf f i (length vs) acc =
  Ok (acc ++ imap (fun j v => mk_pb_Fan (i + Z.of_nat j) (v.1 * 100 / 255) v.2) vs).
Proof.
  induction vs as [|[v r] vs IH]; intros i acc Hw Hvs Hi Hlt; cbn [length fan_loop]; [by rewrite app_nil_r|].
  destruct (Hvs O (v, r) eq_refl) as (Hv & Hr & (fn & Hfn & Hrf) & (pn & Hpn & Hrp)). cbn [fst snd] in *.
  rewrite Z.add_0_r in *. assert (2 ^ 31 <= 2 ^ (w - 1)) by (apply Z.pow_le_mono_r; lia).
  unfold ReadFanRpm, ReadFanPercentage.
  rewrite (readHwmon_line w rf _ i fn r), (readHwmon_line w rf _ i pn v) by (done || lia).
  rewrite percentage_exact by lia. cbn [length] in Hlt.
  assert (0 <= v * 100 / 255 < 256) by (split; [apply Z.div_pos; lia|apply Z.div_lt_upper_bound; lia]).
  rewrite IH; [|done| |lia|lia].
  - rewrite <- app_assoc. cbn [imap app]. simpl. rewrite Z.add_0_r, !uint_id by (unfold is_uint; lia).
    do 3 f_equal. apply imap_ext. intros j [v' r'] _. simpl. f_equal. lia.
  - intros j v' Hj. replace (i + 1 + Z.of_nat j) with (i + Z.of_nat (S j)) by lia. by apply Hvs.
Qed.

(** [GetFans] reports every fan of the board, in order, with its speed and
    its duty cycle in percent, when the board's maps are numbered from 0. *)
Theorem GetFans_correct w rf f (vs : list (Z * Z)) :
  32 <= w -> FanCount f = Z.of_nat (length vs) -> Z.of_nat (length vs) < 2 ^ 32 ->
  (forall j v, vs !! j = Some v -> fan_reads rf f (Z.of_nat j) v) ->
  GetFans w rf f = Ok (imap (fun j v => mk_pb_Fan (Z.of_nat j) (v.1 * 100 / 255) v.2) vs).
Proof.
  intros Hw Hc Hlt Hvs. unfold GetFans. rewrite Hc, Nat2Z.id.
  rewrite (fan_loop_spec w rf f vs 0 []) by (done || lia). done.
Qed.

(** ** The Quanta board's fans *)

Definition sim_read (fname : string) : result string :=
  if decide (fname = "/sys/class/hwmon/hwmon0/pwm1") then Ok (itoa 128 +:+ String newline EmptyString)
  else if decide (fname = "/sys/class/hwmon/hwmon0/pwm2") then Ok (itoa 255 +:+ String newline EmptyString)
  else if decide (fname = "/sys/class/hwmon/hwmon0/fan1_input") then Ok (itoa 4200 +:+ String newline EmptyString)
  else if decide (fname = "/sys/class/hwmon/hwmon0/fan3_input") then Ok (itoa 9000 +:+ String newline EmptyString)
  else Err "no such file".

Lemma ReadFanPercentage_exact_witness :
  ReadFanPercentage 32 sim_read (startFan FanMap PwmMap) 0 = Ok (Some 50).
Proof.
  assert (E : 128 * 100 / 255 = 50) by reflexivity. rewrite <- E.
  apply (ReadFanPercentage_exact 32 sim_read (startFan FanMap PwmMap) 0 "/sys/class/hwmon/hwmon0/pwm1" 128);
    (lia || vm_compute; reflexivity).
Defined.

Lemma GetFans_correct_witness :
  GetFans 32 sim_read (startFan FanMap PwmMap) = Ok [mk_pb_Fan 0 50 4200; mk_pb_Fan 1 100 9000].
Proof.
  apply (GetFans_correct 32 sim_read (startFan FanMap PwmMap) [(128, 4200); (255, 9000)]).
  - lia.
  - reflexivity.
  - reflexivity.
  - intros [|[|j]] v Hv; [injection Hv as <-..|discriminate];
      (split_and!; [simpl; lia..| |]; eexists; (split; vm_compute; reflexivity)).
Defined.
