(* ===== verification/Dns.v ===== *)
(** * The DNS responder (pkg/bmc/dns.go)

    Answers the ACME dns-01 challenge that the certificate manager publishes.  A
    message is what [Reply] reads and sets of it: the question names, the response
    code and the answers. *)

From S2P Require Import Prelude.
#[local] Open Scope string_scope.
#[local] Open Scope list_scope.
#[local] Open Scope Z_scope.

Definition RcodeSuccess : Z := 0.
Definition RcodeNameError : Z := 3.

(** A TXT record: header name and time to live, and its strings. *)
Record TXT : Type := mk_TXT { Name : string; Ttl : Z; Txt : list string }.

Record dnsServer : Type := mk_dns { zone : string; chal : option TXT }.

Record reply : Type := mk_reply { Authoritative : bool; Rcode : Z; Answer : list TXT }.

(** The state that [startDNS(fqdn, a)] serves with. *)
Definition startDNS (fqdn : string) : dnsServer := mk_dns (fqdn +:+ ".") None.

(** It always returns nil. *)
Definition HandleDNS01Challenge (fqdn record : string) (s : dnsServer) : dnsServer :=
  mk_dns (zone s) (Some (mk_TXT (fqdn +:+ ".") 60 [record])).

(** [Reply] to a message with the questions [qs]. *)
Definition Reply (s : dnsServer) (qs : list string) : reply :=
  match qs with
  | [q] =>
      if decide (q = zone s) then mk_reply true RcodeNameError []
      else match chal s with
           | Some c => if decide (q = Name c) then mk_reply true RcodeSuccess [c]
                       else mk_reply true RcodeNameError []
           | None => mk_reply true RcodeNameError []
           end
  | _ => mk_reply true RcodeNameError []
  end.

Lemma length_append (a b : string) : String.length (a +:+ b) = (String.length a + String.length b)%nat.
Proof. induction a as [|c a IH]; [done|]. exact (f_equal S IH). Qed.

Lemma challenge_name_ne_zone fqdn : ("_acme-challenge." +:+ fqdn) +:+ "." <> fqdn +:+ ".".
Proof.
  intros E. apply (f_equal String.length) in E. rewrite !length_append in E. simpl in E. lia.
Qed.

(** What the responder of the zone answers once a challenge was published. *)
Lemma Reply_published fqdn record s qs : zone s = fqdn +:+ "." ->
  Reply (HandleDNS01Challenge ("_acme-challenge." +:+ fqdn) record s) qs =
    if decide (qs = [("_acme-challenge." +:+ fqdn) +:+ "."])
    then mk_reply true RcodeSuccess [mk_TXT (("_acme-challenge." +:+ fqdn) +:+ ".") 60 [record]]
    else mk_reply true RcodeNameError [].
Proof.
  intros Hz. unfold Reply. cbn [zone HandleDNS01Challenge]. rewrite Hz.
  destruct qs as [|q [|q' qs]]; try (by rewrite decide_False). cbn [chal HandleDNS01Challenge Name].
  destruct (decide (q = ("_acme-challenge." +:+ fqdn) +:+ ".")) as [->|Hq].
  - rewrite decide_False by apply challenge_name_ne_zone. by rewrite decide_True.
  - rewrite (decide_False (P := [q] = _)) by congruence. by case_decide.
Qed.

Lemma zone_challenges earlier : forall s,
  zone (foldl (fun s c => HandleDNS01Challenge c.1 c.2 s) s earlier) = zone s.
Proof. induction earlier as [|c l IH]; intros s; [done|]. cbn [foldl]. by rewrite IH. Qed.

(** After the certificate manager handed the record of a challenge for
    _acme-challenge.<FQDN> to the responder, however many challenges came before,
    a query for that name alone is answered with that record and nothing else, and
    every other query with a name error. *)
Theorem dns_answers_challenge (fqdn record : string) (earlier : list (string * string)) (qs : list string) :
  let s := HandleDNS01Challenge ("_acme-challenge." +:+ fqdn) record
             (foldl (fun s c => HandleDNS01Challenge c.1 c.2 s) (startDNS fqdn) earlier) in
  Reply s qs =
    if decide (qs = [("_acme-challenge." +:+ fqdn) +:+ "."])
    then mk_reply true RcodeSuccess [mk_TXT (("_acme-challenge." +:+ fqdn) +:+ ".") 60 [record]]
    else mk_reply true RcodeNameError [].
Proof. intros s. apply Reply_published. by rewrite zone_challenges. Qed.
