(* ===== verification/Time.v ===== *)
(** * Trusted time (pkg/bmc/ttime/roughtime.go)

    Times and durations are nanoseconds.  The base64 decoder, the roughtime
    client and the NTP client are parameters.  The goroutines of
    [getOneRoughtime] finish in some order, which is an argument; the channel [cr] has the capacity the
    source gives it, and a send that finds it full blocks. *)

From S2P Require Import Prelude GoMonad.
#[local] Open Scope string_scope.
#[local] Open Scope list_scope.
#[local] Open Scope Z_scope.

Record RoughtimeServer : Type := mk_server {
  Protocol : string; Address : string; PublicKey : string; PublicKeyType : string }.

(** [roughtime.Roughtime]: its midpoint, and its radius in microseconds (a
    uint32). *)
Record Roughtime : Type := mk_roughtime { Midpoint : Z; Radius : Z }.

Definition ROUGHTIME_ATTEMPTS : Z := 3.
Definition second : Z := 10 ^ 9.
Definition microsecond : Z := 10 ^ 3.
Definition ROUGHTIME_TIMEOUT : Z := 15 * second.

Section Clients.
(** [base64.StdEncoding.DecodeString] and [roughtime.Get] on the server's
    address, protocol, key type and decoded key. *)
Context (decode : string -> result (list Z)).
Context (Get : RoughtimeServer -> list Z -> result Roughtime).

(** The servers whose goroutine is started, with the result it will have. *)
Definition contacted (rs : list RoughtimeServer) : list (result Roughtime) :=
  omap (fun r => match decode (PublicKey r) with
                 | Ok pk => Some (Get r pk)
                 | Err _ => None
                 end) rs.

Definition failed (r : result Roughtime) : bool :=
  match r with Err _ => true | Ok _ => false end.

(** The channel [cr], from which one value is received: the values that were sent, in
    order, and how many goroutines are blocked in a send. *)
Record sending : Type := mk_sending { sent : list (option Roughtime); blocked : nat }.

(** [cr <- v] on a channel with room for [cap] values besides the one that is received. *)
Definition send (cap : nat) (c : sending) (v : option Roughtime) : sending :=
  if decide (length (sent c) <= cap)%nat then mk_sending (sent c ++ [v]) (blocked c)
  else mk_sending (sent c) (S (blocked c)).

(** The goroutines that finish in the order [fin] send their answers as they come. *)
Definition send_answers (cap : nat) (fin : list (result Roughtime)) (c : sending) : sending :=
  foldl (fun c r => match r with Ok rt => send cap c (Some rt) | Err _ => c end) c fin.

(** All of [cr]: [g.Wait()] returns when no goroutine is blocked, and nil is sent when it
    returned an error. *)
Definition queue (cap : nat) (fin : list (result Roughtime)) : sending :=
  let c := send_answers cap fin (mk_sending [] 0) in
  if existsb failed fin && bool_decide (blocked c = O) then send cap c None else c.

(** [cr := make(chan *roughtime.Roughtime, len(rs))] and [return <-cr]. *)
Definition getOneRoughtime (rs : list RoughtimeServer) (fin : list (result Roughtime)) : outcome (option Roughtime) :=
  match sent (queue (length rs) fin) with
  | rt :: _ => Ret rt
  | [] => Blocked
  end.

(** An NTP server's answer and the time since [start] when it came. *)
Record ntp_answer : Type := mk_ntp { ntp_time : result Z; since_start : Z }.

(** The loop over the NTP servers. *)
Fixpoint first_ntp (earliest latest : Z) (ntps : list ntp_answer) : option Z :=
  match ntps with
  | [] => None
  | n :: ntps =>
      match ntp_time n with
      | Err _ => first_ntp earliest latest ntps
      | Ok t =>
          let diff := since_start n in
          let ct := t + diff * -1 in
          if decide (ct > latest) then first_ntp earliest latest ntps
          else if decide (t < earliest) then first_ntp earliest latest ntps
          else Some t
      end
  end.

Definition AcquireTime (rs : list RoughtimeServer) (fin : list (result Roughtime)) (ntps : list ntp_answer) : outcome (result Z) :=
  match getOneRoughtime rs fin with
  | Ret None => Ret (Err "no roughtime servers available")
  | Ret (Some rt) =>
      let midpoint := Midpoint rt in
      let radius := sint 64 (Radius rt * microsecond) in
      let earliest := midpoint + radius * -1 in
      let latest := midpoint + radius in
      match first_ntp earliest latest ntps with
      | Some t => Ret (Ok t)
      | None => Ret (Ok midpoint)
      end
  | Panic => Panic | Exit => Exit | Blocked => Blocked
  end.
End Clients.

(** ** [acquireTime] (pkg/bmc/system.go) *)

(** The loop of [acquireTime] over the results of [ttime.AcquireTime]: the time
    given to [Settimeofday] and the number of waits; more than [fuel] attempts
    are not followed. *)
Fixpoint acquireTime (fuel : nat) (attempts : nat -> outcome (result Z)) (waits : nat) : outcome (Z * nat) :=
  match fuel with
  | O => Blocked
  | S fuel =>
      match attempts waits with
      | Ret (Ok t) => Ret (t, waits)
      | Ret (Err _) => acquireTime fuel attempts (S waits)
      | Panic => Panic | Exit => Exit | Blocked => Blocked
      end
  end.

(** ** Roughtime *)

(** The answers among the results of the goroutines. *)
Definition answers (l : list (result Roughtime)) : list Roughtime :=
  omap (fun r => match r with Ok rt => Some rt | Err _ => None end) l.

Lemma no_answers fin :
  answers fin = [] -> fin <> [] -> existsb failed fin = true.
Proof. destruct fin as [|[e|rt] fin]; [done|done|discriminate]. Qed.

(** Values sent: one per answer, and at most one more when there was a failure. *)
Lemma answers_length fin : (length (answers fin) + (if existsb failed fin then 1 else 0) <= length fin)%nat.
Proof.
  unfold answers. induction fin as [|[e|rt] fin IH]; [done| |]; unfold omap in *; simpl in *; [|lia].
  destruct (existsb failed fin); lia.
Qed.

Lemma send_answers_room cap fin : forall c, (length (sent c) + length (answers fin) <= S cap)%nat ->
  send_answers cap fin c = mk_sending (sent c ++ (Some <$> answers fin)) (blocked c).
Proof.
  induction fin as [|[e|rt] fin IH]; intros [l n] Hl; [cbn; by rewrite app_nil_r|by apply IH|].
  change (answers (Ok rt :: fin)) with (rt :: answers fin) in *. cbn in Hl.
  change (send_answers cap (Ok rt :: fin) (mk_sending l n)) with (send_answers cap fin (send cap (mk_sending l n) (Some rt))).
  unfold send. cbn [sent blocked]. rewrite decide_True, IH by (cbn; rewrite ?length_app; cbn; lia). cbn. by rewrite <- app_assoc.
Qed.

(** With room for every server nobody is blocked: the answers are sent in order, and nil
    after them when there was a failure. *)
Lemma queue_answers cap fin : (length fin <= cap)%nat ->
  queue cap fin = mk_sending ((Some <$> answers fin) ++ (if existsb failed fin then [None] else [])) 0.
Proof.
  intros Hl. pose proof (answers_length fin) as Ha. unfold queue. rewrite send_answers_room by (cbn; lia). cbn [sent blocked app].
  rewrite bool_decide_eq_true_2, andb_true_r by done. destruct (existsb failed fin); [|by rewrite app_nil_r].
  unfold send. cbn [sent blocked]. rewrite length_fmap, decide_True by lia. done.
Qed.

Lemma contacted_length decode Get rs fin : fin ≡ₚ contacted decode Get rs -> (length fin <= length rs)%nat.
Proof.
  intros ->%Permutation_length. unfold contacted. induction rs as [|r rs IH]; simpl; [lia|]. unfold omap in IH.
  destruct (decode (PublicKey r)); simpl; lia.
Qed.

Lemma answers_perm l l' : l ≡ₚ l' -> answers l ≡ₚ answers l'.
Proof. intros Hp. unfold answers. by rewrite Hp. Qed.


(** When no server has a decodable key (or none is configured) [g.Wait()]
    returns nil, nothing is ever sent on [cr], and [AcquireTime] blocks. *)
Theorem getOneRoughtime_deadlock decode Get rs fin ntps :
  (forall r, r ∈ rs -> exists e, decode (PublicKey r) = Err e) ->
  fin ≡ₚ contacted decode Get rs ->
  getOneRoughtime rs fin = Blocked /\ AcquireTime rs fin ntps = Blocked.
Proof.
  intros Hbad Hp. assert (Hnil : contacted decode Get rs = []).
  { clear Hp. induction rs as [|r rs IH]; [done|]. unfold contacted in *. simpl.
    destruct (Hbad r ltac:(by left)) as [e ->]. apply IH. intros r' Hr'. apply Hbad. by right. }
  rewrite Hnil in Hp. apply Permutation_nil_r in Hp as ->. done.
Qed.

(** ** The NTP window *)

(** A roughtime radius fits a duration. *)
Lemma radius_ns r : is_uint 32 r -> sint 64 (r * microsecond) = r * microsecond.
Proof. intros Hr. apply sint_id; [lia|]. unfold is_uint in Hr. unfold is_sint, microsecond. lia. Qed.

(** The test of the loop. *)
Definition accepted (earliest latest : Z) (n : ntp_answer) (t : Z) : Prop :=
  ntp_time n = Ok t /\ t - since_start n <= latest /\ earliest <= t.

Lemma first_ntp_spec earliest latest ntps :
  match first_ntp earliest latest ntps with
  | Some t => exists l1 n l2, ntps = l1 ++ n :: l2 /\ accepted earliest latest n t /\
                forall n' t', n' ∈ l1 -> ~ accepted earliest latest n' t'
  | None => forall n t, n ∈ ntps -> ~ accepted earliest latest n t
  end.
Proof.
  induction ntps as [|n ntps IH]; simpl; [by intros n t []%not_elem_of_nil|].
  assert (Hskip : (forall t, ~ accepted earliest latest n t) ->
    match first_ntp earliest latest ntps with
    | Some t => exists l1 n0 l2, n :: ntps = l1 ++ n0 :: l2 /\ accepted earliest latest n0 t /\
                  forall n' t', n' ∈ l1 -> ~ accepted earliest latest n' t'
    | None => forall n0 t, n0 ∈ n :: ntps -> ~ accepted earliest latest n0 t
    end).
  { intros Hn. destruct (first_ntp earliest latest ntps) as [t|].
    - destruct IH as (l1 & n0 & l2 & -> & Ha & Hno). exists (n :: l1), n0, l2. split_and!; [done..|].
      intros n' t' [->|Hin]%elem_of_cons; [apply Hn|by apply Hno].
    - intros n' t' [->|Hin]%elem_of_cons; [apply Hn|by apply IH]. }
  destruct (ntp_time n) as [e|t] eqn:Et; [apply Hskip; intros t (H & _); congruence|].
  case_decide; [apply Hskip; intros t' (Ht & ? & ?); assert (t' = t) by congruence; lia|].
  case_decide; [apply Hskip; intros t' (Ht & ? & ?); assert (t' = t) by congruence; lia|].
  exists [], n, ntps. split_and!; [done|unfold accepted; split_and!; [done|lia|lia]|].
  by intros n' t' []%not_elem_of_nil.
Qed.

(** [AcquireTime] returns the time of the first NTP server that passes the
    test against the roughtime window, and the roughtime midpoint when none does;
    an NTP time it returns is at most the elapsed time after the window's end and
    not before its start. *)
Theorem AcquireTime_correct rs fin ntps rt :
  getOneRoughtime rs fin = Ret (Some rt) -> is_uint 32 (Radius rt) ->
  let earliest := Midpoint rt - Radius rt * microsecond in
  let latest := Midpoint rt + Radius rt * microsecond in
  exists t, AcquireTime rs fin ntps = Ret (Ok t) /\
    ((t = Midpoint rt /\ forall n t', n ∈ ntps -> ~ accepted earliest latest n t') \/
     (exists l1 n l2, ntps = l1 ++ n :: l2 /\ accepted earliest latest n t /\
        forall n' t', n' ∈ l1 -> ~ accepted earliest latest n' t')).
Proof.
  intros Hg Hr earliest latest. unfold AcquireTime. rewrite Hg. cbv zeta. rewrite radius_ns by done.
  replace (Midpoint rt + Radius rt * microsecond * -1) with earliest by (unfold earliest; lia).
  fold latest. pose proof (first_ntp_spec earliest latest ntps) as Hf.
  destruct (first_ntp earliest latest ntps) as [t|].
  - exists t. split; [done|]. by right.
  - exists (Midpoint rt). split; [done|]. by left.
Qed.

(** The lower end of the window is not tested on the rewound time: a time
    that, rewound to when the roughtime was valid, lies before the window is
    accepted if by now it has entered it. *)
Theorem AcquireTime_accepts_early rs fin ntps rt t e diff :
  getOneRoughtime rs fin = Ret (Some rt) -> is_uint 32 (Radius rt) ->
  e = Midpoint rt - Radius rt * microsecond ->
  e <= t <= Midpoint rt + Radius rt * microsecond -> t - diff < e -> 0 <= diff ->
  AcquireTime rs fin (mk_ntp (Ok t) diff :: ntps) = Ret (Ok t).
Proof.
  intros Hg Hr -> Ht He Hd. unfold AcquireTime. rewrite Hg.
  cbv zeta. rewrite radius_ns by done. cbn [first_ntp ntp_time since_start]. rewrite !decide_False by lia. done.
Qed.

(** ** Concrete runs *)

Module SimTime.
Definition decode (k : string) : result (list Z) :=
  if decide (k = "") then Err "illegal base64 data" else Ok [1; 2; 3].

(** Of three servers one has a corrupt key, one does not answer. *)
Definition Get (r : RoughtimeServer) (pk : list Z) : result Roughtime :=
  if decide (Address r = "up") then Ok (mk_roughtime (2 * second) 1000000) else Err "timeout".

Definition srv (addr key : string) : RoughtimeServer := mk_server "udp" addr key "ed25519".
Definition servers : list RoughtimeServer := [srv "down" "AQID"; srv "up" ""; srv "up" "AQID"].
End SimTime.

Import SimTime.


Lemma getOneRoughtime_deadlock_witness :
  getOneRoughtime [srv "up" ""] (contacted SimTime.decode SimTime.Get [srv "up" ""]) = Blocked /\
  AcquireTime [srv "up" ""] (contacted SimTime.decode SimTime.Get [srv "up" ""]) [] = Blocked.
Proof.
  apply (getOneRoughtime_deadlock SimTime.decode SimTime.Get [srv "up" ""]); [|reflexivity].
  intros r Hr. apply list_elem_of_singleton in Hr as ->. eexists. reflexivity.
Defined.

Lemma AcquireTime_correct_witness :
  exists t, AcquireTime servers (contacted SimTime.decode SimTime.Get servers)
    [mk_ntp (Err "timeout") 0; mk_ntp (Ok (9 * second)) second; mk_ntp (Ok (3 * second)) second] = Ret (Ok t).
Proof.
  destruct (AcquireTime_correct servers (contacted SimTime.decode SimTime.Get servers)
    [mk_ntp (Err "timeout") 0; mk_ntp (Ok (9 * second)) second; mk_ntp (Ok (3 * second)) second]
    (mk_roughtime (2 * second) 1000000)) as (t & Ht & _).
  - vm_compute. reflexivity.
  - vm_compute. split; [discriminate|reflexivity].
  - exists t. exact Ht.
Defined.

Lemma AcquireTime_accepts_early_witness :
  AcquireTime servers (contacted SimTime.decode SimTime.Get servers) [mk_ntp (Ok second) (5 * second)] = Ret (Ok second).
Proof.
  apply (AcquireTime_accepts_early servers (contacted SimTime.decode SimTime.Get servers) []
    (mk_roughtime (2 * second) 1000000) second second (5 * second));
    vm_compute; try done; split; discriminate.
Defined.
