(* ===== verification/Cert.v ===== *)
(** * Certificates (pkg/bmc/cert/load.go)

    Validation and renewal of the TLS certificate and the storage of keys.  The
    file system (afero), the X.509, PEM and ECDSA packages and the ACME client are
    parameters; times are nanoseconds. *)

From S2P Require Import Prelude GoMonad.
#[local] Open Scope string_scope.
#[local] Open Scope list_scope.
#[local] Open Scope Z_scope.

Definition hour : Z := 3600 * 10 ^ 9.
Definition lifetimePadding : Z := -4 * hour.

Definition mode_0644 : Z := 6 * 64 + 4 * 8 + 4.
Definition mode_0600 : Z := 6 * 64.
Definition mode_0400 : Z := 4 * 64.

(** [tls.Certificate]: its DER chain and its private key. *)
Record Certificate (key : Type) : Type := mk_cert { chain : list (list Z); PrivateKey : key }.
Arguments mk_cert {key} _ _.
Arguments chain {key} _.
Arguments PrivateKey {key} _.

(** The validity of an X.509 certificate. *)
Record validity : Type := mk_validity { NotBefore : Z; NotAfter : Z }.

(** A file system: [ReadFile] gives the content, or an error that may be
    [os.IsNotExist]; [WriteFile] creates or replaces the file. *)
Inductive read_result : Type := RData (b : list Z) | RNotExist | RError (b : list Z) (e : error).

Class Fs (F : Type) : Type := {
  ReadFile : F -> string -> read_result;
  WriteFile : string -> list Z -> Z -> M F (result unit);
}.

(** What a working file system does: a file that was written is read back, and
    the other files are as before. *)
Class FsLaws (F : Type) `{Fs F} : Prop := {
  write_read : forall fs f b mode fs', WriteFile f b mode fs = (Ret (Ok tt), fs') -> ReadFile fs' f = RData b;
  write_other : forall fs f b mode r fs' g, WriteFile f b mode fs = (r, fs') -> g <> f -> ReadFile fs' g = ReadFile fs g;
  write_returns : forall fs f b mode, exists r fs', WriteFile f b mode fs = (Ret r, fs');
}.

(** The packages x509, pem and ecdsa. *)
Class Crypto (key : Type) : Type := {
  ParseCertificate : list Z -> result validity;
  ParseECPrivateKey : list Z -> result key;
  MarshalECPrivateKey : key -> result (list Z);
  pem_Encode : string -> list Z -> result (list Z);
}.

Section Certs.
Context {key : Type} `{Crypto key}.

(** [validateCert(ct, now)]; [None] is the nil pointer. *)
Definition validateCert (ct : option (Certificate key)) (now : Z) : bool :=
  match ct with
  | None => false
  | Some c =>
      match chain c with
      | [] => false
      | der :: _ =>
          match ParseCertificate der with
          | Err _ => false
          | Ok v =>
              if decide (NotBefore v > now) then false
              else if decide (NotAfter v + lifetimePadding < now) then false
              else true
          end
      end
  end.

(** [maybeRenew(n, kp)] over the renewal. *)
Definition maybeRenew {S} (renew : M S (result (Certificate key))) (n : Z)
    (kp : option (Certificate key)) : M S (result (option (Certificate key))) :=
  if validateCert kp n then mret (Ok kp)
  else
    r ← renew;
    mret match r with Err e => Err e | Ok kp => Ok (Some kp) end.

(** [encodeCert(der)]: the PEM blocks of the chain, one after the other. *)
Fixpoint encode_blocks (res : list Z) (der : list (list Z)) : result (list Z) :=
  match der with
  | [] => Ok res
  | c :: der =>
      match pem_Encode "CERTIFICATE" c with
      | Err e => Err e
      | Ok b => encode_blocks (res ++ b) der
      end
  end.

Definition encodeCert (der : list (list Z)) : result (list Z) := encode_blocks [] der.

Definition encodeKey (pk : key) : result (list Z) :=
  match MarshalECPrivateKey pk with
  | Err e => Err e
  | Ok der => pem_Encode "EC PRIVATE KEY" der
  end.

Section Files.
Context {F : Type} `{Fs F}.

Definition saveKeyPair (kp : Certificate key) (crt keyf : string) : M F (result unit) :=
  match encodeCert (chain kp) with
  | Err e => mret (Err e)
  | Ok b =>
      r ← WriteFile crt b mode_0644;
      match r with
      | Err e => mret (Err e)
      | Ok _ =>
          match encodeKey (PrivateKey kp) with
          | Err e => mret (Err e)
          | Ok b => WriteFile keyf b mode_0600
          end
      end
  end.

(** [generateAndSaveKey(fs, file)], with the result of [ecdsa.GenerateKey]; the key
    is returned with the result of [WriteFile]. *)
Definition generateAndSaveKey (generated : result key) (file : string) : M F (option key * option error) :=
  match generated with
  | Err e => mret (None, Some e)
  | Ok k =>
      match MarshalECPrivateKey k with
      | Err e => mret (None, Some e)
      | Ok b =>
          r ← WriteFile file b mode_0400;
          mret (Some k, match r with Ok _ => None | Err e => Some e end)
      end
  end.

Definition loadOrGenerateKey (generated : result key) (file : string) : M F (option key * option error) :=
  fs ← get;
  match ReadFile fs file with
  | RNotExist => generateAndSaveKey generated file
  | r =>
      let b := match r with RData b => b | RError b _ => b | RNotExist => [] end in
      mret match ParseECPrivateKey b with
           | Ok k => (Some k, None)
           | Err e => (None, Some e)
           end
  end.
End Files.
End Certs.

(** ** Renewal *)

(** An order: its authorizations and its finalize URL; a challenge: its type and
    token. *)
Record Order : Type := mk_order { Authorizations : list string; FinalizeURL : string }.
Record Challenge : Type := mk_challenge { ch_Type : string; Token : string }.

(** The calls of [renew]. *)
Inductive call (key : Type) : Type :=
| ParseRoots
| CreateAccount
| CreateOrder (fqdn : string)
| GetAuthorization (url : string)
| DNS01ChallengeRecord (token : string)
| HandleDNS01Challenge (handler : nat) (fqdn record : string)
| AcceptChallenge (c : Challenge)
| WaitAuthorization (url : string)
| NewKey
| CreateCSR (fqdn : string) (k : key)
| FinalizeOrder (url : string) (csr : list Z).
Arguments ParseRoots {key}.
Arguments CreateAccount {key}.
Arguments CreateOrder {key} _.
Arguments GetAuthorization {key} _.
Arguments DNS01ChallengeRecord {key} _.
Arguments HandleDNS01Challenge {key} _ _ _.
Arguments AcceptChallenge {key} _.
Arguments WaitAuthorization {key} _.
Arguments NewKey {key}.
Arguments CreateCSR {key} _ _.
Arguments FinalizeOrder {key} _ _.

(** The ACME server, its client and the crypto packages, as the results of those
    calls; [handlers] are the outcomes of the manager's DNS handlers. *)
Record world (key : Type) : Type := mk_world {
  w_roots : bool;
  w_account : result string;
  w_order : string -> result Order;
  w_auth : string -> result (list Challenge);
  w_record : string -> result string;
  w_handlers : list (string -> string -> result unit);
  w_accept : Challenge -> result unit;
  w_wait : string -> result unit;
  w_key : result key;
  w_csr : string -> key -> result (list Z);
  w_finalize : string -> list Z -> result (list (list Z));
}.
Arguments w_roots {key} _.
Arguments w_account {key} _.
Arguments w_order {key} _ _.
Arguments w_auth {key} _ _.
Arguments w_record {key} _ _.
Arguments w_handlers {key} _.
Arguments w_accept {key} _ _.
Arguments w_wait {key} _ _.
Arguments w_key {key} _.
Arguments w_csr {key} _ _ _.
Arguments w_finalize {key} _ _ _.
Arguments mk_world {key} _ _ _ _ _ _ _ _ _ _ _.

Section Renew.
Context {key : Type} (w : world key).

(** [v, err := f(); if err != nil { return nil, err }]. *)
Definition try_ {A B} (c : call key) (r : result A)
    (k : A -> M (list (call key)) (result B)) : M (list (call key)) (result B) :=
  _ ← modify (fun t => t ++ [c]);
  match r with
  | Err e => mret (Err e)
  | Ok a => k a
  end.

(** The first challenge of type dns-01. *)
Fixpoint find_dns01 (cs : list Challenge) : option Challenge :=
  match cs with
  | [] => None
  | ch :: cs => if decide (ch_Type ch = "dns-01") then Some ch else find_dns01 cs
  end.

(** The loop over the handlers: whether one of them handled the challenge. *)
Fixpoint handle_loop (i : nat) (hs : list (string -> string -> result unit)) (fqdn record : string) :
    M (list (call key)) bool :=
  match hs with
  | [] => mret false
  | h :: hs =>
      _ ← modify (fun t => t ++ [HandleDNS01Challenge i fqdn record]);
      match h fqdn record with
      | Ok _ => mret true
      | Err _ => handle_loop (S i) hs fqdn record
      end
  end.

Definition renew (FQDN : string) : M (list (call key)) (result (Certificate key)) :=
  _ ← modify (fun t => t ++ [ParseRoots]);
  if negb (w_roots w) then mret (Err "failed to parse Acme API CA certificate") else
  try_ CreateAccount (w_account w) (fun url =>
  if decide (url = "") then mret (Err "empty na.URL") else
  try_ (CreateOrder FQDN) (w_order w FQDN) (fun order =>
  match Authorizations order with
  | [] => go_panic
  | auth0 :: _ =>
      try_ (GetAuthorization auth0) (w_auth w auth0) (fun challenges =>
      match find_dns01 challenges with
      | None => mret (Err "missing dns-01 challenge")
      | Some challenge =>
          try_ (DNS01ChallengeRecord (Token challenge)) (w_record w (Token challenge)) (fun t =>
          handled ← handle_loop 0 (w_handlers w) ("_acme-challenge." +:+ FQDN) t;
          if negb handled then mret (Err "no DNS01 ACME handler could handle challenge") else
          try_ (AcceptChallenge challenge) (w_accept w challenge) (fun _ =>
          try_ (WaitAuthorization auth0) (w_wait w auth0) (fun _ =>
          try_ NewKey (w_key w) (fun pk =>
          try_ (CreateCSR FQDN pk) (w_csr w FQDN pk) (fun csr =>
          try_ (FinalizeOrder (FinalizeURL order) csr) (w_finalize w (FinalizeURL order) csr) (fun der =>
          mret (Ok (mk_cert der pk)))))))
      ) end)
  end)).
End Renew.

(** ** Validation *)

(** A certificate is kept exactly when its leaf parses and it is valid now
    and for four more hours; otherwise [maybeRenew] returns what the renewal
    returns. *)
Theorem maybeRenew_correct {key} `{Crypto key} {S} (renew : M S (result (Certificate key)))
    (now : Z) (kp : option (Certificate key)) (s : S) :
  (validateCert kp now = true <-> exists c der rest v,
     kp = Some c /\ chain c = der :: rest /\ ParseCertificate der = Ok v /\
     NotBefore v <= now /\ now + 4 * hour <= NotAfter v) /\
  maybeRenew renew now kp s =
    if validateCert kp now then (Ret (Ok kp), s)
    else match renew s with
         | (Ret (Ok c), s') => (Ret (Ok (Some c)), s')
         | (Ret (Err e), s') => (Ret (Err e), s')
         | (Panic, s') => (Panic, s') | (Exit, s') => (Exit, s') | (Blocked, s') => (Blocked, s')
         end.
Proof.
  split.
  - unfold validateCert. split.
    + destruct kp as [c|]; [|done]. destruct (chain c) as [|der rest] eqn:Ec; [done|].
      destruct (ParseCertificate der) as [e|v] eqn:Ev; [done|].
      repeat case_decide; try done. intros _. exists c, der, rest, v. unfold lifetimePadding in *.
      split_and!; (done || lia).
    + intros (c & der & rest & v & -> & -> & -> & Hb & Ha). unfold lifetimePadding in *.
      rewrite !decide_False by lia. done.
  - unfold maybeRenew. destruct (validateCert kp now); [done|].
    unfold mbind, M_bind. by destruct (renew s) as [[[e|c]| | |] s'].
Qed.

(** ** Keys on disk *)

(** A key survives a reboot: after a first start that generated and stored
    the key, [loadOrGenerateKey] finds that key and generates no other. *)
Theorem loadOrGenerateKey_roundtrip {key} `{Crypto key} {F} `{FsLaws F} (k : key) (der : list Z)
    (again : result key) (file : string) (fs fs' : F) :
  MarshalECPrivateKey k = Ok der -> ParseECPrivateKey der = Ok k ->
  ReadFile fs file = RNotExist ->
  loadOrGenerateKey (Ok k) file fs = (Ret (Some k, None), fs') ->
  loadOrGenerateKey again file fs' = (Ret (Some k, None), fs').
Proof.
  intros Hm Hp Hr. unfold loadOrGenerateKey, mbind, M_bind, get. rewrite Hr. cbn.
  unfold mbind, M_bind. rewrite Hm. destruct (WriteFile file der mode_0400 fs) as [[[e|[]]| | |] fs1] eqn:Ew;
    try done. intros [= <-]. by rewrite (write_read _ _ _ _ _ Ew), Hp.
Qed.

(** The two files of the key pair are written in full or the error is
    reported: after a success the certificate file holds the PEM blocks of the
    whole chain in order and the key file the encoded private key. *)
Theorem saveKeyPair_correct {key} `{Crypto key} {F} `{FsLaws F} (kp : Certificate key)
    (crt keyf : string) (fs fs' : F) :
  crt <> keyf -> saveKeyPair kp crt keyf fs = (Ret (Ok tt), fs') ->
  exists blocks kb, Forall2 (fun c b => pem_Encode "CERTIFICATE" c = Ok b) (chain kp) blocks /\
    encodeKey (PrivateKey kp) = Ok kb /\
    ReadFile fs' crt = RData (concat blocks) /\ ReadFile fs' keyf = RData kb.
Proof.
  assert (Henc : forall der res b, encode_blocks res der = Ok b -> exists blocks,
    Forall2 (fun c b => pem_Encode "CERTIFICATE" c = Ok b) der blocks /\ b = res ++ concat blocks).
  { induction der as [|c der IH]; intros res b Hb; simpl in Hb.
    - injection Hb as <-. exists []. split; [constructor|by rewrite app_nil_r].
    - destruct (pem_Encode "CERTIFICATE" c) as [e|b1] eqn:E1; [done|].
      destruct (IH _ _ Hb) as (blocks & Hf & ->). exists (b1 :: blocks).
      split; [by constructor|]. by rewrite <- app_assoc. }
  intros Hne. unfold saveKeyPair, encodeCert. destruct (encode_blocks [] (chain kp)) as [e|b] eqn:Eb; [done|].
  destruct (Henc _ _ _ Eb) as (blocks & Hf & ->). unfold mbind, M_bind.
  destruct (WriteFile crt _ mode_0644 fs) as [[[e|[]]| | |] fs1] eqn:E1; try done.
  destruct (encodeKey (PrivateKey kp)) as [e|kb] eqn:Ek; [done|]. intros E2.
  exists blocks, kb. split_and!; [done..| |by eapply write_read].
  rewrite (write_other _ _ _ _ _ _ crt E2) by done. by eapply write_read.
Qed.

(** ** Renewal *)

Section RenewFacts.
Context {key : Type} (w : world key).

(** The calls to the handlers [i .. i + n). *)
Definition handler_calls (i n : nat) (fqdn record : string) : list (call key) :=
  (fun j => HandleDNS01Challenge j fqdn record) <$> seq i n.

Lemma handle_loop_spec hs fqdn record : forall i t,
  exists (b : bool) n, handle_loop (key:=key) i hs fqdn record t = (Ret b, t ++ handler_calls i n fqdn record) /\
    (b = true -> exists m h, n = S m /\ hs !! m = Some h /\ h fqdn record = Ok tt).
Proof.
  induction hs as [|h hs IH]; intros i t; simpl.
  - exists false, O. by rewrite app_nil_r.
  - unfold mbind, M_bind, modify. destruct (h fqdn record) as [e|[]] eqn:Eh.
    + destruct (IH (S i) (t ++ [HandleDNS01Challenge i fqdn record])) as (b & n & -> & Hb).
      exists b, (S n). split; [by rewrite <- app_assoc|].
      intros Hbt. destruct (Hb Hbt) as (m & h' & -> & Hl & Ho). by exists (S m), h'.
    + exists true, 1%nat. split; [done|]. intros _. by exists O, h.
Qed.

(** The calls of a renewal up to the publication of the challenge. *)
Definition published (FQDN auth0 record : string) (ch : Challenge) (n : nat) : list (call key) :=
  [ParseRoots; CreateAccount; CreateOrder FQDN; GetAuthorization auth0; DNS01ChallengeRecord (Token ch)] ++
  handler_calls 0 (S n) ("_acme-challenge." +:+ FQDN) record.

(** [record] was handed to handler [n], which took it, and it is the record of the
    first dns-01 challenge of the order's first authorization. *)
Definition publishes (FQDN auth0 record : string) (ch : Challenge) (n : nat) (order : Order) : Prop :=
  w_order w FQDN = Ok order /\ head (Authorizations order) = Some auth0 /\
  (exists cs, w_auth w auth0 = Ok cs /\ find_dns01 cs = Some ch) /\
  w_record w (Token ch) = Ok record /\
  (exists h, w_handlers w !! n = Some h /\ h ("_acme-challenge." +:+ FQDN) record = Ok tt).

(** The run ended before a challenge was accepted. *)
Ltac renew_early E := left; eexists _, _; split; [exact (eq_sym E)|];
  split_and!; [done|intros ?; rewrite ?elem_of_cons, ?elem_of_nil|
    intros ? ?; rewrite ?elem_of_cons, ?elem_of_nil]; naive_solver.

Lemma try_eq {A B} (c : call key) (r : result A) (k : A -> M (list (call key)) (result B)) t :
  try_ c r k t = match r with Err e => (Ret (Err e), t ++ [c]) | Ok a => k a (t ++ [c]) end.
Proof. by destruct r. Qed.

(** The next call of the run. *)
Ltac renew_step E := rewrite ?try_eq in E; cbn [app] in E.

(** Every run stops before the challenge is accepted, or has published it. *)
Lemma renew_runs FQDN :
  (exists o t, renew w FQDN [] = (o, t) /\ (forall c, o <> Ret (Ok c)) /\
     (forall c, AcceptChallenge c ∉ t) /\ (forall u csr, FinalizeOrder u csr ∉ t)) \/
  (exists order auth0 record ch n, publishes FQDN auth0 record ch n order /\
     renew w FQDN [] =
       try_ (AcceptChallenge ch) (w_accept w ch) (fun _ =>
       try_ (WaitAuthorization auth0) (w_wait w auth0) (fun _ =>
       try_ NewKey (w_key w) (fun pk =>
       try_ (CreateCSR FQDN pk) (w_csr w FQDN pk) (fun csr =>
       try_ (FinalizeOrder (FinalizeURL order) csr) (w_finalize w (FinalizeURL order) csr) (fun der =>
       mret (Ok (mk_cert der pk))))))) (published FQDN auth0 record ch n)).
Proof.
  destruct (renew w FQDN []) as [o t] eqn:E. unfold renew, mbind, M_bind, modify in E. cbn [app] in E.
  destruct (w_roots w); cbn [negb] in E; [|renew_early E]. renew_step E.
  destruct (w_account w) as [e|url]; [renew_early E|].
  destruct (decide (url = "")) as [Hu|Hu]; [renew_early E|]. renew_step E.
  destruct (w_order w FQDN) as [e|order] eqn:Eo; [renew_early E|].
  destruct (Authorizations order) as [|auth0 auths] eqn:Ea; [renew_early E|]. renew_step E.
  destruct (w_auth w auth0) as [e|cs] eqn:Ecs; [renew_early E|].
  destruct (find_dns01 cs) as [ch|] eqn:Ech; [|renew_early E]. renew_step E.
  destruct (w_record w (Token ch)) as [e|record] eqn:Er; [renew_early E|].
  destruct (handle_loop_spec (w_handlers w) ("_acme-challenge." +:+ FQDN) record 0%nat
    [ParseRoots; CreateAccount; CreateOrder FQDN; GetAuthorization auth0; DNS01ChallengeRecord (Token ch)])
    as (b & n & Hh & Hb).
  rewrite Hh in E. destruct b; cbn [negb] in E.
  - right. destruct (Hb eq_refl) as (m & h & -> & Hl & Ho).
    exists order, auth0, record, ch, m. split; [|symmetry; exact E].
    unfold publishes. rewrite Ea. split_and!; eauto.
  - left. exists (Ret (Err "no DNS01 ACME handler could handle challenge")). eexists. split; [exact (eq_sym E)|].
    unfold handler_calls.
    split_and!; [done|intros c Hc|intros u csr Hc];
      apply elem_of_app in Hc as [Hc|Hc]; try (rewrite !elem_of_cons, elem_of_nil in Hc; naive_solver);
      apply list_elem_of_fmap in Hc as (j & ? & _); done.
Qed.
End RenewFacts.

(** The only element of its kind determines where a list splits. *)
Lemma split_unique {A} (P : A -> Prop) l1 x l2 l1' y l2' :
  P x -> (forall z, z ∈ l1' -> ~ P z) -> (forall z, z ∈ l2' -> ~ P z) ->
  l1 ++ x :: l2 = l1' ++ y :: l2' -> l1 = l1' /\ x = y.
Proof.
  intros Hx H1 H2. revert l1' H1. induction l1 as [|a l1 IH]; intros [|b l1'] H1 Heq; simplify_eq/=.
  - done.
  - by destruct (H1 b ltac:(by left)).
  - destruct (H2 x); [apply elem_of_app; right; by left|done].
  - destruct (IH l1') as [-> ->]; [|done|done]. intros z Hz. apply H1. by right.
Qed.

(** C23:  A renewal answers a challenge only after publishing it: whenever
    [renew] accepts a challenge, the calls before it end with the DNS handler
    taking the record of that challenge for _acme-challenge.<FQDN>, and the
    challenge is the first dns-01 challenge of the order's first authorization.
    When it succeeds, all calls were made in order and the certificate is the
    chain of the finalized order with the key its request was signed with. *)
Theorem renew_correct {key} (w : world key) (FQDN : string) :
  (forall o t1 ch t2, renew w FQDN [] = (o, t1 ++ AcceptChallenge ch :: t2) ->
     exists order auth0 record n, publishes w FQDN auth0 record ch n order /\
       t1 = published FQDN auth0 record ch n) /\
  (forall c t, renew w FQDN [] = (Ret (Ok c), t) ->
     exists order auth0 record ch n csr, publishes w FQDN auth0 record ch n order /\
       w_accept w ch = Ok tt /\ w_wait w auth0 = Ok tt /\ w_key w = Ok (PrivateKey c) /\
       w_csr w FQDN (PrivateKey c) = Ok csr /\ w_finalize w (FinalizeURL order) csr = Ok (chain c) /\
       t = published FQDN auth0 record ch n ++
         [AcceptChallenge ch; WaitAuthorization auth0; NewKey; CreateCSR FQDN (PrivateKey c);
          FinalizeOrder (FinalizeURL order) csr]).
Proof.
  destruct (renew_runs w FQDN) as [(o & t & E & Hno & Hacc & _)|
    (order & auth0 & record & ch & n & Hpub & E)]; rewrite E; split.
  - intros o' t1 ch t2 Heq. injection Heq as -> ->. destruct (Hacc ch). apply elem_of_app. right. by left.
  - intros c t' Heq. injection Heq as -> ->. by destruct (Hno c).
  - intros o' t1 ch' t2 Heq.
    assert (Ht : exists rest, t1 ++ AcceptChallenge ch' :: t2 = published FQDN auth0 record ch n ++ AcceptChallenge ch :: rest /\
                   forall c, AcceptChallenge c ∉ rest).
    { rewrite !try_eq in Heq.
      repeat match type of Heq with
      | context [match ?r with Err _ => _ | Ok _ => _ end] => destruct r; rewrite ?try_eq in Heq
      end; injection Heq as _ <-; rewrite <- ?app_assoc; cbn [app]; eexists; (split; [reflexivity|]);
        intros c; rewrite ?elem_of_cons, ?elem_of_nil; naive_solver. }
    destruct Ht as (rest & Ht & Hrest). exists order, auth0, record, n.
    assert (t1 = published FQDN auth0 record ch n /\ ch' = ch) as [-> ->]; [|done].
    apply (split_unique (fun c => exists x, c = AcceptChallenge x)) in Ht; [naive_solver|eauto| |].
    + unfold published, handler_calls. intros z [Hz|Hz]%elem_of_app [x ->].
      * rewrite !elem_of_cons, elem_of_nil in Hz. naive_solver.
      * by apply list_elem_of_fmap in Hz as (j & ? & _).
    + intros z Hz [x ->]. by apply (Hrest x).
  - intros c t Heq. rewrite !try_eq in Heq.
    destruct (w_accept w ch) as [e|[]] eqn:E1; [done|]. rewrite ?try_eq in Heq.
    destruct (w_wait w auth0) as [e|[]] eqn:E2; [done|]. rewrite ?try_eq in Heq.
    destruct (w_key w) as [e|pk] eqn:E3; [done|]. rewrite ?try_eq in Heq.
    destruct (w_csr w FQDN pk) as [e|csr] eqn:E4; [done|]. rewrite ?try_eq in Heq.
    destruct (w_finalize w (FinalizeURL order) csr) as [e|der] eqn:E5; [done|]. injection Heq as <- <-.
    exists order, auth0, record, ch, n, csr. split_and!; try done. by rewrite <- !app_assoc.
Qed.

(** ** A memory file system and toy encodings *)

Module SimCert.
Definition disk : Type := gmap string (list Z).

#[export] Instance disk_fs : Fs disk := {
  ReadFile fs f := match fs !! f with Some b => RData b | None => RNotExist end;
  WriteFile f b mode := fun fs => (Ret (Ok tt), <[f := b]> fs);
}.

#[export] Instance disk_laws : FsLaws disk.
Proof.
  split; simpl; unfold disk.
  - intros fs f b mode fs' [= <-]. by rewrite lookup_insert_eq.
  - intros fs f b mode r fs' g [= <- <-] Hg. by rewrite lookup_insert_ne.
  - eauto.
Qed.

#[export] Instance toy_crypto : Crypto Z := {
  ParseCertificate der := match der with [nb; na] => Ok (mk_validity nb na) | _ => Err "x509: malformed" end;
  ParseECPrivateKey b := match b with [k] => Ok k | _ => Err "x509: malformed" end;
  MarshalECPrivateKey k := Ok [k];
  pem_Encode ty b := Ok ([45; Z.of_nat (String.length ty)] ++ b);
}.
End SimCert.

Import SimCert.

Lemma loadOrGenerateKey_roundtrip_witness :
  loadOrGenerateKey (Err "no entropy") "/config/acme.key" (<["/config/acme.key" := [7]]> ∅ : disk) =
  (Ret (Some 7, None), <["/config/acme.key" := [7]]> ∅).
Proof.
  apply (loadOrGenerateKey_roundtrip 7 [7] (Err "no entropy") "/config/acme.key" (∅ : disk));
    reflexivity.
Defined.

Lemma saveKeyPair_correct_witness :
  exists blocks kb, Forall2 (fun c b => pem_Encode "CERTIFICATE" c = Ok b) [[1; 2]; [3; 4]] blocks /\
    encodeKey 9 = Ok kb /\
    ReadFile (saveKeyPair (mk_cert [[1; 2]; [3; 4]] 9) "a.crt" "a.key" (∅ : disk)).2 "a.crt" = RData (concat blocks) /\
    ReadFile (saveKeyPair (mk_cert [[1; 2]; [3; 4]] 9) "a.crt" "a.key" (∅ : disk)).2 "a.key" = RData kb.
Proof.
  apply (saveKeyPair_correct (mk_cert [[1; 2]; [3; 4]] 9) "a.crt" "a.key" (∅ : disk)); [discriminate|].
  reflexivity.
Defined.
