(* ===== verification/Encoding.v ===== *)
(** * Bytes and texts (encoding/base64, math/big, unicode/utf8, strconv)

    What the ACME client uses of these packages: unpadded base64url, the bytes of a
    big integer, UTF-8 and [strconv.Quote] (the verb %q).  A []byte is a list of
    byte values. *)

From S2P Require Import Prelude GoStrings.
#[local] Open Scope string_scope.
#[local] Open Scope list_scope.
#[local] Open Scope Z_scope.

(** [[]byte(s)] and [string(b)]. *)
Fixpoint str_bytes (s : string) : list Z :=
  match s with
  | EmptyString => []
  | String c s => byte_val c :: str_bytes s
  end.

Fixpoint bytes_str (b : list Z) : string :=
  match b with
  | [] => EmptyString
  | x :: b => String (byte_chr x) (bytes_str b)
  end.

Notation bytes_ok := (Forall is_byte).

(** ** base64.RawURLEncoding *)

Definition encodeURL : string := "ABCDEFGHIJKLMNOPQRSTUVWXYZabcdefghijklmnopqrstuvwxyz0123456789-_".

(** The alphabet's character of a 6-bit value. *)
Definition b64_char (v : Z) : Z := default 0 (str_bytes encodeURL !! Z.to_nat v).

(** [EncodeToString]: three bytes make four characters; one or two remaining
    bytes make two or three, without padding. *)
Fixpoint b64_encode (src : list Z) : list Z :=
  match src with
  | b0 :: b1 :: b2 :: src =>
      let val := Z.lor (Z.lor (Z.shiftl b0 16) (Z.shiftl b1 8)) b2 in
      b64_char (Z.land (Z.shiftr val 18) 0x3f) :: b64_char (Z.land (Z.shiftr val 12) 0x3f) ::
      b64_char (Z.land (Z.shiftr val 6) 0x3f) :: b64_char (Z.land val 0x3f) :: b64_encode src
  | [b0; b1] =>
      let val := Z.lor (Z.shiftl b0 16) (Z.shiftl b1 8) in
      [b64_char (Z.land (Z.shiftr val 18) 0x3f); b64_char (Z.land (Z.shiftr val 12) 0x3f);
       b64_char (Z.land (Z.shiftr val 6) 0x3f)]
  | [b0] =>
      let val := Z.shiftl b0 16 in
      [b64_char (Z.land (Z.shiftr val 18) 0x3f); b64_char (Z.land (Z.shiftr val 12) 0x3f)]
  | [] => []
  end.

Definition EncodeToString (src : list Z) : string := bytes_str (b64_encode src).

(** The value of a character of the alphabet. *)
Definition b64_value (c : Z) : option Z :=
  if decide (65 <= c <= 90) then Some (c - 65)
  else if decide (97 <= c <= 122) then Some (c - 71)
  else if decide (48 <= c <= 57) then Some (c + 4)
  else if decide (c = 45) then Some 62
  else if decide (c = 95) then Some 63
  else None.

(** The decoding of RFC 4648, which the server applies. *)
Fixpoint b64_decode (src : list Z) : option (list Z) :=
  match src with
  | c0 :: c1 :: c2 :: c3 :: src =>
      v0 ← b64_value c0; v1 ← b64_value c1; v2 ← b64_value c2; v3 ← b64_value c3;
      rest ← b64_decode src;
      Some (v0 * 4 + v1 / 16 :: v1 mod 16 * 16 + v2 / 4 :: v2 mod 4 * 64 + v3 :: rest)
  | [c0; c1; c2] =>
      v0 ← b64_value c0; v1 ← b64_value c1; v2 ← b64_value c2;
      Some [v0 * 4 + v1 / 16; v1 mod 16 * 16 + v2 / 4]
  | [c0; c1] =>
      v0 ← b64_value c0; v1 ← b64_value c1;
      Some [v0 * 4 + v1 / 16]
  | [_] => None
  | [] => Some []
  end.

(** ** big.Int *)

(** [x.Bytes()]: the big-endian bytes of the absolute value, without leading
    zeros. *)
Definition big_Bytes (x : Z) : list Z :=
  let x := Z.abs x in
  if decide (x = 0) then [] else reverse (le_bytes (S (Z.to_nat (Z.log2 x / 8))) x).

(** ** UTF-8 *)

Definition RuneError : Z := 0xfffd.

Definition is_cont (b : Z) : bool := bool_decide (0x80 <= b <= 0xbf).

(** [utf8.DecodeRune]: the rune and the bytes after it.  An invalid encoding is
    one byte that decodes to [RuneError]; [None] is the empty input. *)
Definition DecodeRune (p : list Z) : option (Z * list Z) :=
  match p with
  | [] => None
  | b0 :: p =>
      let invalid := Some (RuneError, p) in
      if decide (b0 < 0x80) then Some (b0, p)
      else if decide (0xc2 <= b0 <= 0xdf) then
        match p with
        | b1 :: p' =>
            if is_cont b1 then Some ((b0 - 0xc0) * 64 + (b1 - 0x80), p') else invalid
        | _ => invalid
        end
      else if decide (0xe0 <= b0 <= 0xef) then
        match p with
        | b1 :: b2 :: p' =>
            let lo := if decide (b0 = 0xe0) then 0xa0 else 0x80 in
            let hi := if decide (b0 = 0xed) then 0x9f else 0xbf in
            if decide (lo <= b1 <= hi) then
              if is_cont b2 then Some (((b0 - 0xe0) * 64 + (b1 - 0x80)) * 64 + (b2 - 0x80), p')
              else invalid
            else invalid
        | _ => invalid
        end
      else if decide (0xf0 <= b0 <= 0xf4) then
        match p with
        | b1 :: b2 :: b3 :: p' =>
            let lo := if decide (b0 = 0xf0) then 0x90 else 0x80 in
            let hi := if decide (b0 = 0xf4) then 0x8f else 0xbf in
            if decide (lo <= b1 <= hi) then
              if is_cont b2 && is_cont b3 then
                Some ((((b0 - 0xf0) * 64 + (b1 - 0x80)) * 64 + (b2 - 0x80)) * 64 + (b3 - 0x80), p')
              else invalid
            else invalid
        | _ => invalid
        end
      else invalid
  end.

(** [utf8.EncodeRune]; surrogates and values that are not runes are encoded as
    [RuneError]. *)
Definition EncodeRune (r : Z) : list Z :=
  let r := if decide (0 <= r <= 0x10ffff /\ ~ (0xd800 <= r <= 0xdfff)) then r else RuneError in
  if decide (r < 0x80) then [r]
  else if decide (r < 0x800) then [0xc0 + r / 64; 0x80 + r mod 64]
  else if decide (r < 0x10000) then [0xe0 + r / 4096; 0x80 + r / 64 mod 64; 0x80 + r mod 64]
  else [0xf0 + r / 262144; 0x80 + r / 4096 mod 64; 0x80 + r / 64 mod 64; 0x80 + r mod 64].

(** ** strconv.Quote *)

(** The [i]-th hexadecimal digit of [x], counted from the right. *)
Definition hex_digit (x i : Z) : Z :=
  let d := Z.land (Z.shiftr x (4 * i)) 0xf in if decide (d < 10) then 48 + d else 87 + d.

Section Quote.
Context (IsPrint : Z -> bool).

(** One rune inside the quotes. *)
Definition quote_rune (r : Z) (whole : list Z) : list Z :=
  if decide (r = 34 \/ r = 92) then [92; r]
  else if decide (r < 0x80 /\ 0x20 <= r < 0x7f) then [r]
  else if decide (r >= 0x80 /\ IsPrint r = true) then whole
  else if decide (r = 7) then [92; 97]
  else if decide (r = 8) then [92; 98]
  else if decide (r = 12) then [92; 102]
  else if decide (r = 10) then [92; 110]
  else if decide (r = 13) then [92; 114]
  else if decide (r = 9) then [92; 116]
  else if decide (r = 11) then [92; 118]
  else if decide (r < 32) then [92; 120; hex_digit r 1; hex_digit r 0]
  else if decide (r < 0x10000) then
    [92; 117; hex_digit r 3; hex_digit r 2; hex_digit r 1; hex_digit r 0]
  else [92; 85; hex_digit r 7; hex_digit r 6; hex_digit r 5; hex_digit r 4;
        hex_digit r 3; hex_digit r 2; hex_digit r 1; hex_digit r 0].

Fixpoint quote_with (fuel : nat) (s : list Z) : list Z :=
  match fuel, s with
  | S fuel, b0 :: s' =>
      match DecodeRune s with
      | Some (r, rest) =>
          let whole := take (length s - length rest) s in
          (if decide (r = RuneError /\ length rest = length s')
           then [92; 120; hex_digit b0 1; hex_digit b0 0]
           else quote_rune r whole) ++ quote_with fuel rest
      | None => []
      end
  | _, _ => []
  end.

(** [strconv.Quote(s)], the verb %q, as of Go 1.17. *)
Definition Quote (s : string) : list Z :=
  [34] ++ quote_with (String.length s) (str_bytes s) ++ [34].
End Quote.

(** ** Lemmas on bytes and texts *)

Lemma str_bytes_ok s : bytes_ok (str_bytes s).
Proof. induction s as [|c s IH]; cbn [str_bytes]; constructor; [apply byte_val_range|exact IH]. Qed.

Lemma bytes_str_bytes s : bytes_str (str_bytes s) = s.
Proof. induction s as [|c s IH]; simpl; [done|]. by rewrite byte_chr_val, IH. Qed.

Lemma str_bytes_str b : bytes_ok b -> str_bytes (bytes_str b) = b.
Proof. induction 1 as [|x b Hx Hb IH]; simpl; [done|]. by rewrite byte_val_chr, IH. Qed.

Lemma str_bytes_app s t : str_bytes (s +:+ t) = str_bytes s ++ str_bytes t.
Proof. induction s as [|c s IH]; simpl; [done|]. f_equal. exact IH. Qed.

Lemma length_str_bytes s : length (str_bytes s) = String.length s.
Proof. induction s as [|c s IH]; simpl; [done|]. by f_equal. Qed.

(** ** base64 is undone by its decoder *)

Lemma b64_value_char v : 0 <= v < 64 -> b64_value (b64_char v) = Some v.
Proof.
  intros Hv. revert v Hv. apply (forall_range (fun v => b64_value (b64_char v) = Some v) 0 64).
  reflexivity.
Qed.

Lemma sextet x k : Z.land (Z.shiftr x k) 0x3f = Z.shiftr x k mod 64.
Proof. change 0x3f with (Z.ones 6). by rewrite Z.land_ones. Qed.

Lemma lor_high a b k : 0 <= k -> 0 <= b < 2 ^ k -> Z.lor (Z.shiftl a k) b = a * 2 ^ k + b.
Proof.
  intros Hk Hb. rewrite <- Z.shiftl_mul_pow2 by done. symmetry. apply Z.add_nocarry_lor.
  apply Z.bits_inj'. intros i Hi. rewrite Z.land_spec, Z.bits_0.
  destruct (decide (i < k)).
  - by rewrite Z.shiftl_spec_low by done.
  - rewrite (uint_testbit_high k b), andb_false_r by (done || lia). done.
Qed.

(** The three-byte group as a number. *)
Lemma group3 b0 b1 b2 : is_byte b1 -> is_byte b2 ->
  Z.lor (Z.lor (Z.shiftl b0 16) (Z.shiftl b1 8)) b2 = b0 * 65536 + b1 * 256 + b2.
Proof.
  unfold is_byte, is_uint. intros H1 H2. change (2 ^ 8) with 256 in *.
  assert (E : Z.lor (Z.shiftl b0 16) (Z.shiftl b1 8) = Z.shiftl (b0 * 256 + b1) 8).
  { change 256 with (2 ^ 8). rewrite <- (lor_high b0 b1 8), Z.shiftl_lor, Z.shiftl_shiftl by lia. done. }
  rewrite E, lor_high by lia. lia.
Qed.

Lemma b64_encode_range src : bytes_ok src -> Forall (fun c => is_Some (b64_value c)) (b64_encode src).
Proof.
  assert (Hc : forall x k, is_Some (b64_value (b64_char (Z.land (Z.shiftr x k) 0x3f)))).
  { intros x k. rewrite sextet, b64_value_char by (apply Z.mod_pos_bound; lia). eauto. }
  assert (Hc0 : forall x, is_Some (b64_value (b64_char (Z.land x 0x3f)))) by (intros x; apply (Hc x 0)).
  intros _. remember (length src) as n eqn:En. revert src En.
  induction (lt_wf n) as [n _ IH]. intros [|b0 [|b1 [|b2 src]]] ->; simpl; repeat constructor; auto.
  eapply IH; [|reflexivity]. simpl. lia.
Qed.

(** The four sextets of a three-byte group. *)
Lemma group_sextets b0 b1 b2 : is_byte b0 -> is_byte b1 -> is_byte b2 ->
  let v := b0 * 65536 + b1 * 256 + b2 in
  Z.shiftr v 18 mod 64 = b0 / 4 /\ Z.shiftr v 12 mod 64 = b0 mod 4 * 16 + b1 / 16 /\
  Z.shiftr v 6 mod 64 = b1 mod 16 * 4 + b2 / 64 /\ v mod 64 = b2 mod 64.
Proof.
  intros H0 H1 H2 v. unfold is_byte, is_uint in H0, H1, H2. change (2 ^ 8) with 256 in *.
  assert (Ev : v = b0 * 65536 + b1 * 256 + b2) by reflexivity. clearbody v.
  rewrite !Z.shiftr_div_pow2 by lia.
  change (2 ^ 18) with 262144; change (2 ^ 12) with 4096; change (2 ^ 6) with 64.
  assert (E18 : v / 262144 = b0 / 4) by (symmetry; apply (Z.div_unique_pos _ _ _ (b0 mod 4 * 65536 + b1 * 256 + b2)); dlia).
  assert (E12 : v / 4096 = b0 * 16 + b1 / 16) by (symmetry; apply (Z.div_unique_pos _ _ _ (b1 mod 16 * 256 + b2)); dlia).
  assert (E6 : v / 64 = b0 * 1024 + b1 * 4 + b2 / 64) by (symmetry; apply (Z.div_unique_pos _ _ _ (b2 mod 64)); dlia).
  rewrite E18, E12, E6. split_and!.
  - apply Z.mod_small. dlia.
  - symmetry. apply (Z.mod_unique_pos _ _ (b0 / 4)); dlia.
  - symmetry. apply (Z.mod_unique_pos _ _ (b0 * 16 + b1 / 16)); dlia.
  - symmetry. apply (Z.mod_unique_pos _ _ (b0 * 1024 + b1 * 4 + b2 / 64)); dlia.
Qed.

Lemma b64_decode_encode src : bytes_ok src -> b64_decode (b64_encode src) = Some src.
Proof.
  assert (Hv : forall x k, b64_value (b64_char (Z.land (Z.shiftr x k) 0x3f)) = Some (Z.shiftr x k mod 64)).
  { intros x k. rewrite sextet. apply b64_value_char, Z.mod_pos_bound. lia. }
  assert (Hv0 : forall x, b64_value (b64_char (Z.land x 0x3f)) = Some (x mod 64)).
  { intros x. apply (Hv x 0). }
  assert (H0 : is_byte 0) by (split; lia).
  remember (length src) as n eqn:En. revert src En.
  induction (lt_wf n) as [n _ IH]. intros src -> Hs.
  destruct src as [|b0 [|b1 [|b2 src]]]; [done|..]; cbn [b64_encode b64_decode];
    rewrite ?Hv, ?Hv0; cbn [mbind option_bind];
    repeat match goal with H : bytes_ok (_ :: _) |- _ => inversion_clear H end.
  - rewrite <- (Z.lor_0_r (Z.shiftl b0 16)), <- (Z.shiftl_0_l 8), <- (Z.lor_0_r (Z.lor _ _)), group3 by done.
    edestruct (group_sextets b0 0 0) as (-> & -> & _); [done..|]. f_equal. f_equal. dlia.
  - rewrite <- (Z.lor_0_r (Z.lor _ _)), group3 by done.
    edestruct (group_sextets b0 b1 0) as (-> & -> & -> & _); [done..|]. unfold is_byte, is_uint in *.
    f_equal. f_equal; [|f_equal]; dlia.
  - rewrite group3 by done. rewrite (IH (length src)); [|simpl; lia|done|done].
    edestruct (group_sextets b0 b1 b2) as (-> & -> & -> & ->); [done..|]. unfold is_byte, is_uint in *.
    cbn [mbind option_bind]. f_equal. f_equal; [|f_equal; [|f_equal]]; dlia.
Qed.

(** ** Big-endian integers *)

Lemma big_Bytes_ok x : bytes_ok (big_Bytes x).
Proof.
  unfold big_Bytes. case_decide; [constructor|]. apply Forall_reverse, le_bytes_range.
Qed.

Lemma be_int_big_Bytes x : 0 <= x -> be_int (big_Bytes x) = x.
Proof.
  intros Hx. unfold big_Bytes, be_int. rewrite Z.abs_eq by done. case_decide as Hz; [by subst|].
  rewrite reverse_involutive, le_int_le_bytes. apply uint_id. split; [done|].
  pose proof (Z.log2_spec x ltac:(lia)) as [_ Hl]. pose proof (Z.log2_nonneg x).
  eapply Z.lt_le_trans; [exact Hl|]. apply Z.pow_le_mono_r; [lia|].
  rewrite Nat2Z.inj_succ, Z2Nat.id by (apply Z.div_pos; lia).
  pose proof (Z.div_mod (Z.log2 x) 8 ltac:(lia)). pose proof (Z.mod_pos_bound (Z.log2 x) 8 ltac:(lia)). lia.
Qed.

Lemma length_big_Bytes x n : 0 <= x < 2 ^ (8 * Z.of_nat n) -> (length (big_Bytes x) <= n)%nat.
Proof.
  intros Hx. unfold big_Bytes. rewrite Z.abs_eq by lia. case_decide as Hz; [simpl; lia|].
  rewrite length_reverse, length_le_bytes.
  assert (Z.log2 x < 8 * Z.of_nat n) by (by apply Z.log2_lt_pow2; [lia|apply Hx]).
  pose proof (Z.log2_nonneg x). dlia.
Qed.

Lemma le_int_app_zeros l n : le_int (l ++ replicate n 0) = le_int l.
Proof.
  induction l as [|b l IH]; simpl; [|by rewrite IH].
  induction n as [|n IHn]; simpl; [done|]. by rewrite IHn.
Qed.

(** Leading zeros do not change the number. *)
Lemma be_int_zeros n l : be_int (replicate n 0 ++ l) = be_int l.
Proof. unfold be_int. by rewrite reverse_app, reverse_replicate, le_int_app_zeros. Qed.
