(* ===== verification/GpioAbi.v ===== *)
(** * The GPIO device of the kernel in bytes (pkg/bmc/gpio_linux.go)

    The requests of [Gpio] as they are made: Go structures in memory whose address is handed to
    ioctl through [unsafe.Pointer], and events read from a file.  The kernel copies as many bytes as the
    number of the request says, whatever Go allocated, and finds the fields at the offsets of its own header.  The theorems
    show that the structures have that size and those offsets on 32-bit and on 64-bit machines, so that the requests are the ones
    of [Gpio], and that the events of a file become the edges that a callback receives. *)

From S2P Require Import Prelude GoMonad GoStrings Encoding Gpio.
#[local] Open Scope string_scope.
#[local] Open Scope list_scope.
#[local] Open Scope Z_scope.

Definition GPIO_GET_LINEHANDLE_IOCTL : Z := 0xc16cb403.
Definition GPIO_GET_LINEEVENT_IOCTL : Z := 0xc030b404.
Definition GPIOHANDLE_SET_LINE_VALUES_IOCTL : Z := 0xc040b409.
Definition GPIOHANDLE_GET_LINE_VALUES_IOCTL : Z := 0xc040b408.
Definition GPIO_GET_CHIPINFO_IOCTL : Z := 0x8044b401.
Definition GPIO_GET_LINEINFO_IOCTL : Z := 0xc048b402.

(** The size of its argument is part of the number of a request ([_IOC_SIZE] of the kernel). *)
Definition ioc_size (cmd : Z) : nat := Z.to_nat (Z.land (Z.shiftr cmd 16) 0x3fff).

(** ** Go structures in memory

    A field is a scalar of [width] bytes or an array of such; a scalar is an array of one.  A field is
    aligned to its width, at most to [ma], the largest alignment of the machine (4 on ARM, 8 on 64-bit
    machines), and a structure is padded to its own alignment. *)

Record field : Type := mk_field { width : nat; elems : list Z }.

Definition field_bytes (f : field) : list Z := concat (le_bytes (width f) <$> elems f).
Definition field_align (ma : nat) (f : field) : nat := width f `min` ma.
Definition pad (off a : nat) : nat := ((a - off mod a) mod a)%nat.

Fixpoint image (ma off : nat) (fs : list field) : list Z :=
  match fs with
  | [] => []
  | f :: fs =>
      let p := pad off (field_align ma f) in
      replicate p 0 ++ field_bytes f ++ image ma (off + p + width f * length (elems f)) fs
  end.

(** The offset of field [i]. *)
Fixpoint field_offset (ma off : nat) (fs : list field) (i : nat) : nat :=
  match fs with
  | [] => off
  | f :: fs =>
      let o := (off + pad off (field_align ma f))%nat in
      match i with O => o | S i => field_offset ma (o + width f * length (elems f)) fs i end
  end.

Definition struct_align (ma : nat) (fs : list field) : nat := foldr Nat.max 1%nat (field_align ma <$> fs).

Definition struct_image (ma : nat) (fs : list field) : list Z :=
  let b := image ma 0 fs in b ++ replicate (pad (length b) (struct_align ma fs)) 0.

(** [copy(label[:], s)] into a zeroed array of 32 bytes. *)
Definition label32 (s : string) : list Z :=
  let b := take 32 (str_bytes s) in b ++ replicate (32 - length b) 0.

(** The structures with their file descriptor, zero when the call is made. *)
Definition gpiohandle_fields (r : gpiohandle_request) : list field :=
  [mk_field 4 (lineoffsets r); mk_field 4 [flags r]; mk_field 1 (default_values r);
   mk_field 1 (label32 (consumer_label r)); mk_field 4 [Gpio.lines r]; mk_field 4 [0]].

Definition gpioevent_fields (r : gpioevent_request) : list field :=
  [mk_field 4 [lineoffset r]; mk_field 4 [handleflags r]; mk_field 4 [eventflags r];
   mk_field 1 (label32 (ev_consumer_label r)); mk_field 4 [0]].

Definition gpiohandle_data_fields (values : list Z) : list field := [mk_field 1 values].

(** Two structures that the package declares and never passes. *)
Definition gpiochip_info_fields (name label : list Z) (ls : Z) : list field :=
  [mk_field 1 name; mk_field 1 label; mk_field 4 [ls]].
Definition gpioline_info_fields (off fl : Z) (name consumer : list Z) : list field :=
  [mk_field 4 [off]; mk_field 4 [fl]; mk_field 1 name; mk_field 1 consumer].

(** A field that is four bytes at an offset. *)
Definition get32 (off : nat) (buf : list Z) : Z := le_int (take 4 (drop off buf)).

(** ** The calls *)

Section Calls.
Context (ioctl : Z -> Z -> list Z -> result (list Z)) (ma : nat).

(** An error number becomes an error with the name of the request. *)
Definition errno {A} (name : string) (e : error) : result A := Err (name +:+ ": errno " +:+ e).

Definition requestLineHandle_mem (chip : Z) (ls : list Z) (out : list bool) : outcome (result Z) :=
  match handle_request ls out with
  | None => Panic
  | Some rinfo =>
      match ioctl chip GPIO_GET_LINEHANDLE_IOCTL (struct_image ma (gpiohandle_fields rinfo)) with
      | Err e => Ret (errno "GPIO_GET_LINEHANDLE_IOCTL" e)
      | Ok mem => Ret (Ok (get32 (field_offset ma 0 (gpiohandle_fields rinfo) 5) mem))
      end
  end.

Definition getLineEvent_mem (chip : Z) (line : Z) : result Z :=
  let req := event_request line in
  match ioctl chip GPIO_GET_LINEEVENT_IOCTL (struct_image ma (gpioevent_fields req)) with
  | Err e => errno "GPIO_GET_LINEEVENT_IOCTL" e
  | Ok mem => Ok (get32 (field_offset ma 0 (gpioevent_fields req) 4) mem)
  end.

Definition getLineValues_mem (fd : Z) : result (list bool) :=
  match ioctl fd GPIOHANDLE_GET_LINE_VALUES_IOCTL (struct_image ma (gpiohandle_data_fields (replicate 64 0))) with
  | Err e => errno "GPIOHANDLE_GET_LINE_VALUES_IOCTL" e
  | Ok hinfo => Ok ((fun v => bool_decide (v <> 0)) <$> hinfo)
  end.

Definition setLineValues_mem (fd : Z) (out : list bool) : outcome (result unit) :=
  match fill bit out with
  | None => Panic
  | Some values =>
      match ioctl fd GPIOHANDLE_SET_LINE_VALUES_IOCTL (struct_image ma (gpiohandle_data_fields values)) with
      | Err e => Ret (errno "GPIOHANDLE_SET_LINE_VALUES_IOCTL" e)
      | Ok _ => Ret (Ok tt)
      end
  end.

(** [setValues] of a line handle and [getValue] of an event. *)
Definition setValues_mem (fd : Z) (out : list bool) : outcome (result unit) := setLineValues_mem fd out.

Definition getValue_mem (fd : Z) : result bool :=
  match getLineValues_mem fd with
  | Err e => Err e
  | Ok b => Ok (default false (head b))
  end.
End Calls.

(** ** Events

    [binary.Read] of a [gpioevent_data] (16 bytes: a time stamp, the kind, and a blank field), on what is
    left of the file. *)
Definition event_data_read (f : list Z) : data_read * list Z :=
  if decide (f = []) then (DEof, [])
  else if decide (length f < 16)%nat then (DError "unexpected EOF", [])
  else (DData (get32 8 f), drop 16 f).

(** The results of [fuel] calls of [read]. *)
Fixpoint event_reads (fuel : nat) (f : list Z) : list (option Z * option error) :=
  match fuel with
  | O => []
  | S fuel => let '(d, f) := event_data_read f in event_read d :: event_reads fuel f
  end.

(** What the kernel writes for an event. *)
Definition event_image (ev : Z * Z) : list Z := le_bytes 8 ev.1 ++ le_bytes 4 ev.2 ++ replicate 4 0.

Definition edge (ev : Z * Z) : option bool :=
  if decide (ev.2 = GPIOEVENT_EVENT_FALLING_EDGE) then Some false
  else if decide (ev.2 = GPIOEVENT_EVENT_RISING_EDGE) then Some true else None.

(** ** The kernel

    Its own view of the structures (include/uapi/linux/gpio.h), at fixed offsets. *)
Fixpoint le_words (n : nat) (buf : list Z) : list Z :=
  match n with O => [] | S n => le_int (take 4 buf) :: le_words n (drop 4 buf) end.

(** A C string. *)
Fixpoint cstr (b : list Z) : string :=
  match b with
  | [] => ""
  | x :: b => if decide (x = 0) then "" else String (byte_chr x) (cstr b)
  end.

Definition kernel_handle (buf : list Z) : gpiohandle_request :=
  mk_handle_request (le_words 64 buf) (get32 256 buf) (take 64 (drop 260 buf)) (cstr (take 32 (drop 324 buf))) (get32 356 buf).
Definition kernel_event (buf : list Z) : gpioevent_request :=
  mk_event_request (get32 0 buf) (get32 4 buf) (get32 8 buf) (cstr (take 32 (drop 12 buf))).

(** The requests it serves, and that ioctl is those requests on arguments of the size that their
    number says; on others nothing is known. *)
Record gpio_driver : Type := mk_driver {
  drv_handle : Z -> gpiohandle_request -> result Z;
  drv_event : Z -> gpioevent_request -> result Z;
  drv_get : Z -> result (list Z);
  drv_set : Z -> list Z -> result unit }.

Definition replied {A} (r : result A) (k : A -> list Z) : result (list Z) :=
  match r with Ok x => Ok (k x) | Err e => Err e end.

Record KernelAbi (d : gpio_driver) (ioctl : Z -> Z -> list Z -> result (list Z)) : Prop := {
  abi_handle : forall fd buf, length buf = ioc_size GPIO_GET_LINEHANDLE_IOCTL ->
    ioctl fd GPIO_GET_LINEHANDLE_IOCTL buf = replied (drv_handle d fd (kernel_handle buf)) (fun n => take 360 buf ++ le_bytes 4 n);
  abi_event : forall fd buf, length buf = ioc_size GPIO_GET_LINEEVENT_IOCTL ->
    ioctl fd GPIO_GET_LINEEVENT_IOCTL buf = replied (drv_event d fd (kernel_event buf)) (fun n => take 44 buf ++ le_bytes 4 n);
  abi_get : forall fd buf, length buf = ioc_size GPIOHANDLE_GET_LINE_VALUES_IOCTL ->
    ioctl fd GPIOHANDLE_GET_LINE_VALUES_IOCTL buf = replied (drv_get d fd) id;
  abi_set : forall fd buf, length buf = ioc_size GPIOHANDLE_SET_LINE_VALUES_IOCTL ->
    ioctl fd GPIOHANDLE_SET_LINE_VALUES_IOCTL buf = replied (drv_set d fd buf) (fun _ => buf);
  abi_fds : forall fd r n, drv_handle d fd r = Ok n -> is_uint 32 n;
  abi_event_fds : forall fd r n, drv_event d fd r = Ok n -> is_uint 32 n;
}.

(** ** Images *)

Lemma length_fields (w : nat) l : length (concat (le_bytes w <$> l)) = (w * length l)%nat.
Proof. induction l as [|x l IH]; cbn; [lia|]. rewrite length_app, length_le_bytes, IH. lia. Qed.

Lemma bytes_field l : Forall is_byte l -> concat (le_bytes 1 <$> l) = l.
Proof.
  induction 1 as [|x l Hx Hl IH]; [done|]. rewrite fmap_cons. cbn [concat]. rewrite IH. cbn. f_equal.
  change 255 with (Z.ones 8). rewrite <- uint_land by lia. by apply uint_id.
Qed.

Lemma length_label32 s : length (label32 s) = 32%nat.
Proof. unfold label32. rewrite length_app, length_replicate, length_take. lia. Qed.

Lemma label32_bytes s : Forall is_byte (label32 s).
Proof.
  unfold label32. apply Forall_app. split; [apply Forall_take, str_bytes_ok|]. by apply Forall_replicate.
Qed.

Lemma get32_at (off : nat) (a rest : list Z) (x : Z) : length a = off -> is_uint 32 x -> get32 off (a ++ le_bytes 4 x ++ rest) = x.
Proof.
  intros Ha Hx. unfold get32. rewrite drop_app_length' by done. rewrite take_app_length' by (by rewrite length_le_bytes).
  rewrite le_int_le_bytes. by apply uint_id.
Qed.

Lemma le_words_field l rest : Forall (is_uint 32) l -> le_words (length l) (concat (le_bytes 4 <$> l) ++ rest) = l.
Proof.
  induction 1 as [|x l Hx Hl IH]; [done|]. cbn [length le_words fmap list_fmap concat]. rewrite <- app_assoc. f_equal.
  - by apply (get32_at 0 []).
  - rewrite drop_app_length' by (by rewrite length_le_bytes). exact IH.
Qed.

(** Neither structure has padding, whatever the machine. *)
Definition machine_align (ma : nat) : Prop := ma = 4%nat \/ ma = 8%nat.

Lemma handle_image ma r : machine_align ma -> length (lineoffsets r) = 64%nat -> length (default_values r) = 64%nat ->
  Forall is_byte (default_values r) ->
  struct_image ma (gpiohandle_fields r) = concat (le_bytes 4 <$> lineoffsets r) ++ le_bytes 4 (flags r) ++ default_values r ++
    label32 (consumer_label r) ++ le_bytes 4 (Gpio.lines r) ++ le_bytes 4 0 /\
  length (struct_image ma (gpiohandle_fields r)) = 364%nat /\ field_offset ma 0 (gpiohandle_fields r) 5 = 360%nat.
Proof.
  intros Hm Hl Hv Hb.
  assert (E : image ma 0 (gpiohandle_fields r) = concat (le_bytes 4 <$> lineoffsets r) ++ le_bytes 4 (flags r) ++ default_values r ++
    label32 (consumer_label r) ++ le_bytes 4 (Gpio.lines r) ++ le_bytes 4 0).
  { unfold gpiohandle_fields. cbn [image width elems]. unfold field_bytes. cbn [width elems]. rewrite Hl, Hv, length_label32.
    rewrite (bytes_field (default_values r)), (bytes_field (label32 _)) by (done || apply label32_bytes).
    destruct Hm as [-> | ->]; cbn; by rewrite ?app_nil_r. }
  assert (El : length (image ma 0 (gpiohandle_fields r)) = 364%nat).
  { rewrite E, !length_app, length_fields, !length_le_bytes, Hl, Hv, length_label32. done. }
  unfold struct_image. rewrite El. split_and!.
  - rewrite E. destruct Hm as [-> | ->]; cbn; by rewrite ?app_nil_r.
  - rewrite length_app, El. destruct Hm as [-> | ->]; done.
  - unfold gpiohandle_fields. cbn [field_offset width elems]. rewrite Hl, Hv, length_label32. destruct Hm as [-> | ->]; done.
Qed.

Lemma event_request_image ma r : machine_align ma ->
  struct_image ma (gpioevent_fields r) = le_bytes 4 (lineoffset r) ++ le_bytes 4 (handleflags r) ++ le_bytes 4 (eventflags r) ++
    label32 (ev_consumer_label r) ++ le_bytes 4 0 /\
  length (struct_image ma (gpioevent_fields r)) = 48%nat /\ field_offset ma 0 (gpioevent_fields r) 4 = 44%nat.
Proof.
  intros Hm.
  assert (E : image ma 0 (gpioevent_fields r) = le_bytes 4 (lineoffset r) ++ le_bytes 4 (handleflags r) ++ le_bytes 4 (eventflags r) ++
    label32 (ev_consumer_label r) ++ le_bytes 4 0).
  { unfold gpioevent_fields. cbn [image width elems]. unfold field_bytes. cbn [width elems]. rewrite length_label32.
    rewrite (bytes_field (label32 _)) by apply label32_bytes. destruct Hm as [-> | ->]; cbn; by rewrite ?app_nil_r. }
  assert (El : length (image ma 0 (gpioevent_fields r)) = 48%nat) by (by rewrite E, !length_app, !length_le_bytes, length_label32).
  unfold struct_image. rewrite El. split_and!.
  - rewrite E. destruct Hm as [-> | ->]; cbn; by rewrite ?app_nil_r.
  - rewrite length_app, El. destruct Hm as [-> | ->]; done.
  - unfold gpioevent_fields. cbn [field_offset width elems]. rewrite length_label32. destruct Hm as [-> | ->]; done.
Qed.

Lemma data_image ma values : machine_align ma -> length values = 64%nat -> Forall is_byte values ->
  struct_image ma (gpiohandle_data_fields values) = values.
Proof.
  intros Hm Hl Hb. unfold struct_image, gpiohandle_data_fields. cbn [image width elems]. unfold field_bytes. cbn [width elems].
  rewrite (bytes_field values) by done. destruct Hm as [-> | ->]; cbn; by rewrite ?app_nil_r, ?length_app.
Qed.

Lemma fill_bits out values : fill bit out = Some values -> length values = 64%nat /\ Forall is_byte values.
Proof.
  intros E. split; [by apply (take_fill bit out)|]. unfold fill in E. case_decide; [|done]. injection E as <-.
  apply Forall_app. split; [apply Forall_fmap, Forall_forall; by intros []|by apply Forall_replicate].
Qed.

Lemma fill_words ls offs : fill id ls = Some offs -> Forall (is_uint 32) ls -> length offs = 64%nat /\ Forall (is_uint 32) offs.
Proof.
  intros E Hls. split; [by apply (take_fill id ls)|]. unfold fill in E. case_decide; [|done]. injection E as <-.
  rewrite list_fmap_id. apply Forall_app. split; [done|by apply Forall_replicate].
Qed.

(** The kernel reads back the request that was made. *)
Lemma kernel_reads_handle ma ls out r : machine_align ma -> Forall (is_uint 32) ls -> handle_request ls out = Some r ->
  kernel_handle (struct_image ma (gpiohandle_fields r)) = r /\
  length (struct_image ma (gpiohandle_fields r)) = ioc_size GPIO_GET_LINEHANDLE_IOCTL /\
  field_offset ma 0 (gpiohandle_fields r) 5 = 360%nat.
Proof.
  intros Hm Hls Hr. apply bind_Some in Hr as (offs & Eo & Hr). apply bind_Some in Hr as (vals & Ev & [= <-]).
  destruct (fill_words _ _ Eo Hls) as [Lo Ho]. destruct (fill_bits _ _ Ev) as [Lv Hv].
  set (r := mk_handle_request _ _ _ _ _). destruct (handle_image ma r Hm Lo Lv Hv) as (E & El & Eoff). split; [|done].
  rewrite E. cbn [lineoffsets flags default_values consumer_label Gpio.lines r]. unfold kernel_handle.
  set (W := concat _). assert (LW : length W = 256%nat) by (unfold W; by rewrite length_fields, Lo).
  assert (Hfl : forall b : bool, is_uint 32 (if b then GPIOHANDLE_REQUEST_OUTPUT else GPIOHANDLE_REQUEST_INPUT)) by (by intros []).
  f_equal.
  - rewrite <- Lo. by apply le_words_field.
  - rewrite get32_at by (done || by case_decide). done.
  - rewrite drop_app_ge, LW by lia. rewrite drop_app_length' by by rewrite length_le_bytes. by apply take_app_length'.
  - rewrite !app_assoc. rewrite <- (app_assoc _ (le_bytes 4 _)). rewrite <- (app_assoc _ (label32 _)).
    rewrite drop_app_length' by (rewrite !length_app, length_le_bytes; lia). by rewrite take_app_length' by done.
  - rewrite !app_assoc. rewrite <- (app_assoc _ (le_bytes 4 _)).
    rewrite get32_at; [done|rewrite !length_app, length_le_bytes, length_label32; lia|]. apply uint_range; lia.
Qed.

Lemma kernel_reads_event ma line : machine_align ma -> is_uint 32 line ->
  kernel_event (struct_image ma (gpioevent_fields (event_request line))) = event_request line /\
  length (struct_image ma (gpioevent_fields (event_request line))) = ioc_size GPIO_GET_LINEEVENT_IOCTL /\
  field_offset ma 0 (gpioevent_fields (event_request line)) 4 = 44%nat.
Proof.
  intros Hm Hl. destruct (event_request_image ma (event_request line) Hm) as (E & El & Eoff). split; [|done].
  rewrite E. cbn [event_request lineoffset handleflags eventflags ev_consumer_label]. unfold kernel_event, event_request.
  f_equal; [by apply (get32_at 0 [])|done..].
Qed.

(** The two structures that are never passed have the size of their numbers too. *)
Lemma info_sizes ma name label l off fl : machine_align ma -> length name = 32%nat -> length label = 32%nat ->
  length (struct_image ma (gpiochip_info_fields name label l)) = ioc_size GPIO_GET_CHIPINFO_IOCTL /\
  length (struct_image ma (gpioline_info_fields off fl name label)) = ioc_size GPIO_GET_LINEINFO_IOCTL.
Proof.
  intros Hm Hn Hl. unfold struct_image, gpiochip_info_fields, gpioline_info_fields. cbn [image width elems]. unfold field_bytes.
  cbn [width elems]. rewrite Hn, Hl. pose proof (length_fields 1 name) as Fn. pose proof (length_fields 1 label) as Fl.
  rewrite Hn in Fn. rewrite Hl in Fl. revert Fn Fl. generalize (concat (le_bytes 1 <$> name)) (concat (le_bytes 1 <$> label)).
  intros bn bl Fn Fl. split; destruct Hm as [-> | ->]; cbn; repeat (rewrite ?length_app, ?length_replicate, ?Fn, ?Fl; cbn); done.
Qed.

Definition named {A} (name : string) (r : result A) : result A := match r with Ok x => Ok x | Err e => errno name e end.

(** C9: On every machine and every kernel that follows its header, the four calls made through
    unsafe pointers are the requests of [Gpio]: the kernel finds every field where Go put it, reads and writes
    no byte beyond the structure, and the descriptor or values it stores are the ones that are returned.  Too many lines panic
    before the kernel is called. *)
Theorem gpio_abi_refines (d : gpio_driver) ioctl (ma : nat) (fd : Z) (ls : list Z) (out : list bool) (line : Z) :
  KernelAbi d ioctl -> machine_align ma -> Forall (is_uint 32) ls -> is_uint 32 line ->
  requestLineHandle_mem ioctl ma fd ls out =
    Gpio.requestLineHandle (fun r => named "GPIO_GET_LINEHANDLE_IOCTL" (drv_handle d fd r)) ls out /\
  getLineEvent_mem ioctl ma fd line = Gpio.getLineEvent (fun r => named "GPIO_GET_LINEEVENT_IOCTL" (drv_event d fd r)) line /\
  getLineValues_mem ioctl ma fd = Gpio.getLineValues (named "GPIOHANDLE_GET_LINE_VALUES_IOCTL" (drv_get d fd)) /\
  setLineValues_mem ioctl ma fd out =
    Gpio.setLineValues (fun v => named "GPIOHANDLE_SET_LINE_VALUES_IOCTL" (drv_set d fd v)) out /\
  ((64 < length ls)%nat -> requestLineHandle_mem ioctl ma fd ls out = Panic).
Proof.
  intros K Hm Hls Hline. split_and!.
  - unfold requestLineHandle_mem, requestLineHandle. destruct (handle_request ls out) as [r|] eqn:Er; [|done].
    destruct (kernel_reads_handle ma ls out r Hm Hls Er) as (Ek & El & ->). rewrite (abi_handle _ _ K) by done. rewrite Ek.
    cbv beta. destruct (drv_handle d fd r) as [e|n] eqn:Ed; [done|]. cbn [replied named]. do 2 f_equal.
    rewrite <- (app_nil_r (le_bytes 4 n)). apply get32_at; [by rewrite length_take, El|by eapply abi_fds].
  - unfold getLineEvent_mem, getLineEvent. destruct (kernel_reads_event ma line Hm Hline) as (Ek & El & ->).
    rewrite (abi_event _ _ K) by done. rewrite Ek. cbv beta. destruct (drv_event d fd _) as [e|n] eqn:Ed; [done|]. cbn [replied named]. f_equal.
    rewrite <- (app_nil_r (le_bytes 4 n)). apply get32_at; [by rewrite length_take, El|by eapply abi_event_fds].
  - unfold getLineValues_mem, getLineValues. rewrite data_image by (done || by apply Forall_replicate).
    rewrite (abi_get _ _ K) by done. by destruct (drv_get d fd).
  - unfold setLineValues_mem, setLineValues. destruct (fill bit out) as [vals|] eqn:Ev; [|done].
    destruct (fill_bits _ _ Ev) as [Lv Hv]. rewrite data_image by done. rewrite (abi_set _ _ K) by (rewrite Lv; done).
    by destruct (drv_set d fd vals) as [|[]].
  - intros Hl. assert (E : fill id ls = None) by (unfold fill; by rewrite decide_False by lia).
    unfold requestLineHandle_mem, handle_request. by rewrite E.
Qed.

(** ** Events *)

Lemma length_event_image ev : length (event_image ev) = 16%nat.
Proof. unfold event_image. by rewrite !length_app, !length_le_bytes, length_replicate. Qed.

Lemma event_data_read_image ev rest : is_uint 32 ev.2 -> event_data_read (event_image ev ++ rest) = (DData ev.2, rest).
Proof.
  intros Hid. pose proof (length_event_image ev) as Hl. unfold event_data_read. rewrite !decide_False.
  - rewrite drop_app_length' by done. f_equal. unfold event_image. rewrite <- !app_assoc. rewrite get32_at by (done || by rewrite length_le_bytes). done.
  - rewrite length_app. lia.
  - intros E. apply (f_equal length) in E. rewrite length_app, Hl in E. cbn in E. lia.
Qed.

Lemma monitor_loop_event ev l : monitor_loop (event_read (DData ev.2) :: l) =
  let '(vs, closed, r) := monitor_loop l in (option_list (edge ev) ++ vs, closed, r).
Proof.
  cbn. unfold edge, GPIO_EVENT_FALLING_EDGE, GPIO_EVENT_RISING_EDGE, GPIO_EVENT_UNKNOWN.
  destruct (monitor_loop l) as [[vs closed] r]. by repeat case_decide.
Qed.

Lemma monitor_loop_events evs rest fuel : Forall (fun ev => is_uint 32 ev.2) evs ->
  monitor_loop (event_reads (length evs + fuel) (concat (event_image <$> evs) ++ rest)) =
  let '(vs, closed, r) := monitor_loop (event_reads fuel rest) in (omap edge evs ++ vs, closed, r).
Proof.
  induction 1 as [|ev evs Hev _ IH]; [by destruct (monitor_loop _) as [[vs closed] r]|].
  cbn [length Nat.add event_reads]. rewrite fmap_cons. cbn [concat]. rewrite <- app_assoc, event_data_read_image by done.
  rewrite monitor_loop_event, IH. destruct (monitor_loop (event_reads fuel rest)) as [[vs closed] r]. cbn. by destruct (edge ev).
Qed.

(** C28: Whatever events the kernel has queued for a line, in whatever order and with whatever time
    stamps, the callback of the line receives exactly the edges among them, in order, and the channel is
    closed when the file ends; if it ends within an event the monitor stops with an error and the
    channel stays open.  The gauge that [LogGpio] sets is then the level after the last edge. *)
Theorem monitor_reports_edges (evs : list (Z * Z)) (tail : list Z) (fuel : nat) (d : bool) :
  Forall (fun ev => is_uint 32 ev.2) evs -> (length evs < fuel)%nat -> (length tail < 16)%nat ->
  monitor_loop (event_reads fuel (concat (event_image <$> evs) ++ tail)) =
    (omap edge evs, bool_decide (tail = []), Ret (if decide (tail = []) then Ok tt else Err "readEvent: unexpected EOF")) /\
  default 0 (last (LogGpio d (omap edge evs))) = bit (default d (last (omap edge evs))).
Proof.
  intros Hevs Hf Ht. split.
  - replace fuel with (length evs + S (fuel - length evs - 1))%nat by lia. rewrite monitor_loop_events by done.
    cbn [event_reads]. unfold event_data_read. destruct (decide (tail = [])) as [->|Hne]; [cbn; by rewrite app_nil_r|].
    rewrite decide_True by done. cbn. by rewrite bool_decide_eq_false_2, app_nil_r.
  - unfold LogGpio. generalize (omap edge evs) as vs. intros vs. rewrite last_app. rewrite fmap_last.
    destruct (last vs) as [v|]; [done|]. by destruct d.
Qed.

(** ** A kernel that follows the header

    It grants every request with a descriptor, and refuses arguments of another size. *)
Module SimGpioKernel.
Definition driver : gpio_driver :=
  mk_driver (fun fd r => if decide (Gpio.lines r = 0) then Err "22" else Ok (fd + Gpio.lines r)) (fun _ r => Ok (lineoffset r))
    (fun _ => Ok (1 :: replicate 63 0)) (fun _ _ => Ok tt).
Definition fds_ok {A} (f : A -> result Z) (x : A) : result Z :=
  match f x with Ok n => if decide (is_uint 32 n) then Ok n else Err "24" | Err e => Err e end.
Definition kernel : gpio_driver :=
  mk_driver (fun fd => fds_ok (drv_handle driver fd)) (fun fd => fds_ok (drv_event driver fd)) (drv_get driver) (drv_set driver).

Definition ioctl (fd cmd : Z) (buf : list Z) : result (list Z) :=
  if decide (length buf <> ioc_size cmd) then Err "14"
  else if decide (cmd = GPIO_GET_LINEHANDLE_IOCTL) then replied (drv_handle kernel fd (kernel_handle buf)) (fun n => take 360 buf ++ le_bytes 4 n)
  else if decide (cmd = GPIO_GET_LINEEVENT_IOCTL) then replied (drv_event kernel fd (kernel_event buf)) (fun n => take 44 buf ++ le_bytes 4 n)
  else if decide (cmd = GPIOHANDLE_GET_LINE_VALUES_IOCTL) then replied (drv_get kernel fd) id
  else if decide (cmd = GPIOHANDLE_SET_LINE_VALUES_IOCTL) then replied (drv_set kernel fd buf) (fun _ => buf)
  else Err "25".

Lemma fds_ok_range {A} (f : A -> result Z) x n : fds_ok f x = Ok n -> is_uint 32 n.
Proof. unfold fds_ok. destruct (f x); [done|]. case_decide; [|done]. by intros [= <-]. Qed.

Lemma kernel_abi : KernelAbi kernel ioctl.
Proof.
  split.
  1-4: intros fd buf Hl; unfold ioctl; rewrite decide_False by (intros Hn; by apply Hn); by repeat (rewrite decide_True by done || rewrite decide_False by done).
  all: intros fd r n; apply fds_ok_range.
Qed.
End SimGpioKernel.
Import SimGpioKernel.

Lemma gpio_abi_refines_witness :
  requestLineHandle_mem ioctl 4 3 [5; 9] [true; false] = Ret (Ok 5) /\ getLineEvent_mem ioctl 8 3 7 = Ok 7.
Proof.
  destruct (gpio_abi_refines kernel ioctl 4 3 [5; 9] [true; false] 7 kernel_abi) as (E & _); [by left|by repeat constructor|done|].
  destruct (gpio_abi_refines kernel ioctl 8 3 [] [] 7 kernel_abi) as (_ & E' & _); [by right|done|done|].
  split; [exact E|exact E'].
Defined.

Lemma monitor_reports_edges_witness :
  monitor_loop (event_reads 5 (concat (event_image <$> [(1000, 1); (2000, 2); (3000, 7); (2500, 1)]))) = ([true; false; true], true, Ret (Ok tt)).
Proof.
  pose proof (proj1 (monitor_reports_edges [(1000, 1); (2000, 2); (3000, 7); (2500, 1)] [] 5 false
    ltac:(by repeat constructor) ltac:(cbn; lia) ltac:(cbn; lia))) as E.
  rewrite app_nil_r in E. exact E.
Defined.
