(* ===== verification/Config.v ===== *)
(** * The configuration (config/config.go) and its clients

    The default configuration with the generated constants as parameters, the padded base64 the
    keys of the roughtime servers are written in, what trusted time does with this configuration,
    and the roughtime server of the integration tests (integration/utils/roughtime.go). *)

From S2P Require Import Prelude GoMonad GoStrings Encoding Time.
#[local] Open Scope string_scope.
#[local] Open Scope list_scope.
#[local] Open Scope Z_scope.

(** ** base64.StdEncoding *)

Definition pad_char : Z := 61.

(** The two characters in which the alphabets differ. *)
Definition std_of_url (c : Z) : Z := if decide (c = 45) then 43 else if decide (c = 95) then 47 else c.
Definition url_of_std (c : Z) : option Z :=
  if decide (c = 43) then Some 45 else if decide (c = 47) then Some 95
  else if decide (c = 45 \/ c = 95) then None else Some c.

Definition std_encode (src : list Z) : list Z :=
  (std_of_url <$> b64_encode src) ++ replicate ((3 - length src mod 3) mod 3) pad_char.
Definition StdEncodeToString (src : list Z) : string := bytes_str (std_encode src).

(** At most two padding characters at the end, which complete the last four. *)
Definition strip_padding (src : list Z) : list Z :=
  match reverse src with
  | 61 :: 61 :: l => reverse l
  | 61 :: l => reverse l
  | _ => src
  end.

(** [DecodeString]: line ends are skipped. *)
Definition std_decode (src : list Z) : result (list Z) :=
  let src := filter (fun c => c <> 10 /\ c <> 13) src in
  if decide (length src mod 4 = 0)%nat then
    match mapM url_of_std (strip_padding src) ≫= b64_decode with
    | Some b => Ok b
    | None => Err "illegal base64 data"
    end
  else Err "illegal base64 data".
Definition StdDecodeString (s : string) : result (list Z) := std_decode (str_bytes s).

(** ** The configuration *)

Record Version : Type := mk_version { v_Version : string; GitHash : string }.
Record ACME : Type := mk_acme { a_Directory : string; Contact : string; TermsAgreed : bool; APICA : string }.
Record Config : Type := mk_config {
  RoughtimeServers : list RoughtimeServer; NtpServers : list string; StartDebugSshServer : bool;
  DebugSshServerKeys : list string; c_Version : Version; c_ACME : ACME }.

Definition KEY_TYPE_ED25519 : string := "ed25519".

(** The generated constants: authorizedKeys, gitVersion, gitHash, termsAgreed, simPebbleAPICA. *)
Definition DefaultConfig (authorizedKeys : list string) (gitVersion gitHash : string) (termsAgreed : bool)
    (simPebbleAPICA : string) : Config := {|
  RoughtimeServers :=
    [ mk_server "udp" "roughtime.cloudflare.com:2002" "gD63hSj3ScS+wuOeGrubXlq35N1c5Lby/S+T7MNTjxo=" KEY_TYPE_ED25519;
      mk_server "udp" "roughtime.sandbox.google.com:2002" "etPaaIxcBMY1oUeGpwvPMCJMwlRVNxv51KK/tktoJTQ=" KEY_TYPE_ED25519;
      mk_server "udp" "time.0xt.ca:2002" "iBVjxg/1j7y1+kQUTBYdTabxCppesU/07D4PMDJk2WA=" KEY_TYPE_ED25519;
      mk_server "udp" "roughtime.int80h.com:2002" "AW5uAoTSTDfG5NfY1bTh08GUnOqlRb+HVhbJ3ODJvsE=" KEY_TYPE_ED25519 ];
  NtpServers := [];
  StartDebugSshServer := true;
  DebugSshServerKeys := authorizedKeys;
  c_Version := mk_version gitVersion gitHash;
  c_ACME := mk_acme "https://10.0.2.2:14000/dir" "mailto:nobody@localhost" termsAgreed simPebbleAPICA |}.

(** ** The roughtime server of the tests *)

Definition MinRequestSize : nat := 1024.
Definition NonceSize : nat := 64.

(** The packages it calls: ed25519 keys, and the roughtime protocol with its messages as maps
    from tags to bytes. *)
Class Roughtimes (message : Type) : Type := {
  GenerateKey : nat -> result (list Z * list Z);
  CreateCertificate : Z -> Z -> list Z -> list Z -> result (list Z);
  Decode : list Z -> result message;
  TagNonce : message -> option (list Z);
  CreateReplies : list (list Z) -> Z -> Z -> list Z -> list Z -> result (list (list Z)) }.

Record TestServer : Type := mk_test_server { ts_Config : RoughtimeServer; ts_cert : list Z; ts_pk : list Z }.

Section TestServer.
Context {message : Type} `{Roughtimes message}.

(** [NewTestRoughtimeServer]; the two keys are the first and second random ones. *)
Definition NewTestRoughtimeServer : outcome TestServer :=
  match GenerateKey 0 with
  | Err _ => Exit
  | Ok (rootPublicKey, rootPrivateKey) =>
      match GenerateKey 1 with
      | Err _ => Exit
      | Ok (onlinePublicKey, onlinePrivateKey) =>
          match CreateCertificate 0 (uint 64 (Z.lnot 0)) onlinePublicKey rootPrivateKey with
          | Err _ => Exit
          | Ok cert =>
              Ret (mk_test_server (mk_server "udp6" "[::1]:2002" (StdEncodeToString rootPublicKey) KEY_TYPE_ED25519)
                     cert onlinePrivateKey)
          end
      end
  end.

(** A datagram with its sender and the time it is answered, or an error of the read. *)
Inductive received : Type := Datagram (b : list Z) (from : Z) (now : Z) | ReadError.

(** One turn of [Run] over the packet buffer: what is sent, and to whom. *)
Definition serve (s : TestServer) (packetBuf : list Z) (r : received) : list Z * option (list Z * Z) :=
  match r with
  | ReadError => (packetBuf, None)
  | Datagram b from now =>
      let n := Nat.min (length b) (length packetBuf) in
      let packetBuf := take n b ++ drop n packetBuf in
      (packetBuf,
        if decide (n < MinRequestSize)%nat then None
        else match Decode (take n packetBuf) with
             | Err _ => None
             | Ok packet =>
                 match TagNonce packet with
                 | None => None
                 | Some nonce =>
                     if decide (length nonce = NonceSize) then
                       match CreateReplies [nonce] now 1000000 (ts_cert s) (ts_pk s) with
                       | Ok [reply] => Some (reply, from)
                       | _ => None
                       end
                     else None
                 end
             end)
  end.

Fixpoint serve_all (s : TestServer) (packetBuf : list Z) (rs : list received) : list (list Z * Z) :=
  match rs with
  | [] => []
  | r :: rs => let (buf, sent) := serve s packetBuf r in option_list sent ++ serve_all s buf rs
  end.

(** [Run], over what arrives: the replies it sends when it can listen. *)
Definition Run (listen : result unit) (s : TestServer) (rs : list received) : outcome (list (list Z * Z)) :=
  match listen with Err _ => Exit | Ok _ => Ret (serve_all s (replicate MinRequestSize 0) rs) end.
End TestServer.

(** ** Base64 reads back *)

Lemma b64_value_inv c : is_Some (b64_value c) -> 65 <= c <= 90 \/ 97 <= c <= 122 \/ 48 <= c <= 57 \/ c = 45 \/ c = 95.
Proof. unfold b64_value. intros [v Hv]. repeat case_decide; try done; lia. Qed.

Lemma std_char c : is_Some (b64_value c) ->
  url_of_std (std_of_url c) = Some c /\ std_of_url c <> 10 /\ std_of_url c <> 13 /\ std_of_url c <> pad_char.
Proof.
  intros Hc%b64_value_inv. unfold url_of_std, std_of_url, pad_char. repeat case_decide; try lia; subst;
    (split; [first [done|f_equal; lia]|lia]).
Qed.

Lemma std_chars l : Forall (fun c => is_Some (b64_value c)) l -> mapM url_of_std (std_of_url <$> l) = Some l.
Proof.
  intros Hl. apply mapM_Some. induction Hl as [|c l Hc Hl IH]; constructor; [|done]. by apply std_char.
Qed.

Lemma filter_all {A} (P : A -> Prop) `{!forall x, Decision (P x)} l : Forall P l -> filter P l = l.
Proof. induction 1 as [|x l Hx Hl IH]; [done|]. by rewrite filter_cons_True, IH. Qed.

Lemma strip_padding_replicate e n :
  (n <= 2)%nat -> Forall (fun c => c <> pad_char) e -> strip_padding (e ++ replicate n pad_char) = e.
Proof.
  intros Hn He. apply Forall_reverse in He. rewrite <- (reverse_involutive e). revert He. generalize (reverse e) as r.
  intros r Hr. unfold strip_padding. rewrite reverse_app, reverse_involutive, reverse_replicate.
  unfold pad_char in *. destruct n as [|[|[|n]]]; [| | |lia]; cbn [replicate app].
  - rewrite app_nil_r. destruct Hr as [|c r Hc Hr]; [done|]. destruct c as [|c|c]; try done.
    repeat (destruct c as [c|c|]; try done).
  - destruct Hr as [|c r Hc Hr]; [done|]. destruct c as [|c|c]; try done. repeat (destruct c as [c|c|]; try done).
  - done.
Qed.

Lemma length_b64_encode src : ((length (b64_encode src) + (3 - length src mod 3) mod 3) mod 4 = 0)%nat.
Proof.
  remember (length src) as n eqn:En. revert src En.
  induction (lt_wf n) as [n _ IH]. intros [|b0 [|b1 [|b2 src]]] ->; [done..|]. cbn [b64_encode length].
  specialize (IH (length src) ltac:(simpl; lia) src eq_refl).
  replace (S (S (S (length src))) mod 3)%nat with (length src mod 3)%nat
    by (rewrite <- (Nat.Div0.mod_add (length src) 1 3); f_equal; lia).
  etransitivity; [|exact IH]. rewrite <- (Nat.Div0.mod_add (length (b64_encode src) + (3 - length src mod 3) mod 3) 1 4). f_equal. lia.
Qed.

(** The padded encoding reads back. *)
Lemma std_decode_encode src : bytes_ok src -> std_decode (std_encode src) = Ok src.
Proof.
  intros Hs. pose proof (b64_encode_range src Hs) as Hr. unfold std_decode, std_encode.
  set (e := std_of_url <$> b64_encode src). set (k := ((3 - length src mod 3) mod 3)%nat).
  assert (He : Forall (fun c => c <> 10 /\ c <> 13 /\ c <> pad_char) e).
  { apply Forall_fmap. eapply Forall_impl; [exact Hr|]. intros c Hc. cbn. by apply std_char. }
  rewrite filter_all.
  2:{ apply Forall_app. split; [|apply Forall_replicate; done]. eapply Forall_impl; [exact He|]. naive_solver. }
  rewrite decide_True by (unfold e; rewrite length_app, length_fmap, length_replicate; apply length_b64_encode).
  rewrite strip_padding_replicate; [|pose proof (Nat.mod_upper_bound (3 - length src mod 3) 3); lia|].
  2:{ eapply Forall_impl; [exact He|]. naive_solver. }
  unfold e. rewrite std_chars by done. cbn. by rewrite b64_decode_encode.
Qed.

(** ** The default configuration acquires time *)

(** Keys that all decode: every server is contacted. *)
Lemma contacted_all decode Get rs :
  Forall (fun r => exists pk, decode (PublicKey r) = Ok pk) rs -> length (contacted decode Get rs) = length rs.
Proof.
  induction 1 as [|r rs [pk Hr] _ IH]; [done|]. unfold contacted in *. cbn. rewrite Hr. cbn. f_equal. exact IH.
Qed.

(** C25: With the default configuration the trusted time cannot hang on its configuration: the
    keys of all four roughtime servers are 32 bytes of good base64, so each is asked, and whatever
    they answer and in whatever order, [AcquireTime] returns: the midpoint of a server that
    answered (there is no NTP server that would change it), or an error when none did. *)
Theorem default_time_acquired keys version hash terms ca Get fin :
  let cfg := DefaultConfig keys version hash terms ca in
  fin ≡ₚ contacted StdDecodeString Get (RoughtimeServers cfg) ->
  Forall (fun r => exists pk, StdDecodeString (PublicKey r) = Ok pk /\ length pk = 32%nat) (RoughtimeServers cfg) /\
  length fin = 4%nat /\
  forall ntps, length ntps = length (NtpServers cfg) ->
    (answers fin = [] -> exists e, AcquireTime (RoughtimeServers cfg) fin ntps = Ret (Err e)) /\
    (answers fin <> [] -> exists rt, rt ∈ answers fin /\ AcquireTime (RoughtimeServers cfg) fin ntps = Ret (Ok (Midpoint rt))).
Proof.
  intros cfg Hp.
  assert (Hk : Forall (fun r => exists pk, StdDecodeString (PublicKey r) = Ok pk /\ length pk = 32%nat) (RoughtimeServers cfg)).
  { repeat constructor; eexists; (split; [vm_compute; reflexivity|reflexivity]). }
  assert (Hlen : length fin = 4%nat).
  { rewrite (Permutation_length Hp), contacted_all; [done|]. eapply Forall_impl; [exact Hk|]. naive_solver. }
  split; [exact Hk|]. split; [exact Hlen|]. intros ntps ->%nil_length_inv. unfold AcquireTime, getOneRoughtime.
  rewrite queue_answers by (by eapply contacted_length).
  destruct (answers fin) as [|rt l] eqn:Ea.
  - split; [|done]. intros _. rewrite no_answers; [by eexists|done|by destruct fin].
  - split; [done|]. intros _. exists rt. split; [by left|done].
Qed.

(** ** The test server *)

Lemma std_bytes src : bytes_ok src -> str_bytes (StdEncodeToString src) = std_encode src.
Proof.
  intros Hs. apply str_bytes_str. unfold std_encode. apply Forall_app. split.
  - apply Forall_fmap. eapply Forall_impl; [by apply b64_encode_range|]. intros c Hc%b64_value_inv. cbn.
    unfold std_of_url, is_byte, is_uint. repeat case_decide; lia.
  - apply Forall_replicate. unfold pad_char, is_byte, is_uint. lia.
Qed.

(** A client configured with the test server has its root key. *)
Theorem test_server_key {message} `{Roughtimes message} (s : TestServer) pub priv :
  GenerateKey 0 = Ok (pub, priv) -> bytes_ok pub -> NewTestRoughtimeServer = Ret s ->
  StdDecodeString (PublicKey (ts_Config s)) = Ok pub /\
  exists online secret, GenerateKey 1 = Ok (online, secret) /\ ts_pk s = secret /\
    CreateCertificate 0 (2 ^ 64 - 1) online priv = Ok (ts_cert s).
Proof.
  intros Hg Hb. unfold NewTestRoughtimeServer. rewrite Hg. destruct (GenerateKey 1) as [|[online secret]]; [done|].
  change (uint 64 (Z.lnot 0)) with (2 ^ 64 - 1). destruct (CreateCertificate _ _ _ _) as [|cert] eqn:Hc; [done|].
  intros [= <-]. cbn. split; [|by eauto]. unfold StdDecodeString. by rewrite std_bytes, std_decode_encode.
Qed.

(** The requests a server answers: as large as the protocol demands, with a nonce of the right
    length in what was read. *)
Definition answered {message} `{Roughtimes message} (s : TestServer) (b : list Z) (now : Z) : option (list Z) :=
  if decide (MinRequestSize <= length b)%nat then
    match Decode (take MinRequestSize b) with
    | Ok packet =>
        match TagNonce packet with
        | Some nonce =>
            if decide (length nonce = NonceSize) then
              match CreateReplies [nonce] now 1000000 (ts_cert s) (ts_pk s) with Ok [reply] => Some reply | _ => None end
            else None
        | None => None
        end
    | Err _ => None
    end
  else None.

Lemma serve_all_answers {message} `{Roughtimes message} (s : TestServer) buf rs :
  length buf = MinRequestSize ->
  serve_all s buf rs = omap (fun r => match r with
    | Datagram b from now => (fun reply => (reply, from)) <$> answered s b now | ReadError => None end) rs.
Proof.
  revert buf. induction rs as [|r rs IH]; intros buf Hbuf; [done|]. cbn [serve_all omap list_omap].
  destruct r as [b from now|]; cbn [serve]; [|by rewrite IH].
  rewrite IH by (rewrite length_app, length_take, length_drop; lia). unfold answered. rewrite Hbuf.
  case_decide as Hn; case_decide as Hm; try lia; [done|].
  rewrite (Nat.min_r (length b)), take_app_length' by (rewrite ?length_take; lia).
  destruct (Decode _) as [|packet]; [done|]. destruct (TagNonce packet) as [nonce|]; [|done]. case_decide; [|done].
  by destruct (CreateReplies _ _ _ _ _) as [|[|reply []]].
Qed.

(** Each datagram is judged by itself: the buffer the turns share never leaks an earlier
    request into a later one, and every reply goes to the sender of its request. *)
Theorem Run_answers {message} `{Roughtimes message} (s : TestServer) listen rs :
  Run listen s rs =
    match listen with
    | Err _ => Exit
    | Ok _ => Ret (omap (fun r => match r with
        | Datagram b from now => (fun reply => (reply, from)) <$> answered s b now | ReadError => None end) rs)
    end.
Proof. unfold Run. destruct listen; [done|]. by rewrite serve_all_answers by apply length_replicate. Qed.

Module SimConfig.
(** Only one of the servers answers. *)
Definition Get (r : RoughtimeServer) (pk : list Z) : result Roughtime :=
  if decide (Address r = "time.0xt.ca:2002") then Ok (mk_roughtime 5000 1) else Err "timeout".

Definition sim_config : Config := DefaultConfig [] "v1" "0123456" true "".
Definition sim_results : list (result Roughtime) := contacted StdDecodeString Get (RoughtimeServers sim_config).

Lemma default_time_acquired_witness :
  length sim_results = 4%nat /\ exists rt, rt ∈ answers sim_results /\ AcquireTime (RoughtimeServers sim_config) sim_results [] = Ret (Ok (Midpoint rt)).
Proof.
  destruct (default_time_acquired [] "v1" "0123456" true "" Get sim_results) as (_ & Hlen & Hacq); [reflexivity|].
  split; [exact Hlen|]. destruct (Hacq [] eq_refl) as [_ Hok]. apply Hok. vm_compute. discriminate.
Defined.
End SimConfig.
