(* ===== verification/Json.v ===== *)
(** * JSON texts (encoding/json)

    What the ACME client uses of encoding/json: the scanner, the decoding of a text
    into a value of a Go type, and the encoding of structures.  A string literal is
    kept as the bytes between its quotes, as the package does while it decodes; a
    number is its literal.  The package's limit on the depth of nesting is left out. *)

From S2P Require Import Prelude GoStrings Encoding.
#[local] Open Scope string_scope.
#[local] Open Scope list_scope.
#[local] Open Scope Z_scope.

#[local] Unset Elimination Schemes.
Inductive json : Type :=
| JNull
| JBool (b : bool)
| JNum (lit : list Z)
| JStr (raw : list Z)
| JArr (l : list json)
| JObj (ms : list (list Z * json)).
#[local] Set Elimination Schemes.

(** ** The scanner *)

Definition is_space (c : Z) : bool := bool_decide (c = 32 \/ c = 9 \/ c = 13 \/ c = 10).

Fixpoint skip_ws (s : list Z) : list Z :=
  match s with
  | c :: s' => if is_space c then skip_ws s' else s
  | [] => []
  end.

Definition is_hex (c : Z) : bool :=
  bool_decide (48 <= c <= 57 \/ 97 <= c <= 102 \/ 65 <= c <= 70).

(** The escapes of one character: quote, backslash, slash, b, f, n, r, t. *)
Definition is_escape (c : Z) : bool :=
  bool_decide (c = 34 \/ c = 92 \/ c = 47 \/ c = 98 \/ c = 102 \/ c = 110 \/ c = 114 \/ c = 116).

(** After the opening quote: the literal up to the closing quote, and the rest. *)
Fixpoint string_lit (s : list Z) : option (list Z * list Z) :=
  match s with
  | [] => None
  | c :: s =>
      if decide (c = 34) then Some ([], s)
      else if decide (c = 92) then
        match s with
        | [] => None
        | e :: s =>
            if is_escape e then '(raw, rest) ← string_lit s; Some (92 :: e :: raw, rest)
            else if decide (e = 117) then
              match s with
              | h3 :: h2 :: h1 :: h0 :: s =>
                  if is_hex h3 && is_hex h2 && is_hex h1 && is_hex h0
                  then '(raw, rest) ← string_lit s; Some (92 :: 117 :: h3 :: h2 :: h1 :: h0 :: raw, rest)
                  else None
              | _ => None
              end
            else None
        end
      else if decide (c < 0x20) then None
      else '(raw, rest) ← string_lit s; Some (c :: raw, rest)
  end.

Definition is_dec (c : Z) : bool := bool_decide (48 <= c <= 57).

(** The leading decimal digits. *)
Fixpoint span_digits (s : list Z) : list Z * list Z :=
  match s with
  | c :: s' => if is_dec c then let '(d, r) := span_digits s' in (c :: d, r) else ([], s)
  | [] => ([], [])
  end.

(** A minus sign; zero, or digits that do not start with zero; a fraction; an
    exponent. *)
Definition number_sign (s : list Z) : list Z * list Z :=
  match s with
  | c :: s' => if decide (c = 45) then ([c], s') else ([], s)
  | [] => ([], s)
  end.

(** At least one digit. *)
Definition digits1 (s : list Z) : option (list Z * list Z) :=
  match span_digits s with ([], _) => None | dr => Some dr end.

Definition number_int (s : list Z) : option (list Z * list Z) :=
  match s with
  | c :: s' => if decide (c = 48) then Some ([c], s') else digits1 s
  | [] => None
  end.

Definition number_frac (s : list Z) : option (list Z * list Z) :=
  match s with
  | c :: s' => if decide (c = 46) then '(d, r) ← digits1 s'; Some (c :: d, r) else Some ([], s)
  | [] => Some ([], s)
  end.

Definition number_exp (s : list Z) : option (list Z * list Z) :=
  match s with
  | e :: s' =>
      if decide (e = 101 \/ e = 69) then
        let '(sg, s'') := match s' with
                          | c :: t => if decide (c = 43 \/ c = 45) then ([c], t) else ([], s')
                          | [] => ([], s')
                          end in
        '(d, r) ← digits1 s''; Some (e :: sg ++ d, r)
      else Some ([], s)
  | [] => Some ([], s)
  end.

Definition number_lit (s : list Z) : option (list Z * list Z) :=
  let '(sg, s) := number_sign s in
  '(i, s) ← number_int s;
  '(f, s) ← number_frac s;
  '(e, s) ← number_exp s;
  Some (sg ++ i ++ f ++ e, s).

(** A literal name. *)
Definition literal (name : list Z) (v : json) (s : list Z) : option (json * list Z) :=
  if decide (take (length name) s = name) then Some (v, drop (length name) s) else None.

(** The byte [c], after white space. *)
Definition expect (c : Z) (s : list Z) : option (list Z) :=
  match skip_ws s with
  | c' :: s => if decide (c' = c) then Some s else None
  | [] => None
  end.

(** A value, its elements or its members, and the rest of the text. *)
Fixpoint value (fuel : nat) (s : list Z) : option (json * list Z) :=
  match fuel with
  | O => None
  | S fuel =>
      match skip_ws s with
      | [] => None
      | c :: s =>
          if decide (c = 123) then
            match expect 125 s with
            | Some s => Some (JObj [], s)
            | None => '(ms, s) ← object_members fuel s; Some (JObj ms, s)
            end
          else if decide (c = 91) then
            match expect 93 s with
            | Some s => Some (JArr [], s)
            | None => '(l, s) ← array_elems fuel s; Some (JArr l, s)
            end
          else if decide (c = 34) then '(raw, s) ← string_lit s; Some (JStr raw, s)
          else if decide (c = 110) then literal (str_bytes "null") JNull (c :: s)
          else if decide (c = 116) then literal (str_bytes "true") (JBool true) (c :: s)
          else if decide (c = 102) then literal (str_bytes "false") (JBool false) (c :: s)
          else '(lit, s) ← number_lit (c :: s); Some (JNum lit, s)
      end
  end
with array_elems (fuel : nat) (s : list Z) : option (list json * list Z) :=
  match fuel with
  | O => None
  | S fuel =>
      '(v, s) ← value fuel s;
      match expect 44 s with
      | Some s => '(l, s) ← array_elems fuel s; Some (v :: l, s)
      | None => s ← expect 93 s; Some ([v], s)
      end
  end
with object_members (fuel : nat) (s : list Z) : option (list (list Z * json) * list Z) :=
  match fuel with
  | O => None
  | S fuel =>
      s ← expect 34 s;
      '(k, s) ← string_lit s;
      s ← expect 58 s;
      '(v, s) ← value fuel s;
      match expect 44 s with
      | Some s => '(ms, s) ← object_members fuel s; Some ((k, v) :: ms, s)
      | None => s ← expect 125 s; Some ([(k, v)], s)
      end
  end.

(** Every value or list takes a byte, and its first element is read with one unit
    of fuel less without taking a byte. *)
Definition parse_fuel (s : list Z) : nat := 2 * length s + 2.

(** The text of the first value of a stream, and what follows it. *)
Definition parse (s : list Z) : option (json * list Z) := value (parse_fuel s) s.

(** A text that is one value. *)
Definition parse_all (s : list Z) : option json :=
  '(v, rest) ← parse s; match skip_ws rest with [] => Some v | _ => None end.

(** Texts separated by commas. *)
Fixpoint join (ls : list (list Z)) : list Z :=
  match ls with
  | [] => []
  | [x] => x
  | x :: ls => x ++ [44] ++ join ls
  end.

(** The compact text of a value. *)
Fixpoint jprint (v : json) : list Z :=
  match v with
  | JNull => str_bytes "null"
  | JBool b => if b then str_bytes "true" else str_bytes "false"
  | JNum lit => lit
  | JStr raw => [34] ++ raw ++ [34]
  | JArr l => [91] ++ join (map jprint l) ++ [93]
  | JObj ms => [123] ++ join (map (fun m => let '(k, v) := m in [34] ++ k ++ [34; 58] ++ jprint v) ms) ++ [125]
  end.

(** ** String literals *)

Definition hex_value (c : Z) : Z :=
  if decide (c <= 57) then c - 48 else if decide (c <= 70) then c - 55 else c - 87.

Definition hex4 (h3 h2 h1 h0 : Z) : Z :=
  ((hex_value h3 * 16 + hex_value h2) * 16 + hex_value h1) * 16 + hex_value h0.

(** The byte that an escape of one character stands for. *)
Definition unescape (e : Z) : Z :=
  if decide (e = 98) then 8 else if decide (e = 102) then 12 else if decide (e = 110) then 10
  else if decide (e = 114) then 13 else if decide (e = 116) then 9 else e.

(** The code of an escape \uXXXX at the front. *)
Definition getu4 (s : list Z) : option (Z * list Z) :=
  match s with
  | c :: u :: h3 :: h2 :: h1 :: h0 :: s =>
      if decide (c = 92 /\ u = 117) then
        if is_hex h3 && is_hex h2 && is_hex h1 && is_hex h0 then Some (hex4 h3 h2 h1 h0, s) else None
      else None
  | _ => None
  end.

(** The string of a literal: escapes are replaced, pairs of surrogates combined,
    and what is not UTF-8 becomes U+FFFD. *)
Fixpoint unquote_with (fuel : nat) (s : list Z) : list Z :=
  match fuel, s with
  | S fuel, c :: s' =>
      if decide (c = 92) then
        match getu4 s with
        | Some (rr, s1) =>
            if decide (0xd800 <= rr < 0xe000) then
              match getu4 s1 with
              | Some (rr1, s2) =>
                  if decide (rr < 0xdc00 /\ 0xdc00 <= rr1 < 0xe000)
                  then EncodeRune ((rr - 0xd800) * 1024 + (rr1 - 0xdc00) + 0x10000) ++ unquote_with fuel s2
                  else EncodeRune RuneError ++ unquote_with fuel s1
              | None => EncodeRune RuneError ++ unquote_with fuel s1
              end
            else EncodeRune rr ++ unquote_with fuel s1
        | None =>
            match s' with
            | e :: s2 => unescape e :: unquote_with fuel s2
            | [] => []
            end
        end
      else
        match DecodeRune s with
        | Some (r, rest) => EncodeRune r ++ unquote_with fuel rest
        | None => []
        end
  | _, _ => []
  end.

Definition unquote (raw : list Z) : list Z := unquote_with (length raw) raw.

(** The literal of a string, with the characters that are special in HTML escaped
    (the default of [json.Marshal]). *)
Fixpoint escape_with (fuel : nat) (s : list Z) : list Z :=
  match fuel, s with
  | S fuel, b0 :: s' =>
      if decide (b0 < 0x80) then
        (if decide (b0 = 34 \/ b0 = 92) then [92; b0]
         else if decide (b0 = 10) then [92; 110]
         else if decide (b0 = 13) then [92; 114]
         else if decide (b0 = 9) then [92; 116]
         else if decide (b0 < 0x20 \/ b0 = 60 \/ b0 = 62 \/ b0 = 38)
         then [92; 117; 48; 48; hex_digit b0 1; hex_digit b0 0]
         else [b0]) ++ escape_with fuel s'
      else
        match DecodeRune s with
        | Some (r, rest) =>
            (if decide (r = RuneError /\ length rest = length s') then str_bytes "\ufffd"
             else if decide (r = 0x2028 \/ r = 0x2029) then str_bytes "\u202" ++ [hex_digit r 0]
             else take (length s - length rest) s) ++ escape_with fuel rest
        | None => []
        end
  | _, _ => []
  end.

Definition escape (s : string) : list Z := escape_with (String.length s) (str_bytes s).

(** ** Decoding into Go values

    A decoder updates a value from a JSON value and says whether the types did not
    fit; decoding goes on after such an error, and the first one is returned at the
    end.  [null] leaves a value as it is, and makes a pointer or a slice nil. *)

Definition decoder (A : Type) : Type := json -> A -> A * bool.

Definition dec_string : decoder string := fun v old =>
  match v with
  | JStr raw => (bytes_str (unquote raw), false)
  | JNull => (old, false)
  | _ => (old, true)
  end.

Definition dec_bool : decoder bool := fun v old =>
  match v with
  | JBool b => (b, false)
  | JNull => (old, false)
  | _ => (old, true)
  end.

(** An [int] of [w] bits: the literal must be an integer in its range. *)
Definition dec_int (w : Z) : decoder Z := fun v old =>
  match v with
  | JNum lit => match Atoi w (bytes_str lit) with Ok z => (z, false) | Err _ => (old, true) end
  | JNull => (old, false)
  | _ => (old, true)
  end.

(** A slice: its elements are decoded over the old ones; nil is the empty list. *)
Fixpoint dec_elements {A} (zero : A) (d : decoder A) (l : list json) (old : list A) : list A * bool :=
  match l with
  | [] => ([], false)
  | v :: l =>
      let '(x, e) := d v (default zero (head old)) in
      let '(xs, es) := dec_elements zero d l (tail old) in
      (x :: xs, e || es)
  end.

Definition dec_slice {A} (zero : A) (d : decoder A) : decoder (list A) := fun v old =>
  match v with
  | JArr l => dec_elements zero d l old
  | JNull => ([], false)
  | _ => (old, true)
  end.

Definition dec_ptr {A} (zero : A) (d : decoder A) : decoder (option A) := fun v old =>
  match v with
  | JNull => (None, false)
  | _ => let '(x, e) := d v (default zero old) in (Some x, e)
  end.

(** [strings.EqualFold] with an ASCII name: letters without case, and the two
    runes outside ASCII that fold to s and k. *)
Fixpoint fold_name (s : list Z) : list Z :=
  match s with
  | 0xc5 :: 0xbf :: s => 115 :: fold_name s
  | 0xe2 :: 0x84 :: 0xaa :: s => 107 :: fold_name s
  | c :: s => (if decide (65 <= c <= 90) then c + 32 else c) :: fold_name s
  | [] => []
  end.

(** A field of a structure: its name and how a member changes it. *)
Definition field (A : Type) : Type := (string * decoder A)%type.

(** A field given by its accessor and its update. *)
Definition at_field {A B} (name : string) (get : A -> B) (set : B -> A -> A) (d : decoder B) : field A :=
  (name, fun v a => let '(b, e) := d v (get a) in (set b a, e)).

Definition dec_member {A} (fs : list (field A)) (m : list Z * json) (a : A) : A * bool :=
  match find (fun f => bool_decide (fold_name (str_bytes f.1) = fold_name (unquote m.1))) fs with
  | Some f => f.2 m.2 a
  | None => (a, false)
  end.

Fixpoint dec_members {A} (fs : list (field A)) (ms : list (list Z * json)) (a : A) : A * bool :=
  match ms with
  | [] => (a, false)
  | m :: ms =>
      let '(a, e) := dec_member fs m a in
      let '(a, es) := dec_members fs ms a in
      (a, e || es)
  end.

Definition dec_struct {A} (fs : list (field A)) : decoder A := fun v old =>
  match v with
  | JObj ms => dec_members fs ms old
  | JNull => (old, false)
  | _ => (old, true)
  end.

(** What reading a body gives: its bytes, and the error that ended it, if any. *)
Record body : Type := mk_body { body_bytes : list Z; body_error : option error }.

(** [json.NewDecoder(r).Decode(&v)]: the first value of the stream. *)
Definition Decode {A} (d : decoder A) (zero : A) (b : body) : result A :=
  match parse (body_bytes b) with
  | None => Err (default "invalid JSON" (body_error b))
  | Some (v, _) => let '(a, e) := d v zero in if (e : bool) then Err "json: cannot unmarshal" else Ok a
  end.

(** [json.Unmarshal(data, &v)]: the value as far as it was decoded, and the error. *)
Definition Unmarshal {A} (d : decoder A) (data : list Z) (old : A) : A * option error :=
  match parse_all data with
  | None => (old, Some "invalid JSON")
  | Some v => let '(a, e) := d v old in (a, if (e : bool) then Some "json: cannot unmarshal" else None)
  end.

(** ** Encoding *)

#[local] Unset Elimination Schemes.
Inductive enc : Type :=
| EStr (s : string)
| EInt (z : Z)
| EBool (b : bool)
| EArr (l : list enc)
| EObj (fs : list (string * enc)).
#[local] Set Elimination Schemes.

Fixpoint to_json (e : enc) : json :=
  match e with
  | EStr s => JStr (escape s)
  | EInt z => JNum (str_bytes (itoa z))
  | EBool b => JBool b
  | EArr l => JArr (map to_json l)
  | EObj fs => JObj (map (fun f => let '(k, v) := f in (escape k, to_json v)) fs)
  end.

(** [json.Marshal] of a structure. *)
Definition Marshal (e : enc) : list Z := jprint (to_json e).

(** [json.Marshal] of a [json.RawMessage]. *)
Definition MarshalRaw (m : list Z) : result (list Z) :=
  match parse_all m with
  | Some v => Ok (jprint v)
  | None => Err "json: error calling MarshalJSON for type json.RawMessage"
  end.

(** ** What is printed is scanned back *)

(** Induction over values, with the statement for the members. *)
Section Induction.
Context (P : json -> Prop).
Context (Hnull : P JNull) (Hbool : forall b, P (JBool b)) (Hnum : forall lit, P (JNum lit))
  (Hstr : forall raw, P (JStr raw)) (Harr : forall l, Forall P l -> P (JArr l))
  (Hobj : forall ms, Forall (fun m => P m.2) ms -> P (JObj ms)).

Fixpoint json_ind (v : json) : P v :=
  match v with
  | JNull => Hnull
  | JBool b => Hbool b
  | JNum lit => Hnum lit
  | JStr raw => Hstr raw
  | JArr l => Harr l ((fix go l : Forall P l :=
      match l with [] => List.Forall_nil _ | v :: l => List.Forall_cons _ _ _ (json_ind v) (go l) end) l)
  | JObj ms => Hobj ms ((fix go ms : Forall (fun m => P m.2) ms :=
      match ms with [] => List.Forall_nil _ | m :: ms => List.Forall_cons _ _ _ (json_ind m.2) (go ms) end) ms)
  end.
End Induction.

(** The literals that the scanner accepts. *)
Inductive raw_ok : list Z -> Prop :=
| raw_nil : raw_ok []
| raw_char c raw : c <> 34 -> c <> 92 -> 0x20 <= c < 256 -> raw_ok raw -> raw_ok (c :: raw)
| raw_escape e raw : is_escape e = true -> raw_ok raw -> raw_ok (92 :: e :: raw)
| raw_unicode h3 h2 h1 h0 raw :
    is_hex h3 = true -> is_hex h2 = true -> is_hex h1 = true -> is_hex h0 = true ->
    raw_ok raw -> raw_ok (92 :: 117 :: h3 :: h2 :: h1 :: h0 :: raw).

Lemma string_lit_raw raw rest : raw_ok raw -> string_lit (raw ++ 34 :: rest) = Some (raw, rest).
Proof.
  induction 1 as [|c raw H1 H2 H3 _ IH|e raw He _ IH|h3 h2 h1 h0 raw E3 E2 E1 E0 _ IH]; cbn [app string_lit].
  - done.
  - rewrite !decide_False by lia. by rewrite IH.
  - rewrite decide_False, decide_True by lia. rewrite He. by rewrite IH.
  - rewrite decide_False, decide_True by lia. cbn. rewrite E3, E2, E1, E0. cbn [andb].
    by rewrite IH.
Qed.

(** The values that are printed by the program: well-formed literals, and integers. *)
Inductive printable : json -> Prop :=
| pr_null : printable JNull
| pr_bool b : printable (JBool b)
| pr_num z : printable (JNum (str_bytes (itoa z)))
| pr_str raw : raw_ok raw -> printable (JStr raw)
| pr_arr l : Forall printable l -> printable (JArr l)
| pr_obj ms : Forall (fun m => raw_ok m.1 /\ printable m.2) ms -> printable (JObj ms).

(** What may follow a number. *)
Definition delimited (s : list Z) : Prop :=
  match s with
  | [] => True
  | c :: _ => is_dec c = false /\ c <> 46 /\ c <> 101 /\ c <> 69
  end.

Lemma span_digits_app d rest :
  Forall (fun c => is_dec c = true) d -> delimited rest -> span_digits (d ++ rest) = (d, rest).
Proof.
  intros Hd Hr. induction Hd as [|c d Hc _ IH]; cbn [app span_digits].
  - destruct rest as [|c rest]; [done|]. destruct Hr as [Hc _]. cbn. by rewrite Hc.
  - by rewrite Hc, IH.
Qed.

Lemma digit_bytes s : str_forall is_digit s -> Forall (fun c => is_dec c = true) (str_bytes s).
Proof.
  induction s as [|c s IH]; [constructor|]. intros [Hc Hs]. cbn [str_bytes]. constructor; [|by apply IH].
  by apply bool_decide_eq_true_2.
Qed.

(** The digits of a natural number start with zero only for zero. *)
Lemma digits_no_leading_zero fuel n acc :
  0 < n < 10 ^ Z.of_nat fuel -> (0 < fuel)%nat -> exists c s, digits fuel n acc = String c s /\ byte_val c <> 48.
Proof.
  revert n acc. induction fuel as [|fuel IH]; intros n acc Hn Hf; [lia|].
  pose proof (Z.mod_pos_bound n 10 ltac:(lia)) as Hm. cbn [digits]. case_decide as Hlt.
  - eexists _, _. split; [done|]. rewrite digit_char by lia. rewrite Z.mod_small by lia. lia.
  - apply IH.
    + rewrite Nat2Z.inj_succ, Z.pow_succ_r in Hn by lia. split; [apply Z.div_str_pos; lia|].
      apply Z.div_lt_upper_bound; lia.
    + destruct fuel; [|lia]. simpl in Hn. lia.
Qed.

Lemma number_int_digits n rest : 0 <= n -> delimited rest ->
  number_int (str_bytes (digits (S (Z.to_nat (Z.log2 n))) n EmptyString) ++ rest) =
  Some (str_bytes (digits (S (Z.to_nat (Z.log2 n))) n EmptyString), rest).
Proof.
  intros Hn Hr. destruct (decide (n = 0)) as [->|Hz]; [done|].
  pose proof (digit_bytes _ (digits_are_digits (S (Z.to_nat (Z.log2 n))) n EmptyString Hn I)) as Hd.
  destruct (digits_no_leading_zero (S (Z.to_nat (Z.log2 n))) n EmptyString) as (c & s & E & Hc); [|lia|].
  { split; [lia|]. destruct (Z.log2_spec n ltac:(lia)) as [_ Hl]. eapply Z.lt_le_trans; [exact Hl|].
    rewrite Nat2Z.inj_succ, Z2Nat.id by apply Z.log2_nonneg. apply Z.pow_le_mono_l. lia. }
  rewrite E in *. cbn [str_bytes app number_int] in *. rewrite decide_False by done.
  unfold digits1. by rewrite app_comm_cons, span_digits_app.
Qed.

Lemma number_lit_itoa z rest : delimited rest ->
  number_lit (str_bytes (itoa z) ++ rest) = Some (str_bytes (itoa z), rest).
Proof.
  intros Hr.
  assert (Htail : number_frac rest = Some ([], rest) /\ number_exp rest = Some ([], rest)).
  { destruct rest as [|c rest]; [done|]. destruct Hr as (_ & H1 & H2 & H3).
    unfold number_frac, number_exp. by rewrite !decide_False by lia. }
  destruct Htail as [Ef Ee]. unfold number_lit, itoa. case_decide as Hz.
  - cbn [str_bytes app number_sign]. rewrite byte_val_chr by (split; lia). rewrite decide_True by done.
    rewrite number_int_digits by (done || lia). cbn [mbind option_bind]. rewrite Ef. cbn [mbind option_bind].
    rewrite Ee. cbn [mbind option_bind]. by rewrite app_nil_r.
  - assert (Es : forall t, number_sign (str_bytes (digits (S (Z.to_nat (Z.log2 z))) z EmptyString) ++ t) =
      ([], str_bytes (digits (S (Z.to_nat (Z.log2 z))) z EmptyString) ++ t)).
    { intros t. destruct (digits_head (Z.to_nat (Z.log2 z)) z EmptyString ltac:(lia)) as (c & s & -> & Hc).
      cbn [str_bytes app number_sign]. unfold is_digit in Hc. by rewrite decide_False by lia. }
    rewrite Es. rewrite number_int_digits by (done || lia). cbn [mbind option_bind]. rewrite Ef.
    cbn [mbind option_bind]. rewrite Ee. cbn [mbind option_bind]. by rewrite app_nil_r.
Qed.

(** The first byte of a printed value is not white space and closes nothing. *)
Definition starts (s : list Z) : Prop :=
  exists c s', s = c :: s' /\ is_space c = false /\ c <> 93 /\ c <> 125.

Lemma starts_itoa z : exists c s, str_bytes (itoa z) = c :: s /\ (c = 45 \/ is_dec c = true).
Proof.
  unfold itoa. case_decide as Hz.
  - eexists _, _. split; [done|]. left. by apply byte_val_chr.
  - destruct (digits_head (Z.to_nat (Z.log2 z)) z EmptyString ltac:(lia)) as (c & s & -> & Hc).
    eexists _, _. split; [done|]. right. by apply bool_decide_eq_true_2.
Qed.

Lemma number_byte c : c = 45 \/ is_dec c = true ->
  is_space c = false /\ c <> 93 /\ c <> 125 /\ c <> 123 /\ c <> 91 /\ c <> 34 /\ c <> 110 /\ c <> 116 /\ c <> 102.
Proof.
  intros [->|Hc%bool_decide_eq_true_1]; [done|]. split; [apply bool_decide_eq_false_2|]; lia.
Qed.

Lemma jprint_starts v : printable v -> starts (jprint v).
Proof.
  destruct 1 as [|b|z|raw _|l _|ms _]; try (destruct b); try (eexists _, _; split; [reflexivity|done]).
  destruct (starts_itoa z) as (c & s & E & Hc). exists c, s. cbn [jprint]. rewrite E.
  destruct (number_byte c Hc) as (? & ? & ? & _). done.
Qed.

Lemma skip_ws_starts s rest : starts s -> skip_ws (s ++ rest) = s ++ rest.
Proof. intros (c & s' & -> & Hc & _). cbn. by rewrite Hc. Qed.

Lemma expect_ne c s rest : starts s -> c = 93 \/ c = 125 -> expect c (s ++ rest) = None.
Proof.
  intros Hs Hc. unfold expect. rewrite skip_ws_starts by done. destruct Hs as (d & s' & -> & _ & H1 & H2).
  cbn. by rewrite decide_False by (destruct Hc; congruence).
Qed.

(** What [value] has to scan back. *)
Definition scans (v : json) : Prop := forall fuel rest,
  (2 * length (jprint v) <= fuel)%nat -> delimited rest -> value fuel (jprint v ++ rest) = Some (v, rest).

Lemma join_cons x y ls : join (x :: y :: ls) = x ++ [44] ++ join (y :: ls).
Proof. done. Qed.

Lemma jprint_pos v : printable v -> (0 < length (jprint v))%nat.
Proof. intros (c & s & -> & _)%jprint_starts. simpl. lia. Qed.

Lemma array_elems_scan l : forall fuel rest, l <> [] ->
  Forall printable l -> Forall scans l -> (2 * length (join (map jprint l)) < fuel)%nat ->
  array_elems fuel (join (map jprint l) ++ 93 :: rest) = Some (l, rest).
Proof.
  induction l as [|v l IH]; [done|]. intros [|fuel] rest _ Hp Hs Hf; [lia|].
  inversion_clear Hp as [|? ? Hpv Hpl]. inversion_clear Hs as [|? ? Hv Hl].
  destruct l as [|v' l].
  - cbn [map join array_elems] in *. rewrite Hv by (done || lia). done.
  - change (map jprint (v :: v' :: l)) with (jprint v :: jprint v' :: map jprint l) in *.
    rewrite join_cons in *. rewrite !length_app in Hf. cbn [length] in Hf. cbn [array_elems].
    rewrite <- !app_assoc, Hv by (done || lia). cbn [mbind option_bind app].
    change (expect 44 (44 :: ?x)) with (Some x).
    change (jprint v' :: map jprint l) with (map jprint (v' :: l)) in *.
    cbv beta iota. rewrite (IH fuel rest); [done|done|done|done|lia].
Qed.

Definition member_text (m : list Z * json) : list Z := let '(k, v) := m in [34] ++ k ++ [34; 58] ++ jprint v.

Lemma object_members_scan ms : forall fuel rest, ms <> [] ->
  Forall (fun m => raw_ok m.1 /\ printable m.2) ms -> Forall (fun m => scans m.2) ms ->
  (2 * length (join (map member_text ms)) < fuel)%nat ->
  object_members fuel (join (map member_text ms) ++ 125 :: rest) = Some (ms, rest).
Proof.
  induction ms as [|[k v] ms IH]; [done|]. intros [|fuel] rest _ Hp Hs Hf; [lia|].
  inversion_clear Hp as [|? ? [Hk Hpv] Hpl]. inversion_clear Hs as [|? ? Hv Hl]. cbn [fst snd] in *.
  assert (Hmem : forall t, delimited t -> (2 * length (jprint v) <= fuel)%nat -> object_members (S fuel) (member_text (k, v) ++ t) =
    match expect 44 t with
    | Some s => '(ms, s) ← object_members fuel s; Some ((k, v) :: ms, s)
    | None => s ← expect 125 t; Some ([(k, v)], s)
    end).
  { intros t Ht Hft. unfold member_text. rewrite <- !app_assoc. cbn [object_members].
    change (expect 34 ([34] ++ ?x)) with (Some x). cbn [mbind option_bind].
    change (k ++ [34; 58] ++ ?x) with (k ++ 34 :: 58 :: x). rewrite string_lit_raw by done.
    cbn [mbind option_bind]. change (expect 58 (58 :: ?x)) with (Some x). cbn [mbind option_bind].
    by rewrite Hv. }
  destruct ms as [|m' ms].
  - cbn [map join] in *. rewrite Hmem; [done|done|]. unfold member_text in Hf. rewrite !length_app in Hf.
    cbn [length] in Hf. lia.
  - change (map member_text ((k, v) :: m' :: ms)) with (member_text (k, v) :: member_text m' :: map member_text ms) in *.
    rewrite join_cons in *. rewrite !length_app in Hf. rewrite <- !app_assoc, Hmem; [|done|].
    + change (expect 44 ([44] ++ ?x)) with (Some x). cbn [length] in Hf.
      change (member_text m' :: map member_text ms) with (map member_text (m' :: ms)) in *.
      cbv beta iota. rewrite (IH fuel rest); [done|done|done|done|lia].
    + unfold member_text in Hf. rewrite !length_app in Hf. cbn [length] in Hf. lia.
Qed.

Lemma jprint_scans v : printable v -> scans v.
Proof.
  induction v as [|b|lit|raw|l IH|ms IH] using json_ind; intros Hp fuel rest Hf Hr;
    (destruct fuel as [|fuel]; [pose proof (jprint_pos _ Hp); lia|]).
  - done.
  - by destruct b.
  - inversion Hp as [| |z E| | |]; subst. cbn [jprint]. destruct (starts_itoa z) as (c & s & E & Hc).
    pose proof (number_lit_itoa z rest Hr) as Hn. rewrite E in *. cbn [app value skip_ws] in *.
    destruct (number_byte c Hc) as (Hs & _ & _ & H1 & H2 & H3 & H4 & H5 & H6).
    rewrite Hs, !decide_False by done. by rewrite Hn.
  - inversion Hp as [| | |? Hraw| |]; subst. cbn [jprint]. rewrite <- !app_assoc. cbn [app value skip_ws].
    change (is_space 34) with false. cbv iota. rewrite (string_lit_raw raw rest Hraw). done.
  - inversion Hp as [| | | |? Hl|]; subst. cbn [jprint] in *. rewrite <- !app_assoc. cbn [app value skip_ws].
    change (is_space 91) with false. cbv iota. destruct l as [|v l]; [done|].
    assert (Hst : forall t, expect 93 (join (map jprint (v :: l)) ++ t) = None).
    { intros t. inversion_clear Hl as [|? ? Hv _]. destruct l as [|v' l].
      - by apply expect_ne; [apply jprint_starts|left].
      - cbn [map]. rewrite join_cons, <- app_assoc. by apply expect_ne; [apply jprint_starts|left]. }
    cbn [decide] in *. rewrite Hst. rewrite !length_app in Hf. cbn [length] in Hf.
    rewrite array_elems_scan; [done|done|done| |lia].
    apply Forall_forall. intros x Hx. rewrite Forall_forall in IH, Hl. by apply IH, Hl.
  - inversion Hp as [| | | | |? Hl]; subst. cbn [jprint] in *. change (map _ ms) with (map member_text ms) in *.
    rewrite <- !app_assoc. cbn [app value skip_ws].
    change (is_space 123) with false. cbv iota. destruct ms as [|[k v] ms]; [done|].
    assert (Hst : forall t, expect 125 (join (map member_text ((k, v) :: ms)) ++ t) = None) by (intros t; by destruct ms).
    cbn [decide] in *. rewrite Hst. rewrite !length_app in Hf. cbn [length] in Hf.
    rewrite object_members_scan; [done|done|done| |lia].
    apply Forall_forall. intros x Hx. rewrite Forall_forall in IH, Hl. by apply IH, Hl.
Qed.

Lemma parse_jprint v rest : printable v -> delimited rest -> parse (jprint v ++ rest) = Some (v, rest).
Proof.
  intros Hp Hr. apply jprint_scans; [done| |done]. unfold parse_fuel. rewrite length_app. lia.
Qed.

Lemma parse_all_jprint v : printable v -> parse_all (jprint v) = Some v.
Proof.
  intros Hp. unfold parse_all. rewrite <- (app_nil_r (jprint v)), parse_jprint by done. done.
Qed.

(** ** Strings survive escaping *)

Lemma is_hex_digit x i : is_hex (hex_digit x i) = true.
Proof.
  unfold hex_digit. change 0xf with (Z.ones 4). rewrite Z.land_ones by lia.
  pose proof (Z.mod_pos_bound (Z.shiftr x (4 * i)) (2 ^ 4) ltac:(lia)) as Hd. change (2 ^ 4) with 16 in *.
  apply bool_decide_eq_true_2. case_decide; lia.
Qed.

#[local] Ltac decide_high := repeat (apply List.Forall_cons; [lia|]); apply List.Forall_nil.

(** A rune that starts outside ASCII has no ASCII byte. *)
Lemma DecodeRune_high b0 s r rest : 0x80 <= b0 -> DecodeRune (b0 :: s) = Some (r, rest) ->
  exists pre, b0 :: s = pre ++ rest /\ Forall (fun c => 0x80 <= c) pre.
Proof.
  intros Hb. unfold DecodeRune, is_cont. rewrite decide_False by lia.
  repeat (case_decide || case_match); intros; simplify_eq/=;
    repeat match goal with
    | H : bool_decide _ = true |- _ => apply bool_decide_eq_true_1 in H
    | H : _ && _ = true |- _ => apply andb_true_iff in H as [? ?]
    end;
    first
    [ eexists [_]; split; [reflexivity|decide_high]
    | eexists [_; _]; split; [reflexivity|decide_high]
    | eexists [_; _; _]; split; [reflexivity|decide_high]
    | eexists [_; _; _; _]; split; [reflexivity|decide_high] ].
Qed.

Lemma raw_ok_app a b : raw_ok a -> raw_ok b -> raw_ok (a ++ b).
Proof. induction 1; intros Hb; cbn [app]; [done|apply raw_char|apply raw_escape|apply raw_unicode]; auto. Qed.

Lemma raw_ok_high pre : Forall (fun c => 0x80 <= c) pre -> bytes_ok pre -> raw_ok pre.
Proof.
  induction 1 as [|c pre Hc _ IH]; [constructor|]. intros Hb. inversion_clear Hb as [|? ? H0 Hb'].
  unfold is_byte, is_uint in H0. constructor; [lia..|by apply IH].
Qed.

Lemma escape_raw_ok s : raw_ok (escape s).
Proof.
  unfold escape. generalize (String.length s) as fuel. pose proof (str_bytes_ok s) as Hs. revert Hs.
  generalize (str_bytes s) as b. intros b Hb fuel. revert b Hb.
  induction fuel as [|fuel IH]; intros [|b0 b] Hb; try constructor.
  inversion_clear Hb as [|? ? H0 Hb']. unfold is_byte, is_uint in H0. cbn [escape_with]. case_decide as H80.
  - apply raw_ok_app; [|by apply IH].
    repeat case_decide; subst; try (by repeat constructor).
    + apply raw_escape; [|constructor]. apply bool_decide_eq_true_2. lia.
    + apply raw_unicode; [done|done|apply is_hex_digit..|constructor].
    + apply raw_char; [lia..|constructor].
  - destruct (DecodeRune (b0 :: b)) as [[r rest]|] eqn:Er; [|constructor].
    destruct (DecodeRune_high b0 b r rest) as (pre & E & Hpre); [lia|done|].
    assert (Hall : bytes_ok (pre ++ rest)) by (rewrite <- E; by constructor).
    apply Forall_app in Hall as [Hpb Hrest].
    apply raw_ok_app; [|by apply IH]. repeat case_decide.
    + by repeat (apply raw_unicode || constructor).
    + apply raw_unicode; [done..|apply is_hex_digit|constructor].
    + rewrite E, length_app, take_app_length' by lia. by apply raw_ok_high.
Qed.

(** The strings of 7-bit characters. *)
Definition ascii_text (b : list Z) : Prop := Forall (fun c => 0 <= c < 0x80) b.

Lemma getu4_escape e s : e <> 117 -> getu4 (92 :: e :: s) = None.
Proof.
  intros He. destruct s as [|h3 [|h2 [|h1 [|h0 s]]]]; try done. cbn. by rewrite decide_False by lia.
Qed.

Lemma hex4_ascii b : 0 <= b < 128 -> hex4 48 48 (hex_digit b 1) (hex_digit b 0) = b.
Proof.
  revert b. apply (forall_range (fun b => hex4 48 48 (hex_digit b 1) (hex_digit b 0) = b) 0 128). reflexivity.
Qed.

Lemma EncodeRune_ascii b : 0 <= b < 0x80 -> EncodeRune b = [b].
Proof. intros Hb. unfold EncodeRune. rewrite (decide_True (P := _ /\ _)) by lia. by rewrite decide_True by lia. Qed.

(** One step of [unquote] on what stands for an ASCII character. *)
Inductive quotes : Z -> list Z -> Prop :=
| q_self b : 0 <= b < 0x80 -> b <> 92 -> quotes b [b]
| q_escape b e : e <> 117 -> unescape e = b -> quotes b [92; e]
| q_unicode b : 0 <= b < 0x80 -> quotes b [92; 117; 48; 48; hex_digit b 1; hex_digit b 0].

Lemma unquote_quotes fuel b q s : quotes b q -> unquote_with (S fuel) (q ++ s) = b :: unquote_with fuel s.
Proof.
  destruct 1 as [b Hb Hne|b e He Hu|b Hb]; cbn [app unquote_with].
  - rewrite decide_False by done. cbn [DecodeRune]. rewrite decide_True by lia. by rewrite EncodeRune_ascii.
  - rewrite decide_True, getu4_escape by done. by rewrite Hu.
  - rewrite decide_True by done. cbn [getu4]. rewrite decide_True by done.
    change (is_hex 48) with true. rewrite !is_hex_digit. cbn [andb]. rewrite hex4_ascii by lia.
    rewrite decide_False by lia. by rewrite EncodeRune_ascii.
Qed.

(** A text quoted character by character is read back. *)
Lemma unquote_text b qs : Forall2 quotes b qs -> unquote (concat qs) = b.
Proof.
  intros H. unfold unquote.
  assert (Hl : (length b <= length (concat qs))%nat).
  { induction H as [|x q b qs Hq _ IH]; simpl; [lia|]. rewrite length_app. destruct Hq; simpl; lia. }
  revert Hl. generalize (length (concat qs)) as fuel.
  induction H as [|x q b qs Hq _ IH]; intros fuel Hf; [by destruct fuel|].
  cbn [length] in Hf. destruct fuel as [|fuel]; [lia|]. cbn [concat]. rewrite (unquote_quotes fuel x q) by done.
  f_equal. apply IH. lia.
Qed.

Lemma escape_with_text b : ascii_text b -> forall fuel, (length b <= fuel)%nat ->
  exists qs, Forall2 quotes b qs /\ escape_with fuel b = concat qs.
Proof.
  induction 1 as [|c b Hc Hb IH]; intros fuel Hf; [exists []; split; [constructor|by destruct fuel]|].
  cbn [length] in Hf. destruct fuel as [|fuel]; [lia|]. destruct (IH fuel ltac:(lia)) as (qs & Hq & E).
  cbn [escape_with]. rewrite decide_True, E by lia.
  eexists (_ :: qs). split; [|cbn [concat]; reflexivity]. constructor; [|exact Hq].
  repeat case_decide; subst; first [by apply q_escape|by apply q_unicode|apply q_self; lia|idtac].
  destruct H as [->| ->]; by apply q_escape.
Qed.

Lemma unquote_escape s : ascii_text (str_bytes s) -> unquote (escape s) = str_bytes s.
Proof.
  intros Hs. destruct (escape_with_text (str_bytes s) Hs (String.length s)) as (qs & Hq & E).
  { by rewrite length_str_bytes. }
  unfold escape. rewrite E. by apply unquote_text.
Qed.

(** Printable ASCII: what %q writes is a JSON string. *)
Definition plain_text (b : list Z) : Prop := Forall (fun c => 0x20 <= c < 0x7f) b.

Lemma Quote_plain IsPrint s : plain_text (str_bytes s) ->
  exists raw, Quote IsPrint s = [34] ++ raw ++ [34] /\ raw_ok raw /\ unquote raw = str_bytes s.
Proof.
  unfold Quote. assert (Hl : (length (str_bytes s) <= String.length s)%nat) by by rewrite length_str_bytes.
  revert Hl. generalize (String.length s) as fuel, (str_bytes s) as b. intros fuel b Hl Hb.
  cut (exists qs, Forall2 quotes b qs /\ quote_with IsPrint fuel b = concat qs /\ raw_ok (concat qs)).
  { intros (qs & Hq & E & Hr). exists (concat qs). rewrite E. split_and!; [done|done|by apply unquote_text]. }
  revert fuel Hl. induction Hb as [|c b Hc Hb IH]; intros fuel Hl.
  { exists []. split_and!; [constructor|by destruct fuel|constructor]. }
  cbn [length] in Hl. destruct fuel as [|fuel]; [lia|]. destruct (IH fuel ltac:(lia)) as (qs & Hq & E & Hr).
  cbn [quote_with DecodeRune]. rewrite (decide_True (P := c < 0x80)) by lia.
  rewrite decide_False by (unfold RuneError; lia). rewrite E.
  eexists (_ :: qs). cbn [concat]. split; [|split; [reflexivity|apply raw_ok_app; [|done]]]; [constructor; [|exact Hq]|];
    unfold quote_rune; (case_decide as H; [destruct H as [->| ->]|rewrite decide_True by lia]).
  - by apply q_escape.
  - by apply q_escape.
  - apply q_self; lia.
  - by repeat constructor.
  - by repeat constructor.
  - apply raw_char; [lia..|constructor].
Qed.

Lemma to_json_printable e : printable (to_json e).
Proof.
  revert e. fix IH 1. intros [s|z|b|l|fs]; cbn [to_json].
  - constructor. apply escape_raw_ok.
  - constructor.
  - constructor.
  - constructor. induction l as [|x l IHl]; constructor; [apply IH|exact IHl].
  - constructor. induction fs as [|[k v] fs IHf]; constructor; [split; [apply escape_raw_ok|apply IH]|exact IHf].
Qed.

(** What is marshalled is parsed back, whatever follows it. *)
Lemma parse_all_Marshal e : parse_all (Marshal e) = Some (to_json e).
Proof. apply parse_all_jprint, to_json_printable. Qed.

(** Printed texts are bytes. *)
Lemma raw_ok_bytes raw : raw_ok raw -> bytes_ok raw.
Proof.
  assert (Hx : forall c, is_hex c = true -> is_byte c).
  { intros c H%bool_decide_eq_true_1. split; lia. }
  assert (Hl : forall c, 0 <= c < 256 -> is_byte c) by done.
  induction 1 as [|c raw H1 H2 H3 _ IH|e raw He _ IH|h3 h2 h1 h0 raw E3 E2 E1 E0 _ IH].
  - constructor.
  - constructor; [apply Hl; lia|done].
  - apply bool_decide_eq_true_1 in He. constructor; [apply Hl; lia|]. constructor; [apply Hl; lia|done].
  - repeat (constructor; [first [by apply Hx|apply Hl; lia]|]). done.
Qed.

Lemma join_bytes ls : Forall bytes_ok ls -> bytes_ok (join ls).
Proof.
  induction 1 as [|x ls Hx Hls IH]; [constructor|]. destruct ls as [|y ls]; [done|].
  rewrite join_cons. apply Forall_app. split; [done|]. constructor; [split; lia|done].
Qed.

Lemma jprint_bytes v : printable v -> bytes_ok (jprint v).
Proof.
  assert (Hc : forall c, 0 <= c < 256 -> is_byte c) by done.
  induction v as [|b|lit|raw|l IH|ms IH] using json_ind; intros Hp;
    inversion Hp as [| |z|raw' Hraw|l' Hl|ms' Hl]; subst; cbn [jprint].
  - apply str_bytes_ok.
  - destruct b; apply str_bytes_ok.
  - apply str_bytes_ok.
  - apply Forall_app. split; [by repeat constructor|]. apply Forall_app. split; [by apply raw_ok_bytes|by repeat constructor].
  - apply Forall_app. split; [by repeat constructor|]. apply Forall_app. split; [|by repeat constructor].
    apply join_bytes, Forall_map, Forall_forall. intros v Hv. rewrite Forall_forall in IH, Hl.
    by apply IH, Hl.
  - apply Forall_app. split; [by repeat constructor|]. apply Forall_app. split; [|by repeat constructor].
    apply join_bytes, Forall_map, Forall_forall. intros [k v] Hv. rewrite Forall_forall in IH, Hl.
    destruct (Hl _ Hv) as [Hk Hpv].
    repeat (apply Forall_app; split); [by repeat constructor|by apply raw_ok_bytes|by repeat constructor|by apply (IH _ Hv)].
Qed.

(** ** The fuel of the scanner is enough *)

Lemma skip_ws_length s : (length (skip_ws s) <= length s)%nat.
Proof. induction s as [|c s IH]; simpl; [lia|]. destruct (is_space c); simpl; lia. Qed.

Lemma expect_shorter c s rest : expect c s = Some rest -> (length rest < length s)%nat.
Proof.
  unfold expect. pose proof (skip_ws_length s) as H. destruct (skip_ws s) as [|c' s']; [done|].
  case_decide; [|done]. intros [= <-]. simpl in H. lia.
Qed.

Lemma string_lit_shorter s : forall raw rest, string_lit s = Some (raw, rest) -> (length rest < length s)%nat.
Proof.
  remember (length s) as n eqn:En. revert s En. induction (lt_wf n) as [n _ IH]. intros [|c s] -> raw rest; [done|].
  cbn [string_lit].
  assert (Hrec : forall t raw' rest', (length t < length (c :: s))%nat -> string_lit t = Some (raw', rest') ->
    (length rest' < length (c :: s))%nat).
  { intros t raw' rest' Ht E. pose proof (IH (length t) Ht t eq_refl _ _ E). lia. }
  repeat case_decide; try (intros; simplify_eq/=; lia).
  - destruct s as [|e s]; [done|]. destruct (is_escape e).
    + destruct (string_lit s) as [[raw' rest']|] eqn:E; [|done]. intros; simplify_eq/=.
      eapply (Hrec s); [simpl; lia|exact E].
    + case_decide; [|done]. destruct s as [|h3 [|h2 [|h1 [|h0 s]]]]; try done.
      destruct (_ && _); [|done]. destruct (string_lit s) as [[raw' rest']|] eqn:E; [|done].
      intros; simplify_eq/=. eapply (Hrec s); [simpl; lia|exact E].
  - destruct (string_lit s) as [[raw' rest']|] eqn:E; [|done]. intros; simplify_eq/=.
    eapply (Hrec s); [simpl; lia|exact E].
Qed.

Lemma span_digits_length s d r : span_digits s = (d, r) -> (length d + length r = length s)%nat.
Proof.
  revert d r. induction s as [|c s IH]; intros d r; simpl; [intros; by simplify_eq|].
  destruct (is_dec c); [|intros; by simplify_eq]. destruct (span_digits s) as [d' r'] eqn:E.
  intros; simplify_eq/=. f_equal. by apply IH.
Qed.

Lemma digits1_shorter s d r : digits1 s = Some (d, r) -> (length r < length s)%nat.
Proof.
  unfold digits1. destruct (span_digits s) as [[|x d'] r'] eqn:E; [done|]. apply span_digits_length in E.
  intros; simplify_eq/=. lia.
Qed.

Lemma number_lit_shorter s lit rest : number_lit s = Some (lit, rest) -> (length rest < length s)%nat.
Proof.
  unfold number_lit. destruct (number_sign s) as [sg s1] eqn:E1.
  assert (H1 : (length s1 <= length s)%nat).
  { destruct s as [|c s]; simpl in E1; [by simplify_eq|]. case_decide; simplify_eq/=; lia. }
  destruct (number_int s1) as [[i s2]|] eqn:E2; [|done]. cbn [mbind option_bind].
  assert (H2 : (length s2 < length s1)%nat).
  { unfold number_int in E2. destruct s1 as [|c s1']; [done|].
    case_decide; [simplify_eq/=; lia|]. by eapply digits1_shorter. }
  destruct (number_frac s2) as [[f s3]|] eqn:E3; [|done]. cbn [mbind option_bind].
  assert (H3 : (length s3 <= length s2)%nat).
  { unfold number_frac in E3. destruct s2 as [|c s2']; [by simplify_eq|]. case_decide; [|by simplify_eq].
    destruct (digits1 s2') as [[d r]|] eqn:E; [|done]. apply digits1_shorter in E. simplify_eq/=. lia. }
  destruct (number_exp s3) as [[e s4]|] eqn:E4; [|done]. cbn [mbind option_bind].
  assert (H4 : (length s4 <= length s3)%nat).
  { unfold number_exp in E4. destruct s3 as [|c s3']; [by simplify_eq|]. case_decide; [|by simplify_eq].
    destruct s3' as [|c2 s3'']; [done|].
    case_decide; match type of E4 with context [digits1 ?x] => destruct (digits1 x) as [[d r]|] eqn:E end; try done;
      apply digits1_shorter in E; simplify_eq/=; lia. }
  intros; simplify_eq/=. lia.
Qed.

Lemma literal_shorter name v s w rest : literal name v s = Some (w, rest) -> (0 < length name)%nat -> s <> [] ->
  (length rest < length s)%nat.
Proof.
  unfold literal. case_decide; [|done]. intros ? Hn Hs; simplify_eq. rewrite length_drop.
  destruct s; [done|]. simpl. lia.
Qed.

(** Scanning takes at least one byte. *)
Lemma scan_shorter fuel :
  (forall s v rest, value fuel s = Some (v, rest) -> (length rest < length s)%nat) /\
  (forall s l rest, array_elems fuel s = Some (l, rest) -> (length rest < length s)%nat) /\
  (forall s ms rest, object_members fuel s = Some (ms, rest) -> (length rest < length s)%nat).
Proof.
  induction fuel as [|fuel (IHv & IHe & IHm)]; [done|]. split_and!; intros s v rest.
  - cbn [value]. pose proof (skip_ws_length s) as Hs. destruct (skip_ws s) as [|c s']; [done|]. simpl in Hs.
    repeat case_decide.
    + destruct (expect 125 s') as [s1|] eqn:E; [apply expect_shorter in E; intros; simplify_eq/=; lia|].
      destruct (object_members fuel s') as [[ms s1]|] eqn:E1; [|done]. apply IHm in E1. intros; simplify_eq/=. lia.
    + destruct (expect 93 s') as [s1|] eqn:E; [apply expect_shorter in E; intros; simplify_eq/=; lia|].
      destruct (array_elems fuel s') as [[l s1]|] eqn:E1; [|done]. apply IHe in E1. intros; simplify_eq/=. lia.
    + destruct (string_lit s') as [[raw s1]|] eqn:E; [|done]. apply string_lit_shorter in E. intros; simplify_eq/=. lia.
    + intros E. apply literal_shorter in E; [simpl in E; lia|simpl; lia|done].
    + intros E. apply literal_shorter in E; [simpl in E; lia|simpl; lia|done].
    + intros E. apply literal_shorter in E; [simpl in E; lia|simpl; lia|done].
    + destruct (number_lit (c :: s')) as [[lit s1]|] eqn:E; [|done]. apply number_lit_shorter in E.
      intros; simplify_eq/=. lia.
  - cbn [array_elems]. destruct (value fuel s) as [[x s1]|] eqn:E1; [|done]. apply IHv in E1. cbn [mbind option_bind].
    destruct (expect 44 s1) as [s2|] eqn:E2.
    + apply expect_shorter in E2. destruct (array_elems fuel s2) as [[l s3]|] eqn:E3; [|done]. apply IHe in E3.
      intros; simplify_eq/=. lia.
    + destruct (expect 93 s1) as [s2|] eqn:E3; [|done]. apply expect_shorter in E3. intros; simplify_eq/=. lia.
  - cbn [object_members]. destruct (expect 34 s) as [s0|] eqn:E0; [|done]. apply expect_shorter in E0. cbn [mbind option_bind].
    destruct (string_lit s0) as [[k s1]|] eqn:E1; [|done]. apply string_lit_shorter in E1. cbn [mbind option_bind].
    destruct (expect 58 s1) as [s2|] eqn:E2; [|done]. apply expect_shorter in E2. cbn [mbind option_bind].
    destruct (value fuel s2) as [[x s3]|] eqn:E3; [|done]. apply IHv in E3. cbn [mbind option_bind].
    destruct (expect 44 s3) as [s4|] eqn:E4.
    + apply expect_shorter in E4. destruct (object_members fuel s4) as [[ms s5]|] eqn:E5; [|done]. apply IHm in E5.
      intros; simplify_eq/=. lia.
    + destruct (expect 125 s3) as [s4'|] eqn:E5; [|done]. apply expect_shorter in E5. intros; simplify_eq/=. lia.
Qed.

(** More fuel than [parse_fuel] gives the same result. *)
Lemma scan_fuel n :
  (forall m s, (2 * length s + 1 <= n)%nat -> (2 * length s + 1 <= m)%nat -> value n s = value m s) /\
  (forall m s, (2 * length s + 2 <= n)%nat -> (2 * length s + 2 <= m)%nat -> array_elems n s = array_elems m s) /\
  (forall m s, (2 * length s + 2 <= n)%nat -> (2 * length s + 2 <= m)%nat -> object_members n s = object_members m s).
Proof.
  induction n as [|n (IHv & IHe & IHm)]; [split_and!; intros; lia|].
  split_and!; intros [|m] s Hn Hm; try lia.
  - cbn [value]. pose proof (skip_ws_length s) as Hs. destruct (skip_ws s) as [|c s']; [done|]. simpl in Hs.
    rewrite (IHm m s'), (IHe m s') by lia. done.
  - cbn [array_elems]. rewrite (IHv m s) by lia. destruct (value m s) as [[x s1]|] eqn:E1; [|done].
    apply scan_shorter in E1. cbn [mbind option_bind]. destruct (expect 44 s1) as [s2|] eqn:E2; [|done].
    apply expect_shorter in E2. rewrite (IHe m s2) by lia. done.
  - cbn [object_members]. destruct (expect 34 s) as [s0|] eqn:E0; [|done]. apply expect_shorter in E0. cbn [mbind option_bind].
    destruct (string_lit s0) as [[k s1]|] eqn:E1; [|done]. apply string_lit_shorter in E1. cbn [mbind option_bind].
    destruct (expect 58 s1) as [s2|] eqn:E2; [|done]. apply expect_shorter in E2. cbn [mbind option_bind].
    rewrite (IHv m s2) by lia. destruct (value m s2) as [[x s3]|] eqn:E3; [|done]. apply scan_shorter in E3.
    cbn [mbind option_bind]. destruct (expect 44 s3) as [s4|] eqn:E4; [|done]. apply expect_shorter in E4.
    rewrite (IHm m s4) by lia. done.
Qed.

Lemma parse_fuel_enough n s : (parse_fuel s <= n)%nat -> value n s = parse s.
Proof. intros Hn. apply scan_fuel; unfold parse_fuel in *; lia. Qed.
