(* ===== verification/AcmeTypes.v ===== *)
(** * Types of the ACME client (pkg/acme/types.go)

    The data of the protocol, their JSON representations and the errors.  What the
    client takes from its surroundings is a class: [AcmeEnv] for what changes (the
    network, the context, the clock, randomness, the order of map iteration) and
    [AcmeLib] for pure functions of the packages net/http, net/url, time, pem and
    the hashes.  A time is a number of nanoseconds since Go's zero time; [int] has
    [w] bits. *)

From S2P Require Import Prelude GoMonad GoStrings Encoding Json.
#[local] Open Scope string_scope.
#[local] Open Scope list_scope.
#[local] Open Scope Z_scope.

(** ** Surroundings *)

(** [http.Header]: the values of each canonical name. *)
Definition Header : Type := gmap string (list string).

(** [h.Get(k)] for a canonical name. *)
Definition Get (h : Header) (k : string) : string := default "" (h !! k ≫= head).

Record request : Type := mk_request {
  rq_Method : string; rq_URL : string; rq_UserAgent : string; rq_ContentType : string; rq_Body : list Z;
}.

Record response : Type := mk_response {
  StatusCode : Z; rs_Status : string; rs_Header : Header; Body : body;
}.

Inductive Hash : Type := SHA256 | SHA384 | SHA512.

Class AcmeEnv (W : Type) : Type := {
  (** [http.Client.Do]. *)
  http_Do : request -> W -> result response * W;
  (** [ctx.Err()]: an error once the context is done. *)
  ctx_Err : W -> option error;
  (** Wait for a timer or for the end of the context; the context's error in that
      case. *)
  select_timer : Z -> W -> option error * W;
  timeNow : W -> Z * W;
  (** [rand.Int(rand.Reader, max)]. *)
  rand_Int : Z -> W -> option Z * W;
  (** Where the iteration over a map starts. *)
  map_start : W -> nat * W;
}.

Class AcmeLib : Type := {
  (** The error of [http.NewRequest] for a method and a URL, if any. *)
  NewRequest_error : string -> string -> option error;
  http_ParseTime : string -> option Z;
  ParseRFC3339 : list Z -> option Z;
  FormatRFC3339 : Z -> string;
  (** [url.Parse(base)], then [u.Parse(ref)], then [u.String()]. *)
  url_Parse : string -> option error;
  url_Resolve : string -> string -> result string;
  (** [pem.Decode]: the type and the bytes of the next block, and the rest. *)
  pem_Decode : list Z -> option (string * list Z) * list Z;
  hash_Sum : Hash -> list Z -> list Z;
  IsPrint : Z -> bool;
}.

(** ** Constants *)

Definition StatusUnknown : string := "unknown".
Definition StatusPending : string := "pending".
Definition StatusProcessing : string := "processing".
Definition StatusValid : string := "valid".
Definition StatusInvalid : string := "invalid".
Definition StatusRevoked : string := "revoked".
Definition StatusDeactivated : string := "deactivated".
Definition StatusReady : string := "ready".

Inductive CRLReasonCode : Type :=
| CRLReasonUnspecified | CRLReasonKeyCompromise | CRLReasonCACompromise | CRLReasonAffiliationChanged
| CRLReasonSuperseded | CRLReasonCessationOfOperation | CRLReasonCertificateHold | CRLReasonRemoveFromCRL
| CRLReasonPrivilegeWithdrawn | CRLReasonAACompromise.

Definition reason_code (r : CRLReasonCode) : Z :=
  match r with
  | CRLReasonUnspecified => 0 | CRLReasonKeyCompromise => 1 | CRLReasonCACompromise => 2
  | CRLReasonAffiliationChanged => 3 | CRLReasonSuperseded => 4 | CRLReasonCessationOfOperation => 5
  | CRLReasonCertificateHold => 6 | CRLReasonRemoveFromCRL => 8 | CRLReasonPrivilegeWithdrawn => 9
  | CRLReasonAACompromise => 10
  end.

Definition ErrUnsupportedKey : error := "acme: unknown key type; only RSA and ECDSA are supported".

(** ** Data *)

Record AuthzID : Type := mk_authzid { id_Type : string; id_Value : string }.

Record Subproblem : Type := mk_subproblem {
  sp_Type : string; sp_Detail : string; sp_Identifier : option AuthzID;
}.

(** [*Error]; a nil header is [None]. *)
Record Error : Type := mk_error {
  e_StatusCode : Z; e_Type : string; e_Detail : string; e_Subproblems : list Subproblem; e_Header : option Header;
}.

Record Account : Type := mk_account {
  a_URL : string; a_Status : string; a_Contact : list string; a_TermsAgreed : bool; a_OrdersURL : string;
}.

Record Directory : Type := mk_directory {
  NewNonceURL : string; NewAccountURL : string; NewOrderURL : string; NewAuthzURL : string;
  RevokeCertURL : string; KeyChangeURL : string; Terms : string; Website : string; CAA : list string;
  ExternalAccountRequired : bool;
}.

Record Order : Type := mk_order {
  o_URL : string; o_Status : string; o_Expires : Z; o_Identifiers : list AuthzID; o_NotBefore : Z; o_NotAfter : Z;
  o_Error : option Error; o_Authorizations : list string; o_FinalizeURL : string; o_CertificateURL : string;
  o_RetryAfter : Z;
}.

Record Challenge : Type := mk_challenge {
  c_Type : string; c_URL : string; c_Token : string; c_Validated : Z; c_Status : string; c_Error : option Error;
}.

Record Authorization : Type := mk_authorization {
  z_URL : string; z_Status : string; z_Identifier : AuthzID; z_Wildcard : bool; z_Expires : Z;
  z_Challenges : list Challenge;
}.

(** [NewOrder(domains)]. *)
Definition NewOrder (domains : list string) : Order :=
  mk_order "" "" 0 (map (mk_authzid "dns") domains) 0 0 None [] "" "" 0.

(** ** Errors

    A value of Go's interface [error] is one of the package's types or another
    error. *)
Inductive err : Type :=
| AcmeError (e : Error)
| OrderInvalidError (o : option Order)
| OrderPendingError (o : option Order)
| AuthorizationError (a : option Authorization)
| OtherError (e : error).

Definition Error_Error (e : Error) : string := "acme: " +:+ e_Type e +:+ ": " +:+ e_Detail e.

(** [err.Error()]. *)
Definition err_Error (e : err) : string :=
  match e with
  | AcmeError e => Error_Error e
  | OrderInvalidError o =>
      match o ≫= o_Error with
      | None => "acme: order is invalid"
      | Some e => "acme: invalid order (" +:+ e_Type e +:+ "): " +:+ e_Detail e
      end
  | OrderPendingError _ => "acme: order is pending due to incomplete authorization"
  | AuthorizationError a =>
      match a with
      | None => "acme: authorization is invalid"
      | Some a => "acme: authorization for identifier " +:+ id_Value (z_Identifier a) +:+ " is " +:+ z_Status a
      end
  | OtherError e => e
  end.

(** ** Wire representations *)

Record wireChallenge : Type := mk_wireChallenge {
  wc_URL : string; wc_Type : string; wc_Token : string; wc_Status : string; wc_Validated : Z; wc_Error : option Error;
}.

Record wireAuthz : Type := mk_wireAuthz {
  wz_Status : string; wz_Challenges : list wireChallenge; wz_Expires : Z; wz_Identifier : AuthzID; wz_Wildcard : bool;
}.

Record wireError : Type := mk_wireError {
  we_Status : Z; we_Type : string; we_Detail : string; we_Subproblems : list Subproblem;
}.

Record wireOrder : Type := mk_wireOrder {
  wo_Status : string; wo_Expires : Z; wo_Identifiers : list AuthzID; wo_NotBefore : Z; wo_NotAfter : Z;
  wo_Error : option Error; wo_Authorizations : list string; wo_Finalize : string; wo_Certificate : string;
}.

(** [c.challenge()]: a missing status is unknown. *)
Definition challenge (c : wireChallenge) : Challenge :=
  mk_challenge (wc_Type c) (wc_URL c) (wc_Token c) (wc_Validated c)
    (if decide (wc_Status c = "") then StatusUnknown else wc_Status c) (wc_Error c).

(** [z.authorization(url)]. *)
Definition authorization (z : wireAuthz) (url : string) : Authorization :=
  mk_authorization url (wz_Status z) (wz_Identifier z) (wz_Wildcard z) (wz_Expires z)
    (map challenge (wz_Challenges z)).

(** [e.error(h)]. *)
Definition wireError_error (e : wireError) (h : Header) : Error :=
  mk_error (we_Status e) (we_Type e) (we_Detail e) (we_Subproblems e) (Some h).

(** ** Times *)

Definition second : Z := 10 ^ 9.
Definition millisecond : Z := 10 ^ 6.

Section Times.
Context {W : Type} `{AcmeEnv W} `{AcmeLib} (w : Z).

(** [retryAfter(v)] of acme.go: a number of seconds from now, or an HTTP date; the
    zero time otherwise. *)
Definition retryAfter (v : string) : M W Z :=
  match Atoi w v with
  | Ok i => fun s => let '(now, s) := timeNow s in (Ret (now + sint 64 (i * second)), s)
  | Err _ => mret (default 0 (http_ParseTime v))
  end.

(** [o.order(url, retryHeader)]. *)
Definition wireOrder_order (o : wireOrder) (url retryHeader : string) : M W Order :=
  ra ← retryAfter retryHeader;
  mret (mk_order url (wo_Status o) (wo_Expires o) (wo_Identifiers o) (wo_NotBefore o) (wo_NotAfter o)
    (wo_Error o) (wo_Authorizations o) (wo_Finalize o) (wo_Certificate o) ra).

(** [RateLimit(err)]. *)
Definition RateLimit (e : err) : M W (Z * bool) :=
  match e with
  | AcmeError e =>
      if decide (e_Type e = "urn:ietf:params:acme:error:rateLimited") then
        match e_Header e with
        | None => mret (0, true)
        | Some h => t ← retryAfter (Get h "Retry-After"); mret (t, true)
        end
      else mret (0, false)
  | _ => mret (0, false)
  end.
End Times.

(** ** Decoding of the wire representations

    The fields of each structure with the names that [encoding/json] matches. *)

Section Decoders.
Context `{AcmeLib} (w : Z).

(** [time.Time.UnmarshalJSON]. *)
Definition dec_time : decoder Z := fun v old =>
  match v with
  | JStr raw => match ParseRFC3339 raw with Some t => (t, false) | None => (old, true) end
  | JNull => (old, false)
  | _ => (old, true)
  end.

(** A map of slices of strings. *)
Definition dec_header : decoder (option Header) := fun v old =>
  match v with
  | JNull => (None, false)
  | JObj ms =>
      let '(h, e) := foldl (fun '(h, e) m =>
        let '(l, e') := dec_slice "" dec_string m.2 [] in
        (<[bytes_str (unquote m.1) := l]> h, e || e')) (default ∅ old, false) ms in
      (Some h, e)
  | _ => (old, true)
  end.

Definition dec_AuthzID : decoder AuthzID :=
  dec_struct
    [ at_field "Type" id_Type (fun x a => mk_authzid x (id_Value a)) dec_string
    ; at_field "Value" id_Value (fun x a => mk_authzid (id_Type a) x) dec_string ].

Definition dec_Subproblem : decoder Subproblem :=
  dec_struct
    [ at_field "Type" sp_Type (fun x a => mk_subproblem x (sp_Detail a) (sp_Identifier a)) dec_string
    ; at_field "Detail" sp_Detail (fun x a => mk_subproblem (sp_Type a) x (sp_Identifier a)) dec_string
    ; at_field "Identifier" sp_Identifier (fun x a => mk_subproblem (sp_Type a) (sp_Detail a) x)
        (dec_ptr (mk_authzid "" "") dec_AuthzID) ].

Definition zero_Error : Error := mk_error 0 "" "" [] None.

Definition dec_Error : decoder Error :=
  dec_struct
    [ at_field "StatusCode" e_StatusCode
        (fun x a => mk_error x (e_Type a) (e_Detail a) (e_Subproblems a) (e_Header a))
        (dec_int w)
    ; at_field "Type" e_Type (fun x a => mk_error (e_StatusCode a) x (e_Detail a) (e_Subproblems a) (e_Header a))
        dec_string
    ; at_field "Detail" e_Detail (fun x a => mk_error (e_StatusCode a) (e_Type a) x (e_Subproblems a) (e_Header a))
        dec_string
    ; at_field "Subproblems" e_Subproblems
        (fun x a => mk_error (e_StatusCode a) (e_Type a) (e_Detail a) x (e_Header a))
        (dec_slice (mk_subproblem "" "" None) dec_Subproblem)
    ; at_field "Header" e_Header (fun x a => mk_error (e_StatusCode a) (e_Type a) (e_Detail a) (e_Subproblems a) x)
        dec_header ].

Definition zero_wireChallenge : wireChallenge := mk_wireChallenge "" "" "" "" 0 None.

Definition dec_wireChallenge : decoder wireChallenge :=
  dec_struct
    [ at_field "URL" wc_URL
        (fun x a => mk_wireChallenge x (wc_Type a) (wc_Token a) (wc_Status a) (wc_Validated a) (wc_Error a))
        dec_string
    ; at_field "Type" wc_Type
        (fun x a => mk_wireChallenge (wc_URL a) x (wc_Token a) (wc_Status a) (wc_Validated a) (wc_Error a))
        dec_string
    ; at_field "Token" wc_Token
        (fun x a => mk_wireChallenge (wc_URL a) (wc_Type a) x (wc_Status a) (wc_Validated a) (wc_Error a))
        dec_string
    ; at_field "Status" wc_Status
        (fun x a => mk_wireChallenge (wc_URL a) (wc_Type a) (wc_Token a) x (wc_Validated a) (wc_Error a))
        dec_string
    ; at_field "Validated" wc_Validated
        (fun x a => mk_wireChallenge (wc_URL a) (wc_Type a) (wc_Token a) (wc_Status a) x (wc_Error a))
        dec_time
    ; at_field "Error" wc_Error
        (fun x a => mk_wireChallenge (wc_URL a) (wc_Type a) (wc_Token a) (wc_Status a) (wc_Validated a) x)
        (dec_ptr zero_Error dec_Error) ].

Definition zero_wireAuthz : wireAuthz := mk_wireAuthz "" [] 0 (mk_authzid "" "") false.

Definition dec_wireAuthz : decoder wireAuthz :=
  dec_struct
    [ at_field "Status" wz_Status
        (fun x a => mk_wireAuthz x (wz_Challenges a) (wz_Expires a) (wz_Identifier a) (wz_Wildcard a))
        dec_string
    ; at_field "Challenges" wz_Challenges
        (fun x a => mk_wireAuthz (wz_Status a) x (wz_Expires a) (wz_Identifier a) (wz_Wildcard a))
        (dec_slice zero_wireChallenge dec_wireChallenge)
    ; at_field "Expires" wz_Expires
        (fun x a => mk_wireAuthz (wz_Status a) (wz_Challenges a) x (wz_Identifier a) (wz_Wildcard a))
        dec_time
    ; at_field "Identifier" wz_Identifier
        (fun x a => mk_wireAuthz (wz_Status a) (wz_Challenges a) (wz_Expires a) x (wz_Wildcard a))
        dec_AuthzID
    ; at_field "Wildcard" wz_Wildcard
        (fun x a => mk_wireAuthz (wz_Status a) (wz_Challenges a) (wz_Expires a) (wz_Identifier a) x)
        dec_bool ].

Definition dec_wireError : decoder wireError :=
  dec_struct
    [ at_field "Status" we_Status (fun x a => mk_wireError x (we_Type a) (we_Detail a) (we_Subproblems a)) (dec_int w)
    ; at_field "Type" we_Type (fun x a => mk_wireError (we_Status a) x (we_Detail a) (we_Subproblems a)) dec_string
    ; at_field "Detail" we_Detail (fun x a => mk_wireError (we_Status a) (we_Type a) x (we_Subproblems a)) dec_string
    ; at_field "Subproblems" we_Subproblems (fun x a => mk_wireError (we_Status a) (we_Type a) (we_Detail a) x)
        (dec_slice (mk_subproblem "" "" None) dec_Subproblem) ].

Definition zero_wireOrder : wireOrder := mk_wireOrder "" 0 [] 0 0 None [] "" "".

Definition dec_wireOrder : decoder wireOrder :=
  dec_struct
    [ at_field "Status" wo_Status
        (fun x a => mk_wireOrder x (wo_Expires a) (wo_Identifiers a) (wo_NotBefore a) (wo_NotAfter a) (wo_Error a) (wo_Authorizations a) (wo_Finalize a) (wo_Certificate a))
        dec_string
    ; at_field "Expires" wo_Expires
        (fun x a => mk_wireOrder (wo_Status a) x (wo_Identifiers a) (wo_NotBefore a) (wo_NotAfter a) (wo_Error a) (wo_Authorizations a) (wo_Finalize a) (wo_Certificate a))
        dec_time
    ; at_field "Identifiers" wo_Identifiers
        (fun x a => mk_wireOrder (wo_Status a) (wo_Expires a) x (wo_NotBefore a) (wo_NotAfter a) (wo_Error a) (wo_Authorizations a) (wo_Finalize a) (wo_Certificate a))
        (dec_slice (mk_authzid "" "") dec_AuthzID)
    ; at_field "NotBefore" wo_NotBefore
        (fun x a => mk_wireOrder (wo_Status a) (wo_Expires a) (wo_Identifiers a) x (wo_NotAfter a) (wo_Error a) (wo_Authorizations a) (wo_Finalize a) (wo_Certificate a))
        dec_time
    ; at_field "NotAfter" wo_NotAfter
        (fun x a => mk_wireOrder (wo_Status a) (wo_Expires a) (wo_Identifiers a) (wo_NotBefore a) x (wo_Error a) (wo_Authorizations a) (wo_Finalize a) (wo_Certificate a))
        dec_time
    ; at_field "Error" wo_Error
        (fun x a => mk_wireOrder (wo_Status a) (wo_Expires a) (wo_Identifiers a) (wo_NotBefore a) (wo_NotAfter a) x (wo_Authorizations a) (wo_Finalize a) (wo_Certificate a))
        (dec_ptr zero_Error dec_Error)
    ; at_field "Authorizations" wo_Authorizations
        (fun x a => mk_wireOrder (wo_Status a) (wo_Expires a) (wo_Identifiers a) (wo_NotBefore a) (wo_NotAfter a) (wo_Error a) x (wo_Finalize a) (wo_Certificate a))
        (dec_slice "" dec_string)
    ; at_field "Finalize" wo_Finalize
        (fun x a => mk_wireOrder (wo_Status a) (wo_Expires a) (wo_Identifiers a) (wo_NotBefore a) (wo_NotAfter a) (wo_Error a) (wo_Authorizations a) x (wo_Certificate a))
        dec_string
    ; at_field "Certificate" wo_Certificate
        (fun x a => mk_wireOrder (wo_Status a) (wo_Expires a) (wo_Identifiers a) (wo_NotBefore a) (wo_NotAfter a) (wo_Error a) (wo_Authorizations a) (wo_Finalize a) x)
        dec_string ].
End Decoders.
