(* ===== verification/Jws.v ===== *)
(** * JSON web signatures (pkg/acme/jws.go)

    Keys, their JSON representation and thumbprint, and the signed requests.  The
    signature algorithms themselves are parameters ([Signing]). *)

From S2P Require Import Prelude GoMonad GoStrings Encoding Json AcmeTypes.
#[local] Open Scope string_scope.
#[local] Open Scope list_scope.
#[local] Open Scope Z_scope.

(** [elliptic.CurveParams]: name and bit size. *)
Record CurveParams : Type := mk_curve { Name : string; BitSize : Z }.

Definition P224 : CurveParams := mk_curve "P-224" 224.
Definition P256 : CurveParams := mk_curve "P-256" 256.
Definition P384 : CurveParams := mk_curve "P-384" 384.
Definition P521 : CurveParams := mk_curve "P-521" 521.

(** The types of [crypto.PublicKey] that the package distinguishes. *)
Inductive PublicKey : Type :=
| RsaPublicKey (N E : Z)
| EcdsaPublicKey (Curve : CurveParams) (X Y : Z)
| OtherPublicKey.

(** [crypto.Signer]: a private key, or an opaque signer with some public key. *)
Inductive Signer (P : Type) : Type :=
| RsaPrivateKey (N E : Z) (priv : P)
| EcdsaPrivateKey (Curve : CurveParams) (X Y : Z) (priv : P)
| OtherSigner (pub : PublicKey).
Arguments RsaPrivateKey {P} _ _ _.
Arguments EcdsaPrivateKey {P} _ _ _ _.
Arguments OtherSigner {P} _.

(** [key.Public()]. *)
Definition Public {P} (key : Signer P) : PublicKey :=
  match key with
  | RsaPrivateKey N E _ => RsaPublicKey N E
  | EcdsaPrivateKey c X Y _ => EcdsaPublicKey c X Y
  | OtherSigner pub => pub
  end.

(** The signature algorithms, with their randomness. *)
Class Signing (W P : Type) : Type := {
  rsa_Sign : P -> list Z -> Hash -> W -> result (list Z) * W;
  ecdsa_Sign : P -> list Z -> W -> result (Z * Z) * W;
}.

(** ' stands for the double quote in the templates. *)
Definition dq (s : string) : list Z := map (fun c => if decide (c = 39) then 34 else c) (str_bytes s).

(** [jwsHasher(key)]; [None] is the empty algorithm name. *)
Definition jwsHasher {P} (key : Signer P) : option (string * Hash) :=
  match key with
  | RsaPrivateKey _ _ _ => Some ("RS256", SHA256)
  | EcdsaPrivateKey c _ _ _ =>
      if decide (Name c = "P-256") then Some ("ES256", SHA256)
      else if decide (Name c = "P-384") then Some ("ES384", SHA384)
      else if decide (Name c = "P-521") then Some ("ES512", SHA512)
      else None
  | OtherSigner _ => None
  end.

(** [x = append(make([]byte, n-len(x)), x...)] when [n > len(x)]. *)
Definition pad_left (n : Z) (x : list Z) : list Z :=
  if decide (n > Z.of_nat (length x)) then replicate (Z.to_nat (n - Z.of_nat (length x))) 0 ++ x else x.

(** [jwkEncode(pub)]. *)
Definition jwkEncode (pub : PublicKey) : result (list Z) :=
  match pub with
  | RsaPublicKey N E =>
      Ok (dq "{'e':'" ++ b64_encode (big_Bytes E) ++ dq "','kty':'RSA','n':'" ++ b64_encode (big_Bytes N) ++ dq "'}")
  | EcdsaPublicKey p X Y =>
      let n := BitSize p / 8 in
      let n := if decide (BitSize p mod 8 <> 0) then n + 1 else n in
      let x := pad_left n (big_Bytes X) in
      let y := pad_left n (big_Bytes Y) in
      Ok (dq "{'crv':'" ++ str_bytes (Name p) ++ dq "','kty':'EC','x':'" ++ b64_encode x ++
          dq "','y':'" ++ b64_encode y ++ dq "'}")
  | OtherPublicKey => Err ErrUnsupportedKey
  end.

(** [copy(dst[i:], src)]; [None] is the panic of an index out of range. *)
Definition copy_at (dst : list Z) (i : Z) (src : list Z) : option (list Z) :=
  if decide (0 <= i <= Z.of_nat (length dst)) then
    let n := Nat.min (length dst - Z.to_nat i) (length src) in
    Some (take (Z.to_nat i) dst ++ take n src ++ drop (Z.to_nat i + n) dst)
  else None.

Section Sign.
Context {W P : Type} `{AcmeEnv W} `{AcmeLib} `{Signing W P}.

(** [jwsSign(key, hash, digest)]. *)
Definition jwsSign (key : Signer P) (hash : Hash) (digest : list Z) : M W (result (list Z)) :=
  match key with
  | RsaPrivateKey _ _ priv => fun s => let '(r, s) := rsa_Sign priv digest hash s in (Ret r, s)
  | EcdsaPrivateKey c _ _ priv => fun s =>
      let '(rs, s) := ecdsa_Sign priv digest s in
      match rs with
      | Err e => (Ret (Err e), s)
      | Ok (r, sg) =>
          let rb := big_Bytes r in
          let sb := big_Bytes sg in
          let size := BitSize c / 8 in
          let size := if decide (size mod 8 > 0) then size + 1 else size in
          let sig := replicate (Z.to_nat (size * 2)) 0 in
          match copy_at sig (size - Z.of_nat (length rb)) rb with
          | None => (Panic, s)
          | Some sig =>
              match copy_at sig (size * 2 - Z.of_nat (length sb)) sb with
              | None => (Panic, s)
              | Some sig => (Ret (Ok sig), s)
              end
          end
      end
  | OtherSigner _ => mret (Err ErrUnsupportedKey)
  end.

(** The claims of a request: nothing, a structure, or JSON text. *)
Inductive claims : Type :=
| NoClaims
| Claims (v : enc)
| RawClaims (m : list Z).

(** [json.Marshal(claimset)]. *)
Definition marshal_claims (c : claims) : result (list Z) :=
  match c with
  | NoClaims => Ok (str_bytes "null")
  | Claims v => Ok (Marshal v)
  | RawClaims m => MarshalRaw m
  end.

(** The protected header: the key itself without an account URL, the account URL as
    key identifier otherwise. *)
Definition protected_header (key : Signer P) (alg accountURL url nonce : string) : result (list Z) :=
  if decide (accountURL = "") then
    jwk ← jwkEncode (Public key);
    Ok (dq "{'alg':" ++ Quote IsPrint alg ++ dq ",'jwk':" ++ jwk ++
        dq ",'nonce':" ++ Quote IsPrint nonce ++ dq ",'url':" ++ Quote IsPrint url ++ dq "}")
  else
    Ok (dq "{'alg':" ++ Quote IsPrint alg ++ dq ",'kid':" ++ Quote IsPrint accountURL ++
        dq ",'nonce':" ++ Quote IsPrint nonce ++ dq ",'url':" ++ Quote IsPrint url ++ dq "}").

(** [jwsEncodeJSON(claimset, key, accountURL, url, nonce)]; the hashes are linked
    in, so they are available. *)
Definition jwsEncodeJSON (claimset : claims) (key : Signer P) (accountURL url nonce : string) : M W (result (list Z)) :=
  match jwsHasher key with
  | None => mret (Err ErrUnsupportedKey)
  | Some (alg, sha) =>
      match protected_header key alg accountURL url nonce with
      | Err e => mret (Err e)
      | Ok phead =>
          let phead := b64_encode phead in
          let payload := match claimset with
                         | NoClaims => Ok []
                         | _ => cs ← marshal_claims claimset; Ok (b64_encode cs)
                         end in
          match payload with
          | Err e => mret (Err e)
          | Ok payload =>
              r ← jwsSign key sha (hash_Sum sha (phead ++ str_bytes "." ++ payload));
              match r with
              | Err e => mret (Err e)
              | Ok sig =>
                  mret (Ok (Marshal (EObj [("protected", EStr (bytes_str phead)); ("payload", EStr (bytes_str payload));
                                           ("signature", EStr (EncodeToString sig))])))
              end
          end
      end
  end.

(** [JWKThumbprint(pub)]. *)
Definition JWKThumbprint (pub : PublicKey) : result string :=
  match jwkEncode pub with
  | Err e => Err e
  | Ok jwk => Ok (EncodeToString (hash_Sum SHA256 jwk))
  end.
End Sign.

(** ** The signature of an elliptic curve key *)

(** The number of bytes of a coordinate of the curve. *)
Definition curve_bytes (c : CurveParams) : nat := Z.to_nat ((BitSize c + 7) / 8).

Lemma copy_at_end (pre mid post src : list Z) i :
  length mid = length src -> i = Z.of_nat (length pre) -> copy_at (pre ++ mid ++ post) i src = Some (pre ++ src ++ post).
Proof.
  intros Hl ->. unfold copy_at. rewrite !length_app, decide_True, Nat2Z.id by lia.
  replace (Nat.min _ _) with (length src) by lia. rewrite take_app_length, (firstn_all src). f_equal. f_equal. f_equal.
  by rewrite <- Hl, <- length_app, app_assoc, drop_app_length.
Qed.

Lemma replicate_split n m k : n = (m + k)%nat -> replicate n 0 = replicate m 0 ++ replicate k (0 : Z).
Proof. intros ->. apply replicate_add. Qed.

(** The two numbers, each padded to [n] bytes. *)
Lemma sig_layout n (rb sb : list Z) : (length rb <= n)%nat -> (length sb <= n)%nat ->
  copy_at (replicate (n + n) 0) (Z.of_nat n - Z.of_nat (length rb)) rb ≫=
    (fun sig => copy_at sig (Z.of_nat n * 2 - Z.of_nat (length sb)) sb) =
  Some (replicate (n - length rb) 0 ++ rb ++ replicate (n - length sb) 0 ++ sb).
Proof.
  intros Hr Hs.
  rewrite (replicate_split (n + n) (n - length rb) (length rb + (n - length sb + length sb))) by lia.
  rewrite !replicate_add.
  rewrite copy_at_end by (rewrite ?length_replicate; lia). cbn [mbind option_bind].
  rewrite (app_assoc rb), (app_assoc (replicate _ _)), <- (app_nil_r (replicate (length sb) 0)).
  rewrite copy_at_end by (rewrite ?length_app, ?length_replicate; lia).
  by rewrite app_nil_r, <- !app_assoc.
Qed.

(** The curves that [jwsHasher] accepts, with their parameters in crypto/elliptic. *)
Definition supported_curve (c : CurveParams) : Prop := c = P256 \/ c = P384 \/ c = P521.

Lemma jwsSign_ecdsa {W P} `{AcmeEnv W} `{Signing W P} c X Y priv hash digest (s s' : W) r sg :
  supported_curve c -> ecdsa_Sign priv digest s = (Ok (r, sg), s') ->
  0 <= r < 2 ^ BitSize c -> 0 <= sg < 2 ^ BitSize c ->
  exists sig, jwsSign (EcdsaPrivateKey c X Y priv) hash digest s = (Ret (Ok sig), s') /\
    length sig = (2 * curve_bytes c)%nat /\
    be_int (take (curve_bytes c) sig) = r /\ be_int (drop (curve_bytes c) sig) = sg.
Proof.
  intros Hc Es Hr Hsg. cbn [jwsSign]. rewrite Es.
  set (n := curve_bytes c).
  assert (Hsize : (if decide (BitSize c / 8 mod 8 > 0) then BitSize c / 8 + 1 else BitSize c / 8) = Z.of_nat n).
  { subst n. by destruct Hc as [->|[->| ->]]. }
  assert (Hn : BitSize c <= 8 * Z.of_nat n) by (subst n; by destruct Hc as [->|[->| ->]]).
  assert (Hb : forall x, 0 <= x < 2 ^ BitSize c -> (length (big_Bytes x) <= n)%nat).
  { intros x Hx. apply length_big_Bytes. split; [lia|]. eapply Z.lt_le_trans; [apply Hx|].
    apply Z.pow_le_mono_r; lia. }
  clearbody n. rewrite Hsize. replace (Z.to_nat (Z.of_nat n * 2)) with (n + n)%nat by lia.
  pose proof (sig_layout n (big_Bytes r) (big_Bytes sg) (Hb _ Hr) (Hb _ Hsg)) as Hl.
  destruct (copy_at (replicate (n + n) 0) _ _) as [sig1|]; [|done]. cbn [mbind option_bind] in Hl. rewrite Hl.
  pose proof (Hb _ Hr). pose proof (Hb _ Hsg).
  eexists. split; [reflexivity|].
  assert (Ht : length (replicate (n - length (big_Bytes r)) 0 ++ big_Bytes r) = n)
    by (rewrite length_app, length_replicate; lia).
  rewrite (app_assoc (replicate _ _)). rewrite take_app_length', drop_app_length' by done.
  rewrite !be_int_zeros, !be_int_big_Bytes by lia.
  rewrite !length_app, !length_replicate. split; [lia|done].
Qed.

(** ** Reading keys and requests back

    What a server does with them, following RFC 7515 and RFC 7517. *)

(** The first member with that name, and the string of a value. *)
Definition jfield (k : string) (v : json) : option json :=
  match v with
  | JObj ms => snd <$> find (fun m => bool_decide (unquote m.1 = str_bytes k)) ms
  | _ => None
  end.

Definition jtext (v : json) : option (list Z) :=
  match v with JStr raw => Some (unquote raw) | _ => None end.

Definition text_field (k : string) (v : json) : option (list Z) := jfield k v ≫= jtext.

(** A key as a server reads it; for a curve, the length of its coordinates. *)
Inductive jwk : Type :=
| JwkRsa (N E : Z)
| JwkEc (crv : string) (size : nat) (X Y : Z).

Definition read_jwk (v : json) : option jwk :=
  kty ← text_field "kty" v;
  if decide (kty = str_bytes "RSA") then
    n ← text_field "n" v ≫= b64_decode; e ← text_field "e" v ≫= b64_decode;
    Some (JwkRsa (be_int n) (be_int e))
  else if decide (kty = str_bytes "EC") then
    crv ← text_field "crv" v;
    x ← text_field "x" v ≫= b64_decode; y ← text_field "y" v ≫= b64_decode;
    if decide (length x = length y) then Some (JwkEc (bytes_str crv) (length x) (be_int x) (be_int y)) else None
  else None.

(** A signed request: who signed it, for what, and the text under the signature. *)
Record jws : Type := mk_jws {
  jws_alg : string; jws_kid : option string; jws_jwk : option json; jws_nonce : string; jws_url : string;
  jws_input : list Z; jws_payload : list Z; jws_sig : list Z;
}.

Definition read_jws (b : list Z) : option jws :=
  v ← parse_all b;
  prot ← text_field "protected" v; pay ← text_field "payload" v; sg ← text_field "signature" v;
  h ← b64_decode prot ≫= parse_all;
  alg ← text_field "alg" h; nonce ← text_field "nonce" h; url ← text_field "url" h;
  payload ← b64_decode pay; sig ← b64_decode sg;
  Some (mk_jws (bytes_str alg) (bytes_str <$> text_field "kid" h) (jfield "jwk" h) (bytes_str nonce) (bytes_str url)
          (prot ++ str_bytes "." ++ pay) payload sig).

(** ** Texts without quotes and backslashes stand for themselves *)

Definition clean (b : list Z) : Prop := Forall (fun c => 0x20 <= c < 0x7f /\ c <> 34 /\ c <> 92) b.

Lemma clean_raw b : clean b -> raw_ok b.
Proof. induction 1 as [|c b Hc _ IH]; constructor; (lia || done). Qed.

Lemma clean_unquote b : clean b -> unquote b = b.
Proof.
  intros Hb. rewrite <- (unquote_text b (map (fun c => [c]) b)) at 2.
  - f_equal. clear Hb. induction b as [|c b IH]; [done|]. cbn. by f_equal.
  - induction Hb as [|c b Hc _ IH]; constructor; [|done]. apply q_self; lia.
Qed.

Lemma clean_ascii b : clean b -> ascii_text b.
Proof. intros Hb. eapply Forall_impl; [exact Hb|]. cbn. lia. Qed.

Lemma b64_clean src : bytes_ok src -> clean (b64_encode src).
Proof.
  intros Hs. eapply Forall_impl; [by apply b64_encode_range|]. intros c [v Hv]. unfold b64_value in Hv.
  repeat case_decide; try done; lia.
Qed.

Lemma clean_bytes b : clean b -> bytes_ok b.
Proof. intros Hb. eapply Forall_impl; [exact Hb|]. unfold is_byte, is_uint. cbn. lia. Qed.

Lemma escape_clean b : clean b -> unquote (escape (bytes_str b)) = b.
Proof.
  intros Hb. rewrite unquote_escape, str_bytes_str; [done|by apply clean_bytes| ].
  rewrite str_bytes_str by (by apply clean_bytes). by apply clean_ascii.
Qed.

(** One member whose value is a clean text. *)
Definition clean_member (k : string) (t : list Z) : list Z * json := (str_bytes k, JStr t).

(** Evaluate the constant texts of the goal. *)
Ltac texts :=
  repeat match goal with
  | |- context [dq ?s] => let v := eval vm_compute in (dq s) in change (dq s) with v
  | |- context [str_bytes (String ?c ?s)] =>
      let v := eval vm_compute in (str_bytes (String c s)) in change (str_bytes (String c s)) with v
  end.

(** Two ways to write the same text. *)
Ltac same_text :=
  unfold clean_member; cbn [jprint map join]; texts; rewrite <- ?app_assoc; cbn [app]; rewrite <- ?app_assoc; reflexivity.

(** Decide the equations between constant texts. *)
Ltac decide_texts :=
  repeat match goal with
  | |- context [@decide (str_bytes ?a = str_bytes ?b) ?d] =>
      first [ rewrite (@decide_True _ (str_bytes a = str_bytes b) d) by reflexivity
            | rewrite (@decide_False _ (str_bytes a = str_bytes b) d)
                by (let H := fresh in intros H; vm_compute in H; discriminate) ]
  end; cbn [mbind option_bind].

(** ** Keys *)

Lemma pad_left_spec n x : 0 <= n -> Z.of_nat (length x) <= n ->
  length (pad_left n x) = Z.to_nat n /\ be_int (pad_left n x) = be_int x.
Proof.
  intros Hn Hx. unfold pad_left. case_decide.
  - rewrite length_app, length_replicate, be_int_zeros. split; [lia|done].
  - split; [lia|done].
Qed.

Lemma pad_left_ok n x : bytes_ok x -> bytes_ok (pad_left n x).
Proof.
  intros Hx. unfold pad_left. case_decide; [|done]. apply Forall_app. split; [|done].
  apply Forall_replicate. split; lia.
Qed.

Definition nist_curve (c : CurveParams) : Prop := c = P224 \/ supported_curve c.

(** The public keys of RSA and of the curves of crypto/elliptic. *)
Definition key_ok (pub : PublicKey) : Prop :=
  match pub with
  | RsaPublicKey N E => 0 <= N /\ 0 <= E
  | EcdsaPublicKey c X Y => nist_curve c /\ 0 <= X < 2 ^ BitSize c /\ 0 <= Y < 2 ^ BitSize c
  | OtherPublicKey => False
  end.

Definition jwk_of (pub : PublicKey) : option jwk :=
  match pub with
  | RsaPublicKey N E => Some (JwkRsa N E)
  | EcdsaPublicKey c X Y => Some (JwkEc (Name c) (curve_bytes c) X Y)
  | OtherPublicKey => None
  end.

Lemma clean_object ms :
  Forall (fun m => exists k t, m = clean_member k t /\ clean (str_bytes k) /\ clean t) ms -> printable (JObj ms).
Proof.
  intros Hms. constructor. eapply Forall_impl; [exact Hms|]. intros m (k & t & -> & Hk & Ht). cbn.
  split; [by apply clean_raw|]. constructor. by apply clean_raw.
Qed.

Lemma clean_str s : forallb (fun c => bool_decide (0x20 <= c < 0x7f /\ c <> 34 /\ c <> 92)) (str_bytes s) = true ->
  clean (str_bytes s).
Proof.
  intros H. apply Forall_forall. intros c Hc. rewrite forallb_forall in H.
  by eapply bool_decide_eq_true_1, H, list_elem_of_In.
Qed.

Lemma text_field_clean k k' t ms :
  clean (str_bytes k') -> clean t ->
  text_field k (JObj (clean_member k' t :: ms)) =
    if decide (str_bytes k' = str_bytes k) then Some t else text_field k (JObj ms).
Proof.
  intros Hk Ht. unfold text_field, jfield. cbn [find clean_member fst]. rewrite clean_unquote by done.
  case_decide; [rewrite bool_decide_eq_true_2 by done|by rewrite bool_decide_eq_false_2 by done].
  cbn. by rewrite clean_unquote.
Qed.

Lemma clean_name c : nist_curve c -> clean (str_bytes (Name c)).
Proof. intros [->|[->|[->| ->]]]; by apply clean_str. Qed.

Lemma jwkEncode_reads pub : key_ok pub ->
  exists v, jwkEncode pub = Ok (jprint v) /\ printable v /\ read_jwk v = jwk_of pub.
Proof.
  intros Hk. destruct pub as [N E|c X Y|]; [| |done].
  - destruct Hk as [HN HE].
    pose proof (b64_clean _ (big_Bytes_ok E)) as CE. pose proof (b64_clean _ (big_Bytes_ok N)) as CN.
    exists (JObj [clean_member "e" (b64_encode (big_Bytes E)); clean_member "kty" (str_bytes "RSA");
                  clean_member "n" (b64_encode (big_Bytes N))]).
    assert (Crsa : clean (str_bytes "RSA")) by by apply clean_str.
    split; [|split].
    + cbn [jwkEncode]. f_equal. same_text.
    + apply clean_object. repeat constructor; eexists _, _; (split; [done|]); split; (done || by apply clean_str).
    + unfold read_jwk. rewrite !text_field_clean by (done || by apply clean_str). decide_texts.
      rewrite !b64_decode_encode by apply big_Bytes_ok. cbn [mbind option_bind]. by rewrite !be_int_big_Bytes.
  - destruct Hk as (Hc & HX & HY).
    assert (Hn : (if decide (BitSize c mod 8 <> 0) then BitSize c / 8 + 1 else BitSize c / 8) = Z.of_nat (curve_bytes c)
      /\ BitSize c <= 8 * Z.of_nat (curve_bytes c)) by (by destruct Hc as [->|[->|[->| ->]]]).
    destruct Hn as [Hn Hbits].
    assert (Hpad : forall z, 0 <= z < 2 ^ BitSize c ->
      bytes_ok (pad_left (Z.of_nat (curve_bytes c)) (big_Bytes z)) /\
      length (pad_left (Z.of_nat (curve_bytes c)) (big_Bytes z)) = curve_bytes c /\
      be_int (pad_left (Z.of_nat (curve_bytes c)) (big_Bytes z)) = z).
    { intros z Hz. split; [apply pad_left_ok, big_Bytes_ok|].
      assert (Hl : (length (big_Bytes z) <= curve_bytes c)%nat).
      { apply length_big_Bytes. split; [lia|]. eapply Z.lt_le_trans; [apply Hz|]. apply Z.pow_le_mono_r; lia. }
      destruct (pad_left_spec (Z.of_nat (curve_bytes c)) (big_Bytes z)) as [-> ->]; [lia|lia|].
      split; [lia|]. apply be_int_big_Bytes. lia. }
    cbn [jwkEncode jwk_of]. rewrite Hn. clear Hn Hbits.
    destruct (Hpad X HX) as (OX & LX & BX). destruct (Hpad Y HY) as (OY & LY & BY). clear Hpad.
    set (x := pad_left _ (big_Bytes X)) in *. set (y := pad_left _ (big_Bytes Y)) in *. clearbody x y.
    pose proof (b64_clean _ OX) as CX. pose proof (b64_clean _ OY) as CY. pose proof (clean_name c Hc) as Cn.
    assert (Cec : clean (str_bytes "EC")) by by apply clean_str.
    exists (JObj [clean_member "crv" (str_bytes (Name c)); clean_member "kty" (str_bytes "EC");
                  clean_member "x" (b64_encode x); clean_member "y" (b64_encode y)]).
    split; [|split].
    + f_equal. same_text.
    + apply clean_object. repeat constructor; eexists _, _; (split; [done|]); split; (done || by apply clean_str).
    + unfold read_jwk. rewrite !text_field_clean by (done || by apply clean_str). decide_texts.
      rewrite !b64_decode_encode by done. decide_texts. decide_texts. rewrite decide_True by congruence.
      by rewrite bytes_str_bytes, LX, BX, BY.
Qed.

(** ** Requests *)

(** What the server reads is what was asked for: the algorithm of the key, the
    account or the key, the nonce, the address and the claims, and a signature over
    exactly the text it covers. *)
Definition reads_as {W P} `{AcmeEnv W} `{AcmeLib} `{Signing W P} (claimset : claims) (key : Signer P) (alg : string)
    (sha : Hash) (accountURL url nonce : string) (s s' : W) (v : jws) : Prop :=
  jws_alg v = alg /\ jws_nonce v = nonce /\ jws_url v = url /\
  (if decide (accountURL = "") then
     jws_kid v = None /\ (jws_jwk v ≫= read_jwk) = jwk_of (Public key)
   else jws_kid v = Some accountURL /\ jws_jwk v = None) /\
  match claimset with NoClaims => jws_payload v = [] | _ => marshal_claims claimset = Ok (jws_payload v) end /\
  jwsSign key sha (hash_Sum sha (jws_input v)) s = (Ret (Ok (jws_sig v)), s').

Lemma jwsHasher_alg {P} (key : Signer P) alg sha : jwsHasher key = Some (alg, sha) -> plain_text (str_bytes alg).
Proof.
  destruct key as [N E p|c X Y p|pub]; cbn [jwsHasher]; [|repeat case_decide|done];
    intros [= <- <-] || done; repeat (apply List.Forall_cons; [vm_compute; split; (discriminate || reflexivity)|]);
    apply List.Forall_nil.
Qed.

(** A member whose value is a string written with %q. *)
Lemma find_member k k' raw ms : clean (str_bytes k') ->
  jfield k (JObj ((str_bytes k', raw) :: ms)) = if decide (str_bytes k' = str_bytes k) then Some raw else jfield k (JObj ms).
Proof.
  intros Hk. unfold jfield. cbn [find fst]. rewrite clean_unquote by done.
  case_decide; [by rewrite bool_decide_eq_true_2|by rewrite bool_decide_eq_false_2].
Qed.

Lemma protected_header_reads {P} `{AcmeLib} (key : Signer P) alg accountURL url nonce :
  key_ok (Public key) ->
  plain_text (str_bytes alg) -> plain_text (str_bytes accountURL) -> plain_text (str_bytes url) -> plain_text (str_bytes nonce) ->
  exists h, protected_header key alg accountURL url nonce = Ok (jprint h) /\ printable h /\
    text_field "alg" h = Some (str_bytes alg) /\ text_field "nonce" h = Some (str_bytes nonce) /\
    text_field "url" h = Some (str_bytes url) /\
    (if decide (accountURL = "") then text_field "kid" h = None /\ (jfield "jwk" h ≫= read_jwk) = jwk_of (Public key)
     else text_field "kid" h = Some (str_bytes accountURL) /\ jfield "jwk" h = None).
Proof.
  intros Hkey Ha Hacc Hu Hn. unfold protected_header.
  destruct (Quote_plain IsPrint alg Ha) as (ra & -> & Ra & Ua).
  destruct (Quote_plain IsPrint url Hu) as (ru & -> & Ru & Uu).
  destruct (Quote_plain IsPrint nonce Hn) as (rn & -> & Rn & Un).
  destruct (Quote_plain IsPrint accountURL Hacc) as (rk & -> & Rk & Uk).
  case_decide as Hacc0.
  - destruct (jwkEncode_reads (Public key) Hkey) as (v & -> & Pv & Rv). cbn [mbind result_bind].
    exists (JObj [(str_bytes "alg", JStr ra); (str_bytes "jwk", v); (str_bytes "nonce", JStr rn); (str_bytes "url", JStr ru)]).
    split; [f_equal; same_text|]. split.
    { constructor. repeat constructor; cbn [fst snd]; (done || by apply clean_raw, clean_str). }
    unfold text_field. rewrite !find_member by (by apply clean_str). decide_texts.
    cbn [jtext]. rewrite Ua, Un, Uu. done.
  - exists (JObj [(str_bytes "alg", JStr ra); (str_bytes "kid", JStr rk); (str_bytes "nonce", JStr rn); (str_bytes "url", JStr ru)]).
    split; [f_equal; same_text|]. split.
    { constructor. repeat constructor; cbn [fst snd]; (done || by apply clean_raw, clean_str). }
    unfold text_field. rewrite !find_member by (by apply clean_str). decide_texts.
    cbn [jtext]. rewrite Ua, Un, Uu, Uk. done.
Qed.

(** Claims whose text is JSON. *)
Definition claims_ok (c : claims) : Prop :=
  match c with
  | RawClaims m => exists v, parse_all m = Some v /\ printable v
  | _ => True
  end.

Lemma marshal_claims_ok c : claims_ok c -> exists v, marshal_claims c = Ok (jprint v) /\ printable v.
Proof.
  destruct c as [|v|m]; cbn [claims_ok marshal_claims].
  - intros _. exists JNull. split; [done|constructor].
  - intros _. exists (to_json v). split; [done|apply to_json_printable].
  - intros (v & E & Hv). exists v. unfold MarshalRaw. by rewrite E.
Qed.

Lemma read_body prot pay sig : clean prot -> clean pay -> clean sig ->
  exists v, parse_all (Marshal (EObj [("protected", EStr (bytes_str prot)); ("payload", EStr (bytes_str pay));
    ("signature", EStr (bytes_str sig))])) = Some v /\
    text_field "protected" v = Some prot /\ text_field "payload" v = Some pay /\ text_field "signature" v = Some sig.
Proof.
  intros Hp Hy Hs. eexists. rewrite parse_all_Marshal. split; [reflexivity|].
  unfold text_field, to_json, jfield. cbn [map find fst].
  assert (Hk : forall k, forallb (fun c => bool_decide (0x20 <= c < 0x7f /\ c <> 34 /\ c <> 92)) (str_bytes k) = true ->
    unquote (escape k) = str_bytes k).
  { intros k Hk. apply unquote_escape, clean_ascii, clean_str, Hk. }
  rewrite !Hk by reflexivity. cbn [find]. rewrite !bool_decide_decide. decide_texts.
  cbn [fmap option_fmap option_map snd mbind option_bind jtext]. by rewrite !escape_clean.
Qed.

(** C12:  What is signed is what the server reads: for a supported key whose signature
    succeeds, [jwsEncodeJSON] returns a request, and a server that parses it by the
    standards finds the algorithm of the key, the account URL or the public key
    itself, the nonce, the address and the claims that were given, and a signature
    of exactly the text that it covers.  The addresses and the nonce are printable
    ASCII. *)
Theorem jwsEncodeJSON_reads {W P} `{AcmeEnv W} `{AcmeLib} `{Signing W P} (claimset : claims) (key : Signer P)
    (alg : string) (sha : Hash) (accountURL url nonce : string) (s : W) :
  jwsHasher key = Some (alg, sha) -> key_ok (Public key) -> claims_ok claimset ->
  plain_text (str_bytes accountURL) -> plain_text (str_bytes url) -> plain_text (str_bytes nonce) ->
  (forall digest, exists sig s', jwsSign key sha digest s = (Ret (Ok sig), s') /\ bytes_ok sig) ->
  exists b s' v, jwsEncodeJSON claimset key accountURL url nonce s = (Ret (Ok b), s') /\
    read_jws b = Some v /\ reads_as claimset key alg sha accountURL url nonce s s' v.
Proof.
  intros Hh Hk Hc Hacc Hu Hn Hsign. unfold jwsEncodeJSON. rewrite Hh.
  destruct (protected_header_reads key alg accountURL url nonce) as (h & -> & Ph & Halg & Hnonce & Hurl & Hid);
    [done|by eapply jwsHasher_alg|done..|].
  assert (Hpay : exists payload, match claimset with
      | NoClaims => Ok []
      | _ => cs ← marshal_claims claimset; Ok (b64_encode cs)
      end = Ok (b64_encode payload) /\ bytes_ok payload /\
      match claimset with NoClaims => payload = [] | _ => marshal_claims claimset = Ok payload end).
  { destruct (marshal_claims_ok _ Hc) as (v & E & Pv). apply jprint_bytes in Pv.
    destruct claimset; [exists []; split_and!; [done|constructor|done]|..]; exists (jprint v); rewrite E; done. }
  destruct Hpay as (payload & -> & Bp & Hpayload). pose proof (jprint_bytes _ Ph) as Bh.
  destruct (Hsign (hash_Sum sha (b64_encode (jprint h) ++ str_bytes "." ++ b64_encode payload))) as (sig & s' & Es & Bs).
  unfold mbind at 1, M_bind. rewrite Es. eexists _, s', _. split; [reflexivity|].
  destruct (read_body _ _ _ (b64_clean _ Bh) (b64_clean _ Bp) (b64_clean _ Bs)) as (v & Ev & E1 & E2 & E3).
  unfold EncodeToString, read_jws. rewrite Ev. cbn [mbind option_bind]. rewrite E1, E2, E3. cbn [mbind option_bind].
  rewrite !b64_decode_encode by done. cbn [mbind option_bind].
  rewrite parse_all_jprint by done. cbn [mbind option_bind]. rewrite Halg, Hnonce, Hurl. cbn [mbind option_bind].
  split; [reflexivity|]. unfold reads_as. cbn [jws_alg jws_nonce jws_url jws_kid jws_jwk jws_payload jws_input jws_sig].
  rewrite !bytes_str_bytes. split_and!; try done.
  - case_decide; destruct Hid as [-> Hj]; [done|]. cbn. by rewrite bytes_str_bytes.
Qed.
