(* ===== verification/Acme.v ===== *)
(** * The ACME client (pkg/acme/acme.go)

    The client's state, its requests and its operations.  Besides the client the
    state has the surroundings [W] and two observations of the run: what was
    exchanged, signed and waited for, and the number of response bodies that are open.  The mutexes are flags;
    locking a mutex that is held blocks.  The loops that wait for a server take the
    number of rounds as fuel. *)

From S2P Require Import Prelude GoMonad GoStrings Encoding Json AcmeTypes Jws.
#[local] Open Scope string_scope.
#[local] Open Scope list_scope.
#[local] Open Scope Z_scope.

Definition LetsEncryptURL : string := "https://acme-v02.api.letsencrypt.org/directory".
Definition maxChainLen : nat := 5.
Definition maxChainSize : Z := 2 ^ 20 * 5.
Definition maxNonces : nat := 100.
Definition userAgent : string := "go-acme/2".

(** [Client]; the HTTP client is part of the surroundings.  A nil map or pointer is
    [None]. *)
Record Client (P : Type) : Type := mk_client {
  Key : Signer P; DirectoryURL : string; UserAgent : string;
  noncesMu : bool; nonces : option (gset string);
  urlMu : bool; dir : option Directory; accountURL : string;
}.
Arguments mk_client {P} _ _ _ _ _ _ _ _.
Arguments Key {P} _.
Arguments DirectoryURL {P} _.
Arguments UserAgent {P} _.
Arguments noncesMu {P} _.
Arguments nonces {P} _.
Arguments urlMu {P} _.
Arguments dir {P} _.
Arguments accountURL {P} _.

(** [&Client{Key: key, DirectoryURL: url}]. *)
Definition new_client {P} (key : Signer P) (url : string) : Client P := mk_client key url "" false None false None "".

Section Setters.
Context {P : Type}.
Definition set_noncesMu (b : bool) (c : Client P) : Client P :=
  mk_client (Key c) (DirectoryURL c) (UserAgent c) b (nonces c) (urlMu c) (dir c) (accountURL c).
Definition set_nonces (n : option (gset string)) (c : Client P) : Client P :=
  mk_client (Key c) (DirectoryURL c) (UserAgent c) (noncesMu c) n (urlMu c) (dir c) (accountURL c).
Definition set_urlMu (b : bool) (c : Client P) : Client P :=
  mk_client (Key c) (DirectoryURL c) (UserAgent c) (noncesMu c) (nonces c) b (dir c) (accountURL c).
Definition set_dir (d : option Directory) (c : Client P) : Client P :=
  mk_client (Key c) (DirectoryURL c) (UserAgent c) (noncesMu c) (nonces c) (urlMu c) d (accountURL c).
Definition set_accountURL (u : string) (c : Client P) : Client P :=
  mk_client (Key c) (DirectoryURL c) (UserAgent c) (noncesMu c) (nonces c) (urlMu c) (dir c) u.
End Setters.

(** What is observed of a run: an HTTP exchange, the signature of a request for an
    address with a nonce, a wait. *)
Inductive event : Type :=
| Exchange (req : request) (r : result response)
| Signed (acct url nonce : string)
| Slept (d : Z).

(** The client and its surroundings. *)
Record st (W P : Type) : Type := mk_st {
  cl : Client P; net : W; hist : list event; bodies : Z;
}.
Arguments mk_st {W P} _ _ _ _.
Arguments cl {W P} _.
Arguments net {W P} _.
Arguments hist {W P} _.
Arguments bodies {W P} _.

(** A Go result [(v, err)] with an error of the package. *)
Inductive res (A : Type) : Type :=
| Fail (e : err)
| Done (a : A).
Arguments Fail {A} e.
Arguments Done {A} a.

(** [v, err := m; if err != nil { return nil, err }; k v]. *)
Definition try {S A B} (m : M S (res A)) (k : A -> M S (res B)) : M S (res B) :=
  r ← m; match r with Fail e => mret (Fail e) | Done a => k a end.

Notation "x <~ m ; k" := (try m (fun x => k)) (at level 20, m at level 100, k at level 200, right associativity).

Definition fails {S A} (msg : string) : M S (res A) := mret (Fail (OtherError msg)).

Definition of_result {A} (r : result A) : res A := match r with Err e => Fail (OtherError e) | Ok a => Done a end.

(** A call that does not return. *)
Definition blocked {S A} : M S A := fun s => (Blocked, s).

Section Client.
Context {W P : Type} `{AcmeEnv W} `{AcmeLib} `{Signing W P} (w : Z).

Notation S := (st W P).

Definition on_client (f : Client P -> Client P) : M S unit :=
  modify (fun s => mk_st (f (cl s)) (net s) (hist s) (bodies s)).

Definition client {A} (f : Client P -> A) : M S A := gets (fun s => f (cl s)).

Definition observe (e : event) : M S unit :=
  modify (fun s => mk_st (cl s) (net s) (hist s ++ [e]) (bodies s)).

(** A computation on the surroundings. *)
Definition lift {A} (m : M W A) : M S A := fun s =>
  let '(r, w) := m (net s) in (r, mk_st (cl s) w (hist s) (bodies s)).

(** [mu.Lock(); defer mu.Unlock(); m]. *)
Definition locked {A} (mu : Client P -> bool) (set : bool -> Client P -> Client P) (m : M S A) : M S A :=
  held ← client mu;
  if (held : bool) then blocked
  else _ ← on_client (set true); deferring (on_client (set false)) m.

Definition with_noncesMu {A} : M S A -> M S A := locked noncesMu set_noncesMu.
Definition with_urlMu {A} : M S A -> M S A := locked urlMu set_urlMu.

(** [res.Body.Close()], and [defer res.Body.Close(); m]. *)
Definition Close : M S unit := modify (fun s => mk_st (cl s) (net s) (hist s) (bodies s - 1)).
Definition closing {A} (m : M S A) : M S A := deferring Close m.

(** [c.dir], whose use panics when it is nil. *)
Definition the_dir : M S Directory :=
  d ← client dir; match d with Some d => mret d | None => go_panic end.

(** ** Requests *)

Definition newRequest (method url : string) (contentType : string) (body : list Z) : M S (res request) :=
  match NewRequest_error method url with
  | Some e => mret (Fail (OtherError e))
  | None =>
      agent ← client UserAgent;
      let ua := if decide (agent = "") then userAgent else userAgent +:+ " " +:+ agent in
      mret (Done (mk_request method url ua contentType body))
  end.

Definition do (req : request) : M S (res response) := fun s =>
  let '(r, w) := http_Do req (net s) in
  let hist := hist s ++ [Exchange req r] in
  match r with
  | Ok r => (Ret (Done r), mk_st (cl s) w hist (bodies s + 1))
  | Err e =>
      match ctx_Err w with
      | Some e => (Ret (Fail (OtherError e)), mk_st (cl s) w hist (bodies s))
      | None => (Ret (Fail (OtherError e)), mk_st (cl s) w hist (bodies s))
      end
  end.

Definition get_ (urlStr : string) : M S (res response) := req <~ newRequest "GET" urlStr "" []; do req.

Definition head_ (urlStr : string) : M S (res response) := req <~ newRequest "HEAD" urlStr "" []; do req.

Definition post (urlStr contentType : string) (body : list Z) : M S (res response) :=
  req <~ newRequest "POST" urlStr contentType body; do req.

(** [responseError(resp)]: the problem document of the body, or the body itself. *)
Definition responseError (resp : response) : Error :=
  let b := body_bytes (Body resp) in
  let '(e, er) := Unmarshal (dec_wireError w) b (mk_wireError (StatusCode resp) "" "" []) in
  let e := match er with
           | None => e
           | Some _ =>
               let detail := bytes_str b in
               mk_wireError (we_Status e) (we_Type e) (if decide (detail = "") then rs_Status resp else detail)
                 (we_Subproblems e)
           end in
  wireError_error e (rs_Header resp).

Definition resolveLocation (base : string) (h : Header) : result string :=
  match url_Parse base with
  | Some e => Err e
  | None =>
      match url_Resolve base (Get h "Location") with
      | Err e => Err ("acme: error parsing Location: " +:+ e)
      | Ok u => Ok u
      end
  end.

(** ** Nonces *)

Definition nonceFromHeader (h : Header) : string := Get h "Replay-Nonce".

Definition fetchNonce : M S (res string) :=
  d ← the_dir;
  resp <~ head_ (NewNonceURL d);
  closing (
    let nonce := nonceFromHeader (rs_Header resp) in
    if decide (nonce = "") then
      if decide (StatusCode resp > 299) then mret (Fail (AcmeError (responseError resp)))
      else fails "acme: nonce not found"
    else mret (Done nonce)).

(** The first key of an iteration that starts anywhere. *)
Definition range_first (m : gset string) : M S (option string) :=
  k ← lift (fun s => let '(k, s) := map_start s in (Ret k, s));
  mret (elements m !! Nat.modulo k (size m)).

Definition popNonce : M S (res string) :=
  with_noncesMu (
    n ← client nonces;
    if decide (size (default ∅ n) = O) then fetchNonce
    else
      let n := default ∅ n in
      k ← range_first n;
      let nonce := default "" k in
      _ ← on_client (set_nonces (Some (n ∖ {[nonce]})));
      mret (Done nonce)).

Definition clearNonces : M S unit := with_noncesMu (on_client (set_nonces (Some ∅))).

Definition addNonce (h : Header) : M S unit :=
  let v := nonceFromHeader h in
  if decide (v = "") then mret tt
  else
    with_noncesMu (
      n ← client nonces;
      if decide (maxNonces <= size (default ∅ n))%nat then mret tt
      else on_client (set_nonces (Some ({[v]} ∪ default ∅ n)))).

(** ** Waiting *)

(** [backoff(n, max)]. *)
Definition backoff (n max : Z) : M S Z :=
  let n := if decide (n < 0) then 0 else n in
  let n := if decide (n > 30) then 30 else n in
  x ← lift (fun s => let '(x, s) := rand_Int 1000 s in (Ret x, s));
  let d := match x with Some x => x * millisecond | None => 0 end in
  let d := d + Z.shiftl 1 n * second in
  mret (if decide (d > max) then max else d).

(** [t.Sub(u)], which saturates. *)
Definition time_Sub (t u : Z) : Z := Z.max (- 2 ^ 63) (Z.min (2 ^ 63 - 1) (t - u)).

(** The function returned by [timeSleeper(ctx)], at the value [count] of its
    variable; it returns the next one, or the error of the context. *)
Definition timeSleeper (count : Z) (t : Z) : M S (res Z) :=
  d ← backoff count (10 * second);
  let count := sint w (count + 1) in
  d ← (if decide (t = 0) then mret d
       else now ← lift (fun s => let '(now, s) := timeNow s in (Ret now, s)); mret (time_Sub t now));
  _ ← observe (Slept d);
  e ← lift (fun s => let '(e, s) := select_timer d s in (Ret e, s));
  match e with Some e => mret (Fail (OtherError e)) | None => mret (Done count) end.

(** The function returned by [sleeper(ctx)]. *)
Definition sleeper (count : Z) (ra : string) : M S (res Z) :=
  t ← lift (retryAfter w ra); timeSleeper count t.

(** ** Signed requests *)

Definition postJWS (key : Signer P) (acct url : string) (body : claims) : M S (res response) :=
  nonce <~ popNonce;
  _ ← observe (Signed acct url nonce);
  b ← lift (jwsEncodeJSON body key acct url nonce);
  match b with
  | Err e => mret (Fail (OtherError e))
  | Ok b =>
      res <~ post url "application/jose+json" b;
      _ ← addNonce (rs_Header res);
      mret (Done res)
  end.

Definition badNonce : string := "urn:ietf:params:acme:error:badNonce".

(** The loop of [retryPostJWS], at most [fuel] rounds. *)
Fixpoint retry_loop (fuel : nat) (count : Z) (key : Signer P) (acct url : string) (body : claims) : M S (res response) :=
  match fuel with
  | O => blocked
  | Datatypes.S fuel =>
      res <~ postJWS key acct url body;
      if decide (400 <= StatusCode res <= 599) then
        let e := responseError res in
        _ ← Close;
        if decide (e_Type e = badNonce) then
          _ ← clearNonces;
          count <~ sleeper count (Get (rs_Header res) "Retry-After");
          retry_loop fuel count key acct url body
        else mret (Fail (AcmeError e))
      else mret (Done res)
  end.

Definition retryPostJWS (fuel : nat) : Signer P -> string -> string -> claims -> M S (res response) := retry_loop fuel 0.

Definition postWithJWSKey (fuel : nat) (key : Signer P) (url : string) (body : claims) : M S (res response) :=
  retryPostJWS fuel key "" url body.

(** Decoding of the body of a response. *)
Definition decode_body {A} (d : decoder A) (zero : A) (resp : response) : res A := of_result (Decode d zero (Body resp)).

Definition cacheAccountURL (fuel : nat) : M S (res string) :=
  with_urlMu (
    u ← client accountURL;
    if decide (u <> "") then mret (Done u)
    else
      key ← client Key;
      d ← the_dir;
      res <~ postWithJWSKey fuel key (NewAccountURL d) (RawClaims (dq "{'onlyReturnExisting':true}"));
      closing (
        if decide (StatusCode res <> 200) then mret (Fail (AcmeError (responseError res)))
        else
          l <~ mret (of_result (resolveLocation (NewAccountURL d) (rs_Header res)));
          _ ← on_client (set_accountURL l);
          mret (Done l))).

Definition postWithJWSAccount (fuel : nat) (url : string) (body : claims) : M S (res response) :=
  acct <~ cacheAccountURL fuel;
  key ← client Key;
  retryPostJWS fuel key acct url body.

(** ** Directory and accounts *)

(** The fields of the directory, and those of its meta object. *)
Definition dec_Directory : decoder Directory :=
  dec_struct
    [ at_field "NewNonce" NewNonceURL (fun x d => mk_directory x (NewAccountURL d) (NewOrderURL d) (NewAuthzURL d)
        (RevokeCertURL d) (KeyChangeURL d) (Terms d) (Website d) (CAA d) (ExternalAccountRequired d)) dec_string
    ; at_field "NewAccount" NewAccountURL (fun x d => mk_directory (NewNonceURL d) x (NewOrderURL d) (NewAuthzURL d)
        (RevokeCertURL d) (KeyChangeURL d) (Terms d) (Website d) (CAA d) (ExternalAccountRequired d)) dec_string
    ; at_field "NewOrder" NewOrderURL (fun x d => mk_directory (NewNonceURL d) (NewAccountURL d) x (NewAuthzURL d)
        (RevokeCertURL d) (KeyChangeURL d) (Terms d) (Website d) (CAA d) (ExternalAccountRequired d)) dec_string
    ; at_field "NewAuthz" NewAuthzURL (fun x d => mk_directory (NewNonceURL d) (NewAccountURL d) (NewOrderURL d) x
        (RevokeCertURL d) (KeyChangeURL d) (Terms d) (Website d) (CAA d) (ExternalAccountRequired d)) dec_string
    ; at_field "RevokeCert" RevokeCertURL (fun x d => mk_directory (NewNonceURL d) (NewAccountURL d) (NewOrderURL d)
        (NewAuthzURL d) x (KeyChangeURL d) (Terms d) (Website d) (CAA d) (ExternalAccountRequired d)) dec_string
    ; at_field "KeyChange" KeyChangeURL (fun x d => mk_directory (NewNonceURL d) (NewAccountURL d) (NewOrderURL d)
        (NewAuthzURL d) (RevokeCertURL d) x (Terms d) (Website d) (CAA d) (ExternalAccountRequired d)) dec_string
    ; ("Meta", dec_struct
        [ at_field "TermsOfService" Terms (fun x d => mk_directory (NewNonceURL d) (NewAccountURL d) (NewOrderURL d)
            (NewAuthzURL d) (RevokeCertURL d) (KeyChangeURL d) x (Website d) (CAA d) (ExternalAccountRequired d)) dec_string
        ; at_field "Website" Website (fun x d => mk_directory (NewNonceURL d) (NewAccountURL d) (NewOrderURL d)
            (NewAuthzURL d) (RevokeCertURL d) (KeyChangeURL d) (Terms d) x (CAA d) (ExternalAccountRequired d)) dec_string
        ; at_field "CAAIdentities" CAA (fun x d => mk_directory (NewNonceURL d) (NewAccountURL d) (NewOrderURL d)
            (NewAuthzURL d) (RevokeCertURL d) (KeyChangeURL d) (Terms d) (Website d) x (ExternalAccountRequired d))
            (dec_slice "" dec_string)
        ; at_field "ExternalAccountRequired" ExternalAccountRequired (fun x d => mk_directory (NewNonceURL d)
            (NewAccountURL d) (NewOrderURL d) (NewAuthzURL d) (RevokeCertURL d) (KeyChangeURL d) (Terms d) (Website d)
            (CAA d) x) dec_bool ]) ].

Definition zero_Directory : Directory := mk_directory "" "" "" "" "" "" "" "" [] false.

Definition Discover : M S (res Directory) :=
  with_urlMu (
    d ← client dir;
    match d with
    | Some d => mret (Done d)
    | None =>
        url ← client DirectoryURL;
        let dirURL := if decide (url = "") then LetsEncryptURL else url in
        res <~ get_ dirURL;
        closing (
          _ ← addNonce (rs_Header res);
          if decide (StatusCode res <> 200) then mret (Fail (AcmeError (responseError res)))
          else
            d <~ mret (decode_body dec_Directory zero_Directory res);
            _ ← on_client (set_dir (Some d));
            mret (Done d))
    end).

(** The request of [doAccount]; empty fields are omitted. *)
Definition account_claims (getExisting : bool) (acct : option Account) : claims :=
  let contact := match acct with Some a => a_Contact a | None => [] end in
  let agreed := match acct with Some a => a_TermsAgreed a | None => false end in
  Claims (EObj
    ((if decide (contact = []) then [] else [("contact", EArr (map EStr contact))]) ++
     (if (agreed : bool) then [("termsOfServiceAgreed", EBool true)] else []) ++
     (if (getExisting : bool) then [("onlyReturnExisting", EBool true)] else []))).

Definition dec_Account : decoder Account :=
  dec_struct
    [ at_field "Status" a_Status (fun x a => mk_account (a_URL a) x (a_Contact a) (a_TermsAgreed a) (a_OrdersURL a)) dec_string
    ; at_field "Contact" a_Contact (fun x a => mk_account (a_URL a) (a_Status a) x (a_TermsAgreed a) (a_OrdersURL a))
        (dec_slice "" dec_string)
    ; at_field "Orders" a_OrdersURL (fun x a => mk_account (a_URL a) (a_Status a) (a_Contact a) (a_TermsAgreed a) x) dec_string ].

(** [doAccount(url, getExisting, acct)] up to the check of the status, followed by
    [k] while the body is open. *)
Definition account_post {A} (fuel : nat) (url : string) (getExisting : bool) (acct : option Account)
    (k : response -> M S (res A)) : M S (res A) :=
  d ← the_dir;
  let acctURL := if decide (url <> NewAccountURL d) then url else "" in
  key ← client Key;
  res <~ retryPostJWS fuel key acctURL url (account_claims getExisting acct);
  closing (
    if decide (StatusCode res < 200 \/ StatusCode res > 299) then mret (Fail (AcmeError (responseError res)))
    else k res).

(** [doAccount(url, false, acct)]. *)
Definition doAccount_update (fuel : nat) (url : string) (acct : option Account) : M S (res Account) :=
  account_post fuel url false acct (fun res =>
    match decode_body dec_Account (mk_account "" "" [] false "") res with
    | Fail e => fails ("acme: invalid response: " +:+ err_Error e)
    | Done v =>
        l <~ mret (of_result (resolveLocation url (rs_Header res)));
        let a := mk_account (if decide (l = "") then url else l) (a_Status v) (a_Contact v) false (a_OrdersURL v) in
        with_urlMu (_ ← on_client (set_accountURL (a_URL a)); mret (Done a))
    end).

Definition doAccount (fuel : nat) (url : string) (getExistingWithKey : bool) (acct : option Account) : M S (res Account) :=
  if getExistingWithKey then
    account_post fuel url true acct (fun res =>
      l <~ mret (of_result (resolveLocation url (rs_Header res)));
      doAccount_update fuel l None)
  else doAccount_update fuel url acct.

Definition CreateAccount (fuel : nat) (a : Account) : M S (res Account) :=
  _ <~ Discover; d ← the_dir; doAccount fuel (NewAccountURL d) false (Some a).

Definition GetAccount (fuel : nat) : M S (res Account) :=
  _ <~ Discover; d ← the_dir; doAccount fuel (NewAccountURL d) true None.

Definition UpdateAccount (fuel : nat) (a : Account) : M S (res Account) := doAccount fuel (a_URL a) false (Some a).

(** ** Orders *)

Definition enc_AuthzID (id : AuthzID) : enc := EObj [("type", EStr (id_Type id)); ("value", EStr (id_Value id))].

Definition order_claims (order : Order) : claims :=
  Claims (EObj
    ([("identifiers", EArr (map enc_AuthzID (o_Identifiers order)))] ++
     (if decide (o_NotBefore order = 0) then [] else [("notBefore", EStr (FormatRFC3339 (o_NotBefore order)))]) ++
     (if decide (o_NotAfter order = 0) then [] else [("notAfter", EStr (FormatRFC3339 (o_NotAfter order)))]))).

Definition CreateOrder (fuel : nat) (order : Order) : M S (res Order) :=
  _ <~ Discover;
  d ← the_dir;
  res <~ postWithJWSAccount fuel (NewOrderURL d) (order_claims order);
  closing (
    if decide (StatusCode res <> 201) then mret (Fail (AcmeError (responseError res)))
    else
      v <~ mret (decode_body (dec_wireOrder w) zero_wireOrder res);
      l <~ mret (of_result (resolveLocation (NewOrderURL d) (rs_Header res)));
      o ← lift (wireOrder_order w v l "");
      if decide (o_Status o = StatusInvalid) then mret (Fail (OrderInvalidError (Some o))) else mret (Done o)).

Definition GetOrder (fuel : nat) (url : string) : M S (res Order) :=
  res <~ postWithJWSAccount fuel url NoClaims;
  closing (
    if decide (StatusCode res <> 200) then mret (Fail (AcmeError (responseError res)))
    else
      v <~ mret (decode_body (dec_wireOrder w) zero_wireOrder res);
      o ← lift (wireOrder_order w v url (Get (rs_Header res) "Retry-After"));
      mret (Done o)).

(** The loop of [WaitOrder]. *)
Fixpoint wait_order_loop (rounds fuel : nat) (count : Z) (url : string) : M S (res Order) :=
  match rounds with
  | O => blocked
  | Datatypes.S rounds =>
      r ← GetOrder fuel url;
      match r with
      | Fail (AcmeError e) =>
          if decide (500 <= e_StatusCode e <= 599) then
            t ← lift (retryAfter w (Get (default ∅ (e_Header e)) "Retry-After"));
            count <~ timeSleeper count t;
            wait_order_loop rounds fuel count url
          else mret (Fail (AcmeError e))
      | Fail e => mret (Fail e)
      | Done o =>
          if decide (o_Status o = StatusValid) then mret (Done o)
          else if decide (o_Status o = StatusInvalid) then mret (Fail (OrderInvalidError (Some o)))
          else if decide (o_Status o = StatusPending) then mret (Fail (OrderPendingError (Some o)))
          else if decide (o_Status o = StatusProcessing) then
            count <~ timeSleeper count (o_RetryAfter o);
            wait_order_loop rounds fuel count url
          else fails ("acme: unexpected order status " +:+ bytes_str (Quote IsPrint (o_Status o)))
      end
  end.

Definition WaitOrder (rounds fuel : nat) (url : string) : M S (res Order) := wait_order_loop rounds fuel 0 url.

(** ** Certificates *)

(** The loop over the PEM blocks. *)
Fixpoint pem_chain (fuel : nat) (data : list Z) (chain : list (list Z)) : res (list (list Z)) :=
  match pem_Decode data with
  | (None, _) =>
      if decide (chain = []) then Fail (OtherError "acme: invalid PEM certificate chain") else Done chain
  | (Some (ty, bytes), rest) =>
      if decide (length chain = maxChainLen) then Fail (OtherError "acme: certificate chain is too long")
      else if decide (ty <> "CERTIFICATE") then
        Fail (OtherError ("acme: invalid PEM block type " +:+ bytes_str (Quote IsPrint ty)))
      else match fuel with
           | O => Fail (OtherError "")
           | Datatypes.S fuel => pem_chain fuel rest (chain ++ [bytes])
           end
  end.

(** [ioutil.ReadAll(io.LimitReader(body, n))]. *)
Definition ReadLimited (n : Z) (b : body) : result (list Z) :=
  if decide (Z.of_nat (length (body_bytes b)) < n) then
    match body_error b with Some e => Err e | None => Ok (body_bytes b) end
  else Ok (take (Z.to_nat n) (body_bytes b)).

Definition GetCertificate (fuel : nat) (url : string) : M S (res (list (list Z))) :=
  res <~ postWithJWSAccount fuel url NoClaims;
  closing (
    match ReadLimited (maxChainSize + 1) (Body res) with
    | Err e => fails ("acme: error getting certificate: " +:+ e)
    | Ok data =>
        if decide (Z.of_nat (length data) > maxChainSize) then fails "acme: certificate chain is too big"
        else mret (pem_chain maxChainLen data [])
    end).

Definition FinalizeOrder (rounds fuel : nat) (finalizeURL : string) (csr : list Z) : M S (res (list (list Z))) :=
  _ <~ Discover;
  res <~ postWithJWSAccount fuel finalizeURL (Claims (EObj [("csr", EStr (EncodeToString csr))]));
  closing (
    if decide (StatusCode res <> 200) then mret (Fail (AcmeError (responseError res)))
    else
      v <~ mret (decode_body (dec_wireOrder w) zero_wireOrder res);
      l <~ mret (of_result (resolveLocation finalizeURL (rs_Header res)));
      o ← lift (wireOrder_order w v l (Get (rs_Header res) "Retry-After"));
      o <~ (if decide (o_Status o = StatusProcessing \/ o_Status o = StatusPending)
            then WaitOrder rounds fuel (o_URL o) else mret (Done o));
      if decide (o_Status o <> StatusValid)
      then fails ("acme: unexpected order status " +:+ bytes_str (Quote IsPrint (o_Status o)))
      else GetCertificate fuel (o_CertificateURL o)).

Definition RevokeCert (fuel : nat) (key : option (Signer P)) (cert : list Z) (reason : CRLReasonCode) : M S (res unit) :=
  _ <~ Discover;
  let body := Claims (EObj [("certificate", EStr (EncodeToString cert)); ("reason", EInt (reason_code reason))]) in
  d ← the_dir;
  res <~ match key with
         | None => postWithJWSAccount fuel (RevokeCertURL d) body
         | Some key => postWithJWSKey fuel key (RevokeCertURL d) body
         end;
  closing (
    if decide (StatusCode res <> 200) then mret (Fail (AcmeError (responseError res))) else mret (Done tt)).

(** ** Authorizations and challenges *)

(** An error of the decoder with the prefix that these operations add. *)
Definition invalid_response {A} (r : res A) : res A :=
  match r with Fail e => Fail (OtherError ("acme: invalid response: " +:+ err_Error e)) | Done a => Done a end.

Definition GetAuthorization (fuel : nat) (url : string) : M S (res Authorization) :=
  res <~ postWithJWSAccount fuel url NoClaims;
  closing (
    if decide (StatusCode res <> 200) then mret (Fail (AcmeError (responseError res)))
    else
      v <~ mret (invalid_response (decode_body (dec_wireAuthz w) zero_wireAuthz res));
      mret (Done (authorization v url))).

Definition DeactivateAuthorization (fuel : nat) (url : string) : M S (res unit) :=
  res <~ postWithJWSAccount fuel url (RawClaims (dq "{'status':'deactivated'}"));
  closing (
    if decide (StatusCode res <> 200) then mret (Fail (AcmeError (responseError res))) else mret (Done tt)).

(** The loop of [WaitAuthorization]. *)
Fixpoint wait_authz_loop (rounds fuel : nat) (count : Z) (url : string) : M S (res Authorization) :=
  match rounds with
  | O => blocked
  | Datatypes.S rounds =>
      res <~ postWithJWSAccount fuel url NoClaims;
      if decide (400 <= StatusCode res <= 499) then closing (mret (Fail (AcmeError (responseError res))))
      else
        let retry := Get (rs_Header res) "Retry-After" in
        if decide (StatusCode res <> 200 /\ StatusCode res <> 202) then
          _ ← Close;
          count <~ sleeper count retry;
          wait_authz_loop rounds fuel count url
        else
          let raw := decode_body (dec_wireAuthz w) zero_wireAuthz res in
          _ ← Close;
          raw <~ mret raw;
          if decide (wz_Status raw = StatusValid) then mret (Done (authorization raw url))
          else if decide (wz_Status raw = StatusInvalid \/ wz_Status raw = StatusDeactivated \/ wz_Status raw = StatusRevoked)
          then mret (Fail (AuthorizationError (Some (authorization raw url))))
          else if decide (wz_Status raw = StatusPending \/ wz_Status raw = StatusProcessing) then
            count <~ sleeper count retry;
            wait_authz_loop rounds fuel count url
          else fails ("acme: unknown authorization status " +:+ bytes_str (Quote IsPrint (wz_Status raw)))
  end.

Definition WaitAuthorization (rounds fuel : nat) (url : string) : M S (res Authorization) :=
  wait_authz_loop rounds fuel 0 url.

Definition GetChallenge (fuel : nat) (url : string) : M S (res Challenge) :=
  res <~ postWithJWSAccount fuel url NoClaims;
  closing (
    if decide (StatusCode res <> 200) then mret (Fail (AcmeError (responseError res)))
    else
      v <~ mret (invalid_response (decode_body (dec_wireChallenge w) (mk_wireChallenge url "" "" "" 0 None) res));
      mret (Done (challenge v))).

Definition AcceptChallenge (fuel : nat) (chal : Challenge) : M S (res Challenge) :=
  _ <~ Discover;
  res <~ postWithJWSAccount fuel (c_URL chal) (RawClaims (dq "{}"));
  closing (
    if decide (StatusCode res <> 200) then mret (Fail (AcmeError (responseError res)))
    else
      v <~ mret (invalid_response (decode_body (dec_wireChallenge w) zero_wireChallenge res));
      mret (Done (challenge v))).

Definition keyAuth (pub : PublicKey) (token : string) : result string :=
  match JWKThumbprint pub with
  | Err e => Err e
  | Ok th => Ok (token +:+ "." +:+ th)
  end.

Definition DNS01ChallengeRecord (c : Client P) (token : string) : result string :=
  match keyAuth (Public (Key c)) token with
  | Err e => Err e
  | Ok ka => Ok (EncodeToString (hash_Sum SHA256 (str_bytes ka)))
  end.

Definition HTTP01ChallengeResponse (c : Client P) (token : string) : result string := keyAuth (Public (Key c)) token.

Definition HTTP01ChallengePath (token : string) : string := "/.well-known/acme-challenge/" +:+ token.
End Client.
