(* ===== verification/AcmeFacts.v ===== *)
(** * The ACME client is well behaved

    Invariants of all operations of [Acme]: the mutexes are released, every response
    body is closed, the pool of nonces is bounded, and a nonce signs at most as many
    requests as the server sent it. *)

From S2P Require Import Prelude GoMonad GoStrings Encoding Json AcmeTypes Jws Acme.
#[local] Open Scope string_scope.
#[local] Open Scope list_scope.
#[local] Open Scope Z_scope.

(** ** Nonces of a run *)

(** How often [n] signed a request, and how often the server sent it. *)
Definition signs (n : string) (e : event) : nat :=
  match e with Signed _ _ n' => if decide (n' = n) then 1 else 0 | _ => 0 end.

Definition sends (n : string) (e : event) : nat :=
  match e with Exchange _ (Ok r) => if decide (nonceFromHeader (rs_Header r) = n) then 1 else 0 | _ => 0 end.

Definition total (f : event -> nat) (h : list event) : nat := sum_list (map f h).

Definition signed (n : string) : list event -> nat := total (signs n).
Definition received (n : string) : list event -> nat := total (sends n).

#[local] Arguments total : simpl never.
#[local] Arguments signed : simpl never.
#[local] Arguments received : simpl never.

(** At every point of the run. *)
Definition nonces_fresh (h : list event) : Prop :=
  forall h' n, h' `prefix_of` h -> (signed n h' <= received n h')%nat.

Definition pooled {P} (n : string) (c : Client P) : nat := if decide (n ∈ default ∅ (nonces c)) then 1 else 0.

Definition in_hand (hand : option string) (n : string) : nat := if decide (hand = Some n) then 1 else 0.

(** The nonces that can still sign were received and did not sign yet; [hand] is the
    one that was taken from the pool. *)
Definition nonces_ok {W P} (hand : option string) (s : st W P) : Prop :=
  nonces_fresh (hist s) /\ (size (default ∅ (nonces (cl s))) <= maxNonces)%nat /\
  forall n, (signed n (hist s) + pooled n (cl s) + in_hand hand n <= received n (hist s))%nat.

Lemma total_snoc f h e : total f (h ++ [e]) = (total f h + f e)%nat.
Proof.
  unfold total. induction h as [|x h IH]; [simpl; lia|]. cbn [app map sum_list fold_right] in *. simpl in *. lia.
Qed.

Lemma fresh_snoc h e : nonces_fresh h -> (forall n, signed n (h ++ [e]) <= received n (h ++ [e]))%nat -> nonces_fresh (h ++ [e]).
Proof.
  intros Hf He h' n [k Hk]. destruct k as [|x k _] using rev_ind.
  - rewrite app_nil_r in Hk. subst. apply He.
  - rewrite app_assoc in Hk. apply app_inj_tail in Hk as [-> _]. apply Hf. by apply prefix_app_r.
Qed.

(** ** A logic of frames

    [keeps nm um b d p m]: started with the mutexes in the states [nm] and [um] and
    with good nonces, [m] does not end
    the process, leaves the mutexes and the key as they were and the nonces
    good, and opens [d] more bodies than it closes ([p] more when it panics).  It
    blocks only in a state with [b], and even then the nonces were used well. *)

Section Frames.
Context {W P : Type} `{AcmeEnv W} `{AcmeLib} `{Signing W P} (w : Z).
Notation S := (st W P).

Definition good (nm um : bool) (s : S) : Prop :=
  noncesMu (cl s) = nm /\ urlMu (cl s) = um /\ nonces_ok None s.

Definition moved (k : Z) (s s' : S) : Prop :=
  Key (cl s') = Key (cl s) /\ bodies s' = bodies s + k /\ hist s `prefix_of` hist s'.

Definition keeps_at (nm um : bool) (b : S -> Prop) {A} (d : A -> Z) (p : Z) (m : M S A) (s : S) : Prop :=
  match m s with
  | (Ret a, s') => good nm um s' /\ moved (d a) s s'
  | (Panic, s') => good nm um s' /\ moved p s s'
  | (Exit, _) => False
  | (Blocked, s') => b s' /\ nonces_fresh (hist s')
  end.

Definition keeps (nm um : bool) (b : S -> Prop) {A} (d : A -> Z) (p : Z) (m : M S A) : Prop :=
  forall s, good nm um s -> keeps_at nm um b d p m s.

Context (nm um : bool) (b : S -> Prop).

Lemma moved_refl s : moved 0 s s.
Proof. split_and!; [done|lia|done]. Qed.

Lemma moved_trans j k l s1 s2 s3 : moved j s1 s2 -> moved k s2 s3 -> l = j + k -> moved l s1 s3.
Proof. intros (K1 & B1 & H1') (K2 & B2 & H2') ->. split_and!; [congruence|lia|by etrans]. Qed.

Lemma keeps_ext {A} (d d' : A -> Z) p m : (forall a, d a = d' a) -> keeps nm um b d p m -> keeps nm um b d' p m.
Proof.
  intros E Hm s Hs. specialize (Hm s Hs). unfold keeps_at in *. destruct (m s) as [[a| | |] s']; try done. by rewrite <- E.
Qed.

Lemma keeps_ret {A} (a : A) d p : d a = 0 -> keeps nm um b d p (mret a).
Proof. intros E s Hs. cbn. rewrite E. split; [done|apply moved_refl]. Qed.

Lemma keeps_panic {A} (d : A -> Z) : keeps nm um b d 0 go_panic.
Proof. intros s Hs. split; [done|apply moved_refl]. Qed.

Lemma keeps_at_bind {A B} (d1 : A -> Z) (d2 : B -> Z) p (m : M S A) (f : A -> M S B) s :
  keeps_at nm um b d1 p m s ->
  (forall a, keeps nm um b (fun x => d2 x - d1 a) (p - d1 a) (f a)) -> keeps_at nm um b d2 p (m ≫= f) s.
Proof.
  intros Hm Hf. unfold keeps_at, mbind, M_bind in *. destruct (m s) as [[a| | |] s1]; try done.
  destruct Hm as [Hs1 M1]. specialize (Hf a s1 Hs1). unfold keeps_at in Hf.
  destruct (f a s1) as [[x| | |] s2]; try done; destruct Hf as [Hs2 M2]; (split; [done|]);
    (eapply moved_trans; [exact M1|exact M2|lia]).
Qed.

Lemma keeps_bind {A B} (d1 : A -> Z) (d2 : B -> Z) p (m : M S A) (f : A -> M S B) :
  keeps nm um b d1 p m -> (forall a, keeps nm um b (fun x => d2 x - d1 a) (p - d1 a) (f a)) -> keeps nm um b d2 p (m ≫= f).
Proof. intros Hm Hf s Hs. eapply keeps_at_bind; [by apply Hm|done]. Qed.

Lemma keeps_try {A B} (d1 : res A -> Z) (d2 : res B -> Z) p (m : M S (res A)) (k : A -> M S (res B)) :
  keeps nm um b d1 p m -> (forall e, d2 (Fail e) = d1 (Fail e)) ->
  (forall a, keeps nm um b (fun x => d2 x - d1 (Done a)) (p - d1 (Done a)) (k a)) -> keeps nm um b d2 p (try m k).
Proof.
  intros Hm He Hk. unfold try. eapply keeps_bind; [exact Hm|]. intros [e|a]; [|apply Hk].
  apply keeps_ret. rewrite He. lia.
Qed.

Lemma keeps_client {A} (f : Client P -> A) p : keeps nm um b (fun _ => 0) p (client f).
Proof. intros s Hs. split; [done|apply moved_refl]. Qed.

(** Changes of the client outside the mutexes, the nonces and the key. *)
Lemma keeps_on_client f p :
  (forall c, noncesMu (f c) = noncesMu c /\ urlMu (f c) = urlMu c /\ nonces (f c) = nonces c /\ Key (f c) = Key c) ->
  keeps nm um b (fun _ => 0) p (on_client f).
Proof.
  intros Hf s (Hn & Hu & Hok). destruct (Hf (cl s)) as (E1 & E2 & E3 & E4). cbn. split.
  - split_and!; cbn; [congruence|congruence|]. destruct Hok as (H1' & H2' & H3'). unfold nonces_ok, pooled in *. cbn. by rewrite E3.
  - split_and!; cbn; [done|lia|done].
Qed.

Lemma keeps_lift {A} (m : M W A) : (forall s, (m s).1 <> Blocked /\ (m s).1 <> Exit) -> keeps nm um b (fun _ => 0) 0 (lift m).
Proof.
  intros Hm s Hs. unfold keeps_at, lift. destruct (Hm (net s)) as [Hb He].
  destruct (m (net s)) as [[a| | |] w']; cbn in *; try done;
    (split; [done|split_and!; cbn; [done|lia|done]]).
Qed.

Lemma keeps_Close p : keeps nm um b (fun _ => -1) p Close.
Proof. intros s Hs. split; [done|split_and!; cbn; [done|lia|done]]. Qed.

Lemma keeps_at_closing {A} (m : M S A) s :
  keeps_at nm um b (fun _ => 0) 0 m s -> keeps_at nm um b (fun _ => -1) (-1) (closing m) s.
Proof.
  intros Hm. unfold keeps_at, closing, deferring in *.
  destruct (m s) as [[a| | |] s']; cbn; try done;
    destruct Hm as [Hg (K & B & Hh)]; (split; [done|]); split_and!; cbn; done || lia.
Qed.

Lemma keeps_closing {A} (m : M S A) : keeps nm um b (fun _ => 0) 0 m -> keeps nm um b (fun _ => -1) (-1) (closing m).
Proof. intros Hm s Hs. by apply keeps_at_closing, Hm. Qed.

Lemma keeps_the_dir : keeps nm um b (fun _ => 0) 0 the_dir.
Proof.
  eapply (keeps_bind (fun _ => 0)); [apply keeps_client|]. intros [d|]; cbn; [by apply keeps_ret|apply keeps_panic].
Qed.

(** What a response adds: nothing on an error, an open body otherwise. *)
Definition opened {A} (r : res A) : Z := match r with Done _ => 1 | Fail _ => 0 end.

(** Events that sign nothing. *)
Lemma nonces_ok_event hand c net0 h k e :
  (forall n, signs n e = 0%nat) -> nonces_ok hand (mk_st (W:=W) (P:=P) c net0 h k) ->
  forall net' k', nonces_ok hand (mk_st (W:=W) c net' (h ++ [e]) k').
Proof.
  intros He (Hf & Hs & Hn) net' k'. unfold nonces_ok, signed, received in *. cbn [hist cl] in *. split_and!.
  - apply fresh_snoc; [done|]. intros n. unfold signed, received. rewrite !total_snoc, He. specialize (Hn n). lia.
  - done.
  - intros n. rewrite !total_snoc, He. specialize (Hn n). lia.
Qed.

Lemma keeps_observe e p : (forall n, signs n e = 0%nat) -> keeps nm um b (fun _ => 0) p (observe e).
Proof.
  intros He [c n0 h k] (Hn & Hu & Hok). cbn. split; [split_and!; [done..|]; by eapply nonces_ok_event|].
  split_and!; cbn; [done|lia|by apply prefix_app_r].
Qed.

Lemma keeps_do req p : keeps nm um b opened p (do req).
Proof.
  intros [c n0 h k] (Hn & Hu & Hok). unfold keeps_at, do. cbn. destruct (http_Do req n0) as [[e|r] w'].
  - destruct (ctx_Err w'); cbn; (split; [split_and!; [done..|by eapply nonces_ok_event]|]);
      (split_and!; cbn; [done|lia|by apply prefix_app_r]).
  - split; [split_and!; [done..|by eapply nonces_ok_event]|]. split_and!; cbn; [done|lia|by apply prefix_app_r].
Qed.

Lemma keeps_newRequest m u ct bd p : keeps nm um b (fun _ => 0) p (newRequest m u ct bd).
Proof.
  unfold newRequest. destruct (NewRequest_error m u); [by apply keeps_ret|].
  eapply (keeps_bind (fun _ => 0)); [apply keeps_client|]. intros a. by apply keeps_ret.
Qed.

Lemma keeps_request m u ct bd p : keeps nm um b opened p (req <~ newRequest m u ct bd; do req).
Proof.
  eapply (keeps_try (fun _ => 0)); [apply keeps_newRequest|done|]. intros req.
  eapply keeps_ext; [|apply keeps_do]. intros a. lia.
Qed.

Lemma keeps_fetchNonce : keeps nm um b (fun _ => 0) 0 (fetchNonce w).
Proof.
  eapply (keeps_bind (fun _ => 0)); [apply keeps_the_dir|]. intros d.
  eapply (keeps_try opened); [apply keeps_request|done|]. intros r. cbn [opened].
  eapply keeps_ext; [|apply keeps_closing]; [done|]. repeat case_decide; by apply keeps_ret.
Qed.
End Frames.

Section Locks.
Context {W P : Type} `{AcmeEnv W} `{AcmeLib} `{Signing W P} (w : Z).
Notation S := (st W P).

Lemma keeps_with_urlMu nm b {A} (d : A -> Z) p (m : M S A) :
  keeps nm true b d p m -> keeps nm false b d p (with_urlMu m).
Proof.
  intros Hm [c n0 h k] (Hn & Hu & Hok). unfold keeps_at, with_urlMu, locked, client, gets, on_client, modify, mbind, M_bind. cbn in *.
  rewrite Hu. unfold deferring. specialize (Hm (mk_st (set_urlMu true c) n0 h k)). unfold keeps_at in Hm. cbn in Hm.
  destruct (m _) as [[a| | |] s1]; cbn in *.
  - destruct Hm as ((G1 & G2 & G3) & K & B & Hh); [done|]. done.
  - destruct Hm as ((G1 & G2 & G3) & K & B & Hh); [done|]. done.
  - by apply Hm.
  - by apply Hm.
Qed.

Lemma keeps_with_noncesMu um b {A} (d : A -> Z) p (m : M S A) :
  keeps true um b d p m -> keeps false um b d p (with_noncesMu m).
Proof.
  intros Hm [c n0 h k] (Hn & Hu & Hok). unfold keeps_at, with_noncesMu, locked, client, gets, on_client, modify, mbind, M_bind. cbn in *.
  rewrite Hn. unfold deferring. specialize (Hm (mk_st (set_noncesMu true c) n0 h k)). unfold keeps_at in Hm. cbn in Hm.
  destruct (m _) as [[a| | |] s1]; cbn in *.
  - destruct Hm as ((G1 & G2 & G3) & K & B & Hh); [done|]. done.
  - destruct Hm as ((G1 & G2 & G3) & K & B & Hh); [done|]. done.
  - by apply Hm.
  - by apply Hm.
Qed.
End Locks.

(** ** Nonces *)

Section Nonces.
Context {W P : Type} `{AcmeEnv W} `{AcmeLib} `{Signing W P} (w : Z).
Notation S := (st W P).

(** A fetched nonce is new. *)
Lemma fetchNonce_new nm um (s : S) n s' :
  good nm um s -> fetchNonce w s = (Ret (Done n), s') -> nonces_ok (Some n) s'.
Proof.
  destruct s as [c n0 h k]. intros (Hn & Hu & Hf & Hs & Hok).
  unfold fetchNonce, the_dir, client, gets, mbind, M_bind. cbn in *. destruct (dir c) as [d|]; [|done]. cbn.
  unfold try, head_, newRequest, mbind, M_bind, closing, deferring, do, client, gets, mret, M_ret. cbn.
  unfold try, mbind, M_bind, mret, M_ret. cbn.
  destruct (NewRequest_error _ _); [done|]. cbn. destruct (http_Do _ n0) as [[e|r] w'].
  { by destruct (ctx_Err w'). }
  cbn. case_decide as Hne; [repeat case_decide; done|]. intros [= <- <-].
  unfold nonces_ok, nonces_fresh, signed, received, in_hand in *. cbn [hist cl] in *. split_and!; [|done|].
  - apply fresh_snoc; [done|]. intros n. unfold signed, received. rewrite !total_snoc. specialize (Hok n). cbn [signs]. lia.
  - intros n. rewrite !total_snoc. specialize (Hok n). cbn [signs sends].
    repeat case_decide; simplify_eq; lia.
Qed.

(** A nonce that is taken from the pool leaves it. *)
Lemma popNonce_spec um (s : S) : good false um s ->
  match popNonce w s with
  | (Ret r, s') => good false um s' /\ moved 0 s s' /\ (forall n, r = Done n -> nonces_ok (Some n) s')
  | (Panic, s') => good false um s' /\ moved 0 s s'
  | _ => False
  end.
Proof.
  intros Hs. destruct (decide (size (default ∅ (nonces (cl s))) = O)) as [Hz|Hz].
  - assert (Hk : keeps false um (fun _ => False) (fun _ => 0) 0 (with_noncesMu (P:=P) (fetchNonce w)))
      by apply keeps_with_noncesMu, keeps_fetchNonce.
    assert (E : popNonce w s = with_noncesMu (fetchNonce w) s).
    { destruct s as [c n0 h k]. destruct Hs as (Hn & _). cbn in *.
      unfold popNonce, with_noncesMu, locked, client, gets, on_client, modify, mbind, M_bind. cbn. rewrite Hn.
      unfold deferring. cbn. by rewrite decide_True. }
    rewrite E. pose proof (Hk s Hs) as Hk'. unfold keeps_at in Hk'. destruct (with_noncesMu (fetchNonce w) s) as [[r| | |] s'] eqn:Er; [|done|done|by destruct Hk'].
    destruct Hk' as [Hg Hm]. split; [done|]. split; [done|]. intros n ->.
    destruct s as [c n0 h k]. destruct Hs as (Hn & Hu & Hok). cbn in *.
    unfold with_noncesMu, locked, client, gets, on_client, modify, mbind, M_bind in Er. cbn in Er. rewrite Hn in Er.
    unfold deferring in Er. cbn in Er.
    destruct (fetchNonce w (mk_st (set_noncesMu true c) n0 h k)) as [[r| | |] s1] eqn:Ef; cbn in Er; try done.
    injection Er as -> <-. eapply fetchNonce_new in Ef; [exact Ef|]. by split_and!.
  - destruct s as [c n0 h k]. destruct Hs as (Hn & Hu & Hf & Hsz & Hok). cbn in *.
    unfold popNonce, with_noncesMu, locked, client, gets, on_client, modify, mbind, M_bind. cbn. rewrite Hn.
    unfold deferring. cbn. rewrite decide_False by done. set (pool := default ∅ (nonces c)) in *.
    unfold range_first, lift, mbind, M_bind. cbn. destruct (map_start n0) as [i w']. cbn.
    destruct (lookup_lt_is_Some_2 (elements pool) (Nat.modulo i (size pool))) as [x Hx].
    { apply Nat.mod_upper_bound, Hz. }
    rewrite Hx. cbn. assert (Hin : x ∈ pool) by (apply elem_of_elements, list_elem_of_lookup; eauto).
    assert (Hsub : (size (pool ∖ {[x]}) <= size pool)%nat) by (apply subseteq_size; set_solver).
    assert (Hboth : forall hand : option string, (hand = None \/ hand = Some x) ->
      nonces_ok hand (mk_st (W:=W) (set_noncesMu false (set_nonces (Some (pool ∖ {[x]})) (set_noncesMu true c))) w' h k)).
    { intros hand Hh. unfold nonces_ok, pooled, in_hand in *. cbn in *. split_and!; [done|lia|]. intros n.
      specialize (Hok n). fold pool in Hok.
      destruct Hh as [-> | ->]; repeat case_decide; simplify_eq; try lia; set_solver. }
    split; [split_and!; [done..|apply Hboth; by left]|]. split; [split_and!; cbn; [done|lia|done]|].
    intros n [= <-]. apply Hboth. by right.
Qed.

Lemma keeps_popNonce um b : keeps false um b (fun _ => 0) 0 (popNonce (P:=P) w).
Proof.
  intros s Hs. pose proof (popNonce_spec um s Hs) as Hp. unfold keeps_at. destruct (popNonce w s) as [[r| | |] s']; try done.
  destruct Hp as (? & ? & _). done.
Qed.

Lemma keeps_clearNonces um b p : keeps false um b (fun _ => 0) p (clearNonces (W:=W) (P:=P)).
Proof.
  apply keeps_with_noncesMu. intros [c n0 h k] (Hn & Hu & Hf & Hs & Hok). cbn. split.
  - split_and!; [done..|]. unfold nonces_ok, pooled, in_hand in *. cbn [hist cl nonces set_nonces from_option id] in *.
    split_and!; [done|rewrite size_empty; lia|]. intros n. specialize (Hok n). rewrite decide_False by set_solver. lia.
  - split_and!; cbn; [done|lia|done].
Qed.

(** The state after a response. *)
Definition after_exchange (um : bool) (r : response) (s : S) : Prop :=
  good false um s /\ exists h0 req, hist s = h0 ++ [Exchange req (Ok r)] /\
    forall n, (signed n h0 + pooled n (cl s) <= received n h0)%nat.

(** A stored nonce was received with the last response. *)
Lemma keeps_at_addNonce um b (s : S) r p : after_exchange um r s ->
  keeps_at false um b (fun _ => 0) p (addNonce (rs_Header r)) s.
Proof.
  destruct s as [c n0 h k]. intros ((Hn & Hu & Hf & Hs & Hok) & h0 & req & Eh & Hok0). cbn in *. subst h.
  unfold keeps_at, addNonce. case_decide as Hne; [split; [by split_and!|apply moved_refl]|].
  unfold with_noncesMu, locked, client, gets, on_client, modify, mbind, M_bind. cbn. rewrite Hn.
  unfold deferring. cbn. case_decide as Hmax; cbn.
  { split; [by split_and!|]. split_and!; cbn; [done|lia|done]. }
  split; [|split_and!; cbn; [done|lia|done]]. split_and!; [done..|].
  set (v := nonceFromHeader (rs_Header r)) in *. unfold nonces_ok, pooled, in_hand in *.
  cbn [hist cl nonces set_nonces set_noncesMu from_option id] in *. split_and!; [done| |].
  - rewrite size_union_alt, size_singleton.
    assert (size (default ∅ (nonces c) ∖ {[v]}) <= size (default ∅ (nonces c)))%nat by (apply subseteq_size; set_solver).
    lia.
  - intros n. specialize (Hok n). specialize (Hok0 n). unfold signed, received in *. rewrite !total_snoc in *.
    cbn [signs sends] in *. fold v in Hok |- *. repeat case_decide; try lia; set_solver.
Qed.

(** A request, and what is done with its response. *)
Lemma keeps_exchange um b {A} (d : res A -> Z) p mth u ct bd (k : response -> M S (res A)) :
  (forall e, d (Fail e) = 0) ->
  (forall r s, after_exchange um r s -> keeps_at false um b (fun x => d x - 1) (p - 1) (k r) s) ->
  keeps false um b d p (res <~ (req <~ newRequest mth u ct bd; do req); k res).
Proof.
  intros Hd Hk [c n0 h j] (Hn & Hu & Hf & Hs & Hok). unfold keeps_at, try, newRequest, mbind, M_bind.
  destruct (NewRequest_error mth u) as [e|]; cbn.
  { rewrite Hd. split; [by split_and!|apply moved_refl]. }
  unfold do. cbn. destruct (http_Do _ n0) as [[e|r] w'].
  - destruct (ctx_Err w'); cbn; rewrite Hd; (split; [split_and!; [done..|eapply nonces_ok_event; [done|by split_and!]]|]);
      (split_and!; cbn; [done|lia|by apply prefix_app_r]).
  - cbn. match goal with |- context [k r ?s'] => specialize (Hk r s') end. unfold keeps_at in Hk.
    match type of Hk with ?X -> _ => assert X as Haft end.
    { split; [split_and!; [done..|eapply nonces_ok_event; [done|by split_and!]]|]. eexists _, _. split; [reflexivity|].
      intros n. specialize (Hok n). unfold in_hand in Hok. rewrite decide_False in Hok by done. cbn [cl hist] in *. lia. }
    specialize (Hk Haft). destruct (k r _) as [[a| | |] s2]; try done; destruct Hk as [Hg M2]; (split; [done|]);
      destruct M2 as (K2 & B2 & H2'); cbn in *; (split_and!; cbn; [done|lia|etrans; [|exact H2']; by apply prefix_app_r]).
Qed.

Lemma keeps_postJWS um b key acct url body :
  (forall nonce s, (jwsEncodeJSON body key acct url nonce s).1 <> Blocked /\ (jwsEncodeJSON body key acct url nonce s).1 <> Exit) ->
  keeps false um b opened 0 (postJWS w key acct url body).
Proof.
  intros Hsign s Hs. unfold postJWS, keeps_at. unfold try at 1. unfold mbind at 1, M_bind at 1.
  pose proof (popNonce_spec um s Hs) as Hpop. destruct (popNonce w s) as [[r| | |] s1]; try done.
  destruct Hpop as (Hg1 & M1 & Hnew). destruct r as [e|nonce]; [split; done|]. specialize (Hnew nonce eq_refl).
  unfold mbind at 1, M_bind at 1. unfold observe at 1, modify.
  set (s2 := mk_st (cl s1) (net s1) (hist s1 ++ [Signed acct url nonce]) (bodies s1)).
  assert (Hg2 : good false um s2).
  { destruct Hg1 as (Hn1 & Hu1 & _). split_and!; [done..|]. destruct Hnew as (Hf & Hz & Hok).
    unfold nonces_ok, signed, received, in_hand in *. subst s2. cbn [hist cl] in *.
    assert (Hle : forall n, (total (signs n) (hist s1 ++ [Signed acct url nonce]) + pooled n (cl s1) <=
      total (sends n) (hist s1 ++ [Signed acct url nonce]))%nat).
    { intros n. specialize (Hok n). rewrite !total_snoc. cbn [signs sends]. repeat case_decide; simplify_eq; lia. }
    split_and!; [|done|].
    - apply fresh_snoc; [done|]. intros n. specialize (Hle n). unfold signed, received. lia.
    - intros n. specialize (Hle n). rewrite decide_False by done. lia. }
  assert (M2 : moved 0 s s2).
  { eapply moved_trans; [exact M1| |reflexivity]. split_and!; [done|subst s2; cbn; lia|by apply prefix_app_r]. }
  assert (Hrest : keeps (W:=W) (P:=P) false um b opened 0
    (b ← lift (jwsEncodeJSON body key acct url nonce);
     match b with
     | Err e => mret (Fail (OtherError e))
     | Ok b => res <~ post url "application/jose+json" b; _ ← addNonce (rs_Header res); mret (Done res)
     end)).
  { eapply (keeps_bind _ _ _ (fun _ => 0)); [apply keeps_lift, Hsign|]. intros [e|bd]; [by apply keeps_ret|].
    apply keeps_exchange; [done|]. intros r s3 Haft.
    eapply (keeps_at_bind _ _ _ (fun _ => 0)); [by apply keeps_at_addNonce|]. intros _. by apply keeps_ret. }
  specialize (Hrest s2 Hg2). unfold keeps_at in Hrest.
  match type of Hrest with match ?X with _ => _ end => destruct X as [[a| | |] s3] end; try done;
    destruct Hrest as [Hg3 M3]; (split; [done|]); (eapply moved_trans; [exact M2|exact M3|lia]).
Qed.
End Nonces.

(** ** Operations *)

Section Operations.
Context {W P : Type} `{AcmeEnv W} `{AcmeLib} `{Signing W P} (w : Z).
Notation S := (st W P).

(** The server sent [r] at some point. *)
Definition came (r : response) : Prop := exists req x x', http_Do req x = (Ok r, x').

(** The server rejects nonces. *)
Definition rejects_nonces : Prop :=
  exists r, came r /\ 400 <= StatusCode r <= 599 /\ e_Type (responseError w r) = badNonce.

Lemma keeps_mono nm um (b b' : S -> Prop) {A} (d : A -> Z) p (m : M S A) :
  (forall s, b s -> b' s) -> keeps nm um b d p m -> keeps nm um b' d p m.
Proof.
  intros Hb Hm s Hs. specialize (Hm s Hs). unfold keeps_at in *. destruct (m s) as [[a| | |] s']; try done.
  destruct Hm. auto.
Qed.

(** [keeps_try] with the knowledge that the first computation returned. *)
Lemma keeps_try_ran nm um b {A B} (d1 : res A -> Z) (d2 : res B -> Z) p (m : M S (res A)) (k : A -> M S (res B)) :
  keeps nm um b d1 p m -> (forall e, d2 (Fail e) = d1 (Fail e)) ->
  (forall a s s', m s = (Ret (Done a), s') -> keeps nm um b (fun x => d2 x - d1 (Done a)) (p - d1 (Done a)) (k a)) ->
  keeps nm um b d2 p (try m k).
Proof.
  intros Hm He Hk s Hs. unfold keeps_at, try, mbind, M_bind. specialize (Hm s Hs). unfold keeps_at in Hm.
  destruct (m s) as [[[e|a]| | |] s1] eqn:Em; try done.
  - cbn. by rewrite He.
  - destruct Hm as [Hs1 M1]. specialize (Hk a s s1 Em s1 Hs1). unfold keeps_at in Hk.
    destruct (k a s1) as [[x| | |] s2]; try done; destruct Hk as [Hs2 M2]; (split; [done|]);
      (eapply moved_trans; [exact M1|exact M2|lia]).
Qed.

Lemma jwsEncodeJSON_returns c (key : Signer P) acct url nonce (s : W) :
  (jwsEncodeJSON c key acct url nonce s).1 <> Blocked /\ (jwsEncodeJSON c key acct url nonce s).1 <> Exit.
Proof.
  unfold jwsEncodeJSON. destruct (jwsHasher key) as [[alg sha]|]; [|done].
  destruct (protected_header _ _ _ _ _); [done|].
  destruct (match c with NoClaims => _ | _ => _ end); [done|].
  unfold mbind, M_bind. destruct (jwsSign key sha _ s) as [[r| | |] s'] eqn:E; [by destruct r|done| |];
    exfalso; revert E; unfold jwsSign; destruct key; cbn; repeat case_match; try done.
Qed.

Lemma postJWS_came key acct url body (s : S) r s' : postJWS w key acct url body s = (Ret (Done r), s') -> came r.
Proof.
  unfold postJWS. unfold try at 1. unfold mbind at 1, M_bind at 1. destruct (popNonce w s) as [[[e|n]| | |] s1]; try done.
  unfold mbind at 1, M_bind at 1, observe at 1, modify. unfold mbind at 1, M_bind at 1.
  destruct (lift _ _) as [[[e|bd]| | |] s2]; try done.
  unfold try, post, mbind, M_bind. unfold try, mbind, M_bind.
  destruct (newRequest _ _ _ _ s2) as [[[e|req]| | |] s3]; try done. unfold do.
  destruct (http_Do req (net s3)) as [[e|r'] w'] eqn:E; [by destruct (ctx_Err w')|]. cbn.
  destruct (addNonce _ _) as [[[]| | |] s4]; try done. intros [= -> ->]. by eexists _, _, _.
Qed.

Lemma keeps_backoff nm um b n max : keeps (W:=W) (P:=P) nm um b (fun _ => 0) 0 (backoff n max).
Proof.
  eapply (keeps_bind _ _ _ (fun _ => 0)); [apply keeps_lift|].
  - intros s. by destruct (rand_Int 1000 s).
  - intros x. by apply keeps_ret.
Qed.

Lemma keeps_timeSleeper nm um b count t : keeps (W:=W) (P:=P) nm um b (fun _ => 0) 0 (timeSleeper w count t).
Proof.
  eapply (keeps_bind _ _ _ (fun _ => 0)); [apply keeps_backoff|]. intros d0.
  eapply (keeps_bind _ _ _ (fun _ => 0)).
  { case_decide; [by apply keeps_ret|]. eapply (keeps_bind _ _ _ (fun _ => 0)); [apply keeps_lift|].
    - intros s. by destruct (timeNow s).
    - intros now. by apply keeps_ret. }
  intros d. eapply (keeps_bind _ _ _ (fun _ => 0)); [by apply keeps_observe|]. intros _.
  eapply (keeps_bind _ _ _ (fun _ => 0)); [apply keeps_lift|].
  - intros s. by destruct (select_timer d s).
  - intros [e|]; by apply keeps_ret.
Qed.

Lemma retryAfter_returns v (s : W) : (retryAfter w v s).1 <> Blocked /\ (retryAfter w v s).1 <> Exit.
Proof. unfold retryAfter. destruct (Atoi w v); [done|]. by destruct (timeNow s). Qed.

Lemma keeps_sleeper nm um b count ra : keeps (W:=W) (P:=P) nm um b (fun _ => 0) 0 (sleeper w count ra).
Proof.
  eapply (keeps_bind _ _ _ (fun _ => 0)); [apply keeps_lift, retryAfter_returns|]. intros t. apply keeps_timeSleeper.
Qed.

Lemma keeps_retry_loop um fuel count key acct url body :
  keeps (W:=W) (P:=P) false um (fun _ => rejects_nonces \/ fuel = O) opened 0 (retry_loop w fuel count key acct url body).
Proof.
  revert count. induction fuel as [|fuel IH]; intros count; cbn [retry_loop].
  { intros s (_ & _ & Hf & _). split; [by right|done]. }
  eapply keeps_mono with (b := fun _ => rejects_nonces); [by left|].
  eapply (keeps_try_ran _ _ _ opened); [apply keeps_postJWS, jwsEncodeJSON_returns|done|].
  intros r s s' Hran. apply postJWS_came in Hran. cbn [opened]. case_decide as Hst; [|by apply keeps_ret].
  eapply (keeps_bind _ _ _ (fun _ => -1)); [apply keeps_Close|]. intros _.
  case_decide as Hbad; [|by apply keeps_ret].
  eapply keeps_mono with (b := fun _ => True); [intros _ _; by exists r|].
  eapply (keeps_bind _ _ _ (fun _ => 0)); [apply keeps_clearNonces|]. intros _.
  eapply (keeps_try _ _ _ (fun _ => 0)); [apply keeps_sleeper|done|]. intros c'.
  eapply keeps_ext; [|eapply keeps_mono; [|apply IH]]; [|done]. intros a. cbn. lia.
Qed.

Lemma keeps_wireOrder_order nm um b v u ra : keeps (W:=W) (P:=P) nm um b (fun _ => 0) 0 (lift (wireOrder_order w v u ra)).
Proof.
  apply keeps_lift. intros s. unfold wireOrder_order, mbind, M_bind. destruct (retryAfter_returns ra s) as [Hb He].
  destruct (retryAfter w ra s) as [[t| | |] s']; done.
Qed.
End Operations.

(** One step through an operation. *)
Ltac keeps_step :=
  cbn [opened];
  lazymatch goal with
  | |- keeps _ _ _ _ _ (mret _) => apply keeps_ret; (reflexivity || cbn; lia)
  | |- keeps _ _ _ _ _ (fails _) => apply keeps_ret; (reflexivity || cbn; lia)
  | |- keeps _ _ _ _ _ (match decide _ with _ => _ end) => case_decide
  | |- keeps _ _ _ _ _ (match ?x with _ => _ end) => destruct x
  | |- keeps _ _ _ _ _ (let _ := _ in _) => cbv zeta
  | |- keeps _ _ _ _ _ (closing _) => eapply keeps_ext; [|apply keeps_closing]; [intros; cbn; lia|]
  | |- keeps _ _ _ _ _ (mbind _ (client _)) => eapply (keeps_bind _ _ _ (fun _ => 0)); [apply keeps_client|intros ?]
  | |- keeps _ _ _ _ _ (mbind _ the_dir) => eapply (keeps_bind _ _ _ (fun _ => 0)); [apply keeps_the_dir|intros ?]
  | |- keeps _ _ _ _ _ (mbind _ (on_client _)) =>
      eapply (keeps_bind _ _ _ (fun _ => 0)); [apply keeps_on_client; intros []; split_and!; reflexivity|intros ?]
  | |- keeps _ _ _ _ _ (mbind _ (lift (wireOrder_order _ _ _ _))) =>
      eapply (keeps_bind _ _ _ (fun _ => 0)); [apply keeps_wireOrder_order|intros ?]
  | |- keeps _ _ _ _ _ (mbind _ (lift (retryAfter _ _))) =>
      eapply (keeps_bind _ _ _ (fun _ => 0)); [apply keeps_lift, retryAfter_returns|intros ?]
  | |- keeps _ _ _ _ _ (mbind _ Close) => eapply (keeps_bind _ _ _ (fun _ => -1)); [apply keeps_Close|intros ?]
  | |- keeps _ _ _ _ _ (try (mret _) _) =>
      eapply (keeps_try _ _ _ (fun _ => 0)); [by apply keeps_ret|intros ?; cbn; lia|intros ?]
  end.

(** A call whose response is then used. *)
Tactic Notation "keeps_call" uconstr(H) := eapply (keeps_try _ _ _ opened); [apply H|intros ?; reflexivity|intros ?].
Tactic Notation "keeps_sub" uconstr(H) := eapply (keeps_try _ _ _ (fun _ => 0)); [apply H|intros ?; cbn; lia|intros ?].

Section Client.
Context {W P : Type} `{AcmeEnv W} `{AcmeLib} `{Signing W P} (w : Z) (fuel : nat).

(** When the requests can go on for ever. *)
Notation endless := (rejects_nonces w \/ fuel = O).
Notation keeps_op := (keeps (W:=W) (P:=P) false false (fun _ => endless)).

Lemma keeps_retryPostJWS um key acct url body :
  keeps (W:=W) (P:=P) false um (fun _ => endless) opened 0 (retryPostJWS w fuel key acct url body).
Proof. apply keeps_retry_loop. Qed.

Lemma keeps_cacheAccountURL : keeps_op (fun _ => 0) 0 (cacheAccountURL w fuel).
Proof.
  apply keeps_with_urlMu. repeat keeps_step. keeps_call keeps_retryPostJWS. repeat keeps_step.
Qed.

Lemma keeps_postWithJWSAccount url body : keeps_op opened 0 (postWithJWSAccount w fuel url body).
Proof.
  keeps_sub keeps_cacheAccountURL. keeps_step. eapply keeps_ext; [|apply keeps_retryPostJWS]. intros r. lia.
Qed.

Lemma keeps_Discover : keeps_op (fun _ => 0) 0 (Discover w).
Proof.
  apply keeps_with_urlMu. keeps_step. keeps_step; [keeps_step|]. keeps_step. cbv zeta.
  apply keeps_exchange; [intros; cbn; lia|]. intros r s Haft.
  assert (Hk : keeps_at false true (fun _ => endless) (fun _ => 0) 0
    (_ ← addNonce (rs_Header r);
     if decide (StatusCode r <> 200) then mret (Fail (AcmeError (responseError w r)))
     else
       d <~ mret (decode_body dec_Directory zero_Directory r);
       _ ← on_client (set_dir (Some d));
       mret (Done d)) s).
  { eapply (keeps_at_bind _ _ _ (fun _ => 0)); [by apply keeps_at_addNonce|]. intros _. repeat keeps_step. }
  apply keeps_at_closing in Hk. exact Hk.
Qed.

Lemma keeps_account_post {A} url ge acct (k : response -> M (st W P) (res A)) :
  (forall r, keeps_op (fun _ => 0) 0 (k r)) -> keeps_op (fun _ => 0) 0 (account_post w fuel url ge acct k).
Proof.
  intros Hk. unfold account_post. repeat keeps_step. keeps_call keeps_retryPostJWS. repeat keeps_step. apply Hk.
Qed.

Lemma keeps_doAccount_update url acct : keeps_op (fun _ => 0) 0 (doAccount_update w fuel url acct).
Proof.
  apply keeps_account_post. intros r. keeps_step; [keeps_step|]. keeps_step. cbv zeta.
  eapply keeps_ext; [|apply keeps_with_urlMu]; [intros; reflexivity|]. repeat keeps_step.
Qed.

Lemma keeps_doAccount url ge acct : keeps_op (fun _ => 0) 0 (doAccount w fuel url ge acct).
Proof.
  destruct ge; [|apply keeps_doAccount_update]. apply keeps_account_post. intros r. keeps_step.
  eapply keeps_ext; [|apply keeps_doAccount_update]. done.
Qed.

(** An operation that sends one request with the account and reads its response. *)
Ltac keeps_request_op := keeps_call keeps_postWithJWSAccount; repeat keeps_step.

Lemma keeps_GetOrder url : keeps_op (fun _ => 0) 0 (GetOrder w fuel url).
Proof. keeps_request_op. Qed.

Lemma keeps_GetCertificate url : keeps_op (fun _ => 0) 0 (GetCertificate w fuel url).
Proof. keeps_request_op. Qed.

(** Nobody is in a critical section. *)
Definition unlocked (s : st W P) : Prop := noncesMu (cl s) = false /\ urlMu (cl s) = false.

(** The operations that poll may wait for ever, between two polls. *)
Definition waits (s : st W P) : Prop := endless \/ unlocked s.

Lemma keeps_poll {A} (m : M (st W P) A) d p : keeps_op d p m -> keeps (W:=W) (P:=P) false false waits d p m.
Proof. apply keeps_mono. intros s Hs. by left. Qed.

Lemma keeps_wait_order rounds count url :
  keeps (W:=W) (P:=P) false false waits (fun _ => 0) 0 (wait_order_loop w rounds fuel count url).
Proof.
  revert count. induction rounds as [|rounds IH]; intros count; [intros s (Hn & Hu & Hf & _); split; [by right|done]|]. cbn [wait_order_loop].
  eapply (keeps_bind _ _ _ (fun _ => 0)); [apply keeps_poll, keeps_GetOrder|]. intros [[e|o|o|a|e]|o]; repeat keeps_step.
  - keeps_sub keeps_timeSleeper. apply IH.
  - keeps_sub keeps_timeSleeper. apply IH.
Qed.

Lemma keeps_wait_authz rounds count url :
  keeps (W:=W) (P:=P) false false waits (fun _ => 0) 0 (wait_authz_loop w rounds fuel count url).
Proof.
  revert count. induction rounds as [|rounds IH]; intros count; [intros s (Hn & Hu & Hf & _); split; [by right|done]|]. cbn [wait_authz_loop].
  eapply (keeps_try _ _ _ opened); [apply keeps_poll, keeps_postWithJWSAccount|done|]. intros r.
  repeat keeps_step.
  - keeps_sub keeps_sleeper. apply IH.
  - keeps_sub keeps_sleeper. apply IH.
Qed.

(** The public operations. *)
Inductive op : Type :=
| ODiscover
| OCreateAccount (a : Account)
| OGetAccount
| OUpdateAccount (a : Account)
| OCreateOrder (o : Order)
| OGetOrder (url : string)
| OWaitOrder (url : string)
| OFinalizeOrder (url : string) (csr : list Z)
| OGetCertificate (url : string)
| ORevokeCert (key : option (Signer P)) (cert : list Z) (reason : CRLReasonCode)
| OGetAuthorization (url : string)
| ODeactivateAuthorization (url : string)
| OWaitAuthorization (url : string)
| OGetChallenge (url : string)
| OAcceptChallenge (c : Challenge).

Definition polls (o : op) : bool :=
  match o with OWaitOrder _ | OFinalizeOrder _ _ | OWaitAuthorization _ => true | _ => false end.

(** An operation without its result. *)
Definition exec (rounds : nat) (o : op) : M (st W P) unit :=
  match o with
  | ODiscover => _ ← Discover w; mret tt
  | OCreateAccount a => _ ← CreateAccount w fuel a; mret tt
  | OGetAccount => _ ← GetAccount w fuel; mret tt
  | OUpdateAccount a => _ ← UpdateAccount w fuel a; mret tt
  | OCreateOrder o => _ ← CreateOrder w fuel o; mret tt
  | OGetOrder url => _ ← GetOrder w fuel url; mret tt
  | OWaitOrder url => _ ← WaitOrder w rounds fuel url; mret tt
  | OFinalizeOrder url csr => _ ← FinalizeOrder w rounds fuel url csr; mret tt
  | OGetCertificate url => _ ← GetCertificate w fuel url; mret tt
  | ORevokeCert key cert reason => _ ← RevokeCert w fuel key cert reason; mret tt
  | OGetAuthorization url => _ ← GetAuthorization w fuel url; mret tt
  | ODeactivateAuthorization url => _ ← DeactivateAuthorization w fuel url; mret tt
  | OWaitAuthorization url => _ ← WaitAuthorization w rounds fuel url; mret tt
  | OGetChallenge url => _ ← GetChallenge w fuel url; mret tt
  | OAcceptChallenge c => _ ← AcceptChallenge w fuel c; mret tt
  end.

Lemma keeps_ignore b {A} (m : M (st W P) A) :
  keeps (W:=W) (P:=P) false false b (fun _ => 0) 0 m -> keeps (W:=W) (P:=P) false false b (fun _ => 0) 0 (_ ← m; mret tt).
Proof. intros Hm. eapply (keeps_bind _ _ _ (fun _ => 0)); [exact Hm|]. intros a. by apply keeps_ret. Qed.

Lemma keeps_FinalizeOrder rounds url csr :
  keeps (W:=W) (P:=P) false false waits (fun _ => 0) 0 (FinalizeOrder w rounds fuel url csr).
Proof.
  eapply (keeps_try _ _ _ (fun _ => 0)); [apply keeps_poll, keeps_Discover|done|]. intros d.
  eapply (keeps_try _ _ _ opened); [apply keeps_poll, keeps_postWithJWSAccount|done|]. intros r.
  repeat keeps_step.
  eapply (keeps_try _ _ _ (fun _ => 0)); [case_decide; [apply keeps_wait_order|by apply keeps_ret]|done|]. intros o.
  keeps_step; [keeps_step|]. eapply keeps_ext; [|apply keeps_poll, keeps_GetCertificate]. done.
Qed.

Lemma keeps_exec rounds o :
  keeps (W:=W) (P:=P) false false (fun s => endless \/ (polls o = true /\ unlocked s)) (fun _ => 0) 0 (exec rounds o).
Proof.
  destruct o; cbn [exec polls]; apply keeps_ignore;
    first [ eapply keeps_mono; [|apply keeps_wait_order]; intros s [?|?]; [by left|by right]
          | eapply keeps_mono; [|apply keeps_wait_authz]; intros s [?|?]; [by left|by right]
          | eapply keeps_mono; [|apply keeps_FinalizeOrder]; intros s [?|?]; [by left|by right]
          | eapply keeps_mono with (b := fun _ => endless); [intros ? ?; by left|] ].
  - apply keeps_Discover.
  - keeps_sub keeps_Discover. repeat keeps_step. apply keeps_doAccount.
  - keeps_sub keeps_Discover. repeat keeps_step. apply keeps_doAccount.
  - apply keeps_doAccount.
  - keeps_sub keeps_Discover. keeps_step. keeps_request_op.
  - apply keeps_GetOrder.
  - apply keeps_GetCertificate.
  - keeps_sub keeps_Discover. repeat keeps_step. eapply (keeps_try _ _ _ opened).
    + destruct key; [apply keeps_retryPostJWS|apply keeps_postWithJWSAccount].
    + done.
    + intros r. repeat keeps_step.
  - keeps_request_op.
  - keeps_request_op.
  - keeps_request_op.
  - keeps_sub keeps_Discover. keeps_request_op.
Qed.
End Client.

(** ** The client in every state it can reach *)

Section Reachable.
Context {W P : Type} `{AcmeEnv W} `{AcmeLib} `{Signing W P} (w : Z) (key : Signer P) (url : string).

(** The states of a client between its operations; a panic of an operation may be
    recovered by its caller. *)
Inductive reachable : st W P -> Prop :=
| reach_new x : reachable (mk_st (new_client key url) x [] 0)
| reach_op s rounds fuel o out s' :
    reachable s -> exec w fuel rounds o s = (out, s') -> out <> Blocked -> reachable s'.

Lemma reachable_good s : reachable s -> good false false s /\ bodies s = 0 /\ Key (cl s) = key.
Proof.
  induction 1 as [x|s rounds fuel o out s' _ (Hg & Hb & Hk) E Hout].
  - split_and!; try done. split_and!; try done. split_and!.
    + intros h n Hh. apply prefix_nil_inv in Hh as ->. done.
    + cbn. rewrite size_empty. lia.
    + intros n. unfold pooled, in_hand. cbn. by rewrite decide_False by set_solver.
  - pose proof (keeps_exec w fuel rounds o s Hg) as Hkeep. unfold keeps_at in Hkeep. rewrite E in Hkeep.
    destruct out; try done; destruct Hkeep as [Hg' (K & B & _)]; (split_and!; [done|lia|congruence]).
Qed.
End Reachable.

(** C4:  Whatever operations are called on a new client, in any order and with any
    server, between them: no mutex is held, every response body was closed, the
    account key is the one given, at most [maxNonces] nonces are kept, and at every
    point of the run each nonce has signed at most as many requests as the server
    sent it, so no nonce that the server issued once signs twice. *)
Theorem acme_client_invariant {W P} `{AcmeEnv W} `{AcmeLib} `{Signing W P} (w : Z) (key : Signer P) (url : string)
    (s : st W P) :
  reachable w key url s ->
  noncesMu (cl s) = false /\ urlMu (cl s) = false /\ bodies s = 0 /\ Key (cl s) = key /\
  (size (default ∅ (nonces (cl s))) <= maxNonces)%nat /\ nonces_fresh (hist s).
Proof. intros ((Hn & Hu & Hf & Hs & _) & Hb & Hk)%reachable_good. done. Qed.

(** C20:  Unless the server rejects nonces, which is retried for ever, every operation on a client ends, with a result or a
    panic of the source, after finitely many requests; only the three that poll can go on as long as the
    server keeps them waiting, and they wait with no mutex held, so that other
    operations can use the client. *)
Theorem acme_ops_return {W P} `{AcmeEnv W} `{AcmeLib} `{Signing W P} (w : Z) (key : Signer P) (url : string)
    (s : st W P) (rounds fuel : nat) (o : op) :
  reachable w key url s -> ~ rejects_nonces w -> (0 < fuel)%nat ->
  exists out s', exec w fuel rounds o s = (out, s') /\
    (out = Ret tt \/ out = Panic \/
     out = Blocked /\ polls o = true /\ noncesMu (cl s') = false /\ urlMu (cl s') = false).
Proof.
  intros (Hg & _ & _)%reachable_good Hr Hf.
  pose proof (keeps_exec w fuel rounds o s Hg) as Hk. unfold keeps_at in Hk.
  destruct (exec w fuel rounds o s) as [[[]| | |] s']; [by eexists _, _; split; [done|]; left|by eexists _, _; split; [done|]; right; left|done|].
  destruct Hk as [[[?|?]|[Hp [Hn Hu]]] _]; [done|lia|]. eexists _, _. split; [done|]. right. right. done.
Qed.

(** ** A scripted server *)

Module SimAcme.
(** The answers still to come; the clock stands still. *)
Definition script : Type := list (result response).

#[export] Instance script_env : AcmeEnv script := {
  http_Do _ s := match s with r :: s => (r, s) | [] => (Err "connection refused", []) end;
  ctx_Err _ := None;
  select_timer _ s := (None, s);
  timeNow s := (10 ^ 18, s);
  rand_Int max s := (Some (max / 2), s);
  map_start s := (length s, s);
}.

#[export] Instance lib : AcmeLib := {
  NewRequest_error _ _ := None;
  http_ParseTime _ := None;
  ParseRFC3339 _ := Some 1;
  FormatRFC3339 _ := "2021-01-01T00:00:00Z";
  url_Parse _ := None;
  url_Resolve base ref := Ok (if decide (ref = "") then base else ref);
  pem_Decode b := match b with x :: b => (Some (if decide (x = 0) then "KEY" else "CERTIFICATE", [x]), b) | [] => (None, []) end;
  hash_Sum _ b := take 32 b;
  IsPrint _ := true;
}.

#[export] Instance toy_signing : Signing script unit := {
  rsa_Sign _ d _ s := (Ok [1; 2; 3], s);
  ecdsa_Sign _ _ s := (Ok (258, 7), s);
}.

Definition key : Signer unit := EcdsaPrivateKey P256 1 2 tt.

(** A response with a nonce. *)
Definition reply (code : Z) (nonce : string) (headers : list (string * string)) (json : string) : result response :=
  Ok (mk_response code "" (list_to_map ((fun h => (h.1, [h.2])) <$> ("Replay-Nonce", nonce) :: headers))
        (mk_body (dq json) None)).

Definition directory : string :=
  "{'newNonce':'https://ca/nonce','newAccount':'https://ca/acct','newOrder':'https://ca/order','meta':{'website':'w'}}".

(** A directory, an account, a rejected nonce, and an order. *)
Definition answers : script :=
  [ reply 200 "n1" [] directory;
    reply 201 "n2" [("Location", "https://ca/acct/1")] "{'status':'valid','contact':['mailto:a@b']}";
    reply 400 "n3" [] "{'type':'urn:ietf:params:acme:error:badNonce','status':400}";
    reply 200 "n4" [] "";
    reply 201 "n5" [("Location", "https://ca/order/1")]
      "{'status':'pending','authorizations':['https://ca/authz/1'],'finalize':'https://ca/order/1/fin'}" ].

Definition start : st script unit := mk_st (new_client key "https://ca/dir") answers [] 0.

Definition account : Account := mk_account "" "" ["mailto:a@b"] true "".

(** The state after an account and an order were created. *)
Definition after_order : st script unit :=
  (exec 64 3 0 (OCreateOrder (NewOrder ["bmc.example.org"])) (exec 64 3 0 (OCreateAccount account) start).2).2.

Lemma after_order_reachable : reachable 64 key "https://ca/dir" after_order.
Proof.
  apply (reach_op 64 key "https://ca/dir" (exec 64 3 0 (OCreateAccount account) start).2 0 3
    (OCreateOrder (NewOrder ["bmc.example.org"])) (Ret tt)); [|by vm_compute|done].
  apply (reach_op 64 key "https://ca/dir" start 0 3 (OCreateAccount account) (Ret tt)); [constructor|by vm_compute|done].
Qed.
End SimAcme.

Import SimAcme.

Lemma acme_client_invariant_witness :
  nonces (cl after_order) = Some {[ "n5" ]} /\ accountURL (cl after_order) = "https://ca/acct/1" /\
  bodies after_order = 0 /\ nonces_fresh (hist after_order).
Proof.
  split; [by vm_compute|]. split; [by vm_compute|].
  destruct (acme_client_invariant 64 SimAcme.key "https://ca/dir" after_order after_order_reachable) as (_ & _ & Hb & _ & _ & Hf).
  by split.
Defined.

(** A server that always answers with its directory. *)
Module CalmServer.
Definition answer : result response := reply 200 "n" [] directory.

#[export] Instance calm_env : AcmeEnv unit := {
  http_Do _ s := (answer, s);
  ctx_Err _ := None;
  select_timer _ s := (None, s);
  timeNow s := (10 ^ 18, s);
  rand_Int _ s := (None, s);
  map_start s := (O, s);
}.

#[export] Instance calm_signing : Signing unit unit := {
  rsa_Sign _ d _ s := (Ok [1; 2; 3], s);
  ecdsa_Sign _ _ s := (Ok (258, 7), s);
}.

Lemma never_rejects : ~ rejects_nonces (W:=unit) 64.
Proof. intros (r & (req & x & x' & E) & Hst & _). cbn in E. injection E as <- <-. cbn in Hst. lia. Qed.
End CalmServer.

Import CalmServer.

Lemma acme_ops_return_witness :
  exists out s', exec (W:=unit) 64 1 0 (OCreateOrder (NewOrder ["a"])) (mk_st (new_client SimAcme.key "d") tt [] 0) = (out, s') /\
    (out = Ret tt \/ out = Panic \/
     out = Blocked /\ polls (OCreateOrder (P:=unit) (NewOrder ["a"])) = true /\ noncesMu (cl s') = false /\ urlMu (cl s') = false).
Proof.
  apply (acme_ops_return 64 SimAcme.key "d"); [constructor|apply CalmServer.never_rejects|lia].
Defined.

(** ** Requests on the wire *)

Lemma jwsEncodeJSON_reads_witness :
  exists b s' v, jwsEncodeJSON (W:=script) (Claims (EObj [("csr", EStr "AQID")])) SimAcme.key "https://ca/acct/1"
      "https://ca/order/1/fin" "n7" [] = (Ret (Ok b), s') /\
    read_jws b = Some v /\
    reads_as (Claims (EObj [("csr", EStr "AQID")])) SimAcme.key "ES256" SHA256 "https://ca/acct/1"
      "https://ca/order/1/fin" "n7" [] s' v.
Proof.
  assert (Hplain : forall t, forallb (fun c => bool_decide (0x20 <= c < 0x7f)) (str_bytes t) = true -> plain_text (str_bytes t)).
  { intros t Ht. apply Forall_forall. intros c Hc. rewrite forallb_forall in Ht.
    by eapply bool_decide_eq_true_1, Ht, list_elem_of_In. }
  apply (jwsEncodeJSON_reads (W:=script)); try (apply Hplain; reflexivity).
  - reflexivity.
  - split; [by right; left|]. by vm_compute.
  - exact I.
  - intros digest.
    destruct (jwsSign_ecdsa P256 1 2 tt SHA256 digest ([] : script) [] 258 7) as (sig & E & _); [by left|done|by vm_compute..|].
    exists sig, []. split; [exact E|]. revert E. vm_compute. intros [= <-].
    repeat (constructor; [by vm_compute|]). constructor.
Defined.
