(* ===== verification/AcmeSpec.v ===== *)
(** * What the operations of the ACME client return

    Waiting and its bounds, the polling loops, certificate chains, and cases in which
    the code does not do what its comments say. *)

From S2P Require Import Prelude GoMonad GoStrings Encoding Json AcmeTypes Jws Acme AcmeFacts.
#[local] Open Scope string_scope.
#[local] Open Scope list_scope.
#[local] Open Scope Z_scope.

(** ** Results *)

(** Every result of [m] satisfies [Q]. *)
Definition ensures {S A} (Q : A -> Prop) (m : M S A) : Prop := forall s a s', m s = (Ret a, s') -> Q a.

Section Ensures.
Context {S : Type}.

Lemma ensures_ret {A} (Q : A -> Prop) (a : A) : Q a -> ensures (S:=S) Q (mret a).
Proof. intros Ha s a' s' E. injection E as <- <-. done. Qed.

Lemma ensures_panic {A} (Q : A -> Prop) : ensures (S:=S) Q go_panic.
Proof. done. Qed.

Lemma ensures_any {A} (m : M S A) : ensures (fun _ => True) m.
Proof. done. Qed.

Lemma ensures_bind {A B} (R : A -> Prop) (Q : B -> Prop) (m : M S A) (f : A -> M S B) :
  ensures R m -> (forall a, R a -> ensures Q (f a)) -> ensures Q (m ≫= f).
Proof.
  intros Hm Hf s x s' E. unfold mbind, M_bind in E. destruct (m s) as [[a| | |] s1] eqn:Em; try done.
  by eapply (Hf a); [eapply Hm|].
Qed.

Lemma ensures_try {A B} (R : res A -> Prop) (Q : res B -> Prop) (m : M S (res A)) (k : A -> M S (res B)) :
  ensures R m -> (forall e, R (Fail e) -> Q (Fail e)) -> (forall a, R (Done a) -> ensures Q (k a)) -> ensures Q (try m k).
Proof.
  intros Hm He Hk. eapply ensures_bind; [exact Hm|]. intros [e|a] Hr; [|by apply Hk]. by apply ensures_ret, He.
Qed.

Lemma ensures_deferring {A} (Q : A -> Prop) d (m : M S A) : ensures Q m -> ensures Q (deferring d m).
Proof.
  intros Hm s a s' E. unfold deferring in E. destruct (m s) as [[x| | |] s1] eqn:Em; try done.
  - unfold mbind, M_bind in E. destruct (d s1) as [[[]| | |] s2]; try done. injection E as <- <-. by eapply Hm.
  - unfold mbind, M_bind in E. by destruct (d s1) as [[[]| | |] s2].
Qed.
End Ensures.

(** Errors of requests: an answer of the server, or another error. *)
Definition request_error (e : err) : Prop := match e with AcmeError _ | OtherError _ => True | _ => False end.

Definition fails_plainly {A} (r : res A) : Prop := match r with Fail e => request_error e | Done _ => True end.

(** A response that [retryPostJWS] lets through. *)
Definition accepted (r : res response) : Prop :=
  match r with Fail e => request_error e | Done r => ~ (400 <= StatusCode r <= 599) end.

Section Requests.
Context {W P : Type} `{AcmeEnv W} `{AcmeLib} `{Signing W P} (w : Z).
Notation S := (st W P).

Lemma ensures_locked {A} (Q : A -> Prop) mu set (m : M S A) : ensures Q m -> ensures Q (locked mu set m).
Proof.
  intros Hm. eapply (ensures_bind (fun _ => True)); [done|]. intros [] _; [done|].
  eapply (ensures_bind (fun _ => True)); [done|]. intros _ _. by apply ensures_deferring.
Qed.

Lemma ensures_do req : ensures fails_plainly (do (W:=W) (P:=P) req).
Proof.
  intros s a s'. unfold do. destruct (http_Do req (net s)) as [[e|r] w']; [destruct (ctx_Err w')|]; by intros [= <- <-].
Qed.

Lemma ensures_request mth u ct bd : ensures fails_plainly (req <~ newRequest (W:=W) (P:=P) mth u ct bd; do req).
Proof.
  eapply (ensures_try fails_plainly); [|done|intros req _; apply ensures_do].
  unfold newRequest. destruct (NewRequest_error mth u); [by apply ensures_ret|].
  eapply (ensures_bind (fun _ => True)); [done|]. intros a _. by apply ensures_ret.
Qed.

Lemma ensures_popNonce : ensures fails_plainly (popNonce (W:=W) (P:=P) w).
Proof.
  apply ensures_locked. eapply (ensures_bind (fun _ => True)); [done|]. intros n _. case_decide.
  - eapply (ensures_bind (fun _ => True)); [done|]. intros d _.
    eapply (ensures_try fails_plainly); [apply ensures_request|done|]. intros r _.
    apply ensures_deferring. cbv zeta. repeat case_decide; by apply ensures_ret.
  - eapply (ensures_bind (fun _ => True)); [done|]. intros k _.
    eapply (ensures_bind (fun _ => True)); [done|]. intros _ _. by apply ensures_ret.
Qed.

Lemma ensures_postJWS key acct url body : ensures fails_plainly (postJWS (W:=W) (P:=P) w key acct url body).
Proof.
  eapply (ensures_try fails_plainly); [apply ensures_popNonce|done|]. intros n _.
  eapply (ensures_bind (fun _ => True)); [done|]. intros _ _.
  eapply (ensures_bind (fun _ => True)); [done|]. intros [e|b] _; [by apply ensures_ret|].
  eapply (ensures_try fails_plainly); [apply ensures_request|done|]. intros r _.
  eapply (ensures_bind (fun _ => True)); [done|]. intros _ _. by apply ensures_ret.
Qed.

Lemma ensures_timeSleeper count t : ensures fails_plainly (timeSleeper (W:=W) (P:=P) w count t).
Proof.
  eapply (ensures_bind (fun _ => True)); [done|]. intros d0 _. eapply (ensures_bind (fun _ => True)); [done|]. intros d _.
  eapply (ensures_bind (fun _ => True)); [done|]. intros _ _. eapply (ensures_bind (fun _ => True)); [done|].
  intros [e|] _; by apply ensures_ret.
Qed.

Lemma ensures_sleeper count ra : ensures fails_plainly (sleeper (W:=W) (P:=P) w count ra).
Proof. eapply (ensures_bind (fun _ => True)); [done|]. intros t _. apply ensures_timeSleeper. Qed.

Lemma ensures_retry_loop fuel count key acct url body :
  ensures accepted (retry_loop (W:=W) (P:=P) w fuel count key acct url body).
Proof.
  revert count. induction fuel as [|fuel IH]; intros count; [done|]. cbn [retry_loop].
  eapply (ensures_try fails_plainly); [apply ensures_postJWS|done|]. intros r _. case_decide; [|by apply ensures_ret].
  eapply (ensures_bind (fun _ => True)); [done|]. intros _ _. case_decide; [|by apply ensures_ret].
  eapply (ensures_bind (fun _ => True)); [done|]. intros _ _.
  eapply (ensures_try fails_plainly); [apply ensures_sleeper|done|]. intros c _. apply IH.
Qed.

Lemma ensures_cacheAccountURL fuel : ensures fails_plainly (cacheAccountURL (W:=W) (P:=P) w fuel).
Proof.
  apply ensures_locked. eapply (ensures_bind (fun _ => True)); [done|]. intros u _. case_decide; [by apply ensures_ret|].
  eapply (ensures_bind (fun _ => True)); [done|]. intros key _. eapply (ensures_bind (fun _ => True)); [done|]. intros d _.
  eapply (ensures_try accepted); [apply ensures_retry_loop|done|]. intros r _. apply ensures_deferring.
  case_decide; [by apply ensures_ret|]. eapply (ensures_try fails_plainly); [|done|].
  - apply ensures_ret. by destruct (resolveLocation _ _).
  - intros l _. eapply (ensures_bind (fun _ => True)); [done|]. intros _ _. by apply ensures_ret.
Qed.

(** A response to a signed request is never a client or server error. *)
Lemma ensures_postWithJWSAccount fuel url body : ensures accepted (postWithJWSAccount (W:=W) (P:=P) w fuel url body).
Proof.
  eapply (ensures_try fails_plainly); [apply ensures_cacheAccountURL|done|]. intros a _.
  eapply (ensures_bind (fun _ => True)); [done|]. intros key _. apply ensures_retry_loop.
Qed.

Lemma of_result_plain {A} (r : result A) : fails_plainly (of_result r).
Proof. by destruct r. Qed.

Lemma ensures_GetOrder fuel url : ensures fails_plainly (GetOrder (W:=W) (P:=P) w fuel url).
Proof.
  eapply (ensures_try accepted); [apply ensures_postWithJWSAccount|done|]. intros r _. apply ensures_deferring.
  case_decide; [by apply ensures_ret|]. eapply (ensures_try fails_plainly); [apply ensures_ret, of_result_plain|done|].
  intros v _. eapply (ensures_bind (fun _ => True)); [done|]. intros o _. by apply ensures_ret.
Qed.
End Requests.

(** ** Waiting *)

Section Waiting.
Context {W P : Type} `{AcmeEnv W} `{AcmeLib} `{Signing W P} (w : Z).

Definition clamp30 (n : Z) : Z := Z.max 0 (Z.min 30 n).

(** The delay before retry [n], with the jitter of the random source in [s]. *)
Definition delay (n max : Z) (s : W) : Z :=
  Z.min max (match (rand_Int 1000 s).1 with Some x => x * millisecond | None => 0 end + 2 ^ clamp30 n * second).

Lemma backoff_eq n max (s : st W P) :
  backoff n max s = (Ret (delay n max (net s)), mk_st (cl s) (rand_Int 1000 (net s)).2 (hist s) (bodies s)).
Proof.
  unfold backoff, delay, clamp30, lift, mbind, M_bind, mret, M_ret. destruct (rand_Int 1000 (net s)) as [x s'] eqn:E.
  cbn [fst snd]. f_equal. f_equal.
  replace (if decide ((if decide (n < 0) then 0 else n) > 30) then 30 else if decide (n < 0) then 0 else n)
    with (Z.max 0 (Z.min 30 n)) by (repeat case_decide; lia).
  rewrite Z.shiftl_mul_pow2 by lia. case_decide; lia.
Qed.

(** What the sleeping function does: one wait, until the given time or for the
    delay. *)
Lemma timeSleeper_eq count t (s : st W P) :
  exists x1, let d0 := delay count (10 * second) (net s) in
  x1 = (rand_Int 1000 (net s)).2 /\
  timeSleeper w count t s =
    let '(d, x2) := if decide (t = 0) then (d0, x1) else let '(now, x2) := timeNow x1 in (time_Sub t now, x2) in
    let '(e, x3) := select_timer d x2 in
    (Ret match e with Some e => Fail (OtherError e) | None => Done (sint w (count + 1)) end,
     mk_st (cl s) x3 (hist s ++ [Slept d]) (bodies s)).
Proof.
  exists (rand_Int 1000 (net s)).2. split; [done|]. unfold timeSleeper, mbind, M_bind. rewrite backoff_eq.
  set (d0 := delay _ _ _). set (x1 := (rand_Int _ _).2). cbn.
  case_decide; cbn.
  - unfold lift. cbn. destruct (select_timer d0 x1) as [[e|] x3]; done.
  - unfold lift. cbn. destruct (timeNow x1) as [now x2]. cbn.
    destruct (select_timer _ x2) as [[e|] x3]; done.
Qed.

(** The run after a wait of [d], whose end the world in [x] tells. *)
Definition slept (count d : Z) (x : W) (s : st W P) : outcome (res Z) * st W P :=
  (Ret match (select_timer d x).1 with Some e => Fail (OtherError e) | None => Done (sint w (count + 1)) end,
   mk_st (cl s) (select_timer d x).2 (hist s ++ [Slept d]) (bodies s)).
End Waiting.

Lemma time_Sub_spec t now :
  (- 2 ^ 63 <= t - now < 2 ^ 63 -> time_Sub t now = t - now) /\ (time_Sub t now <= 0 <-> t <= now).
Proof. unfold time_Sub. lia. Qed.

(** A random source that keeps to its range. *)
Class RandInRange (W : Type) `{AcmeEnv W} : Prop :=
  rand_range : forall max s x, 0 < max -> (rand_Int max s).1 = Some x -> 0 <= x < max.

(** C33:  Without a time from the server a retry waits with exponential backoff: retry
    [n] waits at least two to the power [n] seconds and less than a second more, up to
    ten seconds, never less than one second, and the numbers stay below 2^63.  With a
    time from the server it waits until that time instead, saturated to a [Duration]:
    this wait has no upper bound below 2^63 nanoseconds, and it is negative, so that the
    timer fires at once, when the time has passed.  In both cases the wait is the only
    effect on the run, and it ends early only with the context. *)
Theorem timeSleeper_backoff {W P} `{AcmeEnv W} `{AcmeLib} `{!RandInRange W} (w count : Z) (s : st W P) :
  exists d x, second <= d <= 10 * second /\
    (0 <= count <= 3 -> 2 ^ count * second <= d < 2 ^ count * second + second) /\
    (3 < count -> d = 10 * second) /\
    999 * millisecond + 2 ^ clamp30 count * second < 2 ^ 63 /\
    timeSleeper w count 0 s = slept w count d x s /\
    (forall t, t <> 0 -> let '(now, x) := timeNow x in
      timeSleeper w count t s = slept w count (time_Sub t now) x s /\
      (- 2 ^ 63 <= t - now < 2 ^ 63 -> time_Sub t now = t - now) /\ (time_Sub t now <= 0 <-> t <= now)).
Proof.
  assert (Ht : forall t, t <> 0 -> let '(now, x) := timeNow (rand_Int 1000 (net s)).2 in
    timeSleeper w count t s = slept w count (time_Sub t now) x s /\
    (- 2 ^ 63 <= t - now < 2 ^ 63 -> time_Sub t now = t - now) /\ (time_Sub t now <= 0 <-> t <= now)).
  { intros t Hne. destruct (timeSleeper_eq w count t s) as (x1 & -> & E). rewrite decide_False in E by done.
    destruct (timeNow _) as [now x2]. rewrite E. split; [unfold slept; by destruct (select_timer _ _)|]. apply time_Sub_spec. }
  destruct (timeSleeper_eq w count 0 s) as (x1 & -> & E). rewrite decide_True in E by done.
  set (x1 := (rand_Int 1000 (net s)).2) in E. set (d := delay count (10 * second) (net s)) in E.
  exists d, x1. replace (timeSleeper w count 0 s) with (slept w count d x1 s)
    by (rewrite E; unfold slept; by destruct (select_timer d x1)).
  assert (Hj : exists j, 0 <= j < second /\ d = Z.min (10 * second) (j + 2 ^ clamp30 count * second)).
  { unfold d, delay. pose proof (rand_range 1000 (net s)) as Hr. destruct (rand_Int 1000 (net s)).1 as [x|].
    - exists (x * millisecond). specialize (Hr x ltac:(lia) eq_refl). unfold second, millisecond. split; [lia|done].
    - exists 0. by unfold second. }
  destruct Hj as (j & Hj & Hd).
  assert (H1 : 2 ^ 0 <= 2 ^ clamp30 count <= 2 ^ 30) by (split; apply Z.pow_le_mono_r; unfold clamp30; lia).
  unfold second, millisecond in *. split_and!; [lia|lia| | |lia|done|done].
  - intros Hc. unfold clamp30 in *. replace (Z.max 0 (Z.min 30 count)) with count in * by lia.
    assert (2 ^ count <= 2 ^ 3) by (apply Z.pow_le_mono_r; lia). lia.
  - intros Hc. assert (2 ^ 4 <= 2 ^ clamp30 count) by (apply Z.pow_le_mono_r; unfold clamp30; lia). lia.
Qed.

(** ** Orders *)

Section Orders.
Context {W P : Type} `{AcmeEnv W} `{AcmeLib} `{Signing W P} (w : Z) (fuel : nat) (url : string).
Notation S := (st W P).

(** A poll that is followed by a wait and another poll, and the retries before and
    after it. *)
Inductive order_waits : Z -> S -> Z -> S -> Prop :=
| waits_processing s o s1 count count' s2 :
    GetOrder w fuel url s = (Ret (Done o), s1) -> o_Status o = StatusProcessing ->
    timeSleeper w count (o_RetryAfter o) s1 = (Ret (Done count'), s2) -> order_waits count s count' s2
| waits_server_error s e s1 t x count count' s2 :
    GetOrder w fuel url s = (Ret (Fail (AcmeError e)), s1) -> 500 <= e_StatusCode e <= 599 ->
    retryAfter w (Get (default ∅ (e_Header e)) "Retry-After") (net s1) = (Ret t, x) ->
    timeSleeper w count t (mk_st (cl s1) x (hist s1) (bodies s1)) = (Ret (Done count'), s2) ->
    order_waits count s count' s2.

(** [k] such polls. *)
Inductive order_polls : nat -> Z -> S -> Z -> S -> Prop :=
| polls_0 count s : order_polls 0 count s count s
| polls_S k count s count1 s1 count' s' :
    order_waits count s count1 s1 -> order_polls k count1 s1 count' s' ->
    order_polls (Datatypes.S k) count s count' s'.

(** The verdict on a poll, if it is the last one. *)
Definition order_verdict (r : res Order) : option (res Order) :=
  match r with
  | Done o =>
      if decide (o_Status o = StatusValid) then Some (Done o)
      else if decide (o_Status o = StatusInvalid) then Some (Fail (OrderInvalidError (Some o)))
      else if decide (o_Status o = StatusPending) then Some (Fail (OrderPendingError (Some o)))
      else if decide (o_Status o = StatusProcessing) then None
      else Some (Fail (OtherError ("acme: unexpected order status " +:+ bytes_str (Quote IsPrint (o_Status o)))))
  | Fail (AcmeError e) => if decide (500 <= e_StatusCode e <= 599) then None else Some (Fail (AcmeError e))
  | Fail e => Some (Fail e)
  end.

Lemma wait_order_step rounds count s count1 s1 :
  order_waits count s count1 s1 ->
  wait_order_loop w (Datatypes.S rounds) fuel count url s = wait_order_loop w rounds fuel count1 url s1.
Proof.
  intros [s0 o s2 c c' s3 Eg Hst Et | s0 e s2 t x c c' s3 Eg He Er Et]; cbn [wait_order_loop]; unfold mbind, M_bind; rewrite Eg.
  - rewrite Hst. do 3 rewrite decide_False by done. rewrite decide_True by done. unfold try, mbind, M_bind. by rewrite Et.
  - rewrite decide_True by done. unfold mbind, M_bind, lift. rewrite Er. unfold try, mbind, M_bind. by rewrite Et.
Qed.

Lemma wait_order_last rounds count s r s1 v :
  GetOrder w fuel url s = (Ret r, s1) -> order_verdict r = Some v ->
  wait_order_loop w (Datatypes.S rounds) fuel count url s = (Ret v, s1).
Proof.
  intros Eg. cbn [wait_order_loop]. unfold mbind, M_bind. rewrite Eg.
  destruct r as [[e|o|o|a|e]|o]; cbn [order_verdict]; repeat case_decide; try done; by intros [= <-].
Qed.

Lemma wait_order_polls k count s count' s' : order_polls k count s count' s' ->
  forall rounds, wait_order_loop w (k + rounds) fuel count url s = wait_order_loop w rounds fuel count' url s'.
Proof. induction 1 as [|k count s c1 s1 c' s' Hw _ IH]; intros rounds; [done|]. cbn [Nat.add]. by erewrite wait_order_step. Qed.

(** What the caller may rely on. *)
Definition order_promise (r : res Order) : Prop :=
  match r with
  | Done o => o_Status o = StatusValid
  | Fail (OrderInvalidError o) => exists x, o = Some x /\ o_Status x = StatusInvalid
  | Fail (OrderPendingError o) => exists x, o = Some x /\ o_Status x = StatusPending
  | Fail (AcmeError e) => ~ (500 <= e_StatusCode e <= 599)
  | Fail (AuthorizationError _) => False
  | Fail (OtherError _) => True
  end.

(** A wait fails with the context's error only. *)
Lemma ensures_wait count t :
  ensures (fun r => match r with Fail e => exists m, e = OtherError m | Done _ => True end) (timeSleeper (W:=W) (P:=P) w count t).
Proof.
  intros s r s' E. destruct (timeSleeper_eq w count t s) as (x1 & _ & E'). rewrite E' in E. clear E'.
  destruct (if decide (t = 0) then _ else _) as [d x2]. destruct (select_timer d x2) as [[e|] x3]; injection E as <- <-; eauto.
Qed.

Lemma ensures_wait_order rounds count : ensures order_promise (wait_order_loop (P:=P) w rounds fuel count url).
Proof.
  revert count. induction rounds as [|rounds IH]; intros count; [done|]. cbn [wait_order_loop].
  assert (Hsleep : forall c t, ensures order_promise
    (count' <~ timeSleeper (P:=P) w c t; wait_order_loop w rounds fuel count' url)).
  { intros c t. eapply ensures_try; [apply ensures_wait|by intros e [m ->]|by intros]. }
  eapply ensures_bind; [apply ensures_GetOrder|]. intros [[e|o|o|a|e]|o] Hr; try done; try by apply ensures_ret.
  - case_decide; [|by apply ensures_ret]. eapply (ensures_bind (fun _ => True)); [done|]. intros t _. apply Hsleep.
  - repeat (case_decide; [first [apply Hsleep | apply ensures_ret; cbn; eauto]|]). by apply ensures_ret.
Qed.
End Orders.

(** C19:  [WaitOrder] returns once the order is decided: when [k] polls find it in
    progress, or the server in trouble, and each wait goes by, and the next poll is
    decisive, it returns the verdict on that poll at that point, the order if it is
    valid.  Whenever it returns, the order it returns is valid, an
    [OrderInvalidError] carries an invalid order and an [OrderPendingError] one whose authorizations
    are incomplete, and the server errors it reports are not the ones it retries. *)
Theorem WaitOrder_correct {W P} `{AcmeEnv W} `{AcmeLib} `{Signing W P} (w : Z) (fuel : nat) (url : string)
    (k : nat) (count : Z) (s s1 s2 : st W P) (r v : res Order) :
  order_polls w fuel url k 0 s count s1 -> GetOrder w fuel url s1 = (Ret r, s2) -> order_verdict r = Some v ->
  (forall rounds, (k < rounds)%nat -> WaitOrder w rounds fuel url s = (Ret v, s2)) /\
  (forall rounds r' s', WaitOrder w rounds fuel url s = (Ret r', s') -> order_promise r').
Proof.
  intros Hp Eg Hv. split.
  - intros rounds Hk. unfold WaitOrder. replace rounds with (k + Datatypes.S (rounds - k - 1))%nat by lia.
    erewrite wait_order_polls by done. by eapply wait_order_last.
  - intros rounds r' s' E. by eapply ensures_wait_order.
Qed.

(** ** Authorizations *)

Section Authorizations.
Context {W P : Type} `{AcmeEnv W} `{AcmeLib} `{Signing W P} (w : Z) (fuel : nat) (url : string).
Notation S := (st W P).

(** The verdict on the response to a poll, if it is the last one. *)
Definition authz_verdict (r : response) : option (res Authorization) :=
  if decide (StatusCode r <> 200 /\ StatusCode r <> 202) then None
  else match decode_body (dec_wireAuthz w) zero_wireAuthz r with
       | Fail e => Some (Fail e)
       | Done raw =>
           if decide (wz_Status raw = StatusValid) then Some (Done (authorization raw url))
           else if decide (wz_Status raw = StatusInvalid \/ wz_Status raw = StatusDeactivated \/ wz_Status raw = StatusRevoked)
           then Some (Fail (AuthorizationError (Some (authorization raw url))))
           else if decide (wz_Status raw = StatusPending \/ wz_Status raw = StatusProcessing) then None
           else Some (Fail (OtherError ("acme: unknown authorization status " +:+ bytes_str (Quote IsPrint (wz_Status raw)))))
       end.

Definition closed (s : S) : S := mk_st (cl s) (net s) (hist s) (bodies s - 1).

(** Polls that are each followed by a wait. *)
Inductive authz_polls : nat -> Z -> S -> Z -> S -> Prop :=
| authz_polls_0 count s : authz_polls 0 count s count s
| authz_polls_S k count s r s1 count1 s2 count' s' :
    postWithJWSAccount w fuel url NoClaims s = (Ret (Done r), s1) -> authz_verdict r = None ->
    sleeper w count (Get (rs_Header r) "Retry-After") (closed s1) = (Ret (Done count1), s2) ->
    authz_polls k count1 s2 count' s' -> authz_polls (Datatypes.S k) count s count' s'.

Lemma wait_authz_eq rounds count s r s1 :
  postWithJWSAccount w fuel url NoClaims s = (Ret (Done r), s1) ->
  wait_authz_loop w (Datatypes.S rounds) fuel count url s =
    match authz_verdict r with
    | Some v => (Ret v, closed s1)
    | None => (count' <~ sleeper w count (Get (rs_Header r) "Retry-After"); wait_authz_loop w rounds fuel count' url) (closed s1)
    end.
Proof.
  intros Ep. assert (Hacc : accepted (Done r)) by (by eapply ensures_postWithJWSAccount). cbn in Hacc.
  cbn [wait_authz_loop]. unfold try at 1. unfold mbind at 1, M_bind at 1. rewrite Ep.
  rewrite decide_False by lia. unfold authz_verdict. cbv zeta. case_decide; [done|].
  unfold mbind at 1, M_bind at 1, Close at 1, modify. fold (closed s1).
  destruct (decode_body _ _ r) as [e|raw]; [done|]. unfold try at 1. unfold mbind at 1, M_bind at 1, mret at 1, M_ret at 1.
  repeat case_decide; done.
Qed.

Lemma wait_authz_polls k count s count' s' : authz_polls k count s count' s' ->
  forall rounds, wait_authz_loop w (k + rounds) fuel count url s = wait_authz_loop w rounds fuel count' url s'.
Proof.
  induction 1 as [|k count s r s1 c1 s2 c' s' Ep Hv Es _ IH]; intros rounds; [done|]. cbn [Nat.add].
  erewrite wait_authz_eq by done. rewrite Hv. unfold try, mbind, M_bind. by rewrite Es.
Qed.

(** The first answer of the server to a poll is an error other than a bad nonce. *)
Definition refuses (s : S) (e : Error) (s' : S) : Prop :=
  exists r s1, urlMu (cl s) = false /\ accountURL (cl s) <> "" /\
    postJWS w (Key (cl s)) (accountURL (cl s)) url NoClaims s = (Ret (Done r), s1) /\
    400 <= StatusCode r <= 599 /\ e_Type (responseError w r) <> badNonce /\ e = responseError w r /\ s' = closed s1.

Lemma cached_account s : urlMu (cl s) = false -> accountURL (cl s) <> "" ->
  cacheAccountURL w fuel s = (Ret (Done (accountURL (cl s))), s).
Proof.
  destruct s as [c x h b]. intros Hu Ha. cbn in *.
  unfold cacheAccountURL, with_urlMu, locked, client, gets, on_client, modify, mbind, M_bind. cbn. rewrite Hu.
  unfold deferring. cbn. rewrite decide_True by done. cbn. unfold set_urlMu. cbn. destruct c; cbn in *. by subst.
Qed.

Lemma refused s e s' : refuses s e s' -> (0 < fuel)%nat ->
  postWithJWSAccount w fuel url NoClaims s = (Ret (Fail (AcmeError e)), s').
Proof.
  intros (r & s1 & Hu & Ha & Ep & Hst & Hb & -> & ->) Hf. unfold postWithJWSAccount. unfold try at 1. unfold mbind at 1, M_bind at 1.
  rewrite cached_account by done. unfold mbind at 1, M_bind at 1, client, gets. unfold retryPostJWS.
  destruct fuel as [|f]; [lia|]. cbn [retry_loop]. unfold try at 1. unfold mbind at 1, M_bind at 1. rewrite Ep.
  rewrite decide_True by done. cbv zeta. unfold mbind at 1, M_bind at 1, Close, modify. by rewrite decide_False.
Qed.
End Authorizations.

(** [WaitAuthorization] returns once the authorization is decided: when [k] polls
    find it undecided and each wait goes by, and the next poll is decisive, it returns
    the verdict on that poll, the authorization if it is valid.  Any error status
    ends it at once with the server's error: also a 5xx, though the code and its
    comment mean to poll again then, because [retryPostJWS] turns all of them into errors. *)
Theorem WaitAuthorization_correct {W P} `{AcmeEnv W} `{AcmeLib} `{Signing W P} (w : Z) (fuel : nat) (url : string)
    (k : nat) (count : Z) (s s1 : st W P) (rounds : nat) :
  authz_polls w fuel url k 0 s count s1 -> (k < rounds)%nat ->
  (forall r s2 v, postWithJWSAccount w fuel url NoClaims s1 = (Ret (Done r), s2) -> authz_verdict w url r = Some v ->
     WaitAuthorization w rounds fuel url s = (Ret v, closed s2)) /\
  (forall e s2, refuses w url s1 e s2 -> (0 < fuel)%nat ->
     WaitAuthorization w rounds fuel url s = (Ret (Fail (AcmeError e)), s2)).
Proof.
  intros Hp Hk. unfold WaitAuthorization. replace rounds with (k + Datatypes.S (rounds - k - 1))%nat by lia.
  erewrite wait_authz_polls by done. split.
  - intros r s2 v Ep Hv. erewrite wait_authz_eq by done. by rewrite Hv.
  - intros e s2 Hr Hf. cbn [wait_authz_loop]. unfold try at 1. unfold mbind at 1, M_bind at 1.
    by erewrite refused.
Qed.

(** ** The Retry-After header *)

Lemma Atoi_range w v i : Atoi w v = Ok i -> is_sint w i.
Proof. unfold Atoi. destruct v as [|c v]; repeat case_decide; repeat case_match; try done; by intros [= <-]. Qed.

(** With the 32-bit [int] of the BMC a number of seconds in Retry-After is taken
    as it is: the wait is that many seconds less the time that has passed since the header was
    read, without overflow.  With a 64-bit [int] the multiplication can overflow, and
    the time is in the past: 9223372037 seconds are none. *)
Theorem sleeper_retryAfter {W P} `{AcmeEnv W} `{AcmeLib} `{Signing W P} (count : Z) (ra : string) (i : Z) (s : st W P) :
  Atoi 32 ra = Ok i ->
  (forall now x1 now' x2, timeNow (net s) = (now, x1) -> timeNow (rand_Int 1000 x1).2 = (now', x2) ->
     now + i * second <> 0 -> 0 <= now' - now < 2 ^ 62 ->
     exists r s', sleeper 32 count ra s = (Ret r, s') /\ hist s' = hist s ++ [Slept (i * second - (now' - now))]) /\
  (forall now x, timeNow (net s) = (now, x) -> exists t, retryAfter 64 "9223372037" (net s) = (Ret t, x) /\ t < now).
Proof.
  intros Ei. pose proof (Atoi_range _ _ _ Ei) as Hi. unfold is_sint in Hi. split.
  - intros now x1 now' x2 E1 E2 Hz Hel. unfold sleeper, mbind, M_bind, lift, retryAfter. rewrite Ei, E1.
    assert (Hs : sint 64 (i * second) = i * second) by (apply sint_id; unfold is_sint, second; lia). rewrite Hs.
    destruct (timeSleeper_eq 32 count (now + i * second) (mk_st (cl s) x1 (hist s) (bodies s))) as (x & -> & E). cbn [net] in E.
    rewrite E, decide_False, E2 by done.
    destruct (select_timer (time_Sub (now + i * second) now') x2) as [e x3]. eexists _, _. split; [done|]. cbn [hist cl].
    f_equal. f_equal. f_equal. unfold time_Sub, second in *. lia.
  - intros now x E. unfold retryAfter.
    assert (A : Atoi 64 "9223372037" = Ok 9223372037) by by vm_compute. rewrite A, E. eexists. split; [done|].
    assert (Hs : sint 64 (9223372037 * second) < 0) by by vm_compute. lia.
Qed.

(** ** Certificate chains *)

Section Chains.
Context {W P : Type} `{AcmeEnv W} `{AcmeLib} `{Signing W P} (w : Z).

(** The blocks of PEM data, to the end. *)
Inductive pem_blocks : list Z -> list (string * list Z) -> Prop :=
| pem_end d rest : pem_Decode d = (None, rest) -> pem_blocks d []
| pem_block d ty b rest l : pem_Decode d = (Some (ty, b), rest) -> pem_blocks rest l -> pem_blocks d ((ty, b) :: l).

(** A chain of certificates and nothing else. *)
Definition certificate_blocks (data : list Z) (chain : list (list Z)) : Prop :=
  pem_blocks data (pair "CERTIFICATE" <$> chain).

Lemma pem_chain_spec fuel : forall data acc chain, (length acc + fuel = maxChainLen)%nat ->
  pem_chain fuel data acc = Done chain <->
  exists l, chain = acc ++ l /\ certificate_blocks data l /\ chain <> [] /\ (length chain <= maxChainLen)%nat.
Proof.
  induction fuel as [|fuel IH]; intros data acc chain Hl; cbn [pem_chain];
    destruct (pem_Decode data) as [[[ty b]|] rest] eqn:Ed.
  - rewrite decide_True by lia. split; [done|]. intros (l & -> & Hb & _ & Hlen). rewrite length_app in Hlen.
    assert (l = []) as -> by (apply nil_length_inv; lia). inversion Hb. congruence.
  - case_decide as Hacc; [subst acc; cbn in Hl; unfold maxChainLen in Hl; lia|]. split.
    + intros [= <-]. exists []. rewrite app_nil_r. split_and!; [done|by econstructor|done|lia].
    + intros (l & -> & Hb & _ & _). destruct l; [by rewrite app_nil_r|]. inversion Hb. congruence.
  - rewrite decide_False by lia. case_decide as Hty.
    + split; [done|]. intros (l & -> & Hb & _ & Hlen). destruct l; inversion Hb; congruence.
    + subst ty. rewrite IH by (rewrite length_app; cbn; lia). split.
      * intros (l & -> & Hb & Hne & Hlen). exists (b :: l). rewrite <- app_assoc in *. cbn. split_and!; [done|by econstructor|done|done].
      * intros (l & -> & Hb & Hne & Hlen). destruct l as [|b' l']; inversion Hb as [|? ? ? rest' ? Ed' Hb']; subst;
          rewrite Ed in *; [congruence|]. injection Ed' as <- <-.
        exists l'. by rewrite <- app_assoc.
  - case_decide as Hacc.
    + split; [done|]. subst. intros (l & -> & Hb & Hne & _). destruct l; [done|]. inversion Hb. congruence.
    + split.
      * intros [= <-]. exists []. rewrite app_nil_r. split_and!; [done|by econstructor|done|lia].
      * intros (l & -> & Hb & _ & _). destruct l; [by rewrite app_nil_r|]. inversion Hb. congruence.
Qed.
End Chains.

(** C32:  [GetCertificate] returns a chain exactly when the body of the response could be
    read, is at most [maxChainSize] bytes long and consists of one to [maxChainLen]
    PEM blocks that are all certificates, and then it returns these in order; in every case the body is
    closed. *)
Theorem GetCertificate_correct {W P} `{AcmeEnv W} `{AcmeLib} `{Signing W P} (w : Z) (fuel : nat) (url : string)
    (s s1 : st W P) (r : response) :
  postWithJWSAccount w fuel url NoClaims s = (Ret (Done r), s1) ->
  exists v, GetCertificate w fuel url s = (Ret v, closed s1) /\
    forall chain, v = Done chain <->
      body_error (Body r) = None /\ Z.of_nat (length (body_bytes (Body r))) <= maxChainSize /\
      (1 <= length chain <= maxChainLen)%nat /\ certificate_blocks (body_bytes (Body r)) chain.
Proof.
  intros Ep. unfold GetCertificate. unfold try at 1. unfold mbind at 1, M_bind at 1. rewrite Ep.
  unfold closing, deferring, ReadLimited. case_decide as Hn.
  - destruct (body_error (Body r)) as [e|]; [eexists; split; [done|]; intros chain; split; [done|by intros [? _]]|].
    rewrite decide_False by lia. eexists. split; [done|]. intros chain.
    rewrite pem_chain_spec by done. split.
    + intros (l & -> & Hb & Hne & Hlen). destruct l; [done|]. cbn in *. split_and!; try done; lia.
    + intros (_ & _ & Hlen & Hb). exists chain. split_and!; try done; [|lia]. by destruct chain; [cbn in Hlen; lia|].
  - rewrite decide_True. { eexists. split; [done|]. intros chain. split; [done|]. intros (_ & Hlen & _). lia. }
    rewrite length_take. unfold maxChainSize in *. lia.
Qed.

(** ** A client that never read the directory *)

(** The operations that do not call [Discover] themselves panic on a client that
    has no directory yet, instead of fetching it: [GetOrder], [WaitOrder],
    [GetAuthorization], [WaitAuthorization], [GetChallenge], [GetCertificate] and [DeactivateAuthorization] when the account is
    not cached either, and [UpdateAccount] always.  No request was sent and the
    mutexes are free, so the client remains usable for a caller that recovers. *)
Theorem undiscovered_panics {W P} `{AcmeEnv W} `{AcmeLib} `{Signing W P} (w : Z) (rounds fuel : nat) (s : st W P) (o : op) :
  dir (cl s) = None -> urlMu (cl s) = false ->
  match o with
  | OUpdateAccount _ => True
  | OGetOrder _ | OGetAuthorization _ | OGetChallenge _ | OGetCertificate _ | ODeactivateAuthorization _ => accountURL (cl s) = ""
  | OWaitOrder _ | OWaitAuthorization _ => accountURL (cl s) = "" /\ (0 < rounds)%nat
  | _ => False
  end ->
  exec w fuel rounds o s = (Panic, s).
Proof.
  destruct s as [c x h b]. cbn. intros Hd Hu.
  assert (Hc : accountURL c = "" -> forall url body, postWithJWSAccount w fuel url body (mk_st c x h b) = (Panic, mk_st c x h b)).
  { intros Ha url body. unfold postWithJWSAccount, try, cacheAccountURL, with_urlMu, locked, client, gets, on_client, modify, mbind, M_bind.
    cbn. rewrite Hu. unfold deferring. cbn. rewrite decide_False by (rewrite Ha; auto). cbn. unfold mbind, M_bind. cbn.
    unfold the_dir, client, gets, mbind, M_bind. cbn. rewrite Hd. cbn. unfold set_urlMu. destruct c; cbn in *. by subst. }
  destruct o; try done; cbn [exec]; unfold mbind, M_bind;
    try (intros Ha; unfold GetOrder, GetAuthorization, GetChallenge, GetCertificate, DeactivateAuthorization, try, mbind, M_bind;
      by rewrite Hc).
  - intros _. unfold UpdateAccount, doAccount, doAccount_update, account_post, the_dir, client, gets, mbind, M_bind. cbn. by rewrite Hd.
  - intros [Ha Hr]. destruct rounds; [lia|]. unfold WaitOrder. cbn [wait_order_loop].
    unfold GetOrder, try, mbind, M_bind. by rewrite Hc.
  - intros [Ha Hr]. destruct rounds; [lia|]. unfold WaitAuthorization. cbn [wait_authz_loop].
    unfold try, mbind, M_bind. by rewrite Hc.
Qed.

(** ** Runs against the scripted server *)

Import SimAcme.

Module SimPolls.
Definition known : Directory :=
  mk_directory "https://ca/nonce" "https://ca/acct" "https://ca/order" "" "" "" "" "" [] false.

(** A client with a directory, an account and a nonce. *)
Definition session (answers : script) : st script unit :=
  mk_st (mk_client SimAcme.key "https://ca/dir" "" false (Some {["m"]}) false (Some known) "https://ca/acct/1") answers [] 0.

Definition problem : result response :=
  reply 503 "n1" [("Retry-After", "2")] "{'type':'urn:ietf:params:acme:error:serverInternal','status':503}".

Definition order_run : st script unit := session
  [ problem; reply 200 "n2" [] "{'status':'processing'}"; reply 200 "n3" [] "{'status':'valid','certificate':'https://ca/cert/1'}" ].

Definition authz_run : st script unit := session
  [ reply 200 "n1" [("Retry-After", "1")] "{'status':'pending'}"; reply 200 "n2" [] "{'status':'valid'}" ].

Definition chain_run : st script unit := session
  [ Ok (mk_response 200 "" ∅ (mk_body [5; 6] None)) ].
End SimPolls.
Import SimPolls.

#[export] Instance script_rand : RandInRange script.
Proof. intros max s x Hm. cbn. intros [= <-]. dlia. Qed.

Lemma timeSleeper_backoff_witness :
  timeSleeper (W:=script) 32 2 0 start =
    (Ret (Done 3), mk_st (cl start) answers [Slept (4 * second + 500 * millisecond)] 0) /\
  exists d, 4 * second <= d < 5 * second /\ hist (timeSleeper (W:=script) 32 2 0 start).2 = [Slept d].
Proof.
  split; [by vm_compute|].
  destruct (timeSleeper_backoff 32 2 start) as (d & x & _ & Hd & _ & _ & E & _). exists d.
  rewrite E. split; [|done]. specialize (Hd ltac:(lia)). unfold second in *. lia.
Defined.

(** The states of the run on the order, and of the one on the authorization. *)
Module SimRuns.
Definition url : string := "https://ca/order/1".
Definition val {A} (a : A) (o : outcome (res A)) : A := match o with Ret (Done a) => a | _ => a end.
Definition err_of (o : outcome (res Order)) : Error := match o with Ret (Fail (AcmeError e)) => e | _ => zero_Error end.

Definition poll1 := GetOrder (W:=script) 32 1 url order_run.
Definition wait1 := timeSleeper (W:=script) 32 0 (10 ^ 18 + 2 * second) poll1.2.
Definition poll2 := GetOrder (W:=script) 32 1 url wait1.2.
Definition wait2 := timeSleeper (W:=script) 32 1 0 poll2.2.
Definition poll3 := GetOrder (W:=script) 32 1 url wait2.2.

Lemma order_run_polls : order_polls 32 1 url 2 0 order_run 2 wait2.2.
Proof.
  apply (polls_S 32 1 url 1 0 order_run 1 wait1.2).
  - apply (waits_server_error 32 1 url order_run (err_of poll1.1) poll1.2 (10 ^ 18 + 2 * second) (net poll1.2)); by vm_compute.
  - apply (polls_S 32 1 url 0 1 wait1.2 2 wait2.2); [|constructor].
    apply (waits_processing 32 1 url wait1.2 (val (NewOrder []) poll2.1) poll2.2); by vm_compute.
Qed.

Definition post1 := postWithJWSAccount (W:=script) 32 1 url NoClaims authz_run.
Definition pending : response := val (mk_response 0 "" ∅ (mk_body [] None)) post1.1.
Definition authz_wait := sleeper (W:=script) 32 0 "1" (closed post1.2).
Definition post2 := postWithJWSAccount (W:=script) 32 1 url NoClaims authz_wait.2.
Definition decided : response := val (mk_response 0 "" ∅ (mk_body [] None)) post2.1.

Lemma authz_run_polls : authz_polls 32 1 url 1 0 authz_run 1 authz_wait.2.
Proof. apply (authz_polls_S 32 1 url 0 0 authz_run pending post1.2 1 authz_wait.2); try by vm_compute. constructor. Qed.

Definition refusal : response := val (mk_response 0 "" ∅ (mk_body [] None)) (Ret (of_result problem)).
End SimRuns.
Import SimRuns.

Lemma WaitOrder_correct_witness :
  (exists s', WaitOrder 32 3 1 SimRuns.url order_run = (Ret (Done (val (NewOrder []) poll3.1)), s') /\ bodies s' = 0) /\
  o_CertificateURL (val (NewOrder []) poll3.1) = "https://ca/cert/1".
Proof.
  split; [|by vm_compute]. exists poll3.2. split; [|by vm_compute].
  apply (WaitOrder_correct (W:=script) 32 1 SimRuns.url 2 2 order_run wait2.2 poll3.2 (Done (val (NewOrder []) poll3.1)));
    [apply order_run_polls|by vm_compute|by vm_compute|lia].
Defined.

Lemma WaitAuthorization_correct_witness :
  (exists a, WaitAuthorization 32 2 1 SimRuns.url authz_run = (Ret (Done a), closed post2.2) /\ z_Status a = "valid") /\
  (exists s', WaitAuthorization 32 1 1 SimRuns.url (session [problem]) = (Ret (Fail (AcmeError (responseError 32 refusal))), s')).
Proof.
  split.
  - destruct (WaitAuthorization_correct (W:=script) 32 1 SimRuns.url 1 1 authz_run authz_wait.2 2 authz_run_polls ltac:(lia)) as [E _].
    exists (mk_authorization SimRuns.url "valid" (mk_authzid "" "") false 0 []). split; [|done].
    apply (E decided); by vm_compute.
  - destruct (WaitAuthorization_correct (W:=script) 32 1 SimRuns.url 0 0 (session [problem]) (session [problem]) 1) as [_ E];
      [constructor|lia|].
    set (p := postJWS (W:=script) 32 SimAcme.key "https://ca/acct/1" SimRuns.url NoClaims (session [problem])).
    exists (closed p.2). apply E; [|lia]. exists refusal, p.2.
    split; [done|]. split; [done|]. split; [by vm_compute|]. split; [by vm_compute|]. split; [by vm_compute|]. by split.
Defined.

Lemma sleeper_retryAfter_witness :
  exists r s', sleeper (W:=script) 32 0 "120" start = (Ret r, s') /\ hist s' = [Slept (120 * second - (10 ^ 18 - 10 ^ 18))].
Proof.
  destruct (sleeper_retryAfter (W:=script) 0 "120" 120 start) as [E _]; [by vm_compute|].
  eapply (E (10 ^ 18) _ (10 ^ 18)); [reflexivity|reflexivity|by vm_compute|lia].
Defined.

Lemma GetCertificate_correct_witness :
  exists s', GetCertificate (W:=script) 32 1 "https://ca/cert/1" chain_run = (Ret (Done [[5]; [6]]), s') /\
    certificate_blocks [5; 6] [[5]; [6]].
Proof.
  destruct (GetCertificate_correct (W:=script) 32 1 "https://ca/cert/1" chain_run
    (postWithJWSAccount 32 1 "https://ca/cert/1" NoClaims chain_run).2
    (mk_response 200 "" ∅ (mk_body [5; 6] None))) as (v & E & Hv); [by vm_compute|].
  assert (v = Done [[5]; [6]]) as ->.
  { revert E. vm_compute. by intros [= <-]. }
  eexists. split; [exact E|]. by apply Hv.
Defined.

Lemma undiscovered_panics_witness :
  exec (W:=script) 32 3 1 (OGetOrder "https://ca/order/1") start = (Panic, start).
Proof. apply undiscovered_panics; reflexivity. Defined.

(** ** The error of an invalid order *)

Definition order_with_error : list Z :=
  dq "{'status':'invalid','error':{'type':'urn:ietf:params:acme:error:caa','detail':'CAA record','status':403}}".

(** The status in the problem document of an order is not read: the field of [Error]
    is called StatusCode, the member of the document status, and [Error] is
    decoded itself here, not [wireError]. *)
Theorem order_error_status_lost :
  exists e, Decode (dec_wireOrder 32) zero_wireOrder (mk_body order_with_error None) =
    Ok (mk_wireOrder "invalid" 0 [] 0 0 (Some e) [] "" "") /\
  e_StatusCode e = 0 /\ e_Type e = "urn:ietf:params:acme:error:caa" /\
  we_Status (Unmarshal (dec_wireError 32) (dq "{'type':'urn:ietf:params:acme:error:caa','status':403}")
    (mk_wireError 0 "" "" [])).1 = 403.
Proof. eexists. by vm_compute. Qed.
