(* ===== verification/AcmeRenew.v ===== *)
(** * Renewal of the certificate over the ACME client (pkg/bmc/cert/load.go)

    [renew] with the operations of the client and with handlers that have a state, such as the
    DNS responder.  A renewal that succeeds is followed from the order to the chain.

    The X.509 and ECDSA packages and the pool of root certificates are parameters. *)

From S2P Require Import Prelude GoMonad GoStrings Cert Dns Encoding Json AcmeTypes Jws Acme AcmeFacts AcmeSpec.
#[local] Open Scope string_scope.
#[local] Open Scope list_scope.
#[local] Open Scope Z_scope.

(** [config.ACME]. *)
Record ACMEConfig : Type := mk_config { APICA : string; Directory : string; Contact : string; TermsAgreed : bool }.

(** A handler of challenges, with the state [D]. *)
Definition ACMEHandler (D : Type) : Type := string -> string -> D -> result unit * D.

(** [Manager]. *)
Record Manager (P D : Type) : Type := mk_manager {
  FQDN : string; AccountKey : Signer P; Config : ACMEConfig; ACMEHandlers : list (ACMEHandler D);
}.
Arguments mk_manager {P D} _ _ _ _.
Arguments FQDN {P D} _.
Arguments AccountKey {P D} _.
Arguments Config {P D} _.
Arguments ACMEHandlers {P D} _.

Class RenewEnv (W K : Type) : Type := {
  (** Whether a certificate pool could be made of PEM text. *)
  AppendCertsFromPEM : string -> bool;
  GenerateKey : W -> result K * W;
  (** A request for one DNS name, signed with the key. *)
  CreateCertificateRequest : string -> K -> W -> result (list Z) * W;
}.

(** The client with its surroundings, and the state of the handlers. *)
Record rst (W P D : Type) : Type := mk_rst { ac : st W P; hd_st : D }.
Arguments mk_rst {W P D} _ _.
Arguments ac {W P D} _.
Arguments hd_st {W P D} _.

Section Renew.
Context {W P D K : Type} `{AcmeEnv W} `{AcmeLib} `{Signing W P} `{RenewEnv W K} (w : Z) (rounds fuel : nat).

Definition on_ac {A} (m : M (st W P) A) : M (rst W P D) A := fun s =>
  let '(r, a) := m (ac s) in (r, mk_rst a (hd_st s)).

(** A call to a package with effects on the surroundings only. *)
Definition on_env {A} (f : W -> result A * W) : M (rst W P D) (res A) :=
  on_ac (lift (fun x => let '(r, x) := f x in (Ret (of_result r), x))).

Fixpoint find_dns01 (cs : list Challenge) : option Challenge :=
  match cs with
  | [] => None
  | ch :: cs => if decide (c_Type ch = "dns-01") then Some ch else find_dns01 cs
  end.

(** The loop over the handlers. *)
Fixpoint handle_loop (hs : list (ACMEHandler D)) (fqdn record : string) : M (rst W P D) bool :=
  match hs with
  | [] => mret false
  | h :: hs =>
      r ← (fun s => let '(r, d) := h fqdn record (hd_st s) in (Ret r, mk_rst (ac s) d));
      match r with
      | Ok _ => mret true
      | Err _ => handle_loop hs fqdn record
      end
  end.

Definition renew_steps (m : Manager P D) : M (rst W P D) (res (Certificate K)) :=
  if negb (AppendCertsFromPEM (APICA (Config m))) then fails "failed to parse Acme API CA certificate" else
  na <~ on_ac (CreateAccount w fuel (mk_account "" "" [Contact (Config m)] (TermsAgreed (Config m)) ""));
  if decide (a_URL na = "") then fails "empty na.URL" else
  order <~ on_ac (CreateOrder w fuel (NewOrder [FQDN m]));
  match o_Authorizations order with
  | [] => go_panic
  | auth0 :: _ =>
      auth <~ on_ac (GetAuthorization w fuel auth0);
      match find_dns01 (z_Challenges auth) with
      | None => fails "missing dns-01 challenge"
      | Some challenge =>
          t <~ on_ac (gets (fun s => of_result (DNS01ChallengeRecord (cl s) (c_Token challenge))));
          handled ← handle_loop (ACMEHandlers m) ("_acme-challenge." +:+ FQDN m) t;
          if negb handled then fails "no DNS01 ACME handler could handle challenge" else
          _ <~ on_ac (AcceptChallenge w fuel challenge);
          _ <~ on_ac (WaitAuthorization w rounds fuel auth0);
          pk <~ on_env GenerateKey;
          csr <~ on_env (CreateCertificateRequest (FQDN m) pk);
          der <~ on_ac (FinalizeOrder w rounds fuel (o_FinalizeURL order) csr);
          mret (Done (mk_cert der pk))
      end
  end.

(** [m.renew()]: the steps with a new client. *)
Definition renew (m : Manager P D) (x : W) (d : D) : outcome (res (Certificate K)) * rst W P D :=
  renew_steps m (mk_rst (mk_st (new_client (AccountKey m) (Directory (Config m))) x [] 0) d).
End Renew.

(** ** A renewal that succeeds *)

Definition value {A} (z : A) (o : outcome (res A)) : A := match o with Ret (Done a) => a | _ => z end.

(** What the handlers answer in turn, and their state after the first that takes the record. *)
Fixpoint handler_answers {D} (hs : list (ACMEHandler D)) (fqdn record : string) (d : D) : list (result unit) * D :=
  match hs with
  | [] => ([], d)
  | h :: hs =>
      match h fqdn record d with
      | (Ok u, d) => ([Ok u], d)
      | (Err e, d) => let '(l, d) := handler_answers hs fqdn record d in (Err e :: l, d)
      end
  end.

Section Follows.
Context {W P D K : Type} `{AcmeEnv W} `{AcmeLib} `{Signing W P} `{RenewEnv W K} (w : Z) (rounds fuel : nat).
Context (m : Manager P D) (x : W) (d : D).

Definition no_order : Order := NewOrder [].
Definition no_authz : Authorization := mk_authorization "" "" (mk_authzid "" "") false 0 [].
Definition no_challenge : Challenge := mk_challenge "" "" "" 0 "" None.

(** The calls of the run one after the other. *)
Definition p_account := CreateAccount (W:=W) w fuel (mk_account "" "" [Contact (Config m)] (TermsAgreed (Config m)) "")
  (mk_st (new_client (AccountKey m) (Directory (Config m))) x [] 0).
Definition p_order := CreateOrder w fuel (NewOrder [FQDN m]) p_account.2.
Definition the_order : Order := value no_order p_order.1.
Definition auth0 : string := default "" (head (o_Authorizations the_order)).
Definition p_authz := GetAuthorization w fuel auth0 p_order.2.
Definition the_challenge : Challenge := default no_challenge (find_dns01 (z_Challenges (value no_authz p_authz.1))).
Definition record_of (token : string) : result string :=
  DNS01ChallengeRecord (new_client (AccountKey m) (Directory (Config m))) token.
Definition the_record : string := match record_of (c_Token the_challenge) with Ok t => t | Err _ => "" end.
Definition p_handlers := handler_answers (ACMEHandlers m) ("_acme-challenge." +:+ FQDN m) the_record d.
Definition p_accept := AcceptChallenge w fuel the_challenge p_authz.2.
Definition p_wait := WaitAuthorization w rounds fuel auth0 p_accept.2.
Definition p_key := GenerateKey (K:=K) (net p_wait.2).
Definition at_net (s : st W P) (y : W) : st W P := mk_st (cl s) y (hist s) (bodies s).
Definition p_csr (k : K) := CreateCertificateRequest (FQDN m) k p_key.2.
Definition p_finalize (k : K) (csr : list Z) :=
  FinalizeOrder w rounds fuel (o_FinalizeURL the_order) csr (at_net (at_net p_wait.2 p_key.2) (p_csr k).2).

Lemma handle_loop_eq (hs : list (ACMEHandler D)) fqdn record : forall (s : rst W P D),
  exists b, handle_loop hs fqdn record s = (Ret b, mk_rst (ac s) (handler_answers hs fqdn record (hd_st s)).2) /\
    (b = true -> last (handler_answers hs fqdn record (hd_st s)).1 = Some (Ok tt)).
Proof.
  induction hs as [|h hs IH]; intros [a e]; [by exists false|]. cbn. unfold mbind, M_bind. cbn.
  destruct (h fqdn record e) as [[er|[]] e']; [|by exists true].
  destruct (IH (mk_rst a e')) as (b & E & Hl). cbn in E, Hl. exists b. rewrite E.
  destruct (handler_answers hs fqdn record e') as [l e'']. split; [done|]. intros Hb. cbn in *. rewrite last_cons. by rewrite Hl.
Qed.

(** Nothing is held or open, and the key is the account's. *)
Definition fine (s : rst W P D) : Prop :=
  good false false (ac s) /\ bodies (ac s) = 0 /\ Key (cl (ac s)) = AccountKey m.

(** A computation of the client that keeps it so. *)
Definition calm {A} (c : M (st W P) A) : Prop :=
  forall s v s', good false false s -> c s = (Ret v, s') -> good false false s' /\ moved 0 s s'.

Lemma op_calm {A} (o : op) (c : M (st W P) A) : exec w fuel rounds o = (_ ← c; mret tt) -> calm c.
Proof.
  intros Eo s v s' Hs E. pose proof (keeps_exec w fuel rounds o s Hs) as Hk. unfold keeps_at in Hk. rewrite Eo in Hk.
  unfold mbind, M_bind in Hk. rewrite E in Hk. exact Hk.
Qed.

(** One call of the run. *)
Lemma try_on_ac {A B} (c : M (st W P) (res A)) (k : A -> M (rst W P D) (res B)) s r s' :
  calm c -> fine s -> (a <~ on_ac c; k a) s = (Ret r, s') ->
  exists v, (c (ac s)).1 = Ret v /\ fine (mk_rst (c (ac s)).2 (hd_st s)) /\
    match v with
    | Fail e => r = Fail e /\ s' = mk_rst (c (ac s)).2 (hd_st s)
    | Done a => k a (mk_rst (c (ac s)).2 (hd_st s)) = (Ret r, s')
    end.
Proof.
  intros Hc (Hg & Hb & Hk). unfold try, mbind, M_bind, on_ac. specialize (Hc (ac s)).
  destruct (c (ac s)) as [[v| | |] s1]; try done; cbn. destruct (Hc v s1 Hg eq_refl) as [Hg1 (K1 & B1 & _)].
  assert (Hf : fine (mk_rst s1 (hd_st s))) by (split_and!; cbn; [done|lia|congruence]).
  destruct v as [e|a]; [intros [= <- <-]; by exists (Fail e)|intros E; by exists (Done a)].
Qed.

Lemma try_on_env {A B} (f : W -> result A * W) (k : A -> M (rst W P D) (res B)) s r s' :
  fine s -> (a <~ on_env f; k a) s = (Ret r, s') ->
  let s1 := mk_rst (at_net (ac s) (f (net (ac s))).2) (hd_st s) in fine s1 /\
  match (f (net (ac s))).1 with
  | Err e => r = Fail (OtherError e) /\ s' = s1
  | Ok a => k a s1 = (Ret r, s')
  end.
Proof.
  intros Hf E. apply try_on_ac in E as (v & Ev & Hf1 & E); [|clear|done].
  - unfold lift in *. destruct (f (net (ac s))) as [[e|a] y]; cbn in *; by injection Ev as <-.
  - intros s v s' Hs. unfold lift. destruct (f (net s)) as [r y]. intros [= <- <-]. split; [done|]. split_and!; cbn; [done|lia|done].
Qed.

(** What is known of a run that returned the certificate [c] in [s']. *)
Definition issued (c : Certificate K) (s' : rst W P D) : Prop :=
  exists csr, record_of (c_Token the_challenge) = Ok the_record /\
    find_dns01 (z_Challenges (value no_authz p_authz.1)) = Some the_challenge /\
    last p_handlers.1 = Some (Ok tt) /\ hd_st s' = p_handlers.2 /\
    p_key.1 = Ok (PrivateKey c) /\ (p_csr (PrivateKey c)).1 = Ok csr /\ (p_finalize (PrivateKey c) csr).1 = Ret (Done (chain c)).

(** The next call of the run: operation [o], whose run is [p]; it succeeded. *)
Tactic Notation "follow" hyp(E) uconstr(o) hyp(Es) constr(p) "as" ident(Ev) ident(a) :=
  let v := fresh "v" in let Hf := fresh "Hf" in
  apply try_on_ac in E as (v & Ev & Hf & E); [|by eapply (op_calm o)|done];
  cbn [ac hd_st] in Ev, E, Hf; try rewrite Es in Ev, E, Hf; fold p in Ev, E, Hf;
  destruct v as [?e|a]; [by destruct E|].

(** The same for a call that has effects on the surroundings only. *)
Tactic Notation "follow_env" hyp(E) constr(p) :=
  let Hf := fresh "Hf" in let Ep := fresh "Ep" in
  apply try_on_env in E as [Hf E]; [|done]; cbn [ac hd_st at_net net cl hist bodies] in E, Hf; fold p in E, Hf;
  destruct p.1 eqn:Ep; [by destruct E|].

(** The renewal from the publication of the record on. *)
Lemma renew_tail_followed s c s' :
  fine s -> ac s = p_authz.2 ->
  (_ <~ on_ac (AcceptChallenge w fuel the_challenge);
   _ <~ on_ac (WaitAuthorization w rounds fuel auth0);
   pk <~ on_env GenerateKey;
   csr <~ on_env (CreateCertificateRequest (FQDN m) pk);
   der <~ on_ac (FinalizeOrder w rounds fuel (o_FinalizeURL the_order) csr);
   mret (Done (mk_cert der pk))) s = (Ret (Done c), s') ->
  hd_st s' = hd_st s /\
  exists csr, p_key.1 = Ok (PrivateKey c) /\ (p_csr (PrivateKey c)).1 = Ok csr /\ (p_finalize (PrivateKey c) csr).1 = Ret (Done (chain c)).
Proof.
  intros Hf Es E. follow E (OAcceptChallenge the_challenge) Es p_accept as Ea ch.
  follow E (OWaitAuthorization auth0) Es p_wait as Ew au.
  follow_env E p_key. match goal with Hk : p_key.1 = Ok ?k |- _ => follow_env E (p_csr k) end.
  match goal with Hk : p_key.1 = Ok ?k, Hc : (p_csr ?k).1 = Ok ?csr |- _ =>
    follow E (OFinalizeOrder (o_FinalizeURL the_order) csr) Es (p_finalize k csr) as Ef der end.
  injection E as <- <-. eauto.
Qed.

Lemma renew_followed c s' : renew (K:=K) w rounds fuel m x d = (Ret (Done c), s') -> issued c s'.
Proof.
  intros E. unfold renew, renew_steps in E.
  set (s0 := mk_rst _ d) in E. assert (Hf : fine s0).
  { destruct (reachable_good w (AccountKey m) (Directory (Config m)) (ac s0)) as (? & ? & ?); [constructor|]. by split_and!. }
  subst s0. destruct (AppendCertsFromPEM _); cbn [negb] in *; [|done].
  follow E (OCreateAccount _) Hf p_account as Ea na. case_decide; [done|].
  follow E (OCreateOrder _) Hf p_order as Eo order.
  assert (Hord : the_order = order) by (unfold the_order; by rewrite Eo). subst order.
  destruct (o_Authorizations the_order) as [|a0 auths] eqn:Eau; [done|].
  assert (Ha0 : auth0 = a0) by (unfold auth0; by rewrite Eau). subst a0.
  follow E (OGetAuthorization _) Hf p_authz as Ez auth.
  assert (Hch : forall c, find_dns01 (z_Challenges auth) = Some c -> the_challenge = c)
    by (intros c' Hc; unfold the_challenge; rewrite Ez; cbn; by rewrite Hc).
  destruct (find_dns01 (z_Challenges auth)) as [ch|] eqn:Ech; [|done]. specialize (Hch ch eq_refl). subst ch.
  apply try_on_ac in E as (v & Er & Hf4 & E); [| |done].
  2: { intros s v s1 Hs [= <- <-]. split; [done|]. apply moved_refl. }
  unfold gets in Er, E, Hf4. cbn [ac hd_st fst snd] in Er, E, Hf4. injection Er as <-.
  assert (Hrec : DNS01ChallengeRecord (cl p_authz.2) (c_Token the_challenge) = record_of (c_Token the_challenge)).
  { destruct Hf4 as (_ & _ & Hk). cbn in Hk. unfold record_of, DNS01ChallengeRecord. by rewrite Hk. }
  rewrite Hrec in E. destruct (record_of (c_Token the_challenge)) as [e|record] eqn:Erec; cbn [of_result] in E; [by destruct E|].
  assert (Ht : the_record = record) by (unfold the_record; by rewrite Erec). subst record. unfold mbind, M_bind in E.
  destruct (handle_loop_eq (ACMEHandlers m) ("_acme-challenge." +:+ FQDN m) the_record (mk_rst p_authz.2 d)) as (b & Eh & Hl).
  rewrite Eh in E. cbn [ac hd_st] in *. fold p_handlers in *. destruct b; cbn [negb] in *; [|done].
  apply (renew_tail_followed (mk_rst p_authz.2 p_handlers.2)) in E as (Hd & csr & H1' & H2' & H3'); [|done|done].
  exists csr. split_and!; try done; [|by apply Hl]. unfold value. by rewrite Ez.
Qed.
End Follows.

(** The DNS responder as a handler; it always takes the record. *)
Definition dns_handler : ACMEHandler dnsServer := fun fqdn record d => (Ok tt, HandleDNS01Challenge fqdn record d).

Lemma ensures_FinalizeOrder {W P} `{AcmeEnv W} `{AcmeLib} `{Signing W P} (w : Z) rounds fuel url csr :
  ensures (fun r => match r with Done chain => (1 <= length chain <= maxChainLen)%nat | Fail _ => True end)
    (FinalizeOrder (W:=W) (P:=P) w rounds fuel url csr).
Proof.
  eapply (ensures_try (fun _ => True)); [done|done|]. intros _ _. eapply (ensures_try (fun _ => True)); [done|done|]. intros r _.
  apply ensures_deferring. case_decide; [by apply ensures_ret|].
  eapply (ensures_try (fun _ => True)); [done|done|]. intros v _. eapply (ensures_try (fun _ => True)); [done|done|]. intros l _.
  eapply (ensures_bind (fun _ => True)); [done|]. intros o _. eapply (ensures_try (fun _ => True)); [done|done|]. intros o' _.
  case_decide; [by apply ensures_ret|]. eapply (ensures_try (fun _ => True)); [done|done|]. intros r' _.
  apply ensures_deferring. destruct (ReadLimited _ _) as [e|data]; [by apply ensures_ret|].
  case_decide; [by apply ensures_ret|]. apply ensures_ret. destruct (pem_chain maxChainLen data []) as [e|chain] eqn:Ec; [done|].
  apply pem_chain_spec in Ec as (l' & -> & _ & Hne & Hl); [|done]. destruct l'; [done|]. cbn in *. lia.
Qed.

(** A renewed certificate has a leaf. *)
Lemma renew_chain {W P D K} `{AcmeEnv W} `{AcmeLib} `{Signing W P} `{RenewEnv W K} (w : Z) rounds fuel
    (m : Manager P D) (x : W) (d : D) (c : Certificate K) s' :
  renew w rounds fuel m x d = (Ret (Done c), s') -> (1 <= length (chain c) <= maxChainLen)%nat.
Proof.
  intros (csr & _ & _ & _ & _ & _ & _ & Hfin)%renew_followed.
  destruct (p_finalize w rounds fuel m x (PrivateKey c) csr) as [o s1] eqn:E. cbn in Hfin. subst o.
  by apply ensures_FinalizeOrder in E.
Qed.

(** What a renewal does not change of the handlers. *)
Section Handlers.
Context {W P D K : Type} `{AcmeEnv W} `{AcmeLib} `{Signing W P} `{RenewEnv W K} (w : Z) (rounds fuel : nat) (Q : D -> Prop).

Definition holds_d {A} (m : M (rst W P D) A) : Prop := forall s, Q (hd_st s) -> Q (hd_st (m s).2).

Lemma holds_ret {A} (a : A) : holds_d (mret a).
Proof. by intros s. Qed.

Lemma holds_bind {A B} (m : M (rst W P D) A) (k : A -> M (rst W P D) B) :
  holds_d m -> (forall a, holds_d (k a)) -> holds_d (m ≫= k).
Proof.
  intros Hm Hk s Hs. specialize (Hm s Hs). unfold mbind, M_bind. destruct (m s) as [[a| | |] s1]; try done. by apply Hk.
Qed.

Lemma holds_try {A B} (m : M (rst W P D) (res A)) (k : A -> M (rst W P D) (res B)) :
  holds_d m -> (forall a, holds_d (k a)) -> holds_d (try m k).
Proof. intros Hm Hk. apply holds_bind; [done|]. intros [e|a]; [apply holds_ret|apply Hk]. Qed.

Lemma holds_on_ac {A} (m : M (st W P) A) : holds_d (on_ac m).
Proof. intros s Hs. unfold on_ac. by destruct (m (ac s)). Qed.

Lemma holds_handle_loop hs fqdn record : (forall h d, h ∈ hs -> Q d -> Q (h fqdn record d).2) ->
  holds_d (handle_loop (W:=W) (P:=P) hs fqdn record).
Proof.
  induction hs as [|h hs IH]; intros Hh; [apply holds_ret|]. cbn [handle_loop]. apply holds_bind.
  - intros s Hs. specialize (Hh h (hd_st s) ltac:(by left) Hs). by destruct (h fqdn record (hd_st s)).
  - intros [e|u]; [|apply holds_ret]. apply IH. intros h' d Hin. apply Hh. by right.
Qed.

Lemma renew_holds (m : Manager P D) x d :
  (forall h fqdn record d, h ∈ ACMEHandlers m -> Q d -> Q (h fqdn record d).2) -> Q d ->
  Q (hd_st (renew (K:=K) w rounds fuel m x d).2).
Proof.
  intros Hh Hd. unfold renew. match goal with |- Q (hd_st (_ ?s).2) => assert (Hs : Q (hd_st s)) by done; revert Hs; generalize s end.
  change (holds_d (renew_steps (K:=K) w rounds fuel m)). unfold renew_steps. case_match; [apply holds_ret|].
  apply holds_try; [apply holds_on_ac|intros na]. case_decide; [apply holds_ret|].
  apply holds_try; [apply holds_on_ac|intros order]. case_match; [by intros s|].
  apply holds_try; [apply holds_on_ac|intros auth]. case_match; [|apply holds_ret].
  apply holds_try; [apply holds_on_ac|intros t]. apply holds_bind; [apply holds_handle_loop; intros h d' Hin; by apply Hh|intros handled].
  case_match; [apply holds_ret|]. do 5 (apply holds_try; [apply holds_on_ac|intros ?]). apply holds_ret.
Qed.
End Handlers.

(** The responder keeps its zone, and after a renewal that succeeded it answers for one record. *)
Lemma renew_zone {W P K} `{AcmeEnv W} `{AcmeLib} `{Signing W P} `{RenewEnv W K} (w : Z) rounds fuel (m : Manager P dnsServer) (x : W) d z :
  ACMEHandlers m = [dns_handler] -> zone d = z -> zone (hd_st (renew (K:=K) w rounds fuel m x d).2) = z.
Proof.
  intros Hh Hz. apply (renew_holds (K:=K) w rounds fuel (fun d => zone d = z)); [|done].
  intros h fqdn record d' Hin Hd'. rewrite Hh in Hin. by apply list_elem_of_singleton in Hin as ->.
Qed.

Lemma renew_published {W P K} `{AcmeEnv W} `{AcmeLib} `{Signing W P} `{RenewEnv W K} (w : Z) rounds fuel
    (m : Manager P dnsServer) (x : W) d (c : Certificate K) s' :
  ACMEHandlers m = [dns_handler] -> zone d = FQDN m +:+ "." -> renew w rounds fuel m x d = (Ret (Done c), s') ->
  exists record, forall qs, Reply (hd_st s') qs =
    if decide (qs = [("_acme-challenge." +:+ FQDN m) +:+ "."])
    then mk_reply true RcodeSuccess [mk_TXT (("_acme-challenge." +:+ FQDN m) +:+ ".") 60 [record]]
    else mk_reply true RcodeNameError [].
Proof.
  intros Hh Hz (csr & Hrec & Hch & _ & Hd & _)%renew_followed. eexists. intros qs. rewrite Hd. unfold p_handlers.
  rewrite Hh. cbn [handler_answers dns_handler snd]. by apply Reply_published.
Qed.

(** C13:  A renewal through the DNS responder that succeeds has answered the challenge:
    the order's first authorization has a dns-01 challenge, and from its acceptance on the responder
    answers queries for _acme-challenge.<FQDN> with base64url(SHA-256(token "." thumbprint of the
    account key)) and no other query; the certificate has the key that signed the
    request, and a chain of one to five certificates that the finalized order gave. *)
Theorem renew_answers_challenge {W P K} `{AcmeEnv W} `{AcmeLib} `{Signing W P} `{RenewEnv W K} (w : Z) (rounds fuel : nat)
    (m : Manager P dnsServer) (x : W) (d : dnsServer) (c : Certificate K) (s' : rst W P dnsServer) :
  ACMEHandlers m = [dns_handler] -> zone d = FQDN m +:+ "." -> renew w rounds fuel m x d = (Ret (Done c), s') ->
  exists ch thumbprint csr,
    find_dns01 (z_Challenges (value no_authz (p_authz w fuel m x).1)) = Some ch /\
    JWKThumbprint (Public (AccountKey m)) = Ok thumbprint /\
    (forall qs, Reply (hd_st s') qs =
       if decide (qs = [("_acme-challenge." +:+ FQDN m) +:+ "."])
       then mk_reply true RcodeSuccess [mk_TXT (("_acme-challenge." +:+ FQDN m) +:+ ".") 60
         [EncodeToString (hash_Sum SHA256 (str_bytes (c_Token ch +:+ "." +:+ thumbprint)))]]
       else mk_reply true RcodeNameError []) /\
    (p_key w rounds fuel m x).1 = Ok (PrivateKey c) /\
    (p_csr w rounds fuel m x (PrivateKey c)).1 = Ok csr /\
    (p_finalize w rounds fuel m x (PrivateKey c) csr).1 = Ret (Done (chain c)) /\ (1 <= length (chain c) <= 5)%nat.
Proof.
  intros Hh Hz E. pose proof (renew_chain _ _ _ _ _ _ _ _ E) as Hlen.
  apply renew_followed in E as (csr & Hrec & Hch & _ & Hd & Hkey & Hcsr & Hfin).
  unfold record_of, DNS01ChallengeRecord, keyAuth in Hrec. cbn [Key new_client] in Hrec.
  destruct (JWKThumbprint (Public (AccountKey m))) as [e|th]; [done|]. injection Hrec as Hrec.
  eexists _, th, csr. split_and!; [exact Hch|done| |done|done|done|..].
  - intros qs. rewrite Hd. unfold p_handlers. rewrite Hh. cbn [handler_answers dns_handler snd].
    rewrite Hrec. by apply Reply_published.
  - lia.
  - unfold maxChainLen in Hlen. lia.
Qed.

(** ** A renewal against the scripted server *)

Import SimAcme.

Module SimRenew.
Definition certificate : result response :=
  Ok (mk_response 200 "" (list_to_map [("Replay-Nonce", ["n8"])]) (mk_body [5; 6] None)).

Definition answers : script :=
  [ reply 200 "n1" [] SimAcme.directory;
    reply 201 "n2" [("Location", "https://ca/acct/1")] "{'status':'valid'}";
    reply 201 "n3" [("Location", "https://ca/order/1")]
      "{'status':'pending','authorizations':['https://ca/authz/1'],'finalize':'https://ca/order/1/fin'}";
    reply 200 "n4" [] "{'status':'pending','challenges':[{'type':'http-01','url':'https://ca/c/1','token':'t1'},{'type':'dns-01','url':'https://ca/c/2','token':'t2'}]}";
    reply 200 "n5" [] "{'type':'dns-01','url':'https://ca/c/2','token':'t2','status':'processing'}";
    reply 200 "n6" [] "{'status':'valid'}";
    reply 200 "n7" [("Location", "https://ca/order/1")] "{'status':'valid','certificate':'https://ca/cert/1'}";
    certificate ].

#[export] Instance renew_env : RenewEnv script Z := {
  AppendCertsFromPEM pem := bool_decide (pem <> "");
  GenerateKey s := (Ok 77, s);
  CreateCertificateRequest name k s := (Ok (k :: str_bytes name), s);
}.

Definition manager : Manager unit dnsServer :=
  mk_manager "bmc.example.org" SimAcme.key (mk_config "pem" "https://ca/dir" "mailto:a@b" true) [dns_handler].

Definition run : outcome (res (Certificate Z)) * rst script unit dnsServer :=
  renew 32 2 1 manager answers (startDNS "bmc.example.org").
End SimRenew.
Import SimRenew.

Lemma renew_answers_challenge_witness :
  exists record, Reply (hd_st run.2) ["_acme-challenge.bmc.example.org."] =
    mk_reply true RcodeSuccess [mk_TXT "_acme-challenge.bmc.example.org." 60 [record]] /\ record <> "".
Proof.
  destruct (renew_answers_challenge (K:=Z) 32 2 1 manager SimRenew.answers (startDNS "bmc.example.org")
    (mk_cert [[5]; [6]] 77) run.2) as (ch & th & csr & Hch & Hth & HR & _); [done|done|by vm_compute|].
  specialize (HR ["_acme-challenge.bmc.example.org."]). rewrite decide_True in HR by done.
  eexists. split; [exact HR|].
  assert (ch = mk_challenge "dns-01" "https://ca/c/2" "t2" 0 "unknown" None) as ->.
  { revert Hch. vm_compute. by intros [= <-]. }
  revert Hth. vm_compute. by intros [= <-].
Defined.
