(* ===== verification/System.v ===== *)
(** * System startup (pkg/bmc/system.go)

    [StartupWithConfig] and [asyncStartup] as computations that log what they
    start.  The results of the components, of the operating system and of the
    ACME renewal are the environment. *)

From S2P Require Import Prelude GoMonad Cert.
#[local] Open Scope string_scope.
#[local] Open Scope list_scope.
#[local] Open Scope Z_scope.

(** ** Files *)

(** [createFile(file, mode, c)] on the contents of the files, with the results of
    [OpenFile] and [Write].  The file is opened with O_RDWR|O_CREATE, so an
    existing file keeps its bytes after the ones written. *)
Definition createFile (fs : gmap string (list Z)) (opened wrote : result unit) (file : string) (c : list Z) :
    result unit * gmap string (list Z) :=
  match opened with
  | Err e => (Err e, fs)
  | Ok _ =>
      let old := default [] (fs !! file) in
      match wrote with
      | Err e => (Err e, <[file := old]> fs)
      | Ok _ => (Ok tt, <[file := c ++ drop (length c) old]> fs)
      end
  end.

(** [strings.Join(ak, "\n")] as bytes. *)
Fixpoint join_lines (ak : list (list Z)) : list Z :=
  match ak with
  | [] => []
  | [k] => k
  | k :: ak => k ++ 10 :: join_lines ak
  end.

Definition host_key_file : string := "/config/ssh_host_ecdsa_key".
Definition keys_file : string := "/config/authorized_keys".

(** [startSsh(ak)]: the result and the files, given a fresh host key, the results
    of opening and writing a file, and of starting sshd. *)
Definition startSsh (newSshKey : list Z) (opened wrote : string -> result unit) (start : result unit)
    (ak : list (list Z)) (fs : gmap string (list Z)) : result unit * gmap string (list Z) :=
  let '(r, fs) :=
    match fs !! host_key_file with
    | None => createFile fs (opened host_key_file) (wrote host_key_file) host_key_file newSshKey
    | Some _ => (Ok tt, fs)
    end in
  match r with
  | Err e => (Err e, fs)
  | Ok _ =>
      let '(_, fs) := createFile fs (opened keys_file) (wrote keys_file) keys_file (join_lines ak) in
      match start with
      | Err e => (Err e, fs)
      | Ok _ => (Ok tt, fs)
      end
  end.

(** ** Startup *)

(** What the system starts, in the order it does. *)
Inductive event : Type :=
| SeedRandom | InitializeSystem | StartGpio | StartFan | StartUart (tty : string) (baud : Z)
| LoadSysconf | StartNetwork | SpawnTime | CreateFile (f : string) | Mknod
| StartSsh | StartMetrics | StartGRPC | StartDNS (fqdn : string) | LoadAcmeKey | SpawnAsync (fqdn : string).

(** The environment of the startup. *)
Record env : Type := mk_env {
  seed : result unit; init_system : result unit; gpio : result unit; fan : result unit;
  host_uart : string * Z; uart : result unit; network : result string;
  create : string -> result unit; mknod : result unit;
  debug_ssh : bool; ssh : result unit; metrics : result unit; grpc : result unit;
  dns : result unit; acme_key : result unit }.

Definition start {A} (e : event) (r : result A) : M (list event) (result A) :=
  _ ← modify (fun t => t ++ [e]); mret r.

(** [if err != nil { log; return err, nil }]. *)
Definition must {A B} (m : M (list event) (result A)) (k : A -> M (list event) (result B)) :
    M (list event) (result B) :=
  r ← m;
  match r with Err e => mret (Err e) | Ok a => k a end.

(** [seedRandomGenerator]: without a seed the process ends. *)
Definition seedRandomGenerator (E : env) : M (list event) unit :=
  r ← start SeedRandom (seed E);
  match r with Err _ => go_fatal | Ok _ => mret tt end.

Definition StartupWithConfig (E : env) : M (list event) (result unit) :=
  _ ← seedRandomGenerator E;
  must (start InitializeSystem (init_system E)) (fun _ =>
  must (start StartGpio (gpio E)) (fun _ =>
  must (start StartFan (fan E)) (fun _ =>
  let '(tty, baud) := host_uart E in
  must (start (StartUart tty baud) (uart E)) (fun _ =>
  _ ← start LoadSysconf (Ok tt);
  must (start StartNetwork (network E)) (fun fqdn =>
  _ ← start SpawnTime (Ok tt);
  _ ← start (CreateFile "/etc/passwd") (create E "/etc/passwd");
  _ ← start (CreateFile "/etc/group") (create E "/etc/group");
  _ ← start Mknod (mknod E);
  _ ← (if debug_ssh E then start StartSsh (ssh E) else mret (Ok tt));
  must (start StartMetrics (metrics E)) (fun _ =>
  must (start StartGRPC (grpc E)) (fun _ =>
  must (start (StartDNS fqdn) (dns E)) (fun _ =>
  must (start LoadAcmeKey (acme_key E)) (fun _ =>
  start (SpawnAsync fqdn) (Ok tt)))))))))).

(** ** The time goroutine *)

Inductive time_event : Type := TSignal | TAcquire | TOpenRtc | TSetRtc.

#[export] Instance time_event_eq_dec : EqDecision time_event.
Proof. solve_decision. Defined.

(** The goroutine of [StartupWithConfig] that acquires time, when the clock reads
    [year]; [acquired] says whether [acquireTime] returned. *)
Definition time_goroutine (year : Z) (acquired : bool) (rtc : result unit) : list time_event :=
  let first := if decide (year > 2018) then [TSignal; TAcquire] else [TAcquire] ++ (if acquired then [TSignal] else []) in
  if acquired then first ++ [TOpenRtc] ++ match rtc with Ok _ => [TSetRtc] | Err _ => [] end
  else first.

(** ** [asyncStartup] *)

Section Async.
Context {key : Type} `{Crypto key}.

Inductive async_event : Type :=
| AWaitTime | AHasTime | ABackgroundSync | ALoad (n : nat) | ARenew (n : nat) | ASleep (n : nat)
| ASave (kp : option (Certificate key)) | AEnableRemote (kp : option (Certificate key)).

(** What the outside gives: the key pair loaded at each attempt (the zero value
    when loading failed), the clock, the result of the renewal. *)
Context (loaded : nat -> Certificate key) (now : nat -> Z) (renewed : nat -> result (Certificate key)).

Definition do_ (e : async_event) : M (list async_event) unit := modify (fun t => t ++ [e]).

(** A receive from a channel nobody sends to, or a loop that is not followed. *)
Definition block {A} : M (list async_event) A := fun t => (Blocked, t).

(** The loop over [LoadX509KeyPair] and [MaybeRenew]. *)
Fixpoint cert_loop (fuel : nat) (n : nat) : M (list async_event) (option (Certificate key)) :=
  match fuel with
  | O => block
  | S fuel =>
      _ ← do_ (ALoad n);
      r ← maybeRenew (_ ← do_ (ARenew n); mret (renewed n)) (now n) (Some (loaded n));
      match r with
      | Ok kp => mret kp
      | Err _ => _ ← do_ (ASleep n); cert_loop fuel (S n)
      end
  end.

(** [asyncStartup], with whether the time channel ever delivers.  A failure of
    [SaveKeyPair] is only logged. *)
Definition asyncStartup (fuel : nat) (time : bool) (enable : result unit) : M (list async_event) (result unit) :=
  _ ← do_ AWaitTime;
  if negb time then block else
  _ ← do_ AHasTime;
  _ ← do_ ABackgroundSync;
  kp ← cert_loop fuel 0;
  _ ← do_ (ASave kp);
  _ ← do_ (AEnableRemote kp);
  mret match enable with Err e => Err e | Ok _ => Ok tt end.

(** ** Remote access *)

(** Attempt [n] gives the key pair [c]. *)
Definition attempt (n : nat) : result (Certificate key) :=
  if validateCert (Some (loaded n)) (now n) then Ok (loaded n) else renewed n.

(** The events of a failed attempt, and of the last one. *)
Definition failed_events (n : nat) : list async_event := [ALoad n; ARenew n; ASleep n].

Definition last_events (n : nat) : list async_event :=
  ALoad n :: if validateCert (Some (loaded n)) (now n) then [] else [ARenew n].

Lemma maybeRenew_attempt n t :
  maybeRenew (_ ← do_ (ARenew n); mret (renewed n)) (now n) (Some (loaded n)) (t ++ [ALoad n]) =
  (Ret match attempt n with Ok c => Ok (Some c) | Err e => Err e end, t ++ last_events n).
Proof.
  unfold maybeRenew, attempt, last_events. destruct (validateCert _ _); [done|].
  unfold mbind, M_bind, do_, modify, mret, M_ret. rewrite <- app_assoc. by destruct (renewed n).
Qed.

Lemma failed_last n e : attempt n = Err e -> last_events n ++ [ASleep n] = failed_events n.
Proof. unfold attempt, last_events. by destruct (validateCert _ _). Qed.

Lemma cert_loop_step fuel n t :
  cert_loop (S fuel) n t =
  match attempt n with
  | Ok c => (Ret (Some c), t ++ last_events n)
  | Err e => cert_loop fuel (S n) (t ++ failed_events n)
  end.
Proof.
  cbn [cert_loop]. unfold mbind at 1, M_bind at 1. unfold do_ at 1, modify at 1.
  unfold mbind at 1, M_bind at 1. rewrite maybeRenew_attempt.
  destruct (attempt n) as [e|c] eqn:E; [|done].
  unfold mbind, M_bind, do_, modify. by rewrite <- app_assoc, (failed_last n e E).
Qed.

Lemma cert_loop_spec k : forall fuel n t c,
  (forall i, (i < k)%nat -> exists e, attempt (n + i)%nat = Err e) -> attempt (n + k)%nat = Ok c ->
  (k < fuel)%nat ->
  cert_loop fuel n t = (Ret (Some c), t ++ concat (failed_events <$> seq n k) ++ last_events (n + k)).
Proof.
  induction k as [|k IH]; intros fuel n t c Hf Hk Hfuel; (destruct fuel as [|fuel]; [lia|]); rewrite cert_loop_step.
  - rewrite Nat.add_0_r in *. by rewrite Hk.
  - destruct (Hf O ltac:(lia)) as [e He]. rewrite Nat.add_0_r in He. rewrite He.
    rewrite (IH fuel (S n) _ c).
    + cbn [seq fmap list_fmap concat]. rewrite <- !app_assoc. by replace (S n + k)%nat with (n + S k)%nat by lia.
    + intros i Hi. destruct (Hf (S i) ltac:(lia)) as [e' He']. exists e'. by rewrite <- He'; f_equal; lia.
    + by rewrite <- Hk; f_equal; lia.
    + lia.
Qed.

Lemma cert_loop_result fuel : forall n t o t',
  cert_loop fuel n t = (o, t') ->
  (exists l, t' = t ++ l /\ forall kp, AEnableRemote kp ∉ l) /\
  (o = Blocked \/ exists m c, o = Ret (Some c) /\ attempt m = Ok c).
Proof.
  induction fuel as [|fuel IH]; intros n t o t' E.
  - injection E as <- <-. split; [exists []; split; [by rewrite app_nil_r|by intros ? ?%not_elem_of_nil]|by left].
  - rewrite cert_loop_step in E. destruct (attempt n) as [e|c] eqn:Ea.
    + destruct (IH _ _ _ _ E) as [(l & -> & Hl) Ho]. split; [|done].
      exists (failed_events n ++ l). split; [by rewrite app_assoc|].
      intros kp. rewrite elem_of_app. intros [Hin|Hin]; [|by apply (Hl kp)].
      unfold failed_events in Hin. rewrite !elem_of_cons, elem_of_nil in Hin. naive_solver.
    + injection E as <- <-. split; [|eauto]. exists (last_events n). split; [done|].
      intros kp. unfold last_events. destruct (validateCert _ _); rewrite !elem_of_cons, ?elem_of_nil; naive_solver.
Qed.
End Async.
Arguments async_event key : clear implicits.

(** C24:  Remote access needs trusted time and a certificate.  If time is never
    acquired [asyncStartup] waits and enables nothing.  If it is, and attempt [k]
    is the first to give a certificate, the system retries exactly [k] times,
    saves and enables that certificate, and returns the result of
    [EnableRemote]. *)
Theorem asyncStartup_correct {key} `{Crypto key} (loaded : nat -> Certificate key) (now : nat -> Z)
    (renewed : nat -> result (Certificate key)) (enable : result unit) (k fuel : nat) (c : Certificate key) :
  (forall i, (i < k)%nat -> exists e, attempt loaded now renewed i = Err e) ->
  attempt loaded now renewed k = Ok c -> (k < fuel)%nat ->
  asyncStartup loaded now renewed fuel false enable [] = (Blocked, [AWaitTime]) /\
  asyncStartup loaded now renewed fuel true enable [] =
    (Ret enable, [AWaitTime; AHasTime; ABackgroundSync] ++ concat (failed_events <$> seq 0 k) ++
       last_events loaded now k ++ [ASave (Some c); AEnableRemote (Some c)]).
Proof.
  intros Hf Hk Hfuel. split; [done|]. unfold asyncStartup. cbn [negb].
  unfold mbind, M_bind, do_ at 1 2 3, modify at 1 2 3. cbn [app].
  rewrite (cert_loop_spec loaded now renewed k fuel 0 _ c Hf Hk Hfuel).
  unfold do_, modify. cbn [app]. rewrite <- !app_assoc. by destruct enable as [e|[]].
Qed.

(** The certificate served to remote clients is either the stored one, valid
    at that time and for four more hours, or one a renewal just returned; in every
    run, whatever fails. *)
Theorem remote_certificate_valid {key} `{Crypto key} (loaded : nat -> Certificate key) (now : nat -> Z)
    (renewed : nat -> result (Certificate key)) (enable : result unit) (fuel : nat) (time : bool)
    o t (kp : option (Certificate key)) :
  asyncStartup loaded now renewed fuel time enable [] = (o, t) -> AEnableRemote kp ∈ t ->
  time = true /\ exists n c, kp = Some c /\
    ((c = loaded n /\ validateCert (Some c) (now n) = true) \/ renewed n = Ok c).
Proof.
  intros E Hin. destruct time; [split; [done|]|].
  2: { injection E as <- <-. rewrite elem_of_cons, elem_of_nil in Hin. naive_solver. }
  unfold asyncStartup in E. cbn [negb] in E.
  unfold mbind, M_bind, do_ at 1 2 3, modify at 1 2 3 in E. cbn [app] in E.
  destruct (cert_loop _ _ _ fuel 0 _) as [oc tc] eqn:Ec.
  destruct (cert_loop_result loaded now renewed fuel _ _ _ _ Ec) as [(l & -> & Hl) Hoc].
  assert (Hpre : AEnableRemote kp ∉ [AWaitTime; AHasTime; ABackgroundSync] ++ l).
  { rewrite elem_of_app. intros [Hp|Hp]; [|by apply (Hl kp)].
    rewrite !elem_of_cons, elem_of_nil in Hp. naive_solver. }
  destruct Hoc as [->|(m & c & -> & Hc)].
  - injection E as _ <-. contradiction.
  - unfold do_, modify in E. cbn in E. injection E as _ <-. exists m, c.
    change (AEnableRemote kp ∈ ((([AWaitTime; AHasTime; ABackgroundSync] ++ l) ++ [ASave (Some c)]) ++
      [AEnableRemote (Some c)])) in Hin.
    rewrite <- app_assoc in Hin. apply elem_of_app in Hin as [Hin|Hin]; [contradiction|].
    cbn [app] in Hin. rewrite !elem_of_cons, elem_of_nil in Hin.
    split; [naive_solver|]. unfold attempt in Hc.
    destruct (validateCert (Some (loaded m)) (now m)) eqn:Ev; [left|by right].
    injection Hc as <-. done.
Qed.

(** ** Startup order *)

(** All of [StartupWithConfig], when the network gave the name [fqdn]. *)
Definition all_events (E : env) (fqdn : string) : list event :=
  [SeedRandom; InitializeSystem; StartGpio; StartFan; StartUart (host_uart E).1 (host_uart E).2;
   LoadSysconf; StartNetwork; SpawnTime; CreateFile "/etc/passwd"; CreateFile "/etc/group"; Mknod] ++
  (if debug_ssh E then [StartSsh] else []) ++
  [StartMetrics; StartGRPC; StartDNS fqdn; LoadAcmeKey; SpawnAsync fqdn].

Definition ok {A} (r : result A) : bool := match r with Ok _ => true | Err _ => false end.

(** The failures that stop the startup. *)
Definition can_start (E : env) : bool :=
  ok (init_system E) && ok (gpio E) && ok (fan E) && ok (uart E) && ok (network E) &&
  ok (metrics E) && ok (grpc E) && ok (dns E) && ok (acme_key E).

(** One outcome of the startup: the events are concrete up to here. *)
Ltac startup_case :=
  eexists _, _; split; [reflexivity|split; [eexists; reflexivity|split; [reflexivity|]]];
  rewrite ?elem_of_app, ?elem_of_cons, ?elem_of_nil; naive_solver.

(** Components are started in a fixed order and nothing is started after a
    component that failed: the events are a prefix of the full sequence, the
    startup succeeds (and hands over to [asyncStartup]) exactly when no required
    component failed, and failing to create files, the device node or the debug
    SSH server does not stop it.  Without a random seed the process ends at
    once. *)
Theorem StartupWithConfig_order (E : env) :
  let fqdn := match network E with Ok f => f | Err _ => "" end in
  match seed E with
  | Err _ => StartupWithConfig E [] = (Exit, [SeedRandom])
  | Ok _ => exists r t, StartupWithConfig E [] = (Ret r, t) /\ t `prefix_of` all_events E fqdn /\
              ok r = can_start E /\ (SpawnAsync fqdn ∈ t <-> can_start E = true)
  end.
Proof.
  cbv zeta. unfold StartupWithConfig, can_start, all_events.
  destruct E as [sd ini gp fn [tty baud] ua net cr mk dbg sh me gr dn ak]; simpl in *.
  destruct sd as [e|[]]; [done|].
  destruct ini as [e|[]]; [startup_case|]. destruct gp as [e|[]]; [startup_case|].
  destruct fn as [e|[]]; [startup_case|]. destruct ua as [e|[]]; [startup_case|].
  destruct net as [e|fqdn]; [startup_case|].
  destruct dbg; (destruct me as [e|[]]; [startup_case|]; destruct gr as [e|[]]; [startup_case|];
    destruct dn as [e|[]]; [startup_case|]; destruct ak as [e|[]]; startup_case).
Qed.

(** ** The debug SSH server *)

Lemma join_lines_app ak r : exists rest, join_lines (ak ++ r) = join_lines ak ++ rest.
Proof.
  induction ak as [|k ak [rest IH]]; [by eexists|].
  destruct ak as [|k' ak].
  - destruct r as [|k' r]; [exists []; by rewrite !app_nil_r|by exists (10 :: join_lines (k' :: r))].
  - exists rest. change ((k :: k' :: ak) ++ r) with (k :: k' :: (ak ++ r)). cbn [join_lines].
    rewrite <- app_assoc. cbn [app]. do 2 f_equal. exact IH.
Qed.

(** [createFile] does not truncate: a key removed from the end of the
    configured list stays in /config/authorized_keys, and so stays authorized. *)
Theorem startSsh_keeps_revoked_keys (hk : list Z) (opened wrote : string -> result unit)
    (ak revoked : list (list Z)) (fs fs' : gmap string (list Z)) :
  opened keys_file = Ok tt -> wrote keys_file = Ok tt ->
  fs !! keys_file = Some (join_lines (ak ++ revoked)) ->
  startSsh hk opened wrote (Ok tt) ak fs = (Ok tt, fs') ->
  fs' !! keys_file = Some (join_lines (ak ++ revoked)).
Proof.
  intros Ho Hw Hold. destruct (join_lines_app ak revoked) as [rest Hr]. rewrite Hr in *.
  assert (Hcreate : forall fs0, fs0 !! keys_file = Some (join_lines ak ++ rest) ->
    (createFile fs0 (opened keys_file) (wrote keys_file) keys_file (join_lines ak)).2 !! keys_file =
      Some (join_lines ak ++ rest)).
  { intros fs0 Hfs. unfold createFile. rewrite Ho, Hw, Hfs. simpl.
    by rewrite lookup_insert_eq, drop_app_length. }
  unfold startSsh. destruct (fs !! host_key_file) as [b|].
  - specialize (Hcreate fs Hold). destruct (createFile _ _ _ keys_file _). by intros [= <-].
  - destruct (createFile fs _ _ host_key_file hk) as [[e|[]] fs1] eqn:E1; [done|].
    assert (Hfs1 : fs1 !! keys_file = Some (join_lines ak ++ rest)).
    { unfold createFile in E1. destruct (opened host_key_file); [done|]. destruct (wrote host_key_file); [done|].
      injection E1 as <-. by rewrite lookup_insert_ne. }
    specialize (Hcreate fs1 Hfs1). destruct (createFile _ _ _ keys_file _). by intros [= <-].
Qed.

(** ** Concrete runs *)

Import SimCert.

Lemma asyncStartup_correct_witness :
  asyncStartup (fun _ => mk_cert [] 0) (fun _ => 0)
    (fun n => if decide (n = 2%nat) then Ok (mk_cert [[0; 9 * hour]] 7) else Err "acme: 503") 5 true (Ok tt) [] =
  (Ret (Ok tt), [AWaitTime; AHasTime; ABackgroundSync] ++ concat (failed_events <$> seq 0 2) ++
     [ALoad 2; ARenew 2; ASave (Some (mk_cert [[0; 9 * hour]] 7)); AEnableRemote (Some (mk_cert [[0; 9 * hour]] 7))]).
Proof.
  apply (asyncStartup_correct (fun _ => mk_cert [] 0) (fun _ => 0)
    (fun n => if decide (n = 2%nat) then Ok (mk_cert [[0; 9 * hour]] 7) else Err "acme: 503") (Ok tt) 2 5
    (mk_cert [[0; 9 * hour]] 7)).
  - intros [|[|i]] Hi; [eexists; reflexivity..|lia].
  - reflexivity.
  - lia.
Defined.

Lemma remote_certificate_valid_witness :
  true = true /\ exists n c, Some (mk_cert [[0; 9 * hour]] 7) = Some c /\
    ((c = mk_cert [[0; 9 * hour]] 7 /\ validateCert (Some c) ((fun _ : nat => hour) n) = true) \/
     (fun _ : nat => Err "unused") n = Ok c).
Proof.
  eapply (remote_certificate_valid (fun _ => mk_cert [[0; 9 * hour]] 7) (fun _ => hour)
    (fun _ => Err "unused") (Ok tt) 1 true).
  - reflexivity.
  - apply list_elem_of_In. simpl. tauto.
Defined.

Lemma startSsh_keeps_revoked_keys_witness :
  (startSsh [1] (fun _ => Ok tt) (fun _ => Ok tt) (Ok tt) [[65]] (<[keys_file := [65; 10; 66]]> ∅)).2 !! keys_file
  = Some (join_lines ([[65]] ++ [[66]])).
Proof.
  apply (startSsh_keeps_revoked_keys [1] (fun _ => Ok tt) (fun _ => Ok tt) [[65]] [[66]]
    (<[keys_file := [65; 10; 66]]> ∅)); reflexivity.
Defined.
