(* ===== verification/Console.v ===== *)
(** * Console sessions (pkg/bmc/grpc.go, pkg/bmc/uart.go)

    [StreamConsole] with all its goroutines: the stream handler, [streamIn], the
    goroutines of [NewReader] and [NewWriter], and the two goroutines of the UART.
    Each action is one step of one goroutine, or of two that meet on an unbuffered
    channel; [uartReceiver] hands a chunk out reader by reader, over
    the list of readers it has copied.  [fire] says what an action does, [None] when
    it is not possible, so a schedule is a list of actions. *)

From S2P Require Import Prelude Uart.

(** Where [StreamConsole] is: in [Recv], sending to the writer, closing the writer,
    closing [done], returned. *)
Inductive main_pc : Type := MRecv | MSend (d : chunk) | MCloseW | MCloseDone | MReturned.

(** [streamIn]: not started, ranging over the channel, in [Send], returned. *)
Inductive in_pc : Type := INew | IRange (c : nat) | ISend (c : nat) (d : chunk) | IReturned.

(** The goroutine of [NewReader]: not started, waiting for [done], over. *)
Inductive clean_pc : Type := CNew | CWait (c : nat) | COver.

(** The goroutine of [NewWriter]: ranging, sending to [u.w], over. *)
Inductive copy_pc : Type := WRange | WSend (d : chunk) | WOver.

(** A call of [StreamConsole]; [got] is what the client sent, [sent] what was sent to
    the client. *)
Record session : Type := mk_session {
  main : main_pc; stream_in : in_pc; cleaner : clean_pc; copier : copy_pc;
  w_closed : bool; done_closed : bool; got : list chunk; sent : list chunk;
}.

(** [uartSender]: receiving, writing, ended by an error. *)
Inductive send_pc : Type := SRecv | SWrite (i : nat) (d : chunk) | SDead (i : nat) (d : chunk).

(** [uartReceiver]: reading, handing [buf] to the remaining readers, ended. *)
Inductive recv_pc : Type := RRead | RGive (buf : chunk) (rs : list nat) | RDead.

(** The system: [chans] are the queues of the reader channels, [rs] the registered
    readers, [written] and [rcvd] the traffic of the UART. *)
Record sys : Type := mk_sys {
  sessions : list session; chans : gmap nat (list chunk); rs : list nat; next : nat;
  sender : send_pc; receiver : recv_pc; consumers : Z; overruns : Z;
  written : list (nat * chunk); rcvd : list chunk;
}.

Definition init : sys := mk_sys [] ∅ [] 0 SRecv RRead 0 0 [] [].

(** ** Actions *)

Inductive act : Type :=
| Open                                  (** a client calls StreamConsole *)
| StartReader (i : nat)                 (** streamIn calls NewReader *)
| TakeChunk (i : nat)                   (** streamIn receives from the channel *)
| SendOk (i : nat) | SendErr (i : nat)  (** the result of stream.Send *)
| Recv (i : nat) (d : chunk)            (** stream.Recv returns data *)
| RecvEnd (i : nat)                     (** stream.Recv returns io.EOF or an error *)
| PassToWriter (i : nat)                (** w <- in.Data *)
| CloseW (i : nat) | CloseDone (i : nat)
| CopierEnd (i : nat)                   (** the range over the closed channel ends *)
| PassToSender (i : nat)                (** u.w <- d *)
| WriteOk | WriteErr                    (** the result of u.u.Write *)
| Clean (i : nat)                       (** the reader is removed *)
| Read (buf : chunk) | ReadErr          (** the result of u.u.Read *)
| Give | GiveEnd.

Definition new_session : session := mk_session MRecv INew CNew WRange false false [] [].

Definition set_sess (i : nat) (x : session) (s : sys) : sys :=
  mk_sys (<[i := x]> (sessions s)) (chans s) (rs s) (next s) (sender s) (receiver s) (consumers s) (overruns s)
    (written s) (rcvd s).
Definition set_sender (p : send_pc) (s : sys) : sys :=
  mk_sys (sessions s) (chans s) (rs s) (next s) p (receiver s) (consumers s) (overruns s) (written s) (rcvd s).
Definition set_receiver (p : recv_pc) (s : sys) : sys :=
  mk_sys (sessions s) (chans s) (rs s) (next s) (sender s) p (consumers s) (overruns s) (written s) (rcvd s).
Definition set_chan (c : nat) (q : list chunk) (s : sys) : sys :=
  mk_sys (sessions s) (<[c := q]> (chans s)) (rs s) (next s) (sender s) (receiver s) (consumers s) (overruns s)
    (written s) (rcvd s).

Definition set_main (p : main_pc) (x : session) : session :=
  mk_session p (stream_in x) (cleaner x) (copier x) (w_closed x) (done_closed x) (got x) (sent x).
Definition set_in (p : in_pc) (x : session) : session :=
  mk_session (main x) p (cleaner x) (copier x) (w_closed x) (done_closed x) (got x) (sent x).
Definition set_cleaner (p : clean_pc) (x : session) : session :=
  mk_session (main x) (stream_in x) p (copier x) (w_closed x) (done_closed x) (got x) (sent x).
Definition set_copier (p : copy_pc) (x : session) : session :=
  mk_session (main x) (stream_in x) (cleaner x) p (w_closed x) (done_closed x) (got x) (sent x).

(** [NewReader(done)] for session [i].  The gauge, which the source raises just before it takes the
    lock and which no step reads, is raised in the same step. *)
Definition new_reader (i : nat) (x : session) (s : sys) : sys :=
  let c := next s in
  let x := set_cleaner (CWait c) (set_in (IRange c) x) in
  mk_sys (<[i := x]> (sessions s)) (<[c := []]> (chans s)) (rs s ++ [c]) (S c) (sender s) (receiver s)
    (consumers s + 1) (overruns s) (written s) (rcvd s).

(** The steps of a session. *)
Definition fire_session (s : sys) (i : nat) (x : session) (a : act) : option sys :=
  match a with
  | StartReader _ => if stream_in x is INew then Some (new_reader i x s) else None
  | TakeChunk _ =>
      if stream_in x is IRange c then
        match chans s !! c with
        | Some (d :: q) => Some (set_chan c q (set_sess i (set_in (ISend c d) x) s))
        | _ => None
        end
      else None
  | SendOk _ =>
      match stream_in x, main x with
      | ISend c d, MReturned => None
      | ISend c d, _ =>
          Some (set_sess i (mk_session (main x) (IRange c) (cleaner x) (copier x) (w_closed x) (done_closed x) (got x) (sent x ++ [d])) s)
      | _, _ => None
      end
  | SendErr _ => if stream_in x is ISend c d then Some (set_sess i (set_in IReturned x) s) else None
  | Recv _ d =>
      if main x is MRecv then
        Some (set_sess i (mk_session (MSend d) (stream_in x) (cleaner x) (copier x) (w_closed x) (done_closed x) (got x ++ [d]) (sent x)) s)
      else None
  | RecvEnd _ => if main x is MRecv then Some (set_sess i (set_main MCloseW x) s) else None
  | PassToWriter _ =>
      match main x, copier x with
      | MSend d, WRange => Some (set_sess i (set_copier (WSend d) (set_main MRecv x)) s)
      | _, _ => None
      end
  | CloseW _ =>
      if main x is MCloseW then
        Some (set_sess i (mk_session MCloseDone (stream_in x) (cleaner x) (copier x) true (done_closed x) (got x) (sent x)) s)
      else None
  | CloseDone _ =>
      if main x is MCloseDone then
        Some (set_sess i (mk_session MReturned (stream_in x) (cleaner x) (copier x) (w_closed x) true (got x) (sent x)) s)
      else None
  | CopierEnd _ =>
      match copier x, w_closed x with
      | WRange, true => Some (set_sess i (set_copier WOver x) s)
      | _, _ => None
      end
  | PassToSender _ =>
      match copier x, sender s with
      | WSend d, SRecv => Some (set_sender (SWrite i d) (set_sess i (set_copier WRange x) s))
      | _, _ => None
      end
  | Clean _ =>
      match cleaner x, done_closed x with
      | CWait c, true =>
          Some (mk_sys (<[i := set_cleaner COver x]> (sessions s)) (chans s) (filter (fun r => r <> c) (rs s)) (next s)
            (sender s) (receiver s) (consumers s - 1) (overruns s) (written s) (rcvd s))
      | _, _ => None
      end
  | _ => None
  end.

(** The steps of the UART goroutines. *)
Definition fire_uart (s : sys) (a : act) : option sys :=
  match a, sender s, receiver s with
  | WriteOk, SWrite i d, _ =>
      Some (mk_sys (sessions s) (chans s) (rs s) (next s) SRecv (receiver s) (consumers s) (overruns s) (written s ++ [(i, d)]) (rcvd s))
  | WriteErr, SWrite i d, _ => Some (set_sender (SDead i d) s)
  | Read buf, _, RRead =>
      Some (mk_sys (sessions s) (chans s) (rs s) (next s) (sender s) (RGive buf (rs s)) (consumers s) (overruns s) (written s) (rcvd s ++ [buf]))
  | ReadErr, _, RRead => Some (set_receiver RDead s)
  | Give, _, RGive buf (c :: cs) =>
      let q := default [] (chans s !! c) in
      if decide (length q < capacity)%nat then Some (set_receiver (RGive buf cs) (set_chan c (q ++ [buf]) s))
      else Some (mk_sys (sessions s) (chans s) (rs s) (next s) (sender s) (RGive buf cs) (consumers s) (overruns s + 1) (written s) (rcvd s))
  | GiveEnd, _, RGive buf [] => Some (set_receiver RRead s)
  | _, _, _ => None
  end.

(** The session that an action is of. *)
Definition session_of (a : act) : option nat :=
  match a with
  | StartReader i | TakeChunk i | SendOk i | SendErr i | Recv i _ | RecvEnd i | PassToWriter i | CloseW i
  | CloseDone i | CopierEnd i | PassToSender i | Clean i => Some i
  | _ => None
  end.

Definition fire (s : sys) (a : act) : option sys :=
  match a, session_of a with
  | Open, _ => Some (mk_sys (sessions s ++ [new_session]) (chans s) (rs s) (next s) (sender s) (receiver s) (consumers s)
      (overruns s) (written s) (rcvd s))
  | _, Some i => x ← sessions s !! i; fire_session s i x a
  | _, None => fire_uart s a
  end.

(** A schedule. *)
Fixpoint runs (s : sys) (l : list act) : option sys :=
  match l with
  | [] => Some s
  | a :: l => s ← fire s a; runs s l
  end.

(** ** What a client types *)

Definition written_of (i : nat) (s : sys) : list chunk :=
  omap (fun p => if decide (p.1 = i) then Some p.2 else None) (written s).

Definition in_main (x : session) : list chunk := if main x is MSend d then [d] else [].
Definition in_copier (x : session) : list chunk := if copier x is WSend d then [d] else [].
Definition in_sender (i : nat) (s : sys) : list chunk :=
  match sender s with
  | SWrite j d | SDead j d => if decide (j = i) then [d] else []
  | SRecv => []
  end.

(** What was received from the client but not written yet, oldest first. *)
Definition in_flight (i : nat) (x : session) (s : sys) : list chunk := in_sender i s ++ in_copier x ++ in_main x.

(** Nothing is lost, repeated or reordered on the way of session [i] to the UART. *)
Definition in_order (s : sys) : Prop := forall i,
  match sessions s !! i with
  | Some x => got x = written_of i s ++ in_flight i x s
  | None => written_of i s = [] /\ in_sender i s = []
  end.

(** The cases of an action that was possible. *)
Ltac fire_cases a H x Hx :=
  destruct a; unfold fire in H; cbn [session_of] in H;
  try (apply bind_Some in H as (x & Hx & H); unfold fire_session in H); try unfold fire_uart in H;
  repeat case_match; simplify_eq.

(** The session that changed, and the others. *)
Lemma in_order_session s s' j x x' :
  sessions s !! j = Some x -> sessions s' = <[j := x']> (sessions s) ->
  (forall i, i <> j -> written_of i s' = written_of i s /\ in_sender i s' = in_sender i s) ->
  (got x = written_of j s ++ in_flight j x s -> got x' = written_of j s' ++ in_flight j x' s') ->
  in_order s -> in_order s'.
Proof.
  intros Hj Hs Hother Hx Ho i. rewrite Hs. destruct (decide (i = j)) as [->|Hne].
  - rewrite list_lookup_insert_eq by (by eapply lookup_lt_Some). apply Hx. specialize (Ho j). by rewrite Hj in Ho.
  - rewrite list_lookup_insert_ne by done. destruct (Hother i Hne) as [Ew Es]. specialize (Ho i).
    destruct (sessions s !! i) as [y|]; [|by rewrite Ew, Es]. unfold in_flight. by rewrite Ew, Es.
Qed.

Lemma fire_in_order s a s' : in_order s -> fire s a = Some s' -> in_order s'.
Proof.
  intros Ho H. fire_cases a H x Hx; try exact Ho.
  all: try (eapply in_order_session; [exact Hx|reflexivity|done| |exact Ho]; unfold in_flight, in_copier, in_main;
    cbn; repeat match goal with E : main _ = _ |- _ => rewrite E; clear E | E : copier _ = _ |- _ => rewrite E; clear E end;
    cbn; rewrite ?app_nil_r; try done).
  - intros i. specialize (Ho i). cbn [sessions]. destruct (sessions s !! i) as [x|] eqn:Hi.
    + by rewrite (lookup_app_l_Some _ _ _ _ Hi).
    + rewrite lookup_app_r by (by apply lookup_ge_None). destruct (_ - _)%nat as [|k]; cbn.
      * destruct Ho as [Ew Es]. unfold in_flight, written_of, in_sender in *. cbn. by rewrite Ew, Es.
      * exact Ho.
  - intros E. by rewrite E, <- !app_assoc.
  - eapply in_order_session; [exact Hx|reflexivity| | |exact Ho].
    + intros i' Hne. split; [done|]. unfold in_sender. cbn. rewrite H1. by rewrite decide_False.
    + unfold in_flight, in_sender, in_copier. cbn. rewrite H0, H1, decide_True by done. by cbn.
  - intros i'. specialize (Ho i'). unfold in_flight, in_sender in *. cbn [sessions written sender].
    assert (Ew : written_of i' (mk_sys (sessions s) (chans s) (rs s) (next s) SRecv (receiver s) (consumers s) (overruns s)
      (written s ++ [(i, d)]) (rcvd s)) = written_of i' s ++ in_sender i' s).
    { unfold written_of, in_sender. cbn. rewrite omap_app. cbn. rewrite H0. by case_decide. }
    rewrite Ew. unfold in_sender. rewrite H0 in *. destruct (sessions s !! i') as [x|].
    + by rewrite <- !app_assoc.
    + destruct Ho as [-> ->]. done.
  - intros i'. specialize (Ho i'). unfold in_flight, in_sender in *. cbn [sessions sender set_sender]. by rewrite H0 in Ho.
Qed.

(** ** Readers *)

(** The channel that [streamIn] ranges over. *)
Definition reader (x : session) : option nat :=
  match stream_in x with IRange c | ISend c _ => Some c | _ => None end.

Definition is_new (x : session) : bool := if stream_in x is INew then true else false.

(** What the registration of readers depends on. *)
Record key : Type := mk_key { k_new : bool; k_reader : option nat; k_cleaner : clean_pc }.
Definition key_of (x : session) : key := mk_key (is_new x) (reader x) (cleaner x).
Definition keys (s : sys) : list key := key_of <$> sessions s.

Definition owns (k : key) (c : nat) : Prop := k_reader k = Some c \/ k_cleaner k = CWait c.

(** A session's own state. *)
Record key_ok (s : sys) (k : key) : Prop := {
  ok_new : k_new k = true <-> k_cleaner k = CNew;
  ok_none : k_new k = true -> k_reader k = None;
  ok_next : forall c, owns k c -> (c < next s)%nat;
  ok_waits : forall c, k_cleaner k = CWait c -> c ∈ rs s;
  ok_same : forall c c', k_reader k = Some c -> k_cleaner k = CWait c' -> c = c';
  ok_over : forall c, k_reader k = Some c -> k_cleaner k = COver -> c ∉ rs s;
}.

Definition pending (s : sys) : list nat := if receiver s is RGive _ l then l else [].

Record wf (s : sys) : Prop := {
  wf_keys : forall i k, keys s !! i = Some k -> key_ok s k;
  wf_distinct : forall i j k k' c, keys s !! i = Some k -> keys s !! j = Some k' -> owns k c -> owns k' c -> i = j;
  wf_nodup : NoDup (rs s);
  wf_next : forall c, c ∈ rs s -> (c < next s)%nat;
  wf_pending : NoDup (pending s) /\ forall c, c ∈ pending s -> (c < next s)%nat;
  wf_last : forall buf l, receiver s = RGive buf l -> last (rcvd s) = Some buf;
  wf_consumers : consumers s = Z.of_nat (length (rs s));
  wf_capacity : forall c q, chans s !! c = Some q -> (length q <= capacity)%nat;
}.

(** Steps that concern no registration. *)
Lemma wf_frame s s' : wf s -> keys s' = keys s -> rs s' = rs s -> next s' = next s -> consumers s' = consumers s ->
  NoDup (pending s') -> (forall c, c ∈ pending s' -> (c < next s)%nat) ->
  (forall buf l, receiver s' = RGive buf l -> last (rcvd s') = Some buf) ->
  (forall c q, chans s' !! c = Some q -> (length q <= capacity)%nat) -> wf s'.
Proof.
  intros [Hk Hd Hn Hx Hp Hl Hc Hq] Ek Er En Ec Hp1 Hp2 Hl' Hq'. split; rewrite ?Ek, ?Er, ?En, ?Ec; try done.
  intros i k Hi. destruct (Hk i k Hi) as [H1 H2 H3 H4 H5 H6]. by split; rewrite ?En, ?Er.
Qed.

Lemma keys_update (j : nat) x x' (l : list session) : l !! j = Some x -> key_of x' = key_of x -> key_of <$> <[j := x']> l = key_of <$> l.
Proof. intros Hj E. rewrite list_fmap_insert, E. apply list_insert_id. by rewrite list_lookup_fmap, Hj. Qed.

Lemma wf_init : wf init.
Proof.
  split; cbn; try done; try apply NoDup_nil_2; try (by intros ? ?%elem_of_nil).
  split; [apply NoDup_nil_2|by intros ? ?%elem_of_nil].
Qed.

Lemma wf_start_reader s i x : wf s -> sessions s !! i = Some x -> stream_in x = INew -> wf (new_reader i x s).
Proof.
  intros [Hk Hd Hn Hx Hp Hl Hc Hq] Hi Hnew.
  assert (Eks : keys (new_reader i x s) = <[i := mk_key false (Some (next s)) (CWait (next s))]> (keys s)).
  { unfold keys, new_reader. cbn. by rewrite list_fmap_insert. }
  assert (Hlt : (i < length (keys s))%nat) by (unfold keys; rewrite length_fmap; by eapply lookup_lt_Some).
  assert (Hfresh : next s ∉ rs s) by (intros Hin%Hx; lia).
  assert (Hold : forall j k c, keys s !! j = Some k -> owns k c -> c <> next s)
    by (intros j k c Hj Ho ->; pose proof (ok_next _ _ (Hk j k Hj) _ Ho); lia).
  split.
  - rewrite Eks. intros j k [(-> & <- & _)|[_ Hj]]%list_lookup_insert_Some.
    + split; cbn; try done.
      * intros c [[= <-]|[= <-]]; lia.
      * intros c [= <-]. apply elem_of_app. right. by left.
      * by intros c c' [= <-] [= <-].
    + destruct (Hk j k Hj) as [H1 H2 H3 H4 H5 H6]. split; try done; cbn.
      * intros c Ho. specialize (H3 c Ho). lia.
      * intros c Ho. apply elem_of_app. left. by apply H4.
      * intros c Ho Hov. rewrite elem_of_app, list_elem_of_singleton. intros [Hin| ->]; [by eapply H6|].
        eapply Hold; [exact Hj| |done]. by left.
  - rewrite Eks. intros j j' k k' c [(-> & <- & _)|[Hne Hj]]%list_lookup_insert_Some
      [(<- & <- & _)|[Hne' Hj']]%list_lookup_insert_Some; try done.
    + intros Ho Ho'. exfalso. eapply Hold; [exact Hj'|exact Ho'|]. by destruct Ho as [Ho|Ho]; injection Ho.
    + intros Ho Ho'. exfalso. eapply Hold; [exact Hj|exact Ho|]. by destruct Ho' as [Ho'|Ho']; injection Ho'.
    + by eapply Hd.
  - cbn. apply NoDup_app. split; [done|]. split; [|apply NoDup_singleton].
    intros c Hin Hc'. apply list_elem_of_singleton in Hc' as ->. done.
  - cbn. intros c [Hin|Hin]%elem_of_app; [specialize (Hx c Hin); lia|]. apply list_elem_of_singleton in Hin. lia.
  - destruct Hp as [Hp1 Hp2]. split; [done|]. cbn. intros c Hin. specialize (Hp2 c Hin). lia.
  - done.
  - cbn. rewrite length_app. cbn. lia.
  - cbn. intros c q [[<- <-]|[_ Hc']]%lookup_insert_Some; [cbn; lia|by eapply Hq].
Qed.

Lemma filter_ne_id (c : nat) (l : list nat) : c ∉ l -> filter (fun r => r <> c) l = l.
Proof.
  induction l as [|y l IH]; [done|]. rewrite not_elem_of_cons, filter_cons. intros [Hne Hin].
  rewrite decide_True by done. f_equal. by apply IH.
Qed.

Lemma length_filter_ne (c : nat) (l : list nat) : NoDup l -> c ∈ l -> length l = S (length (filter (fun r => r <> c) l)).
Proof.
  induction 1 as [|y l Hy Hn IH]; [by intros ?%elem_of_nil|]. rewrite filter_cons. intros [->|Hin]%elem_of_cons.
  - rewrite decide_False by (intros Hne; by apply Hne). by rewrite filter_ne_id.
  - rewrite decide_True by (intros ->; done). cbn. f_equal. by apply IH.
Qed.

Lemma wf_clean s i x c s' : wf s -> sessions s !! i = Some x -> cleaner x = CWait c ->
  s' = mk_sys (<[i := set_cleaner COver x]> (sessions s)) (chans s) (filter (fun r => r <> c) (rs s)) (next s)
            (sender s) (receiver s) (consumers s - 1) (overruns s) (written s) (rcvd s) -> wf s'.
Proof.
  intros [Hk Hd Hn Hx Hp Hl Hc Hq] Hi Hcl ->.
  assert (Hik : keys s !! i = Some (key_of x)) by (unfold keys; by rewrite list_lookup_fmap, Hi).
  pose proof (Hk i _ Hik) as [K1 K2 K3 K4 K5 K6]. cbn in *. rewrite Hcl in *.
  split; unfold keys; cbn; rewrite ?list_fmap_insert; fold (keys s).
  - intros j k [(-> & <- & _)|[Hne Hj]]%list_lookup_insert_Some.
    + split; cbn; try done.
      * split; [|done]. intros Hnew. by apply K1 in Hnew.
      * intros c' [Ho|Ho]; [|done]. apply K3. by left.
      * intros c' Hr _. rewrite list_elem_of_filter. intros [Hne _]. apply Hne. by eapply K5.
    + destruct (Hk j k Hj) as [H1 H2 H3 H4 H5 H6]. split; try done; cbn.
      * intros c' Ho. rewrite list_elem_of_filter. split; [|by apply H4]. intros ->. apply Hne.
        eapply (Hd i j); [done|done|by right|by right].
      * intros c' Hr Hov. rewrite list_elem_of_filter. intros [_ Hin]. by eapply H6.
  - intros j j' k k' c' Hj Hj' Ho Ho'.
    assert (Hback : forall j k, <[i := key_of (set_cleaner COver x)]> (keys s) !! j = Some k -> owns k c' ->
      exists k0, keys s !! j = Some k0 /\ owns k0 c').
    { intros j0 k0 [(-> & <- & _)|[_ Hj0]]%list_lookup_insert_Some Ho0; [|by eauto].
      exists (key_of x). split; [done|]. destruct Ho0 as [Ho0|Ho0]; [by left|done]. }
    destruct (Hback j k Hj Ho) as (k0 & Hk0 & Ho0). destruct (Hback j' k' Hj' Ho') as (k1 & Hk1 & Ho1).
    by eapply Hd.
  - by apply NoDup_filter.
  - intros c' [_ Hin]%list_elem_of_filter. by apply Hx.
  - done.
  - done.
  - rewrite Hc, (length_filter_ne c) by (try done; by apply K4). lia.
  - done.
Qed.

Lemma wf_open s : wf s -> wf (mk_sys (sessions s ++ [new_session]) (chans s) (rs s) (next s) (sender s) (receiver s)
  (consumers s) (overruns s) (written s) (rcvd s)).
Proof.
  intros [Hk Hd Hn Hx Hp Hl Hc Hq].
  assert (Hnew : forall i k, (keys s ++ [key_of new_session]) !! i = Some k ->
    keys s !! i = Some k \/ k = key_of new_session).
  { intros i k Hi. apply lookup_app_Some in Hi as [Hi|[_ Hi]]; [by left|]. right.
    destruct (_ - _)%nat; cbn in Hi; by simplify_eq. }
  split; unfold keys; cbn; rewrite ?fmap_app; fold (keys s); try done.
  - intros i k [Hi| ->]%Hnew; [by destruct (Hk i k Hi)|]. split; cbn; try done. by intros c [?|?].
  - intros i j k k' c Hi Hj Ho Ho'. destruct (Hnew i k Hi) as [Hi'| ->]; [|by destruct Ho].
    destruct (Hnew j k' Hj) as [Hj'| ->]; [|by destruct Ho']. by eapply Hd.
Qed.

Lemma wf_send_err s i x c d : wf s -> sessions s !! i = Some x -> stream_in x = ISend c d ->
  wf (set_sess i (set_in IReturned x) s).
Proof.
  intros [Hk Hd Hn Hx Hp Hl Hc Hq] Hi Hin.
  assert (Hik : keys s !! i = Some (key_of x)) by (unfold keys; by rewrite list_lookup_fmap, Hi).
  assert (Hback : forall j k, <[i := key_of (set_in IReturned x)]> (keys s) !! j = Some k ->
    exists k0, keys s !! j = Some k0 /\ k_new k = k_new k0 /\ k_cleaner k = k_cleaner k0 /\
      (k_reader k = k_reader k0 \/ k_reader k = None)).
  { intros j k [(-> & <- & _)|[_ Hj]]%list_lookup_insert_Some; [|by eauto 6].
    exists (key_of x). split; [done|]. unfold key_of, is_new, reader. cbn. rewrite Hin. auto. }
  assert (Howns : forall k k0 c', k_cleaner k = k_cleaner k0 -> (k_reader k = k_reader k0 \/ k_reader k = None) ->
    owns k c' -> owns k0 c').
  { intros k k0 c' Ec Er [Ho|Ho]; [left|right; congruence]. destruct Er; congruence. }
  split; unfold keys; cbn; rewrite ?list_fmap_insert; fold (keys s); try done.
  - intros j k Hj. destruct (Hback j k Hj) as (k0 & Hk0 & En & Ec & Er). destruct (Hk j k0 Hk0) as [H1 H2 H3 H4 H5 H6].
    split; rewrite ?En, ?Ec; try done.
    + intros Hnew. destruct Er as [->| ->]; [by apply H2|done].
    + intros c' Ho. apply H3. by eapply Howns.
    + intros c1 c2 Hr. destruct Er as [Er|Er]; rewrite Er in Hr; [by apply H5|done].
    + intros c1 Hr. destruct Er as [Er|Er]; rewrite Er in Hr; [by apply H6|done].
  - intros j j' k k' c' Hj Hj' Ho Ho'.
    destruct (Hback j k Hj) as (k0 & Hk0 & _ & Ec & Er). destruct (Hback j' k' Hj') as (k1 & Hk1 & _ & Ec' & Er').
    eapply Hd; [exact Hk0|exact Hk1|by eapply Howns|by eapply Howns].
Qed.

Lemma fire_wf s a s' : wf s -> fire s a = Some s' -> wf s'.
Proof.
  intros Hw H. pose proof Hw as [_ _ Hn Hx [Hp1 Hp2] Hl _ Hq]. fire_cases a H x Hx'.
  all: try (by eapply wf_open); try (by eapply wf_start_reader); try (by eapply wf_send_err); try (by eapply wf_clean).
  all: eapply wf_frame; [exact Hw|..]; try done;
    try (unfold keys; cbn; eapply keys_update; [exact Hx'|]; unfold key_of, is_new, reader; cbn;
         repeat match goal with E : stream_in _ = _ |- _ => rewrite E end; done).
  all: unfold pending in *; repeat match goal with E : receiver _ = _ |- _ => rewrite E in * end; cbn; try done;
    try apply NoDup_nil_2; try (by intros ? ?%elem_of_nil).
  all: try (by apply NoDup_cons in Hp1 as [_ ?]); try (intros c' Hc'; apply Hp2; by right);
    try (intros ? ? [= <- <-]; by eapply Hl).
  - intros c' q [[<- <-]|[_ Hc']]%lookup_insert_Some; [|by eapply Hq].
    pose proof (Hq _ _ H1) as Hlen. cbn in Hlen. lia.
  - intros ? ? [= <- <-]. apply last_snoc.
  - intros c' q [[<- <-]|[_ Hc']]%lookup_insert_Some; [|by eapply Hq]. rewrite length_app. cbn. lia.
Qed.

(** ** What a client sees *)

Definition queue (s : sys) (c : nat) : list chunk := default [] (chans s !! c).

Definition in_send (x : session) : list chunk := if stream_in x is ISend _ d then [d] else [].

(** What was handed to channel [c] or dropped for it. *)
Definition offered (s : sys) (c : nat) : list chunk :=
  if decide (c ∈ pending s) then take (length (rcvd s) - 1) (rcvd s) else rcvd s.

Definition shown (s : sys) : Prop := forall i x, sessions s !! i = Some x ->
  match reader x with
  | Some c => sent x ++ in_send x ++ queue s c `sublist_of` offered s c
  | None => sent x `sublist_of` rcvd s
  end.

Lemma offered_sub s c : offered s c `sublist_of` rcvd s.
Proof. unfold offered. case_decide; [apply sublist_take|done]. Qed.

(** Steps of a session that leave the channels alone. *)
Lemma shown_session s s' j x' :
  shown s -> sessions s' = <[j := x']> (sessions s) -> chans s' = chans s -> rcvd s' = rcvd s -> pending s' = pending s ->
  (match reader x' with
   | Some c => sent x' ++ in_send x' ++ queue s c `sublist_of` offered s c
   | None => sent x' `sublist_of` rcvd s
   end) -> shown s'.
Proof.
  intros Hs Es Ec Er Ep Hx i x. rewrite Es. unfold queue, offered in *. rewrite Ec, Er, Ep.
  intros [(-> & <- & _)|[_ Hi]]%list_lookup_insert_Some; [done|exact (Hs i x Hi)].
Qed.

Lemma reader_distinct s i j x y c : wf s -> sessions s !! i = Some x -> sessions s !! j = Some y ->
  reader x = Some c -> reader y = Some c -> i = j.
Proof.
  intros Hw Hi Hj Hx Hy. eapply (wf_distinct _ Hw i j (key_of x) (key_of y) c); try (by left);
    unfold keys; by rewrite list_lookup_fmap, ?Hi, ?Hj.
Qed.

Lemma reader_next s i x c : wf s -> sessions s !! i = Some x -> reader x = Some c -> (c < next s)%nat.
Proof.
  intros Hw Hi Hx. eapply (ok_next _ (key_of x)); [|by left]. eapply (wf_keys _ Hw i). unfold keys. by rewrite list_lookup_fmap, Hi.
Qed.

Lemma shown_start s i x : wf s -> shown s -> sessions s !! i = Some x -> stream_in x = INew -> shown (new_reader i x s).
Proof.
  intros Hw Hs Hi Hnew j y [(-> & <- & _)|[_ Hj]]%list_lookup_insert_Some.
  - cbn. unfold queue, offered. cbn. rewrite lookup_insert_eq, app_nil_r, decide_False.
    + specialize (Hs j x Hi). unfold reader in Hs. by rewrite Hnew in Hs.
    + intros Hin. pose proof (wf_pending _ Hw) as [_ Hp]. specialize (Hp _ Hin). lia.
  - specialize (Hs j y Hj). destruct (reader y) as [c|] eqn:Hr; [|done]. pose proof (reader_next _ _ _ _ Hw Hj Hr).
    unfold queue, offered in *. cbn. by rewrite lookup_insert_ne by lia.
Qed.

Lemma shown_take s i x c d q : wf s -> shown s -> sessions s !! i = Some x -> stream_in x = IRange c ->
  chans s !! c = Some (d :: q) -> shown (set_chan c q (set_sess i (set_in (ISend c d) x) s)).
Proof.
  intros Hw Hs Hi Hin Hc j y Hj. apply list_lookup_insert_Some in Hj as [(-> & <- & _)|[Hne Hj]]; cbn.
  - specialize (Hs j x Hi). unfold reader, in_send, queue, offered in *. cbn. rewrite Hin, Hc in Hs. rewrite lookup_insert_eq. exact Hs.
  - pose proof (Hs j y Hj) as Hy. destruct (reader y) as [c'|] eqn:Hr; [|done]. unfold queue, offered in *. cbn.
    rewrite lookup_insert_ne; [done|]. intros <-. apply Hne.
    eapply (reader_distinct s i j x y c); try done. unfold reader. by rewrite Hin.
Qed.

(** A chunk is handed to the next reader, or dropped. *)
Lemma shown_give s buf c cs s' : wf s -> shown s -> receiver s = RGive buf (c :: cs) ->
  sessions s' = sessions s -> rcvd s' = rcvd s -> receiver s' = RGive buf cs ->
  (chans s' = <[c := queue s c ++ [buf]]> (chans s) \/ chans s' = chans s) -> shown s'.
Proof.
  intros Hw Hs Hrv Es Er Erv Hc i x Hi. rewrite Es in Hi. specialize (Hs i x Hi).
  pose proof (wf_pending _ Hw) as [Hnd _]. pose proof (wf_last _ Hw _ _ Hrv) as Hlast. unfold pending in Hnd. rewrite Hrv in Hnd.
  apply NoDup_cons in Hnd as [Hnin _].
  destruct (reader x) as [c'|] eqn:Hr; [|by rewrite Er]. unfold offered, pending in *. rewrite Er, Erv. rewrite Hrv in Hs.
  destruct (decide (c' = c)) as [->|Hne].
  - rewrite decide_True in Hs by (by left). rewrite decide_False by done.
    assert (Hsplit : rcvd s = take (length (rcvd s) - 1) (rcvd s) ++ [buf]).
    { apply last_Some in Hlast as [l Hl]. rewrite Hl, length_app. cbn. replace (length l + 1 - 1)%nat with (length l) by lia.
      by rewrite take_app_length. }
    rewrite Hsplit. destruct Hc as [Hc|Hc]; unfold queue in *; rewrite Hc.
    + rewrite lookup_insert_eq. cbn. rewrite !app_assoc, <- (app_assoc (sent x)). by apply sublist_app.
    + rewrite <- (app_nil_r (sent x ++ _)). apply sublist_app; [done|]. apply sublist_nil_l.
  - assert (Hq : queue s' c' = queue s c').
    { unfold queue. destruct Hc as [-> | ->]; [|done]. by rewrite lookup_insert_ne. }
    rewrite Hq. destruct (decide (c' ∈ cs)) as [Hin|Hnot].
    + by rewrite decide_True in Hs by (by right).
    + by rewrite decide_False in Hs by (rewrite not_elem_of_cons; done).
Qed.

(** Use what is known of the receiver. *)
Ltac receiver_is H := match goal with E : receiver _ = _ |- _ => rewrite E in H end.

Lemma fire_shown s a s' : wf s -> shown s -> fire s a = Some s' -> shown s'.
Proof.
  intros Hw Hs H. fire_cases a H x Hx; try exact Hs;
    try (by eapply shown_start); try (by eapply shown_take);
    try (eapply shown_give; [exact Hw|exact Hs|eassumption|done..|unfold queue; auto]).
  all: try (eapply shown_session; [exact Hs|reflexivity|done..|]; specialize (Hs _ _ Hx); unfold reader, in_send in *; cbn;
    repeat match goal with E : stream_in _ = _ |- _ => rewrite E in * end; rewrite <- ?app_assoc; done).
  - intros i x [Hi|[_ Hi]]%lookup_app_Some; [by apply (Hs i x)|].
    destruct (_ - _)%nat; cbn in Hi; simplify_eq. apply sublist_nil_l.
  - eapply shown_session; [exact Hs|reflexivity|done..|]. specialize (Hs _ _ Hx). unfold reader, in_send in *. rewrite H0 in Hs. cbn.
    etrans; [|apply offered_sub]. etrans; [|exact Hs]. by apply sublist_inserts_r.
  - intros i x Hi. specialize (Hs i x Hi). cbn. destruct (reader x) as [c|].
    + unfold offered, queue, pending in *. cbn. receiver_is Hs. rewrite decide_False in Hs by (by intros ?%elem_of_nil).
      case_decide; [|by apply sublist_inserts_r].
      rewrite length_app. cbn. replace (length (rcvd s) + 1 - 1)%nat with (length (rcvd s)) by lia.
      by rewrite take_app_length.
    + by apply sublist_inserts_r.
  - intros i x Hi. specialize (Hs i x Hi). unfold offered, pending in *. by receiver_is Hs.
  - intros i x Hi. specialize (Hs i x Hi). unfold offered, pending in *. by receiver_is Hs.
Qed.

(** ** Every schedule *)

Lemma runs_inv (I : sys -> Prop) l : (forall s a s', I s -> fire s a = Some s' -> I s') ->
  forall s s', I s -> runs s l = Some s' -> I s'.
Proof.
  intros Hstep. induction l as [|a l IH]; intros s s' Hs H; [by injection H as <-|].
  apply bind_Some in H as (s1 & Ha & H). eauto.
Qed.

Definition good (s : sys) : Prop := in_order s /\ wf s /\ shown s.

Lemma runs_good l s : runs init l = Some s -> good s.
Proof.
  apply runs_inv.
  - intros s1 a s2 (H1 & H2 & H3) Ha. split; [by eapply fire_in_order|]. split; [by eapply fire_wf|by eapply fire_shown].
  - split; [by intros i|]. split; [apply wf_init|]. by intros i x.
Qed.

(** C5:  However the goroutines of the console are scheduled and however many sessions
    there are, what a client sent is, in order and nothing twice, what was
    written to the UART for it followed by at most three chunks on their way (or
    lost with the write that failed); what a client is shown is an
    ordered selection of what the UART sent; no channel holds more than 1024 chunks; and
    the consumer gauge is the number of registered readers. *)
Theorem console_delivers (l : list act) (s : sys) (i : nat) (x : session) :
  runs init l = Some s -> sessions s !! i = Some x ->
  got x = written_of i s ++ in_flight i x s /\ (length (in_flight i x s) <= 3)%nat /\
  sent x `sublist_of` rcvd s /\
  (forall c q, chans s !! c = Some q -> (length q <= capacity)%nat) /\
  consumers s = Z.of_nat (length (rs s)).
Proof.
  intros (Ho & Hw & Hs)%runs_good Hx. specialize (Ho i). rewrite Hx in Ho. split; [done|]. split.
  { unfold in_flight, in_sender, in_copier, in_main. rewrite !length_app.
    destruct (sender s), (copier x), (main x); repeat case_decide; cbn; lia. }
  split; [|split; [by apply wf_capacity|by apply wf_consumers]].
  specialize (Hs i x Hx). destruct (reader x) as [c|]; [|done].
  etrans; [|apply offered_sub]. etrans; [|exact Hs]. by apply sublist_inserts_r.
Qed.

(** ** Goroutines that stay for ever *)

(** [streamIn] of session [i] waits on a channel that nobody has any more. *)
Definition orphaned (i c : nat) (s : sys) : Prop :=
  (exists x, sessions s !! i = Some x /\ stream_in x = IRange c /\ cleaner x = COver) /\
  chans s !! c = Some [] /\ (c ∉ rs s) /\ (c ∉ pending s) /\ (c < next s)%nat.

Lemma orphaned_session i c s a s' x0 :
  sessions s !! i = Some x0 -> stream_in x0 = IRange c -> cleaner x0 = COver -> chans s !! c = Some [] -> fire s a = Some s' ->
  exists x, sessions s' !! i = Some x /\ stream_in x = IRange c /\ cleaner x = COver.
Proof.
  intros Hx0 Hin0 Hcl0 Hc H. fire_cases a H x Hx; cbn; eauto; try (exists x0; by rewrite (lookup_app_l_Some _ _ _ _ Hx0)).
  all: match goal with |- context [(<[?j := ?y]> _) !! _] => destruct (decide (j = i)) as [->|Hne];
    [exists y; rewrite list_lookup_insert_eq by (by eapply lookup_lt_Some); simplify_eq; split_and!; cbn; congruence
    |exists x0; by rewrite list_lookup_insert_ne] end.
Qed.

Lemma orphaned_step i c s a s' : orphaned i c s -> fire s a = Some s' -> orphaned i c s'.
Proof.
  intros ((x0 & Hx0 & Hin0 & Hcl0) & Hc & Hrs & Hp & Hn) H. split; [by eapply orphaned_session|].
  clear Hx0 Hin0 Hcl0. fire_cases a H x Hx; try (split_and!; [exact Hc|exact Hrs|exact Hp|exact Hn]); cbn [chans rs next set_chan set_sess new_reader set_receiver].
  - split_and!; [by rewrite lookup_insert_ne by lia| |exact Hp|lia].
    rewrite elem_of_app, list_elem_of_singleton. intros [?|?]; [done|lia].
  - split_and!; [|exact Hrs|exact Hp|exact Hn]. rewrite lookup_insert_ne; [done|]. intros ->. congruence.
  - split_and!; [exact Hc| |exact Hp|exact Hn]. rewrite list_elem_of_filter. by intros [_ ?].
  - split_and!; [exact Hc|exact Hrs|exact Hrs|exact Hn].
  - split_and!; [exact Hc|exact Hrs|by intros ?%elem_of_nil|exact Hn].
  - unfold pending in *. receiver_is Hp. apply not_elem_of_cons in Hp as [Hne Hp].
    split_and!; [by rewrite lookup_insert_ne|exact Hrs|exact Hp|exact Hn].
  - unfold pending in *. receiver_is Hp. apply not_elem_of_cons in Hp as [Hne Hp].
    split_and!; [exact Hc|exact Hrs|exact Hp|exact Hn].
  - split_and!; [exact Hc|exact Hrs|by intros ?%elem_of_nil|exact Hn].
Qed.

(** A session leaves a goroutine behind: nobody closes the channel that
    [streamIn] ranges over, so once the session is over, its reader removed and its
    channel drained, [streamIn] waits in every continuation of the run. *)
Theorem stream_in_leaks (l l' : list act) (s s' : sys) (i c : nat) (x : session) :
  runs init l = Some s -> sessions s !! i = Some x -> stream_in x = IRange c -> cleaner x = COver ->
  chans s !! c = Some [] -> c ∉ pending s -> runs s l' = Some s' ->
  exists x', sessions s' !! i = Some x' /\ stream_in x' = IRange c.
Proof.
  intros Hr Hx Hin Hcl Hc Hp Hr'. apply runs_good in Hr as (_ & Hw & _).
  assert (Ho : orphaned i c s).
  { assert (Hk : keys s !! i = Some (key_of x)) by (unfold keys; by rewrite list_lookup_fmap, Hx).
    assert (Hrd : reader x = Some c) by (unfold reader; by rewrite Hin).
    split_and!; [by exists x|done| |done|by eapply reader_next].
    eapply (ok_over _ _ (wf_keys _ Hw i _ Hk)); done. }
  apply (runs_inv (orphaned i c)) in Hr' as ((x' & Hx' & Hin' & _) & _); [by exists x'|intros; by eapply orphaned_step|done].
Qed.

(** A session whose data cannot be written any more. *)
Definition stuck (i : nat) (d d' : chunk) (s : sys) : Prop :=
  (exists j e, sender s = SDead j e) /\
  exists x, sessions s !! i = Some x /\ copier x = WSend d /\ main x = MSend d'.

Lemma stuck_step i d d' s a s' : stuck i d d' s -> fire s a = Some s' -> stuck i d d' s'.
Proof.
  intros ((j & e & Hd) & x0 & Hx0 & Hc0 & Hm0) H. fire_cases a H x Hx; split; cbn; eauto;
    try (exists x0; by rewrite (lookup_app_l_Some _ _ _ _ Hx0)).
  all: match goal with |- context [(<[?j := ?y]> _) !! _] => destruct (decide (j = i)) as [->|Hne];
    [exists y; rewrite list_lookup_insert_eq by (by eapply lookup_lt_Some); simplify_eq; split_and!; cbn; congruence
    |exists x0; by rewrite list_lookup_insert_ne] end.
Qed.

(** After a write error of the UART its sender goroutine is gone, and a session that
    sends two more chunks never ends: it does not notice that its client leaves, and its
    reader stays registered. *)
Theorem console_hangs_after_write_error (l l' : list act) (s s' : sys) (i j : nat) (d d' e : chunk) (x : session) :
  runs init l = Some s -> sender s = SDead j e -> sessions s !! i = Some x -> copier x = WSend d -> main x = MSend d' ->
  runs s l' = Some s' ->
  written s' = written s /\ exists x', sessions s' !! i = Some x' /\ main x' = MSend d' /\ fire s' (RecvEnd i) = None.
Proof.
  intros _ Hd Hx Hc Hm Hr.
  assert (Hw : written s' = written s /\ exists j e, sender s' = SDead j e).
  { apply (runs_inv (fun s1 => written s1 = written s /\ exists j e, sender s1 = SDead j e)) in Hr; eauto.
    intros s1 a s2 (Hw & j' & e' & Hd') Ha. fire_cases a Ha y Hy; eauto. }
  split; [apply Hw|]. apply (runs_inv (stuck i d d')) in Hr as (_ & x' & Hx' & _ & Hm').
  - exists x'. split; [done|]. split; [done|]. unfold fire. cbn. rewrite Hx'. cbn. by rewrite Hm'.
  - intros; by eapply stuck_step.
  - split; eauto.
Qed.

(** ** The console settles *)

(** Actions that need nothing from a client or from the UART line. *)
Definition internal (a : act) : bool :=
  match a with Open | Recv _ _ | RecvEnd _ | Read _ | ReadErr => false | _ => true end.

Definition weight (x : session) : nat :=
  match main x with MSend _ => 5 | MCloseW => 2 | MCloseDone => 1 | _ => 0 end +
  match copier x with WSend _ => 4 | WRange => 1 | WOver => 0 end +
  match stream_in x with INew | ISend _ _ => 2 | _ => 0 end +
  match cleaner x with CWait _ => 1 | _ => 0 end.

Definition queued (s : sys) : nat := sum_list_with (fun c => length (queue s c)) (seq 0 (next s)).

(** The work that is left. *)
Definition load (s : sys) : nat :=
  (sum_list_with weight (sessions s) + 3 * queued s +
   (if sender s is SWrite _ _ then 2 else 0) + (if receiver s is RGive _ l then 1 + 4 * length l else 0))%nat.

Lemma sum_update {A} (f : A -> nat) j x x' l : l !! j = Some x ->
  (sum_list_with f (<[j := x']> l) + f x = sum_list_with f l + f x')%nat.
Proof.
  revert j. induction l as [|y l IH]; intros [|j]; csimpl; try done; [intros [= ->]; lia|].
  intros Hj. specialize (IH j Hj). lia.
Qed.

Lemma sum_seq_other (f g : nat -> nat) n m : (forall c, (n <= c < n + m)%nat -> f c = g c) ->
  sum_list_with f (seq n m) = sum_list_with g (seq n m).
Proof.
  revert n. induction m as [|m IH]; intros n Hfg; cbn; [done|]. rewrite Hfg by lia. f_equal. apply IH. intros c Hc. apply Hfg. lia.
Qed.

Lemma sum_seq_change (f g : nat -> nat) c n m : (n <= c < n + m)%nat -> (forall c', c' <> c -> f c' = g c') ->
  (sum_list_with f (seq n m) + g c = sum_list_with g (seq n m) + f c)%nat.
Proof.
  revert n. induction m as [|m IH]; intros n Hc Hfg; cbn; [lia|]. destruct (decide (n = c)) as [->|Hne].
  - rewrite (sum_seq_other f g) by (intros c' Hc'; apply Hfg; lia). lia.
  - rewrite (Hfg n) by done. specialize (IH (S n) ltac:(lia) Hfg). lia.
Qed.

(** The queues after one of them changed. *)
Lemma queued_set_chan s s' c q : (c < next s)%nat -> next s' = next s -> chans s' = <[c := q]> (chans s) ->
  (queued s' + length (queue s c) = queued s + length q)%nat.
Proof.
  intros Hc En Eq. assert (Hq : length q = length (queue s' c)) by (unfold queue; by rewrite Eq, lookup_insert_eq).
  unfold queued. rewrite En, Hq. apply (sum_seq_change (fun c => length (queue s' c)) (fun c => length (queue s c)) c); [lia|].
  intros c' Hne. unfold queue. by rewrite Eq, lookup_insert_ne.
Qed.

Lemma queued_same s s' : chans s' = chans s -> next s' = next s -> queued s' = queued s.
Proof. intros Ec En. unfold queued, queue. by rewrite Ec, En. Qed.

Lemma queued_new_reader s i x : queued (new_reader i x s) = queued s.
Proof.
  unfold queued. cbn [next new_reader]. rewrite seq_S, sum_list_with_app. cbn.
  assert (Hn : queue (new_reader i x s) (next s) = []) by (unfold queue; cbn; by rewrite lookup_insert_eq).
  rewrite Hn. cbn. rewrite !Nat.add_0_r. apply sum_seq_other. intros c Hc. unfold queue. cbn. by rewrite lookup_insert_ne by lia.
Qed.

Lemma load_decreases s a s' : wf s -> internal a = true -> fire s a = Some s' -> (load s' < load s)%nat.
Proof.
  intros Hw Hi H. fire_cases a H x Hx.
  all: unfold load; cbn [sessions sender receiver set_sess set_sender set_receiver set_chan new_reader next].
  all: try match goal with Hx : sessions _ !! ?j = Some ?x |- context [<[?j := ?y]> _] =>
    pose proof (sum_update weight j x y _ Hx) as Hsum; unfold weight at 2 4 in Hsum; cbn in Hsum;
    repeat match goal with E : stream_in x = _ |- _ => rewrite E in Hsum | E : main x = _ |- _ => rewrite E in Hsum
      | E : copier x = _ |- _ => rewrite E in Hsum | E : cleaner x = _ |- _ => rewrite E in Hsum end end.
  all: repeat match goal with E : sender _ = _ |- _ => rewrite E; clear E | E : receiver _ = _ |- _ => progress rewrite E end.
  all: rewrite ?queued_new_reader; try lia.
  all: try match goal with |- (_ + 3 * queued ?t + _ + _ < _ + 3 * queued ?s + _ + _)%nat => rewrite (queued_same s t) by done; cbn [length]; lia end.
  - match goal with |- context [queued (set_chan c ?q ?t)] => pose proof (queued_set_chan s (set_chan c q t) c q) as Hq end.
    specialize (Hq ltac:(eapply reader_next; [exact Hw|exact Hx|unfold reader; by rewrite H0]) eq_refl eq_refl).
    unfold queue in Hq. rewrite H1 in Hq. cbn [default from_option Datatypes.id length] in Hq. lia.
  - match goal with |- context [queued ?t] => pose proof (queued_set_chan s t n _ ltac:(apply (proj2 (wf_pending _ Hw)); unfold pending; rewrite H0; by left) eq_refl eq_refl) as Hq end.
    rewrite length_app in Hq. unfold queue in Hq. cbn [length] in *. lia.
Qed.

(** The copier is over only when the writer was closed. *)
Definition closed_ok (s : sys) : Prop := forall i x, sessions s !! i = Some x ->
  (copier x = WOver -> w_closed x = true) /\ (w_closed x = true -> main x = MCloseDone \/ main x = MReturned).

Lemma fire_closed_ok s a s' : closed_ok s -> fire s a = Some s' -> closed_ok s'.
Proof.
  intros Hs H. fire_cases a H x Hx; try exact Hs.
  { intros i x [Hi|[_ Hi]]%lookup_app_Some; [by apply Hs in Hi|]. destruct (_ - _)%nat; cbn in Hi; by simplify_eq. }
  all: intros j y [(-> & <- & _)|[_ Hj]]%list_lookup_insert_Some; [|by apply Hs in Hj]; destruct (Hs j x Hx) as [H1' H2'];
    cbn; split; try done; auto; intros Hc; try (apply H1' in Hc); try (apply H2' in Hc as [Hc|Hc]; congruence); auto.
Qed.

(** C16:  The console settles: without new input there are at most [load s] more steps,
    in any order, and when none is possible and no write failed, everything the clients sent
    was written, every call has returned or waits for its client, and every reader
    channel in use is empty. *)
Theorem console_settles (l : list act) (s : sys) :
  runs init l = Some s ->
  (forall l' s', Forall (fun a => internal a = true) l' -> runs s l' = Some s' -> (length l' <= load s)%nat) /\
  ((forall a, internal a = true -> fire s a = None) -> (forall j d, sender s <> SDead j d) ->
   forall i x, sessions s !! i = Some x ->
     got x = written_of i s /\ (main x = MRecv \/ main x = MReturned) /\
     (stream_in x = IReturned \/ exists c, stream_in x = IRange c /\ queue s c = [])).
Proof.
  intros Hr. pose proof (runs_good _ _ Hr) as (Ho & Hw & _). split.
  { intros l'. clear Hr Ho. revert s Hw. induction l' as [|a l' IH]; intros s Hw s' Hi H; [cbn; lia|].
    apply Forall_cons in Hi as [Ha Hi]. apply bind_Some in H as (s1 & Hf & H).
    pose proof (load_decreases _ _ _ Hw Ha Hf). specialize (IH s1 (fire_wf _ _ _ Hw Hf) s' Hi H). cbn. lia. }
  assert (Hcl : closed_ok s) by (eapply (runs_inv closed_ok l) in Hr; [done|apply fire_closed_ok|by intros i x]).
  intros Hq Hd i x Hx. specialize (Ho i). rewrite Hx in Ho. destruct (Hcl i x Hx) as [Hover Hmain].
  assert (Hfire : forall a, internal a = true -> session_of a = Some i -> fire_session s i x a = None).
  { intros a Ha Hs. specialize (Hq a Ha). unfold fire in Hq. destruct a; try done; cbn [session_of] in *; simplify_eq;
      rewrite Hx in Hq; exact Hq. }
  assert (Hsend : sender s = SRecv).
  { destruct (sender s) as [|j d|j d] eqn:E; [done| |by destruct (Hd j d)]. specialize (Hq WriteOk eq_refl).
    unfold fire, fire_uart in Hq. cbn in Hq. by rewrite E in Hq. }
  assert (Hcopy : copier x = WRange \/ copier x = WOver).
  { specialize (Hfire (PassToSender i) eq_refl eq_refl). cbn in Hfire. rewrite Hsend in Hfire. destruct (copier x); auto; done. }
  assert (Hm : main x = MRecv \/ main x = MReturned).
  { pose proof (Hfire (PassToWriter i) eq_refl eq_refl) as H1'. pose proof (Hfire (CloseW i) eq_refl eq_refl) as H2'.
    pose proof (Hfire (CloseDone i) eq_refl eq_refl) as H3'. cbn in *. destruct (main x); auto; try done.
    destruct Hcopy as [E|E]; rewrite E in *; [done|]. destruct (Hmain (Hover eq_refl)); done. }
  split_and!; [|done|].
  - rewrite Ho. unfold in_flight, in_sender, in_copier, in_main. rewrite Hsend.
    destruct Hcopy as [-> | ->], Hm as [-> | ->]; by rewrite app_nil_r.
  - pose proof (Hfire (StartReader i) eq_refl eq_refl) as H1'. pose proof (Hfire (TakeChunk i) eq_refl eq_refl) as H2'.
    pose proof (Hfire (SendErr i) eq_refl eq_refl) as H3'. cbn in *. destruct (stream_in x) as [|c|c d|]; auto; try done.
    right. exists c. split; [done|]. unfold queue. destruct (chans s !! c) as [[|d q]|]; done.
Qed.

(** ** Schedules *)

Module SimConsole.
(** A client types a line, sees the answer, and leaves. *)
Definition talk : list act :=
  [Open; StartReader 0; Recv 0 [108; 115]; PassToWriter 0; PassToSender 0; WriteOk; Read [111; 107]; Give; GiveEnd;
   TakeChunk 0; SendOk 0].
Definition leave : list act := [RecvEnd 0; CloseW 0; CloseDone 0; CopierEnd 0; Clean 0].

Definition at_end (l : list act) : sys := default init (runs init l).

(** A write fails while the client goes on typing. *)
Definition broken : list act :=
  [Open; Recv 0 [1]; PassToWriter 0; PassToSender 0; WriteErr; Recv 0 [2]; PassToWriter 0; Recv 0 [3]].
End SimConsole.
Import SimConsole.

Lemma console_delivers_witness :
  exists x, sessions (at_end talk) !! O = Some x /\ got x = [[108; 115]] /\ sent x = [[111; 107]] /\
    got x = written_of 0 (at_end talk) ++ in_flight 0 x (at_end talk).
Proof.
  destruct (sessions (at_end talk) !! O) as [x|] eqn:E; [|by vm_compute in E].
  exists x. split; [done|]. pose proof E as E'. vm_compute in E'. injection E' as E'.
  split; [by rewrite <- E'|]. split; [by rewrite <- E'|]. apply (console_delivers talk (at_end talk) 0 x); [by vm_compute|done].
Defined.

Lemma stream_in_leaks_witness : forall l' s', runs (at_end (talk ++ leave)) l' = Some s' ->
  exists x', sessions s' !! O = Some x' /\ stream_in x' = IRange 0.
Proof.
  intros l' s' Hr. destruct (sessions (at_end (talk ++ leave)) !! O) as [x|] eqn:E; [|by vm_compute in E].
  pose proof E as E'. vm_compute in E'. injection E' as E'.
  apply (stream_in_leaks (talk ++ leave) l' (at_end (talk ++ leave)) s' 0 0 x);
    [by vm_compute|exact E|by rewrite <- E'|by rewrite <- E'|by vm_compute| |exact Hr].
  vm_compute. by intros ?%elem_of_nil.
Defined.

Lemma console_hangs_after_write_error_witness : forall l' s', runs (at_end broken) l' = Some s' ->
  exists x', sessions s' !! O = Some x' /\ main x' = MSend [3].
Proof.
  intros l' s' Hr. destruct (sessions (at_end broken) !! O) as [x|] eqn:E; [|by vm_compute in E].
  pose proof E as E'. vm_compute in E'. injection E' as E'.
  destruct (console_hangs_after_write_error broken l' (at_end broken) s' 0 0 [2] [3] [1] x) as (_ & x' & Hx & Hm & _);
    [by vm_compute|by vm_compute|exact E|by rewrite <- E'|by rewrite <- E'|exact Hr|]. by exists x'.
Defined.

Lemma console_settles_witness :
  exists x, sessions (at_end (talk ++ leave)) !! O = Some x /\ got x = written_of 0 (at_end (talk ++ leave)).
Proof.
  destruct (sessions (at_end (talk ++ leave)) !! O) as [x|] eqn:E; [|by vm_compute in E].
  exists x. split; [done|].
  apply (proj2 (console_settles (talk ++ leave) (at_end (talk ++ leave)) ltac:(by vm_compute))); [|by vm_compute|done].
  intros a Ha. destruct a as [|[|i]|[|i]|[|i]|[|i]|[|i] d|[|i]|[|i]|[|i]|[|i]|[|i]|[|i]| | |[|i]| | | |]; try done; by vm_compute.
Defined.
