(* ===== verification/I2cWatcher.v ===== *)
(** * The I2C bus monitor (cmd/i2cwatcher/main.go)

    Samples the status registers of an I2C controller and puts the transactions back
    together.  [watch] is the body of the loop on one sample; the theorem says which
    reports come out for every sequence of samples that
    shows each state of the controller at least once. *)

From S2P Require Import Prelude GoMonad GoStrings Mem.
#[local] Open Scope string_scope.
#[local] Open Scope list_scope.
#[local] Open Scope Z_scope.

(** The registers of the 14 controllers. *)
Definition offset : list Z :=
  [0x40; 0x80; 0xc0; 0x100; 0x140; 0x180; 0x1c0; 0x300; 0x340; 0x380; 0x3c0; 0x400; 0x440; 0x480].

Definition base : Z := 0x1E78A000.

(** The names of the states. *)
Definition state : list (Z * string) :=
  [(0x0, "IDLE"); (0x8, "MACTIVE"); (0x9, "MSTART"); (0xa, "MSTARTR"); (0xb, "MSTOP"); (0xc, "MTXD"); (0xd, "MRXACK");
   (0xe, "MRXD"); (0xf, "MTXACK"); (0x1, "SWAIT"); (0x4, "SRXD"); (0x5, "STXACK"); (0x6, "STXD"); (0x7, "SRXACK");
   (0x3, "RECOVER")].

(** ** The loop *)

(** A sample: state, transmit and receive byte. *)
Record sample : Type := mk_sample { st : Z; tx : Z; rx : Z }.

#[export] Instance sample_eq_dec : EqDecision sample.
Proof. solve_decision. Defined.

(** The registers of a sample: [rxtx] is masked to 16 bits. *)
Definition decode (rxtx mr : Z) : sample :=
  let rxtx := Z.land rxtx 0xffff in
  mk_sample (Z.land (Z.shiftr mr 19) 0xf) (Z.land rxtx 0xff) (Z.shiftr rxtx 8).

(** The variables of the loop; [prev] has pst, ptx and prx. *)
Record vars : Type := mk_vars { prev : sample; write : bool; txs : list Z; rxs : list Z; skip_tx : bool }.

Definition start_vars : vars := mk_vars (mk_sample 0 0 0) false [] [] false.

(** What is printed at the start of a transaction about the one before. *)
Inductive report : Type :=
| Malformed
| Transaction (write : bool) (addr : Z) (tx rx : list Z).

Definition end_report (v : vars) : report :=
  match txs v with
  | [] => Malformed
  | addr :: tx => Transaction (write v) (Z.land addr 0xfe) tx (rxs v)
  end.

(** The iteration on a sample that is not skipped. *)
Definition react (v : vars) (x : sample) : list report * vars :=
  let '(out, v) :=
    if decide (st x = 0x9 \/ st x = 0xa) then
      ([end_report v], mk_vars (prev v) (bool_decide (Z.land (tx x) 0x1 = 0)) [] [] true)
    else if decide (txs v = [] /\ st x = 0xc) then ([], mk_vars (prev v) (write v) [tx x] (rxs v) true)
    else ([], v) in
  let v := if decide (st x = 0xf) then mk_vars (prev v) (write v) (txs v) (rxs v ++ [rx x]) (skip_tx v) else v in
  let v :=
    if decide (st x = 0xd) then
      if skip_tx v then mk_vars (prev v) (write v) (txs v) (rxs v) false
      else mk_vars (prev v) (write v) (txs v ++ [tx x]) (rxs v) (skip_tx v)
    else v in
  (out, mk_vars x (write v) (txs v) (rxs v) (skip_tx v)).

(** One iteration. *)
Definition watch (v : vars) (x : sample) : list report * vars :=
  if decide (st x = 0 \/ x = prev v) then ([], v) else react v x.

Fixpoint watch_all (v : vars) (xs : list sample) : list report * vars :=
  match xs with
  | [] => ([], v)
  | x :: xs => let '(o, v) := watch v x in let '(o', v) := watch_all v xs in (o ++ o', v)
  end.

(** ** The program *)

(** The verb [%02x] on a byte. *)
Definition hex_digit (d : Z) : string := String (byte_chr (if decide (d < 10) then 48 + d else 87 + d)) "".
Definition hex02 (b : Z) : string := hex_digit (b / 16) +:+ hex_digit (b mod 16).

Definition nl : string := String (byte_chr 10) "".

Definition print_bytes (bs : list Z) : string := foldr (fun b s => hex02 b +:+ " " +:+ s) "" bs.

Definition print_report (r : report) : string :=
  match r with
  | Malformed => "Malformed transaction, skipping" +:+ nl
  | Transaction wr addr tx rx =>
      "End of transaction. Write? " +:+ (if wr then "true" else "false") +:+ nl +:+
      "Address: " +:+ hex02 addr +:+ nl +:+ "TX: " +:+ print_bytes tx +:+ nl +:+ "RX: " +:+ print_bytes rx +:+ nl
  end.

Section Program.
Context {S : Type} `{memProvider S}.

(** The line of controller [i]. *)
Definition describe (i : nat) (off : Z) : M S string :=
  s ← MustRead32 (base + off);
  clk ← MustRead32 (base + off + 0x4);
  mr ← MustRead32 (base + off + 0x14);
  let s := Z.land s 0x3 in
  let clk := Z.land clk 0xf in
  let mr := Z.land (Z.shiftr mr 6) 0x3 in
  mret ("I2C bus " +:+ itoa (Z.of_nat i) +:+ ", clk " +:+ itoa (Z.shiftl 1 clk) +:+ "x, data buffer " +:+ itoa mr +:+ ": " +:+
        (if decide (Z.land s 0x1 > 0) then "master " else "") +:+ (if decide (Z.land s 0x2 > 0) then "slave " else "") +:+ nl).

Fixpoint describe_all (i : nat) (offs : list Z) : M S (list string) :=
  match offs with
  | [] => mret []
  | off :: offs => l ← describe i off; ls ← describe_all (Datatypes.S i) offs; mret (l :: ls)
  end.

(** The slowest clock, so that the loop can follow. *)
Definition slow_down (off : Z) : M S unit :=
  cr ← MustRead32 (base + off + 0x4);
  MustWrite32 (base + off + 0x4) (Z.lor (Z.lor cr 0xf) (Z.shiftl 0x3 8)).

(** [n] iterations of the endless loop. *)
Fixpoint watch_loop (n : nat) (off : Z) (v : vars) : M S (list report) :=
  match n with
  | O => mret []
  | Datatypes.S n =>
      rxtx ← MustRead32 (base + off + 0x20);
      mr ← MustRead32 (base + off + 0x14);
      let '(o, v) := watch v (decode rxtx mr) in
      o' ← watch_loop n off v;
      mret (o ++ o')
  end.

(** [main] with the flag [bus], for [n] iterations: what it prints. *)
Definition i2cwatcher_main (n : nat) (bus : Z) : M S (list string) :=
  ls ← describe_all 0 offset;
  match (if decide (0 <= bus) then offset !! Z.to_nat bus else None) with
  | None => go_panic
  | Some off =>
      _ ← slow_down off;
      o ← watch_loop n off start_vars;
      mret (ls ++ map print_report o)
  end.
End Program.

(** ** Samples that say nothing new *)

(** The samples without idle ones and without repetitions of the one before. *)
Fixpoint compress (p : sample) (xs : list sample) : list sample :=
  match xs with
  | [] => []
  | x :: xs => if decide (st x = 0 \/ x = p) then compress p xs else x :: compress x xs
  end.

(** The reactions to a list of samples, none of them skipped. *)
Fixpoint react_all (v : vars) (xs : list sample) : list report * vars :=
  match xs with
  | [] => ([], v)
  | x :: xs => let '(o, v) := react v x in let '(o', v) := react_all v xs in (o ++ o', v)
  end.

Lemma prev_react v x : prev (react v x).2 = x.
Proof. unfold react. by repeat case_decide; repeat case_match. Qed.

Lemma watch_all_compress xs : forall v, watch_all v xs = react_all v (compress (prev v) xs).
Proof.
  induction xs as [|x xs IH]; intros v; [done|]. cbn [watch_all compress]. unfold watch. case_decide as Hs.
  - rewrite IH. cbn. by destruct (react_all v _).
  - cbn [react_all]. pose proof (prev_react v x) as Hp. destruct (react v x) as [o v']. cbn in Hp. by rewrite IH, Hp.
Qed.

(** ** Transactions on the bus *)

Record transaction : Type := mk_transaction { t_addr : Z; t_out : list Z; t_in : list Z }.

(** States that carry no byte. *)
Definition neutral (x : sample) : Prop := st x ∉ [0x9; 0xa; 0xc; 0xd; 0xf].

(** The data phase: [out] bytes acknowledged, [inn] bytes received; a byte that is
    being sent shows as 0xc before its acknowledgement. *)
Inductive data_phase : list Z -> list Z -> list sample -> Prop :=
| data_end : data_phase [] [] []
| data_other x out inn l : neutral x \/ st x = 0xc -> data_phase out inn l -> data_phase out inn (x :: l)
| data_acked x out inn l : st x = 0xd -> data_phase out inn l -> data_phase (tx x :: out) inn (x :: l)
| data_received x out inn l : st x = 0xf -> data_phase out inn l -> data_phase out (rx x :: inn) (x :: l).

(** A transaction: a start condition with the address in the transmit register, the
    address going out, its acknowledgement, the data. *)
Inductive on_wire (t : transaction) : list sample -> Prop :=
| wire s a k l1 l2 l :
    st s = 0x9 \/ st s = 0xa -> tx s = t_addr t -> Forall neutral l1 ->
    st a = 0xc -> tx a = t_addr t -> Forall (fun x => neutral x \/ st x = 0xc) l2 -> st k = 0xd ->
    data_phase (t_out t) (t_in t) l -> on_wire t (s :: l1 ++ a :: l2 ++ k :: l).

Inductive traffic : list transaction -> list sample -> Prop :=
| traffic_nil : traffic [] []
| traffic_cons t ts l l' : on_wire t l -> traffic ts l' -> traffic (t :: ts) (l ++ l').

Definition reported (t : transaction) : report :=
  Transaction (bool_decide (Z.land (t_addr t) 0x1 = 0)) (Z.land (t_addr t) 0xfe) (t_out t) (t_in t).

Lemma react_all_app l1 l2 : forall v,
  react_all v (l1 ++ l2) =
  ((react_all v l1).1 ++ (react_all (react_all v l1).2 l2).1, (react_all (react_all v l1).2 l2).2).
Proof.
  induction l1 as [|x l1 IH]; intros v; cbn; [by destruct (react_all v l2)|].
  destruct (react v x) as [o v']. rewrite (IH v'). destruct (react_all v' l1) as [o1 v1]. cbn. by rewrite app_assoc.
Qed.

(** The variables up to the previous sample. *)
Definition same_vars (v v' : vars) : Prop :=
  write v' = write v /\ txs v' = txs v /\ rxs v' = rxs v /\ skip_tx v' = skip_tx v.

Lemma react_neutral v x : neutral x \/ (st x = 0xc /\ txs v <> []) -> (react v x).1 = [] /\ same_vars v (react v x).2.
Proof.
  unfold neutral, react, same_vars. intros Hx.
  assert (Hn : st x <> 0x9 /\ st x <> 0xa /\ st x <> 0xd /\ st x <> 0xf /\ ~ (txs v = [] /\ st x = 0xc)).
  { destruct Hx as [Hx|[Hx Ht]]; [|split_and!; (lia || naive_solver)]. rewrite !not_elem_of_cons in Hx. naive_solver. }
  destruct Hn as (? & ? & ? & ? & ?). rewrite decide_False by naive_solver. rewrite !decide_False by done. done.
Qed.

Lemma react_neutrals l : forall v, Forall (fun x => neutral x \/ (st x = 0xc /\ txs v <> [])) l ->
  (react_all v l).1 = [] /\ same_vars v (react_all v l).2.
Proof.
  induction l as [|x l IH]; intros v Hl; [done|]. apply Forall_cons in Hl as [Hx Hl]. cbn.
  destruct (react_neutral v x Hx) as [E1 (W1 & T1 & R1 & S1)]. destruct (react v x) as [o v']. cbn in *. subst o.
  destruct (IH v') as [E2 (W2 & T2 & R2 & S2)].
  { eapply Forall_impl; [exact Hl|]. cbn. by rewrite T1. }
  destruct (react_all v' l) as [o' v'']. cbn in *. subst. unfold same_vars. split; [done|]. split_and!; congruence.
Qed.

Lemma react_data out inn l : data_phase out inn l -> forall v, txs v <> [] -> skip_tx v = false ->
  exists v', react_all v l = ([], v') /\ write v' = write v /\ txs v' = txs v ++ out /\ rxs v' = rxs v ++ inn.
Proof.
  induction 1 as [|x out inn l Hx _ IH|x out inn l Hx _ IH|x out inn l Hx _ IH]; intros v Ht Hs; cbn.
  - exists v. by rewrite !app_nil_r.
  - destruct (react_neutral v x) as [E (W1 & T1 & R1 & S1)]; [naive_solver|].
    destruct (react v x) as [o v']. cbn in *. subst o. destruct (IH v') as (v'' & -> & W2 & T2 & R2); [congruence..|].
    exists v''. split; [done|]. split_and!; congruence.
  - assert (E : react v x = ([], mk_vars x (write v) (txs v ++ [tx x]) (rxs v) false)).
    { unfold react. rewrite decide_False by lia. rewrite decide_False by naive_solver.
      rewrite (decide_False (P := st x = 0xf)) by lia. rewrite decide_True by done. by rewrite Hs. }
    rewrite E. edestruct IH as (v'' & -> & W2 & T2 & R2); cycle 2.
    + exists v''. split; [done|]. cbn in *. split; [done|]. split; [by rewrite T2, <- app_assoc|done].
    + by destruct (txs v).
    + done.
  - assert (E : react v x = ([], mk_vars x (write v) (txs v) (rxs v ++ [rx x]) false)).
    { unfold react. rewrite decide_False by lia. rewrite decide_False by naive_solver.
      rewrite (decide_True (P := st x = 0xf)) by done. rewrite decide_False by lia. by rewrite Hs. }
    rewrite E. edestruct IH as (v'' & -> & W2 & T2 & R2); cycle 2.
    + exists v''. split; [done|]. cbn in *. split; [done|]. split; [done|by rewrite R2, <- app_assoc].
    + done.
    + done.
Qed.

Lemma react_transaction t l : on_wire t l -> forall v, exists v', react_all v l = ([end_report v], v') /\
  end_report v' = reported t.
Proof.
  intros [s a k l1 l2 l' Hs Hts Hl1 Ha Hta Hl2 Hk Hd] v.
  set (v1 := mk_vars s (bool_decide (Z.land (tx s) 0x1 = 0)) [] [] true).
  assert (E1 : react v s = ([end_report v], v1)).
  { unfold react. rewrite decide_True by done. rewrite !decide_False by lia. done. }
  cbn [react_all]. rewrite E1, react_all_app.
  destruct (react_neutrals l1 v1) as [O1 (W1 & T1 & R1 & S1)].
  { eapply Forall_impl; [exact Hl1|]. naive_solver. }
  set (v2 := (react_all v1 l1).2) in *. rewrite O1. cbn [app react_all].
  assert (E2 : react v2 a = ([], mk_vars a (write v2) [tx a] (rxs v2) true)).
  { unfold react. rewrite decide_False by lia. rewrite decide_True by done. rewrite !decide_False by lia. done. }
  rewrite E2. set (v3 := mk_vars a _ _ _ _). rewrite react_all_app.
  destruct (react_neutrals l2 v3) as [O2 (W2 & T2 & R2 & S2)].
  { eapply Forall_impl; [exact Hl2|]. naive_solver. }
  set (v4 := (react_all v3 l2).2) in *. rewrite O2. cbn [app react_all].
  assert (E3 : react v4 k = ([], mk_vars k (write v4) (txs v4) (rxs v4) false)).
  { unfold react. rewrite decide_False by lia. rewrite decide_False by lia.
    rewrite (decide_False (P := st k = 0xf)) by lia. rewrite decide_True by done. by rewrite S2. }
  rewrite E3. edestruct (react_data _ _ _ Hd) as (v5 & -> & W3 & T3 & R3); cycle 2.
  - exists v5. split; [done|]. cbn in *. unfold end_report, reported. rewrite T3, T2, W3, W2, W1, R3, R2, R1. cbn. by rewrite Hts, Hta.
  - cbn. by rewrite T2.
  - done.
Qed.

Lemma react_traffic ts l : traffic ts l -> forall v,
  (react_all v l).1 = match ts with [] => [] | t :: ts => end_report v :: map reported (removelast (t :: ts)) end.
Proof.
  induction 1 as [|t ts l l' Ht Hts IH]; intros v; [done|].
  destruct (react_transaction t l Ht v) as (v' & E & Hv'). rewrite react_all_app, E. cbn [fst snd]. rewrite IH.
  destruct ts as [|t' ts]; [done|]. rewrite Hv'. done.
Qed.

(** The samples that [n] iterations take. *)
Fixpoint sample_loop {S} `{memProvider S} (n : nat) (off : Z) : M S (list sample) :=
  match n with
  | O => mret []
  | Datatypes.S n =>
      rxtx ← MustRead32 (base + off + 0x20);
      mr ← MustRead32 (base + off + 0x14);
      xs ← sample_loop n off;
      mret (decode rxtx mr :: xs)
  end.

Lemma watch_loop_samples {S} `{memProvider S} off n : forall v (s s' : S) xs,
  sample_loop n off s = (Ret xs, s') -> watch_loop n off v s = (Ret (watch_all v xs).1, s').
Proof.
  induction n as [|n IH]; intros v s s' xs E; cbn in *; [by injection E as <- <-|]. unfold mbind, M_bind in *.
  destruct (MustRead32 (base + off + 0x20) s) as [[a| | |] s1]; try done.
  destruct (MustRead32 (base + off + 0x14) s1) as [[b| | |] s2]; try done.
  destruct (sample_loop n off s2) as [[ys| | |] s3] eqn:Es; try done. injection E as <- <-. cbn.
  destruct (watch v (decode a b)) as [o v']. rewrite (IH v' _ _ _ Es). cbn. by destruct (watch_all v' ys).
Qed.

(** C30:  When the monitor samples fast enough to see every state of the bus, any of them possibly many times and with
    idle samples in between, so that the samples without those show the states of a series of
    transactions (in which neighbouring states differ: a byte that follows an equal one counts if another state was seen in between), it reports one malformed transaction for the first start
    condition and then, at each further start, the transaction before with its
    direction, address, acknowledged and received bytes, in order; the last
    transaction is not reported. *)
Theorem i2c_watch_reports {S} `{memProvider S} (n : nat) (off : Z) (s s' : S) (xs : list sample) (ts : list transaction) :
  sample_loop n off s = (Ret xs, s') -> ts <> [] -> traffic ts (compress (mk_sample 0 0 0) xs) ->
  watch_loop n off start_vars s = (Ret (Malformed :: map reported (removelast ts)), s').
Proof.
  intros E Hne Ht. rewrite (watch_loop_samples _ _ _ _ _ _ E), watch_all_compress. cbn [prev start_vars].
  rewrite (react_traffic ts) by done. by destruct ts.
Qed.

(** A controller that is not there: the program panics after describing the others. *)
Theorem i2cwatcher_bad_bus {S} `{memProvider S} (n : nat) (bus : Z) (s s' : S) (ls : list string) :
  ~ (0 <= bus < 14) -> describe_all 0 offset s = (Ret ls, s') -> i2cwatcher_main n bus s = (Panic, s').
Proof.
  intros Hb E. unfold i2cwatcher_main, mbind, M_bind. rewrite E. case_decide; [|done].
  rewrite lookup_ge_None_2; [done|]. cbn. lia.
Qed.

(** ** A recorded bus *)

Module SimI2c.
(** The values that the reads return in turn. *)
Definition feed : Type := list Z.

#[export] Instance feed_mem : memProvider feed := {
  MustRead32 _ s := match s with v :: s => (Ret v, s) | [] => (Ret 0, []) end;
  MustRead8 _ s := (Ret 0, s);
  MustWrite32 _ _ s := (Ret tt, s);
  MustWrite8 _ _ s := (Ret tt, s);
  Close s := (Ret tt, s);
}.

(** The register values of a sample. *)
Definition regs (x : sample) : list Z := [Z.lor (Z.shiftl (rx x) 8) (tx x); Z.shiftl (st x) 19].

(** A write of 0x12 0x34 to address 0x50, sampled twice each, then a read from 0x50. *)
Definition run : list sample :=
  [ mk_sample 0x9 0xa0 0; mk_sample 0x9 0xa0 0; mk_sample 0 0 0; mk_sample 0xc 0xa0 0; mk_sample 0xd 0xa0 0;
    mk_sample 0xc 0x12 0; mk_sample 0xc 0x12 0; mk_sample 0xd 0x12 0; mk_sample 0xc 0x34 0; mk_sample 0xd 0x34 0;
    mk_sample 0xb 0x34 0; mk_sample 0x9 0xa1 0; mk_sample 0xc 0xa1 0; mk_sample 0xd 0xa1 0; mk_sample 0xe 0xa1 0;
    mk_sample 0xf 0xa1 0x77 ].

Lemma run_traffic : traffic [mk_transaction 0xa0 [0x12; 0x34] []; mk_transaction 0xa1 [] [0x77]]
  (compress (mk_sample 0 0 0) run).
Proof.
  assert (Hn : forall x, st x = 0xb \/ st x = 0xe -> neutral x).
  { intros x Hx. unfold neutral. rewrite !not_elem_of_cons. destruct Hx as [-> | ->]; repeat split; try lia; by apply not_elem_of_nil. }
  change (compress (mk_sample 0 0 0) run) with
    (([mk_sample 0x9 0xa0 0; mk_sample 0xc 0xa0 0; mk_sample 0xd 0xa0 0; mk_sample 0xc 0x12 0; mk_sample 0xd 0x12 0;
      mk_sample 0xc 0x34 0; mk_sample 0xd 0x34 0; mk_sample 0xb 0x34 0]) ++
     ([mk_sample 0x9 0xa1 0; mk_sample 0xc 0xa1 0; mk_sample 0xd 0xa1 0; mk_sample 0xe 0xa1 0; mk_sample 0xf 0xa1 0x77] ++ [])).
  apply traffic_cons; [|apply traffic_cons; [|constructor]].
  - apply (wire _ (mk_sample 0x9 0xa0 0) (mk_sample 0xc 0xa0 0) (mk_sample 0xd 0xa0 0) [] []); auto.
    apply data_other; [by right|]. apply (data_acked (mk_sample 0xd 0x12 0)); [done|].
    apply data_other; [by right|]. apply (data_acked (mk_sample 0xd 0x34 0)); [done|].
    apply data_other; [left; apply Hn; by left|constructor].
  - apply (wire _ (mk_sample 0x9 0xa1 0) (mk_sample 0xc 0xa1 0) (mk_sample 0xd 0xa1 0) [] []); auto.
    apply data_other; [left; apply Hn; by right|]. apply (data_received (mk_sample 0xf 0xa1 0x77)); [done|constructor].
Qed.
End SimI2c.
Import SimI2c.

Lemma i2c_watch_reports_witness :
  watch_loop 16 0x40 start_vars (concat (map regs run)) = (Ret [Malformed; Transaction true 0xa0 [0x12; 0x34] []], []).
Proof.
  apply (i2c_watch_reports 16 0x40 (concat (map regs run)) [] run
    [mk_transaction 0xa0 [0x12; 0x34] []; mk_transaction 0xa1 [] [0x77]]); [by vm_compute|done|apply run_traffic].
Defined.
