(* ===== verification/Server.v ===== *)
(** * The RPC and metrics servers (pkg/bmc/grpc.go, pkg/bmc/metric.go)

    Which servers are started, where they listen and with which options, and the
    certificate that secures the remote one.  The gRPC and HTTP packages are left out: a
    server is the address it listens on and its options. *)

From S2P Require Import Prelude GoMonad Cert Encoding Json AcmeTypes Jws Acme AcmeFacts AcmeSpec AcmeRenew.
#[local] Open Scope string_scope.
#[local] Open Scope list_scope.
#[local] Open Scope Z_scope.

(** [grpc.Creds] carries the certificate the server presents. *)
Inductive ServerOption (K : Type) : Type := StreamInterceptor | UnaryInterceptor | Creds (c : Certificate K).
Arguments StreamInterceptor {K}.
Arguments UnaryInterceptor {K}.
Arguments Creds {K} c.

(** A started server; for the metrics there are no options. *)
Record server (K : Type) : Type := mk_server { addr : string; options : list (ServerOption K) }.
Arguments mk_server {K} _ _.
Arguments addr {K} _.
Arguments options {K} _.

(** The servers and the two gauges of the certificate. *)
Record srv (K : Type) : Type := mk_srv { servers : list (server K); tlsCertificateLoaded : Z; tlsCertificateExpiry : Z }.
Arguments mk_srv {K} _ _ _.
Arguments servers {K} _.
Arguments tlsCertificateLoaded {K} _.
Arguments tlsCertificateExpiry {K} _.

Definition no_servers {K} : srv K := mk_srv [] 0 0.

Definition local_addr : string := "[::1]:80".
Definition remote_addr : string := ":443".
Definition metrics_addr : string := "[::]:9370".

Section Servers.
Context {K : Type} `{Crypto K}.

(** [m.newServer(l, c)]; [None] is the nil certificate.  Taking the leaf of an empty
    chain panics. *)
Definition newServer (l : string) (c : option (Certificate K)) : M (srv K) unit :=
  opts ← match c with
         | None => mret [StreamInterceptor; UnaryInterceptor]
         | Some c =>
             match chain c with
             | [] => go_panic
             | der :: _ =>
                 _ ← match ParseCertificate der with
                     | Ok v => modify (fun s => mk_srv (servers s) 1 (NotAfter v / 10 ^ 9))
                     | Err _ => mret tt
                     end;
                 mret [Creds c]
             end
         end;
  modify (fun s => mk_srv (servers s ++ [mk_server l opts]) (tlsCertificateLoaded s) (tlsCertificateExpiry s)).

(** [startGRPC], with the result of listening. *)
Definition startGRPC (listen : result unit) : M (srv K) (result unit) :=
  match listen with
  | Err e => mret (Err ("could not listen: " +:+ e))
  | Ok _ => _ ← newServer local_addr None; mret (Ok tt)
  end.

Definition EnableRemote (listen : result unit) (c : option (Certificate K)) : M (srv K) (result unit) :=
  match listen with
  | Err e => mret (Err ("could not listen: " +:+ e))
  | Ok _ => _ ← newServer remote_addr c; mret (Ok tt)
  end.

Definition startMetrics (listen : result unit) : M (srv K) (result unit) :=
  match listen with
  | Err e => mret (Err ("could not listen: " +:+ e))
  | Ok _ => _ ← modify (fun s => mk_srv (servers s ++ [mk_server metrics_addr []]) (tlsCertificateLoaded s) (tlsCertificateExpiry s));
            mret (Ok tt)
  end.
End Servers.

(** [GetVersion]. *)
Record Version : Type := mk_version { version : string; GitHash : string }.
Definition GetVersion (v : Version) : string * string := (version v, GitHash v).

(** [m.renew()] of a manager as the renewal of [Cert.maybeRenew]. *)
Definition renewal {W P D K} `{AcmeEnv W} `{AcmeLib} `{Signing W P} `{RenewEnv W K} (w : Z) (rounds fuel : nat)
    (m : Manager P D) : M (W * D) (result (Certificate K)) := fun '(x, d) =>
  let '(o, s) := AcmeRenew.renew w rounds fuel m x d in
  (match o with
   | Ret (Done c) => Ret (Ok c) | Ret (Fail e) => Ret (Err (err_Error e))
   | Panic => Panic | Exit => Exit | Blocked => Blocked
   end, (net (ac s), hd_st s)).

(** Whatever [MaybeRenew] returns without an error is a certificate with a leaf. *)
Lemma maybeRenew_leaf {W P D K} `{AcmeEnv W} `{AcmeLib} `{Signing W P} `{RenewEnv W K} `{Crypto K} (w : Z) rounds fuel
    (m : Manager P D) now kp kp' (s s' : W * D) :
  maybeRenew (renewal w rounds fuel m) now kp s = (Ret (Ok kp'), s') -> exists c der rest, kp' = Some c /\ chain c = der :: rest.
Proof.
  unfold maybeRenew. destruct (validateCert kp now) eqn:Ev.
  - intros [= <- <-]. unfold validateCert in Ev. destruct kp as [c|]; [|done]. destruct (chain c) as [|der rest] eqn:Ec; [done|]. eauto.
  - unfold mbind, M_bind, renewal. destruct s as [x d]. destruct (AcmeRenew.renew w rounds fuel m x d) as [[[e|c]| | |] s1] eqn:E; try done.
    cbn. intros [= <- <-]. apply renew_chain in E. destruct (chain c) as [|der rest] eqn:Ec; [cbn in E; lia|]. eauto.
Qed.

(** Remote access is encrypted: with what [MaybeRenew] returned over the ACME client,
    [EnableRemote] does not panic, the server on port 443 presents that
    certificate, the gauges say so exactly when the leaf parses, and no
    other server is added; the servers before keep their options.  A renewed
    certificate always has a leaf, because a chain from the
    server has at least one block. *)
Theorem EnableRemote_encrypted {W P D K} `{AcmeEnv W} `{AcmeLib} `{Signing W P} `{RenewEnv W K} `{Crypto K} (w : Z)
    (rounds fuel : nat) (m : Manager P D) (now : Z) (kp kp' : option (Certificate K)) (s s' : W * D) (g : srv K) :
  maybeRenew (renewal w rounds fuel m) now kp s = (Ret (Ok kp'), s') ->
  exists c der rest, kp' = Some c /\ chain c = der :: rest /\
    EnableRemote (Ok tt) kp' g =
      (Ret (Ok tt), mk_srv (servers g ++ [mk_server remote_addr [Creds c]])
         (match ParseCertificate der with Ok _ => 1 | Err _ => tlsCertificateLoaded g end)
         (match ParseCertificate der with Ok v => NotAfter v / 10 ^ 9 | Err _ => tlsCertificateExpiry g end)).
Proof.
  intros (c & der & rest & -> & Ec)%maybeRenew_leaf. exists c, der, rest. split; [done|]. split; [done|].
  unfold EnableRemote, newServer, mbind, M_bind. rewrite Ec. by destruct (ParseCertificate der).
Qed.

(** The remote server does not count its calls: the interceptors of the metrics are
    replaced by the credentials, not kept beside them. *)
Theorem remote_without_interceptors {K} `{Crypto K} (c : Certificate K) (g g' : srv K) :
  EnableRemote (Ok tt) (Some c) g = (Ret (Ok tt), g') ->
  servers g' = servers g ++ [mk_server remote_addr [Creds c]] /\
  (startGRPC (K:=K) (Ok tt) g).2 =
    mk_srv (servers g ++ [mk_server local_addr [StreamInterceptor; UnaryInterceptor]]) (tlsCertificateLoaded g) (tlsCertificateExpiry g).
Proof.
  unfold EnableRemote, newServer, mbind, M_bind. destruct (chain c) as [|der rest]; [done|].
  destruct (ParseCertificate der); intros [= <-]; done.
Qed.

Import SimAcme SimRenew SimCert.

Lemma EnableRemote_encrypted_witness :
  exists c, EnableRemote (K:=Z) (Ok tt) (Some c) no_servers =
    (Ret (Ok tt), mk_srv [mk_server ":443" [Creds c]] 0 0) /\ PrivateKey c = 77.
Proof.
  destruct (EnableRemote_encrypted (K:=Z) 32 2 1 manager 0 None (Some (mk_cert [[5]; [6]] 77)) (SimRenew.answers, Dns.startDNS "bmc.example.org")
    (maybeRenew (renewal (K:=Z) 32 2 1 manager) 0 None (SimRenew.answers, Dns.startDNS "bmc.example.org")).2 no_servers)
    as (c & der & rest & Ec & Ech & E); [by vm_compute|].
  injection Ec as <-. exists (mk_cert [[5]; [6]] 77). split; [|done]. rewrite E. by injection Ech as <- <-.
Defined.
