(* ===== verification/Boot.v ===== *)
(** * The startup as one run (pkg/bmc/system.go over the modelled components)

    [System] describes the startup over the results of its calls.  Here the calls that
    concern remote access are the modelled components themselves, on one state: the servers
    ([Server]), the files ([System.createFile], [Cert]), the DNS responder ([Dns]) and the ACME server
    with the clock and the random source ([AcmeRenew]).  Hardware, network set-up and the listening sockets stay
    results of the environment. *)

From S2P Require Import Prelude GoMonad GoStrings Cert Time System Dns Encoding Json AcmeTypes Jws Acme AcmeFacts AcmeSpec AcmeRenew Server.
#[local] Open Scope string_scope.
#[local] Open Scope list_scope.
#[local] Open Scope Z_scope.

Notation disk := (gmap string (list Z)).

(** [tls.X509KeyPair]: a certificate of the PEM blocks of a chain and of a key.  It checks that the
    public key of the leaf is that of the private key. *)
Class KeyPairs (K : Type) : Type := {
  X509KeyPair : list Z -> list Z -> result (Certificate K);
  key_matches : list Z -> K -> bool;
}.

(** It reads back what the encoders of this package write, when the leaf parses and its key matches. *)
Class KeyPairLaws (K : Type) `{Crypto K} `{KeyPairs K} : Prop := {
  keypair_encoded : forall c der rest v b kb, chain c = der :: rest -> ParseCertificate der = Ok v -> key_matches der (PrivateKey c) = true ->
    encodeCert (chain c) = Ok b -> encodeKey (PrivateKey c) = Ok kb -> X509KeyPair b kb = Ok c }.

(** The machine: servers, files, the responder, and what is outside. *)
Record machine (W K : Type) : Type := mk_machine { m_srv : srv K; m_files : disk; m_dns : dnsServer; m_world : W }.
Arguments mk_machine {W K} _ _ _ _.
Arguments m_srv {W K} _.
Arguments m_files {W K} _.
Arguments m_dns {W K} _.
Arguments m_world {W K} _.

(** The results of the operating system and the other components. *)
Record boot_env (K : Type) : Type := mk_boot {
  e_seed : result unit; e_system : result unit; e_gpio : result unit; e_fan : result unit; e_uart : result unit;
  e_network : result string; e_opened : string -> result unit; e_wrote : string -> result unit;
  e_debug_ssh : bool; e_ssh_key : list Z; e_sshd : result unit; e_keys : list (list Z);
  e_metrics : result unit; e_grpc : result unit; e_dns : result unit; e_generated : result K }.
Arguments e_seed {K} _.
Arguments e_system {K} _.
Arguments e_gpio {K} _.
Arguments e_fan {K} _.
Arguments e_uart {K} _.
Arguments e_network {K} _.
Arguments e_opened {K} _ _.
Arguments e_wrote {K} _ _.
Arguments e_debug_ssh {K} _.
Arguments e_ssh_key {K} _.
Arguments e_sshd {K} _.
Arguments e_keys {K} _.
Arguments e_metrics {K} _.
Arguments e_grpc {K} _.
Arguments e_dns {K} _.
Arguments e_generated {K} _.

Definition crt_file (fqdn : string) : string := "/config/" +:+ (fqdn +:+ ".crt").
Definition key_file (fqdn : string) : string := "/config/" +:+ (fqdn +:+ ".key").
Definition acme_key_file : string := "/config/acme.key".

(** The files as the file system of [Cert]; a write fails as a whole or replaces the
    file. *)
Definition disk_fs (write_error : string -> option error) : Fs disk := {|
  ReadFile d f := match d !! f with Some b => RData b | None => RNotExist end;
  WriteFile f b mode := fun d =>
    match write_error f with Some e => (Ret (Err e), d) | None => (Ret (Ok tt), <[f := b]> d) end |}.

Lemma disk_fs_laws write_error : FsLaws disk (H := disk_fs write_error).
Proof.
  split; cbn.
  - intros d f b mode d'. destruct (write_error f); [done|]. intros [= <-]. by rewrite lookup_insert_eq.
  - intros d f b mode r d' g. destruct (write_error f); intros [= _ <-] Hg; [done|]. by rewrite lookup_insert_ne.
  - intros d f b mode. destruct (write_error f); eauto.
Qed.

Section Boot.
Context {W P K : Type} `{AcmeEnv W} `{AcmeLib} `{Signing W P} `{RenewEnv W K} `{Crypto K} `{KeyPairs K}.
(** The disk errors, the ECDSA key as the key of an ACME account, and the configuration. *)
Context (write_error : string -> option error) (signer : K -> Signer P) (config : ACMEConfig).

#[local] Instance files : Fs disk := disk_fs write_error.
#[local] Instance files_laws : FsLaws disk := disk_fs_laws write_error.

Definition on_srv {A} (m : M (srv K) A) : M (machine W K) A := fun s =>
  let '(r, v) := m (m_srv s) in (r, mk_machine v (m_files s) (m_dns s) (m_world s)).
Definition on_files {A} (m : M disk A) : M (machine W K) A := fun s =>
  let '(r, d) := m (m_files s) in (r, mk_machine (m_srv s) d (m_dns s) (m_world s)).
Definition on_acme {A} (m : M (W * dnsServer) A) : M (machine W K) A := fun s =>
  let '(r, (x, d)) := m (m_world s, m_dns s) in (r, mk_machine (m_srv s) (m_files s) d x).

(** [if err != nil { log; return err, nil }]. *)
Definition required {A B} (r : result A) (k : A -> M (machine W K) (result B)) : M (machine W K) (result B) :=
  match r with Err e => mret (Err e) | Ok a => k a end.

(** [createFile], whose error is only logged. *)
Definition create (E : boot_env K) (f : string) (c : list Z) : M (machine W K) unit :=
  on_files (modify (fun d => (createFile d (e_opened E f) (e_wrote E f) f c).2)).

(** [StartupWithConfig]: the certificate manager with which [asyncStartup] is started. *)
Definition startup (E : boot_env K) : M (machine W K) (result (Manager P dnsServer)) :=
  match e_seed E with Err _ => go_fatal | Ok _ =>
  required (e_system E) (fun _ =>
  required (e_gpio E) (fun _ =>
  required (e_fan E) (fun _ =>
  required (e_uart E) (fun _ =>
  required (e_network E) (fun fqdn =>
  _ ← create E "/etc/passwd" (str_bytes "root:x:0:0:root:/root:/bbin/elvish");
  _ ← create E "/etc/group" (str_bytes "root:x:0:");
  _ ← (if e_debug_ssh E
       then on_files (modify (fun d => (startSsh (e_ssh_key E) (e_opened E) (e_wrote E) (e_sshd E) (e_keys E) d).2))
       else mret tt);
  r ← on_srv (startMetrics (e_metrics E));
  required r (fun _ =>
  r ← on_srv (startGRPC (K:=K) (e_grpc E));
  required r (fun _ =>
  required (e_dns E) (fun _ =>
  _ ← (fun s => (Ret tt, mk_machine (m_srv s) (m_files s) (startDNS fqdn) (m_world s)));
  k ← on_files (loadOrGenerateKey (e_generated E) acme_key_file);
  match k with
  | (Some k, None) => mret (Ok (mk_manager fqdn (signer k) config [dns_handler]))
  | (_, Some e) => mret (Err e)
  | (None, None) => mret (Err "")
  end))))))))
  end.

(** ** Starting *)

Definition local_servers : list (server K) := [mk_server metrics_addr []; mk_server local_addr [StreamInterceptor; UnaryInterceptor]].

(** The files that the startup writes. *)
Definition startup_files : list string := ["/etc/passwd"; "/etc/group"; host_key_file; keys_file; acme_key_file].

Lemma createFile_other d o wr f c g : g <> f -> (createFile d o wr f c).2 !! g = d !! g.
Proof. intros Hg. unfold createFile. destruct o; [done|]. destruct wr; cbn; by rewrite lookup_insert_ne. Qed.

Lemma startSsh_other sk o wr st ak d g : g <> host_key_file -> g <> keys_file -> (startSsh sk o wr st ak d).2 !! g = d !! g.
Proof.
  intros Hg1 Hg2. unfold startSsh.
  assert (E1 : forall r d1, (match d !! host_key_file with
    | None => createFile d (o host_key_file) (wr host_key_file) host_key_file sk | Some _ => (Ok tt, d) end) = (r, d1) -> d1 !! g = d !! g).
  { intros r d1. destruct (d !! host_key_file); [by intros [= _ <-]|]. intros E.
    change d1 with (r, d1).2. rewrite <- E. by apply createFile_other. }
  destruct (match d !! host_key_file with None => _ | Some _ => _ end) as [[e|u] d1]; [by apply (E1 (Err e))|].
  pose proof (createFile_other d1 (o keys_file) (wr keys_file) keys_file (join_lines ak) g Hg2) as E2.
  destruct (createFile d1 _ _ keys_file _) as [r d2]. cbn in E2. specialize (E1 _ _ eq_refl). destruct st; cbn; congruence.
Qed.

Lemma loadOrGenerateKey_other gen f d r d' g : loadOrGenerateKey gen f d = (Ret r, d') -> g <> f -> d' !! g = d !! g.
Proof.
  unfold loadOrGenerateKey, mbind, M_bind, get. cbn. destruct (d !! f); [by intros [= _ <-]|].
  unfold generateAndSaveKey. destruct gen as [e|k]; [by intros [= _ <-]|]. destruct (MarshalECPrivateKey k); [by intros [= _ <-]|].
  unfold mbind, M_bind. cbn. destruct (write_error f); intros [= _ <-] Hg; [done|]. by rewrite lookup_insert_ne.
Qed.

(** What a startup did, whatever its result: the servers it added are those on local
    addresses, in order, the rest of the machine is not touched but for the startup files
    and the responder. *)
Definition started (s s' : machine W K) : Prop :=
  (exists l, l `prefix_of` local_servers /\ m_srv s' = mk_srv (servers (m_srv s) ++ l) (tlsCertificateLoaded (m_srv s)) (tlsCertificateExpiry (m_srv s))) /\
  m_world s' = m_world s /\ forall g, g ∉ startup_files -> m_files s' !! g = m_files s !! g.

Definition handed_over (E : boot_env K) (m : Manager P dnsServer) (s s' : machine W K) : Prop :=
  e_network E = Ok (FQDN m) /\ ACMEHandlers m = [dns_handler] /\ Config m = config /\ m_dns s' = startDNS (FQDN m) /\
  m_srv s' = mk_srv (servers (m_srv s) ++ local_servers) (tlsCertificateLoaded (m_srv s)) (tlsCertificateExpiry (m_srv s)).

Lemma started_refl s : started s s.
Proof.
  split; [|done]. exists []. split; [by exists local_servers|]. rewrite app_nil_r. by destruct (m_srv s).
Qed.

(** The files after the accounts and the debug SSH server. *)
Definition early_files (E : boot_env K) (d : disk) : disk :=
  let d := (createFile d (e_opened E "/etc/passwd") (e_wrote E "/etc/passwd") "/etc/passwd" (str_bytes "root:x:0:0:root:/root:/bbin/elvish")).2 in
  let d := (createFile d (e_opened E "/etc/group") (e_wrote E "/etc/group") "/etc/group" (str_bytes "root:x:0:")).2 in
  if e_debug_ssh E then (startSsh (e_ssh_key E) (e_opened E) (e_wrote E) (e_sshd E) (e_keys E) d).2 else d.

Lemma early_files_other E d g : g ∉ take 4 startup_files -> early_files E d !! g = d !! g.
Proof.
  cbn. rewrite !not_elem_of_cons. intros (Hg1 & Hg2 & Hg3 & Hg4 & _). unfold early_files.
  destruct (e_debug_ssh E); rewrite ?startSsh_other by done; by rewrite !createFile_other.
Qed.

(** The part of the startup that concerns servers. *)
Definition serve (E : boot_env K) (fqdn : string) : M (machine W K) (result (Manager P dnsServer)) :=
  r ← on_srv (startMetrics (e_metrics E));
  required r (fun _ =>
  r ← on_srv (startGRPC (K:=K) (e_grpc E));
  required r (fun _ =>
  required (e_dns E) (fun _ =>
  _ ← (fun s => (Ret tt, mk_machine (m_srv s) (m_files s) (startDNS fqdn) (m_world s)));
  k ← on_files (loadOrGenerateKey (e_generated E) acme_key_file);
  match k with
  | (Some k, None) => mret (Ok (mk_manager fqdn (signer k) config [dns_handler]))
  | (_, Some e) => mret (Err e)
  | (None, None) => mret (Err "")
  end))).

Lemma startup_serves E s : startup E s = match e_seed E with
  | Err _ => (Exit, s)
  | Ok _ => required (e_system E) (fun _ => required (e_gpio E) (fun _ => required (e_fan E) (fun _ => required (e_uart E) (fun _ =>
      required (e_network E) (fun fqdn _ => serve E fqdn (mk_machine (m_srv s) (early_files E (m_files s)) (m_dns s) (m_world s))))))) s
  end.
Proof.
  unfold startup, required. destruct (e_seed E), (e_system E), (e_gpio E), (e_fan E), (e_uart E), (e_network E); try done.
  unfold early_files. by destruct (e_debug_ssh E).
Qed.

Lemma started_app l l' (s : machine W K) d dn : l ++ l' = local_servers -> (forall g, g ∉ startup_files -> d !! g = m_files s !! g) ->
  started s (mk_machine (mk_srv (servers (m_srv s) ++ l) (tlsCertificateLoaded (m_srv s)) (tlsCertificateExpiry (m_srv s))) d dn (m_world s)).
Proof. intros El Hd. split; [|done]. exists l. split; [by exists l'|done]. Qed.

Lemma serve_started E fqdn d s o s' : (forall g, g ∉ startup_files -> d !! g = m_files s !! g) -> e_network E = Ok fqdn ->
  serve E fqdn (mk_machine (m_srv s) d (m_dns s) (m_world s)) = (o, s') -> started s s' /\ (forall m, o = Ret (Ok m) -> handed_over E m s s').
Proof.
  intros Hd En. unfold serve, startMetrics, startGRPC, newServer, required, on_srv. destruct s as [[sv gl ge] df dn x]. cbn in Hd.
  destruct (e_metrics E) as [e|[]]; unfold mbind, M_bind, modify; cbn.
  { intros [= <- <-]. split; [|done]. split; [exists []; split; [by exists local_servers|cbn; by rewrite app_nil_r]|done]. }
  destruct (e_grpc E) as [e|[]]; cbn.
  { intros [= <- <-]. split; [|done]. by eapply (started_app [mk_server metrics_addr []] _ (mk_machine (mk_srv sv gl ge) df dn x)). }
  rewrite <- app_assoc. destruct (e_dns E) as [e|[]]; cbn.
  { intros [= <- <-]. split; [|done]. by apply (started_app local_servers [] (mk_machine (mk_srv sv gl ge) df dn x)). }
  unfold on_files. cbn [m_files m_srv m_dns m_world].
  destruct (loadOrGenerateKey _ _ d) as [ok d'] eqn:Ek.
  assert (Hd' : forall r, ok = Ret r -> forall g, g ∉ startup_files -> d' !! g = df !! g).
  { intros r -> g Hg. rewrite (loadOrGenerateKey_other _ _ _ _ _ g Ek); [by apply Hd|]. intros ->. apply Hg. unfold startup_files. set_solver. }
  assert (Hr : exists r, ok = Ret r).
  { unfold loadOrGenerateKey, generateAndSaveKey, mbind, M_bind, get in Ek. cbn in Ek.
    destruct (d !! acme_key_file); [injection Ek as <- _; eauto|]. destruct (e_generated E) as [e|k]; [injection Ek as <- _; eauto|].
    destruct (MarshalECPrivateKey k); [injection Ek as <- _; eauto|]. cbn in Ek. destruct (write_error _); injection Ek as <- _; eauto. }
  destruct Hr as [[[k|] [e|]] ->]; intros [= <- <-]; (split; [apply (started_app local_servers [] (mk_machine (mk_srv sv gl ge) df dn x)); [done|by eapply Hd']|]); try done.
  intros m [= <-]. done.
Qed.

Lemma startup_started E s o s' : startup E s = (o, s') ->
  started s s' /\ (forall m, o = Ret (Ok m) -> handed_over E m s s').
Proof.
  rewrite startup_serves. unfold required.
  destruct (e_seed E), (e_system E), (e_gpio E), (e_fan E), (e_uart E);
    try (intros [= <- <-]; split; [apply started_refl|done]).
  destruct (e_network E) as [e|fqdn] eqn:En; [intros [= <- <-]; split; [apply started_refl|done]|].
  apply serve_started; [|done]. intros g Hg. apply early_files_other. contradict Hg. by apply elem_of_take in Hg as (i & Hi & _); eapply list_elem_of_lookup_2.
Qed.

(** ** [asyncStartup] *)

(** The width of an [int], the bounds of the ACME client, and the clock at each attempt. *)
Context (w : Z) (rounds fuel : nat) (now : nat -> Z).

(** [tls.LoadX509KeyPair(cf, kf)]; without a key pair the zero value, which has no chain and is
    as little valid as a nil pointer. *)
Definition LoadX509KeyPair (cf kf : string) (d : disk) : option (Certificate K) :=
  match d !! cf, d !! kf with
  | Some b, Some kb => match X509KeyPair b kb with Ok c => Some c | Err _ => None end
  | _, _ => None
  end.

(** The loop over [LoadX509KeyPair] and [MaybeRenew], at attempt [n]. *)
Fixpoint cert_loop (attempts n : nat) (m : Manager P dnsServer) : M (machine W K) (option (Certificate K)) :=
  match attempts with
  | O => fun s => (Blocked, s)
  | S attempts =>
      kp ← gets (fun s => LoadX509KeyPair (crt_file (FQDN m)) (key_file (FQDN m)) (m_files s));
      r ← on_acme (maybeRenew (renewal w rounds fuel m) (now n) kp);
      match r with
      | Ok kp => mret kp
      | Err _ => cert_loop attempts (S n) m
      end
  end.

(** Whether something arrives on the channel [timeAcquired]: what the time goroutine sends ([System.time_goroutine]) when the clock reads
    [year] and [AcquireTime] gives [times] in turn. *)
Definition timeAcquired (year : Z) (tries : nat) (times : nat -> outcome (result Z)) : outcome unit :=
  let o := acquireTime tries times 0 in
  if decide (TSignal ∈ time_goroutine year (match o with Ret _ => true | _ => false end) (Ok tt)) then Ret tt
  else match o with Panic => Panic | Exit => Exit | _ => Blocked end.

(** [asyncStartup], with the time goroutine and the result of listening. *)
Definition async_startup (attempts : nat) (year : Z) (tries : nat) (times : nat -> outcome (result Z)) (listen : result unit)
    (m : Manager P dnsServer) : M (machine W K) (result unit) :=
  _ ← (fun s => (timeAcquired year tries times, s));
  kp ← cert_loop attempts 0 m;
  match kp with
  | None => go_panic
  | Some c =>
      _ ← on_files (saveKeyPair c (crt_file (FQDN m)) (key_file (FQDN m)));
      on_srv (EnableRemote listen (Some c))
  end.

(** The clock is trusted when it reads a year past 2018, and else only after a time server answered. *)
Definition trusted_time (year : Z) (tries : nat) (times : nat -> outcome (result Z)) : Prop :=
  year > 2018 \/ exists n t, (n < tries)%nat /\ times n = Ret (Ok t).

Lemma acquireTime_answered tries times : forall k t n, acquireTime tries times k = Ret (t, n) -> (k <= n < tries + k)%nat /\ times n = Ret (Ok t).
Proof.
  induction tries as [|tries IH]; intros k t n; [done|]. cbn. destruct (times k) as [[e|t']| | |] eqn:Ek; try done.
  - intros [? ?]%IH. split; [lia|done].
  - intros [= <- <-]. split; [lia|done].
Qed.

Lemma timeAcquired_trusted year tries times : timeAcquired year tries times = Ret tt -> trusted_time year tries times.
Proof.
  unfold timeAcquired, time_goroutine, trusted_time. destruct (decide (year > 2018)) as [Hy|Hy]; [by left|].
  destruct (acquireTime tries times 0) as [[t n]| | |] eqn:Ea; cbn; [|case_decide as Hin; [set_solver|done]..].
  intros _. right. apply acquireTime_answered in Ea as [? ?]. exists n, t. split; [lia|done].
Qed.

(** ** The certificate *)

(** Where the certificate [c] of the machine [s] came from: from the files, valid at some attempt, or it is what a
    renewal returned, which left the responder and the world as they are in [s], and whose challenge the responder answers. *)
Definition certified (m : Manager P dnsServer) (d : disk) (s : machine W K) (c : Certificate K) : Prop :=
  (exists k, LoadX509KeyPair (crt_file (FQDN m)) (key_file (FQDN m)) d = Some c /\ validateCert (Some c) (now k) = true) \/
  (exists x dns sr, AcmeRenew.renew w rounds fuel m x dns = (Ret (Done c), sr) /\ m_dns s = hd_st sr /\ m_world s = net (ac sr) /\
    exists record, forall qs, Reply (m_dns s) qs =
      if decide (qs = [("_acme-challenge." +:+ FQDN m) +:+ "."])
      then mk_reply true RcodeSuccess [mk_TXT (("_acme-challenge." +:+ FQDN m) +:+ ".") 60 [record]]
      else mk_reply true RcodeNameError []).

Lemma boot_cert_loop_spec (m : Manager P dnsServer) : ACMEHandlers m = [dns_handler] ->
  forall attempts n s o s', cert_loop attempts n m s = (o, s') -> zone (m_dns s) = FQDN m +:+ "." ->
  m_srv s' = m_srv s /\ m_files s' = m_files s /\
  forall kp, o = Ret kp -> exists c der rest, kp = Some c /\ chain c = der :: rest /\ certified m (m_files s) s' c.
Proof.
  intros Hh attempts. induction attempts as [|attempts IH]; intros n s o s' E Hz; cbn [cert_loop] in E; [by injection E as <- <-|].
  unfold mbind, M_bind, gets, on_acme in E. set (kp := LoadX509KeyPair _ _ _) in E.
  destruct (maybeRenew (renewal w rounds fuel m) (now n) kp (m_world s, m_dns s)) as [r [x d]] eqn:Em.
  assert (Hd : zone d = FQDN m +:+ ".").
  { unfold maybeRenew in Em. destruct (validateCert kp (now n)); [by injection Em as <- <- <-|].
    unfold mbind, M_bind, renewal in Em. pose proof (renew_zone (K:=K) w rounds fuel m (m_world s) (m_dns s) _ Hh Hz) as Hzr.
    destruct (AcmeRenew.renew w rounds fuel m (m_world s) (m_dns s)) as [or sr]. cbn in Hzr.
    destruct or as [[e|c]| | |]; injection Em as <- <- <-; done. }
  destruct r as [[e|kp']| | |]; try (by injection E as <- <-).
  - destruct (IH (S n) _ _ _ E Hd) as (Hs & Hf & Hr). done.
  - injection E as <- <-. split_and!; [done|done|]. intros ? [= <-]. destruct (maybeRenew_leaf _ _ _ _ _ _ _ _ _ Em) as (c & der & rest & -> & Hc).
    exists c, der, rest. split_and!; [done|done|]. unfold maybeRenew in Em. destruct (validateCert kp (now n)) eqn:Ev.
    + left. exists n. injection Em as Ekp _ _. by rewrite Ekp in Ev.
    + right. unfold mbind, M_bind, renewal in Em. destruct (AcmeRenew.renew w rounds fuel m (m_world s) (m_dns s)) as [or sr] eqn:Er.
      destruct or as [[e|c']| | |]; try done. injection Em as <- <- <-. eexists _, _, sr. split_and!; [exact Er|done|done|].
      exact (renew_published w rounds fuel m (m_world s) (m_dns s) c' sr Hh Hz Er).
Qed.

(** A saved key pair is loaded again. *)
Lemma saved_loads `{!KeyPairLaws K} c der rest v cf kf d b kb : cf <> kf -> chain c = der :: rest -> ParseCertificate der = Ok v ->
  key_matches der (PrivateKey c) = true -> encodeCert (chain c) = Ok b -> encodeKey (PrivateKey c) = Ok kb ->
  write_error cf = None -> write_error kf = None ->
  exists d', saveKeyPair c cf kf d = (Ret (Ok tt), d') /\ LoadX509KeyPair cf kf d' = Some c /\ d' !! kf = Some kb.
Proof.
  intros Hne Hc Hv Hm Hb Hkb Hcf Hkf. unfold saveKeyPair, mbind, M_bind. rewrite Hb, Hkb. cbn. rewrite Hcf. cbn. rewrite Hkf. eexists. split; [done|].
  unfold LoadX509KeyPair. rewrite lookup_insert_ne, !lookup_insert_eq by done. by rewrite (keypair_encoded c der rest v b kb).
Qed.

Lemma saveKeyPair_returns c cf kf d : exists r d', saveKeyPair c cf kf d = (Ret r, d').
Proof.
  unfold saveKeyPair, mbind, M_bind. destruct (encodeCert (chain c)) as [e|b]; [by eauto|]. cbn. destruct (write_error cf); [by eauto|].
  destruct (encodeKey (PrivateKey c)) as [e|kb]; [by eauto|]. cbn. destruct (write_error kf); eauto.
Qed.
End Boot.

(** ** File names *)

Lemma crt_key_ne f g : crt_file f <> key_file g.
Proof.
  unfold crt_file, key_file. intros E. apply (f_equal str_bytes) in E. rewrite !str_bytes_app in E. apply app_inv_head in E.
  apply app_inj_2 in E as [_ E]; done.
Qed.

Lemma crt_not_startup f : crt_file f ∉ startup_files.
Proof.
  unfold startup_files, crt_file, host_key_file, keys_file, acme_key_file. rewrite !not_elem_of_cons, elem_of_nil.
  assert (Hn : forall p q, length (str_bytes q) = 4%nat -> q <> ".crt" -> "/config/" +:+ (f +:+ ".crt") <> p +:+ q).
  { intros p q Hq Hne E. apply (f_equal str_bytes) in E. rewrite !str_bytes_app, app_assoc in E. apply app_inj_2 in E as [_ E]; [|done].
    apply Hne. rewrite <- (bytes_str_bytes q), <- E. done. }
  split_and!; [by apply (Hn "/etc/pa" "sswd")|by apply (Hn "/etc/g" "roup")|by apply (Hn "/config/ssh_host_ecdsa" "_key")
    |by apply (Hn "/config/authorized_" "keys")|by apply (Hn "/config/acme" ".key")|by auto].
Qed.

Lemma key_not_startup f : f <> "acme" -> key_file f ∉ startup_files.
Proof.
  intros Hf. unfold startup_files, key_file, host_key_file, keys_file, acme_key_file. rewrite !not_elem_of_cons, elem_of_nil.
  assert (Hn : forall p q, length (str_bytes q) = 4%nat -> q <> ".key" -> "/config/" +:+ (f +:+ ".key") <> p +:+ q).
  { intros p q Hq Hne E. apply (f_equal str_bytes) in E. rewrite !str_bytes_app, app_assoc in E. apply app_inj_2 in E as [_ E]; [|done].
    apply Hne. rewrite <- (bytes_str_bytes q), <- E. done. }
  split_and!; [by apply (Hn "/etc/pa" "sswd")|by apply (Hn "/etc/g" "roup")|by apply (Hn "/config/ssh_host_ecdsa" "_key")
    |by apply (Hn "/config/authorized_" "keys")| |by auto].
  intros E. apply Hf. apply (f_equal str_bytes) in E. change "/config/acme.key" with ("/config/" +:+ ("acme" +:+ ".key")) in E.
  rewrite !str_bytes_app in E. apply app_inv_head, app_inv_tail in E. by rewrite <- (bytes_str_bytes f), E.
Qed.

(** ** From power-on to remote access *)

Section Theorems.
Context {W P K : Type} `{AcmeEnv W} `{AcmeLib} `{Signing W P} `{RenewEnv W K} `{Crypto K} `{KeyPairs K}.
Context (w : Z) (rounds fuel : nat) (signer : K -> Signer P) (config : ACMEConfig).

Definition remote_server (c : Certificate K) : server K := mk_server remote_addr [Creds c].

(** What [async_startup] does to the servers and files once it has a certificate. *)
Lemma async_startup_eq write_error now attempts year tries times listen m s o s' :
  async_startup write_error w rounds fuel now attempts year tries times listen m s = (o, s') -> ACMEHandlers m = [dns_handler] -> zone (m_dns s) = FQDN m +:+ "." ->
  (m_srv s' = m_srv s /\ m_files s' = m_files s /\ forall r, o <> Ret r) \/
  trusted_time year tries times /\ exists c r, certified w rounds fuel now m (m_files s) s' c /\ chain c <> [] /\
    saveKeyPair (F := disk) (H0 := files write_error) c (crt_file (FQDN m)) (key_file (FQDN m)) (m_files s) = (Ret r, m_files s') /\
    match listen with
    | Ok _ => o = Ret (Ok tt) /\ servers (m_srv s') = servers (m_srv s) ++ [remote_server c]
    | Err e => o = Ret (Err ("could not listen: " +:+ e)) /\ m_srv s' = m_srv s
    end.
Proof.
  unfold async_startup. unfold mbind at 1, M_bind at 1. intros E Hh Hz.
  destruct (timeAcquired year tries times) as [[]| | |] eqn:Et; try (left; by injection E as <- <-).
  unfold mbind at 1, M_bind at 1 in E.
  destruct (cert_loop _ _ _ _ _ _ m s) as [ol s1] eqn:El. destruct (boot_cert_loop_spec w rounds fuel now m Hh _ _ _ _ _ El Hz) as (Hs1 & Hf1 & Hr).
  destruct ol as [kp| | |]; try (left; by injection E as <- <-).
  destruct (Hr kp eq_refl) as (c & der & rest & -> & Hc & Hcert). right. split; [by apply timeAcquired_trusted|].
  destruct (saveKeyPair_returns write_error c (crt_file (FQDN m)) (key_file (FQDN m)) (m_files s1)) as (r & d & Es).
  unfold mbind, M_bind, on_files, on_srv in E. rewrite Es in E. exists c, r. rewrite <- Hf1, <- Hs1.
  unfold EnableRemote, newServer, mbind, M_bind in E. rewrite Hc in E. cbn [m_srv] in E. rewrite <- Hf1 in Hcert.
  destruct listen as [e|[]]; [by injection E as <- <-; cbn; rewrite Hc|].
  destruct (ParseCertificate der); injection E as <- <-; cbn; rewrite Hc; by split_and!.
Qed.

(** C3:  From a machine without servers to remote access: a startup starts the metrics and the
    local RPC server, on their addresses, or the first of them only, or none when it fails before,
    and never a remote one.  Without trusted time nothing more happens.  In every run the rest of the
    startup does not return and starts nothing, or it does after the clock was trusted, which means that it read
    a year past 2018 or a time server answered; then there is a certificate that was in the files and valid or that a
    renewal returned whose challenge the responder of this machine answers, its key pair was given to SaveKeyPair, and
    exactly one server is added, on port 443 with that certificate, if the port could be opened and none otherwise. *)
Theorem boot_end_to_end (write_error : string -> option error) (now : nat -> Z) (E : boot_env K) (s0 s1 : machine W K)
    (o : outcome (result (Manager P dnsServer))) (year : Z) (tries : nat) (times : nat -> outcome (result Z)) :
  m_srv s0 = no_servers -> startup (P:=P) write_error signer config E s0 = (o, s1) ->
  servers (m_srv s1) `prefix_of` local_servers /\
  forall m, o = Ret (Ok m) ->
    servers (m_srv s1) = local_servers /\
    (~ trusted_time year tries times -> forall attempts listen, exists o',
       async_startup write_error w rounds fuel now attempts year tries times listen m s1 = (o', s1) /\ forall r, o' <> Ret r) /\
    (forall attempts listen o' s2, async_startup write_error w rounds fuel now attempts year tries times listen m s1 = (o', s2) ->
       (servers (m_srv s2) = local_servers /\ m_files s2 = m_files s1 /\ forall r, o' <> Ret r) \/
       (trusted_time year tries times /\ exists c r, certified w rounds fuel now m (m_files s1) s2 c /\
        saveKeyPair (F := disk) (H0 := files write_error) c (crt_file (FQDN m)) (key_file (FQDN m)) (m_files s1) = (Ret r, m_files s2) /\
        match listen with
        | Ok _ => o' = Ret (Ok tt) /\ servers (m_srv s2) = local_servers ++ [remote_server c]
        | Err e => o' = Ret (Err ("could not listen: " +:+ e)) /\ servers (m_srv s2) = local_servers
        end)).
Proof.
  intros H0' Es. pose proof Es as Est; apply startup_started in Est; destruct Est as [((l & Hl & Hsrv) & _) Ho]. rewrite H0' in Hsrv. cbn in Hsrv.
  split; [by rewrite Hsrv|]. intros m Hm. destruct (Ho m Hm) as (_ & Hh & _ & Hd & Hsrv'). rewrite H0' in Hsrv'. cbn in Hsrv'.
  split_and!; [by rewrite Hsrv'|..].
  - intros Hn attempts listen. unfold async_startup. unfold mbind at 1, M_bind at 1.
    destruct (timeAcquired year tries times) as [[]| | |] eqn:Et; [by apply timeAcquired_trusted in Et|by eexists..].
  - intros attempts listen o' s2 Ea.
    destruct (async_startup_eq _ _ _ _ _ _ _ _ _ _ _ Ea Hh ltac:(by rewrite Hd)) as [(Hs2 & Hf2 & Hn)|(Ht & c & r & Hc & _ & Hsv & Hs2)].
    + left. by rewrite Hs2, Hsrv'.
    + right. split; [done|]. exists c, r. split_and!; [done|done|].
      rewrite Hsrv' in Hs2. by destruct listen; destruct Hs2 as [-> ->].
Qed.

(** C22:  The certificate survives a reboot.  A first startup serves [c] on the remote port and could write its files; the encoders
    accepted the chain and the key, the leaf parses and matches the key, and the host is not named "acme".  A
    later startup of the same files under the same name, with trusted time and [c] valid for four more hours at its first attempt,
    serves the same [c] at that attempt, and asks nothing of the ACME server, the clock or the random source of the renewal. *)
Theorem reboot_reuses_certificate `{!KeyPairLaws K} (we we' : string -> option error) (now now' : nat -> Z) (E E' : boot_env K)
    (attempts attempts' tries tries' : nat) (year year' : Z) (times times' : nat -> outcome (result Z))
    (m m' : Manager P dnsServer) (s0 s1 s2 s3 : machine W K) (dns : dnsServer) (x : W) (c : Certificate K) der rest v b kb :
  startup (P:=P) we signer config E s0 = (Ret (Ok m), s1) ->
  async_startup we w rounds fuel now attempts year tries times (Ok tt) m s1 = (Ret (Ok tt), s2) ->
  last (servers (m_srv s2)) = Some (remote_server c) -> we (crt_file (FQDN m)) = None -> we (key_file (FQDN m)) = None ->
  encodeCert (chain c) = Ok b -> encodeKey (PrivateKey c) = Ok kb ->
  chain c = der :: rest -> ParseCertificate der = Ok v -> key_matches der (PrivateKey c) = true ->
  startup (P:=P) we' signer config E' (mk_machine no_servers (m_files s2) dns x) = (Ret (Ok m'), s3) ->
  FQDN m' = FQDN m -> FQDN m <> "acme" ->
  timeAcquired year' tries' times' = Ret tt -> validateCert (Some c) (now' 0%nat) = true ->
  exists s4, async_startup we' w rounds fuel now' (S attempts') year' tries' times' (Ok tt) m' s3 = (Ret (Ok tt), s4) /\
    servers (m_srv s4) = local_servers ++ [remote_server c] /\ m_world s4 = x.
Proof.
  intros Es0 Ea Hlast Hcf Hkf Hb Hkb Hch Hleaf Hmatch Es Hf Hacme Ht Hv.
  apply startup_started in Es0 as [_ Hm]. destruct (Hm m eq_refl) as (_ & Hh & _ & Hd & _).
  destruct (async_startup_eq _ _ _ _ _ _ _ _ _ _ _ Ea Hh ltac:(by rewrite Hd)) as [(_ & _ & Hn)|(_ & c' & r & _ & _ & Esave & _ & Hs2)]; [by destruct (Hn (Ok tt))|].
  rewrite Hs2, last_snoc in Hlast. injection Hlast as ->.
  destruct (saved_loads we c der rest v (crt_file (FQDN m)) (key_file (FQDN m)) (m_files s1) b kb) as (d' & Esave' & Hload & _); try done; [apply crt_key_ne|].
  rewrite Esave in Esave'. injection Esave' as _ <-.
  apply startup_started in Es as [(_ & Hx & Hkeep) Ho]. destruct (Ho m' eq_refl) as (_ & Hh' & _ & Hd' & Hsrv).
  assert (Hload3 : LoadX509KeyPair (K:=K) (crt_file (FQDN m)) (key_file (FQDN m)) (m_files s3) = Some c).
  { unfold LoadX509KeyPair in Hload |- *. by rewrite !Hkeep by (apply crt_not_startup || by apply key_not_startup). }
  unfold async_startup. cbn [cert_loop]. unfold mbind, M_bind, gets, on_acme. rewrite Ht, Hf, Hload3. unfold maybeRenew. rewrite Hv. cbn [mret M_ret].
  destruct (saveKeyPair_returns we' c (crt_file (FQDN m)) (key_file (FQDN m)) (m_files s3)) as (r' & d4 & Es4).
  unfold on_files, on_srv. cbn [m_files m_srv m_dns m_world]. rewrite Es4. unfold EnableRemote, newServer, mbind, M_bind. cbn [m_srv m_files m_dns m_world].
  rewrite Hch, Hleaf. eexists. split; [reflexivity|]. cbn. by rewrite Hsrv.
Qed.

(** A machine whose ACME key file does not parse does not start. *)
Lemma bad_acme_key we (E : boot_env K) (s : machine W K) o s' kb e : m_files s !! acme_key_file = Some kb -> ParseECPrivateKey kb = Err e ->
  startup (P:=P) we signer config E s = (o, s') -> forall m, o <> Ret (Ok m).
Proof.
  intros Hkb He. rewrite startup_serves. unfold required.
  destruct (e_seed E), (e_system E), (e_gpio E), (e_fan E), (e_uart E), (e_network E); try (by intros [= <- <-]).
  unfold serve, startMetrics, startGRPC, newServer, required, on_srv, on_files. unfold mbind, M_bind, modify.
  destruct (e_metrics E), (e_grpc E), (e_dns E); cbn; try (by intros [= <- <-]).
  unfold loadOrGenerateKey, mbind, M_bind, get. cbn. rewrite early_files_other, Hkb; [cbn; rewrite He; by intros [= <- <-]|].
  cbn. rewrite !not_elem_of_cons. unfold acme_key_file, host_key_file, keys_file. split_and!; try done. apply not_elem_of_nil.
Qed.

(** C40:  A machine named "acme" starts once: the private key of its certificate is saved over the key of the ACME
    account, as PEM where the account key is read as DER, and every later startup
    fails, whatever else succeeds. *)
Theorem hostname_acme_locks_out (we we' : string -> option error) (now : nat -> Z) (E : boot_env K) (attempts : nat)
    (year : Z) (tries : nat) (times : nat -> outcome (result Z)) (m : Manager P dnsServer) (s1 s2 s3 : machine W K) (dns : dnsServer) (x : W) o :
  FQDN m = "acme" -> ACMEHandlers m = [dns_handler] -> zone (m_dns s1) = "acme." ->
  async_startup we w rounds fuel now attempts year tries times (Ok tt) m s1 = (Ret (Ok tt), s2) ->
  (forall f, we f = None) ->
  (forall c, exists b kb, encodeCert (chain c) = Ok b /\ encodeKey (PrivateKey c) = Ok kb /\ exists e, ParseECPrivateKey kb = Err e) ->
  startup (P:=P) we' signer config E (mk_machine no_servers (m_files s2) dns x) = (o, s3) ->
  forall m', o <> Ret (Ok m').
Proof.
  intros Hf Hh Hz Ea Hwe Henc Es.
  destruct (async_startup_eq _ _ _ _ _ _ _ _ _ _ _ Ea Hh ltac:(by rewrite Hf)) as [(_ & _ & Hn)|(_ & c & r & _ & _ & Esave & _)]; [by destruct (Hn (Ok tt))|].
  destruct (Henc c) as (b & kb & Hb & Hkb & e & He). eapply bad_acme_key; [|done|done]. cbn [m_files]. rewrite Hf in Esave.
  unfold saveKeyPair, mbind, M_bind in Esave. rewrite Hb, Hkb in Esave. cbn in Esave. rewrite Hwe in Esave. cbn in Esave.
  rewrite Hwe in Esave. injection Esave as _ Ed. rewrite <- Ed. change (key_file "acme") with acme_key_file. by rewrite lookup_insert_eq.
Qed.
End Theorems.

(** ** A machine against the scripted ACME server *)

Import SimAcme SimRenew.

Module SimBoot.
Lemma run_outcome {A B : Type} (p : A * B) (a : A) : p.1 = a -> p = (a, p.2).
Proof. destruct p. by intros <-. Qed.

(** A toy PEM with lengths, keys of one number, and certificates of one number, valid
    for that many hundred hours. *)
Definition pem (ty : string) (b : list Z) : list Z := [45; Z.of_nat (String.length ty); Z.of_nat (length b)] ++ b.

Fixpoint blocks (fuel : nat) (b : list Z) : list (list Z) :=
  match fuel, b with
  | S fuel, _ :: _ :: n :: b => take (Z.to_nat n) b :: blocks fuel (drop (Z.to_nat n) b)
  | _, _ => []
  end.

#[export] Instance crypto : Crypto Z := {
  ParseCertificate der := match der with [h] => Ok (mk_validity 0 (100 * h * hour)) | _ => Err "x509: malformed" end;
  ParseECPrivateKey b := match b with [k] => Ok k | _ => Err "x509: malformed" end;
  MarshalECPrivateKey k := Ok [k];
  pem_Encode ty b := Ok (pem ty b);
}.

(** A key fits the certificates of its parity. *)
#[export] Instance keypairs : KeyPairs Z := {
  key_matches der k := match der with [h] => bool_decide (h mod 2 = k mod 2) | _ => false end;
  X509KeyPair b kb :=
    match kb, blocks (length b) b with
    | [_; _; _; k], ([h] :: _) as cs =>
        if decide (h mod 2 = k mod 2) then Ok (mk_cert cs k) else Err "tls: private key does not match public key"
    | _, _ => Err "tls: failed to find any PEM data in key input"
    end }.

Lemma blocks_pem (cs : list (list Z)) : forall fuel, (length cs <= fuel)%nat -> blocks fuel (concat (map (pem "CERTIFICATE") cs)) = cs.
Proof.
  induction cs as [|c cs IH]; intros [|fuel] Hl; cbn in Hl; try lia; [done|done|]. cbn [map concat pem app blocks].
  rewrite Nat2Z.id, take_app_length, drop_app_length, IH by lia. done.
Qed.

Lemma encode_pem cs : forall res, encode_blocks res cs = Ok (res ++ concat (map (pem "CERTIFICATE") cs)).
Proof. induction cs as [|c cs IH]; intros res; cbn -[pem]; [by rewrite app_nil_r|]. rewrite IH. by rewrite app_assoc. Qed.

#[export] Instance keypair_laws : KeyPairLaws Z.
Proof.
  split. intros [cs k] der rest v b kb Hc Hv Hm. unfold encodeCert. rewrite encode_pem. intros [= <-] [= <-]. cbn in Hc. cbn -[pem blocks decide Z.modulo] in Hm |- *.
  rewrite blocks_pem.
  - subst cs. destruct der as [|h [|? ?]]; [done| |done]. apply bool_decide_eq_true_1 in Hm. cbn [pem app]. by rewrite decide_True.
  - clear. induction cs as [|c cs IH]; [done|]. cbn -[pem]. rewrite length_app. cbn. lia.
Qed.

Definition boot (name : string) : boot_env Z :=
  mk_boot Z (Ok tt) (Ok tt) (Ok tt) (Ok tt) (Ok tt) (Ok name) (fun _ => Ok tt) (fun _ => Ok tt) true [1] (Ok tt) [[2]] (Ok tt) (Ok tt) (Ok tt) (Ok 9).
Definition off : machine script Z := mk_machine no_servers ∅ (startDNS "") SimRenew.answers.
Definition config : ACMEConfig := mk_config "pem" "https://ca/dir" "mailto:a@b" true.
Definition no_errors (f : string) : option error := None.
Definition started_up (name : string) : machine script Z := (startup (P:=unit) no_errors (fun _ => SimAcme.key) config (boot name) off).2.
Definition the_manager (name : string) : Manager unit dnsServer := mk_manager name SimAcme.key config [dns_handler].
(** The clock is not set, and the second attempt to get the time succeeds. *)
Definition times (n : nat) : outcome (result Z) := Ret (if decide (n = 1%nat) then Ok hour else Err "timeout").
Definition served : Certificate Z := mk_cert [[5]; [6]] 77.
Definition enabled (name : string) : machine script Z :=
  (async_startup no_errors 32 2 1 (fun _ => hour) 1 1970 2 times (Ok tt) (the_manager name) (started_up name)).2.
(** The next startup, without any answers from the server. *)
Definition rebooted (name : string) : outcome (result (Manager unit dnsServer)) * machine script Z :=
  startup (P:=unit) no_errors (fun _ => SimAcme.key) config (boot name) (mk_machine no_servers (m_files (enabled name)) (startDNS "") []).
End SimBoot.
Import SimBoot.

Lemma boot_end_to_end_witness :
  servers (m_srv (started_up "bmc")) = local_servers /\
  exists c, servers (m_srv (enabled "bmc")) = local_servers ++ [remote_server c] /\ PrivateKey c = 77.
Proof.
  destruct (boot_end_to_end 32 2 1 (fun _ => SimAcme.key) config no_errors (fun _ => hour) (boot "bmc") off (started_up "bmc") (Ret (Ok (the_manager "bmc")))
    1970 2 times) as [_ Hm]; [done|unfold started_up; apply run_outcome; by vm_compute|].
  destruct (Hm (the_manager "bmc") eq_refl) as (Hs & _ & Ha). split; [exact Hs|].
  destruct (Ha 1%nat (Ok tt) (Ret (Ok tt)) (enabled "bmc")) as [(_ & _ & Hn)|(_ & c & r & _ & _ & _ & He)]; [unfold enabled; apply run_outcome; by vm_compute|by destruct (Hn (Ok tt))|].
  exists c. split; [exact He|]. revert He. vm_compute. by intros [= <-].
Defined.

Lemma reboot_reuses_certificate_witness :
  exists s4, async_startup no_errors 32 2 1 (fun _ => 2 * hour) 1 2021 0 times (Ok tt) (the_manager "bmc") (rebooted "bmc").2 = (Ret (Ok tt), s4) /\
    servers (m_srv s4) = local_servers ++ [remote_server served] /\ m_world s4 = [].
Proof.
  apply (reboot_reuses_certificate 32 2 1 (fun _ => SimAcme.key) config no_errors no_errors (fun _ => hour) (fun _ => 2 * hour) (boot "bmc") (boot "bmc") 1 0 2 0 1970 2021 times times
    (the_manager "bmc") (the_manager "bmc") off (started_up "bmc") (enabled "bmc") (rebooted "bmc").2 (startDNS "") [] served [5] [[6]] (mk_validity 0 (100 * 5 * hour))
    ([] ++ concat (map (pem "CERTIFICATE") [[5]; [6]])) (pem "EC PRIVATE KEY" [77]));
    [unfold started_up; apply run_outcome; by vm_compute|unfold enabled; apply run_outcome; by vm_compute|by vm_compute|reflexivity..
    |unfold rebooted; apply run_outcome; by vm_compute|reflexivity|discriminate|by vm_compute|by vm_compute].
Defined.

Lemma hostname_acme_locks_out_witness :
  rebooted "acme" = (Ret (Err "x509: malformed"), (rebooted "acme").2) /\
  forall m' : Manager unit dnsServer, Ret (Err "x509: malformed") <> Ret (Ok m').
Proof.
  assert (E : rebooted "acme" = (Ret (Err "x509: malformed"), (rebooted "acme").2)) by (apply run_outcome; by vm_compute).
  split; [exact E|].
  apply (hostname_acme_locks_out 32 2 1 (fun _ => SimAcme.key) config no_errors no_errors (fun _ => hour) (boot "acme") 1 1970 2 times
    (the_manager "acme") (started_up "acme") (enabled "acme") (rebooted "acme").2 (startDNS "") []); [done|done|by vm_compute|unfold enabled; apply run_outcome; by vm_compute|done| |unfold rebooted; apply run_outcome; by vm_compute].
  intros c. eexists _, _. split; [apply encode_pem|]. split; [reflexivity|]. by eexists.
Defined.
