(* ===== verification/Shell.v ===== *)
(** * The shell, time synchronisation, configuration and reboot (pkg/bmc/system.go)

    [Shell] runs /bin/login and forwards interrupts to it from a second goroutine.
    The two goroutines, the child process and the signals are a transition function over
    schedules, as in [Console]. *)

From S2P Require Import Prelude GoMonad Time.
#[local] Open Scope string_scope.
#[local] Open Scope list_scope.
#[local] Open Scope Z_scope.

(** [cmd]: before [Start], running, ended; [Process] is nil before. *)
Inductive proc : Type := NotStarted | Running | Ended.

(** [Shell]: in [cmd.Run], sending to [exited], returned. *)
Inductive shell_pc : Type := InRun | SendExited | ShellReturned.

(** [intrHandler]: before [signal.Notify] of a new channel, in the select, returned,
    or the process has panicked or was ended by a signal. *)
Inductive handler_pc : Type := BeforeNotify | InSelect | HandlerReturned | Panicked | Killed.

(** [pending] is the buffer of the newest channel; [channels] counts the channels that
    were registered and never stopped; [forwarded] what the child was sent. *)
Record sh : Type := mk_sh {
  child : proc; shell : shell_pc; handler : handler_pc; pending : bool; channels : nat; forwarded : nat;
}.

Definition shell_start : sh := mk_sh NotStarted InRun BeforeNotify false 0 0.

Inductive act : Type :=
| Notify             (** the handler registers a new channel *)
| Interrupt          (** SIGINT arrives *)
| Handle             (** the handler takes it *)
| StartOk | StartErr (** the result of cmd.Start in cmd.Run *)
| ChildExit          (** the child ends, and Run returns *)
| SendDone.          (** exited <- true, received by the handler *)

Definition fire (s : sh) (a : act) : option sh :=
  match a, handler s, shell s, child s with
  | _, Panicked, _, _ | _, Killed, _, _ => None
  | Notify, BeforeNotify, _, _ => Some (mk_sh (child s) (shell s) InSelect false (S (channels s)) (forwarded s))
  | Interrupt, h, _, _ =>
      (* before the first channel is registered the signal has its default action, which ends the process *)
      if decide (channels s = O) then Some (mk_sh (child s) (shell s) Killed (pending s) (channels s) (forwarded s))
      else Some (mk_sh (child s) (shell s) h (match h with InSelect => true | _ => pending s end) (channels s) (forwarded s))
  | Handle, InSelect, _, p =>
      if pending s then
        match p with
        | NotStarted => Some (mk_sh p (shell s) Panicked false (channels s) (forwarded s))
        | Running => Some (mk_sh p (shell s) BeforeNotify false (channels s) (S (forwarded s)))
        | Ended => Some (mk_sh p (shell s) BeforeNotify false (channels s) (forwarded s))
        end
      else None
  | StartOk, _, InRun, NotStarted => Some (mk_sh Running InRun (handler s) (pending s) (channels s) (forwarded s))
  | StartErr, _, InRun, NotStarted => Some (mk_sh NotStarted SendExited (handler s) (pending s) (channels s) (forwarded s))
  | ChildExit, _, InRun, Running => Some (mk_sh Ended SendExited (handler s) (pending s) (channels s) (forwarded s))
  | SendDone, InSelect, SendExited, _ => Some (mk_sh (child s) ShellReturned HandlerReturned (pending s) (channels s) (forwarded s))
  | _, _, _, _ => None
  end.

Fixpoint runs (s : sh) (l : list act) : option sh :=
  match l with
  | [] => Some s
  | a :: l => s ← fire s a; runs s l
  end.

(** What holds between the steps. *)
Record ok (s : sh) : Prop := {
  ok_return : shell s = ShellReturned <-> handler s = HandlerReturned;
  ok_child : shell s = InRun -> child s <> Ended;
  ok_killed : handler s = Killed -> channels s = 0%nat;
  ok_pending : (forwarded s <= channels s)%nat /\ (handler s <> BeforeNotify -> handler s <> Killed -> (forwarded s < channels s)%nat);
  ok_panic : handler s = Panicked -> child s = NotStarted;
}.

Lemma fire_ok s a s' : ok s -> fire s a = Some s' -> ok s'.
Proof.
  intros [H1 H2 H3 [H4 H4'] H5] H. destruct s as [c sh h p n f]. cbn in *.
  destruct a, h, sh, c, p; cbn in H; try case_decide; simplify_eq; split; cbn;
    try (split; try done; intros ?); try done; try (intros ?); try lia; try naive_solver lia.
Qed.

Lemma runs_ok l s : runs shell_start l = Some s -> ok s.
Proof.
  intros H. assert (Hi : ok shell_start) by (split; cbn; repeat split; try done; lia).
  revert Hi H. generalize shell_start. induction l as [|a l IH]; intros s0 Hi H; [by injection H as <-|].
  apply bind_Some in H as (s1 & Ha & H). eapply IH; [|exact H]. by eapply fire_ok.
Qed.

(** The steps that are left when the child is over or did not start. *)
Definition finish (s : sh) : list act :=
  match shell s, handler s with
  | SendExited, BeforeNotify => [Notify; SendDone]
  | SendExited, InSelect => [SendDone]
  | _, _ => []
  end.

(** [Shell] comes back: when the child has ended, or could not be started, it and the
    handler return after at most two more steps, unless an interrupt was handled
    before the child was there, which dereferences the nil [cmd.Process] and ends u-bmc, or arrived before
    the handler had registered its first channel, which kills it.  It returns only together with its handler.  Every interrupt forwarded leaves one
    registered channel behind. *)
Theorem shell_returns (l : list act) (s : sh) :
  runs shell_start l = Some s ->
  (shell s = SendExited -> handler s <> Panicked -> handler s <> Killed ->
     exists s', runs s (finish s) = Some s' /\ shell s' = ShellReturned /\ handler s' = HandlerReturned) /\
  (shell s = ShellReturned <-> handler s = HandlerReturned) /\
  (handler s = Panicked -> child s = NotStarted) /\ (handler s = Killed -> channels s = 0%nat) /\
  (forwarded s <= channels s)%nat.
Proof.
  intros [H1 H2 H3 [H4 H4'] H5]%runs_ok. split_and!; try done; try apply H1.
  intros Hs Hp Hk. destruct s as [c sh h p n f]. cbn in *. subst sh. unfold finish. cbn.
  destruct h; try done; [by eexists|by eexists|]. by destruct H1 as [_ H1]; specialize (H1 eq_refl).
Qed.

(** An interrupt on the console between the start of the handler and the start of
    the shell takes the whole BMC process down, and so does one before the first handler is ready; nothing can
    happen after it. *)
Theorem shell_interrupt_panics :
  (exists s, runs shell_start [Notify; Interrupt; Handle] = Some s /\ handler s = Panicked /\ forall a, fire s a = None) /\
  (exists s, runs shell_start [StartOk; Interrupt] = Some s /\ handler s = Killed /\ forall a, fire s a = None).
Proof. split; (eexists; split; [reflexivity|]; split; [reflexivity|]); by intros []. Qed.

Lemma shell_returns_witness :
  exists s', runs shell_start [StartOk; Notify; Interrupt; Handle; ChildExit; Notify; SendDone] = Some s' /\
    shell s' = ShellReturned /\ forwarded s' = 1%nat /\ channels s' = 2%nat.
Proof.
  destruct (proj1 (shell_returns [StartOk; Notify; Interrupt; Handle; ChildExit]
    (mk_sh Ended SendExited BeforeNotify false 1 1) eq_refl) eq_refl ltac:(discriminate) ltac:(discriminate)) as (s' & E & Hs & _).
  exists s'. injection E as <-. split_and!; reflexivity.
Defined.

(** ** Configuration *)

(** [loadSysconf(path)]: the parsed configuration; what a failed parse leaves of it is used
    as it is.  [UnmarshalText] of the protocol buffers is a parameter. *)
Definition loadSysconf {C} (UnmarshalText : list Z -> C * option error) (file : result (list Z)) : C * list string :=
  let '(f, warned) := match file with Ok b => (b, []) | Err e => ([], ["Failed to read system configuration"; "Using default system configuration"]) end in
  let '(c, e) := UnmarshalText f in
  (c, warned ++ match e with Some _ => ["Failed to unmarshal system configuration"; "Using default system configuration"] | None => [] end).

(** [Reboot()]: ends the process with an error only. *)
Definition Reboot {S} (reboot : result unit) : M S unit := match reboot with Ok _ => mret tt | Err _ => go_fatal end.

(** ** Time synchronisation in the background *)

Inductive sync_event : Type := SyncWait (delay : Z) | SyncSet (t : Z).

(** [backgroundTimeSync]: rounds [n], [n + 1], ... of the endless loop; [delay] is
    what [timeRefresh.Duration] returns, [attempts n] the results of AcquireTime in round [n]. *)
Fixpoint backgroundTimeSync (rounds fuel : nat) (delay : nat -> Z) (attempts : nat -> nat -> outcome (result Z)) (n : nat) :
    list sync_event * outcome unit :=
  match rounds with
  | O => ([], Blocked)
  | S rounds =>
      match acquireTime fuel (attempts n) 0 with
      | Ret (t, _) => let '(l, o) := backgroundTimeSync rounds fuel delay attempts (S n) in (SyncWait (delay n) :: SyncSet t :: l, o)
      | Panic => ([SyncWait (delay n)], Panic)
      | Exit => ([SyncWait (delay n)], Exit)
      | Blocked => ([SyncWait (delay n)], Blocked)
      end
  end.

(** Round [n] gets the time [t] at some attempt below [fuel]. *)
Definition round_sets (fuel : nat) (attempts : nat -> nat -> outcome (result Z)) (n : nat) (t : Z) : Prop :=
  exists w, (w < fuel)%nat /\ attempts n w = Ret (Ok t) /\ forall v, (v < w)%nat -> exists e, attempts n v = Ret (Err e).

Lemma acquireTime_first fuel attempts t w k : (k <= w < fuel + k)%nat -> attempts w = Ret (Ok t) ->
  (forall v, (k <= v < w)%nat -> exists e, attempts v = Ret (Err e)) -> acquireTime fuel attempts k = Ret (t, w).
Proof.
  revert k. induction fuel as [|fuel IH]; intros k Hk Hw Hv; [lia|]. cbn. destruct (decide (k = w)) as [->|Hne]; [by rewrite Hw|].
  destruct (Hv k ltac:(lia)) as [e ->]. apply IH; [lia|done|]. intros v Hv'. apply Hv. lia.
Qed.

(** In the background the clock is set once per refresh: as long as every round gets a
    time in the end, the events are wait and set in turn, each with the first time of its
    round; and a round that blocks, as [AcquireTime] can, is the last one: the
    clock is never set again, however long the loop is followed. *)
Theorem backgroundTimeSync_correct (fuel : nat) (delay : nat -> Z) (attempts : nat -> nat -> outcome (result Z))
    (ts : list Z) (n : nat) :
  (forall k t, ts !! k = Some t -> round_sets fuel attempts (n + k) t) ->
  (backgroundTimeSync (length ts) fuel delay attempts n).1 =
    concat (imap (fun k t => [SyncWait (delay (n + k)%nat); SyncSet t]) ts) /\
  ((forall w, attempts (n + length ts)%nat w = Blocked) -> forall more,
   backgroundTimeSync (length ts + S more) fuel delay attempts n =
     (concat (imap (fun k t => [SyncWait (delay (n + k)%nat); SyncSet t]) ts) ++ [SyncWait (delay (n + length ts)%nat)], Blocked)).
Proof.
  revert n. induction ts as [|t ts IH]; intros n Ht; cbn [length Nat.add].
  - split; [done|]. rewrite Nat.add_0_r. intros Hb more. cbn. destruct fuel as [|f]; cbn; by rewrite ?Hb.
  - destruct (Ht O t eq_refl) as (w & Hw & Ew & Hv). rewrite Nat.add_0_r in Ew, Hv.
    assert (Ea : acquireTime fuel (attempts n) 0 = Ret (t, w)) by (apply acquireTime_first; [lia|done|]; intros v Hv'; apply Hv; lia).
    destruct (IH (S n)) as [E1 E2]; [intros k t' Hk; replace (S n + k)%nat with (n + S k)%nat by lia; by apply (Ht (S k))|].
    assert (Ei : imap ((fun k t => [SyncWait (delay (n + k)%nat); SyncSet t]) ∘ S) ts =
      imap (fun k t => [SyncWait (delay (S n + k)%nat); SyncSet t]) ts).
    { apply imap_ext. intros i x _. cbn. by rewrite Nat.add_succ_r. }
    rewrite imap_cons, Ei, Nat.add_0_r. split.
    + cbn. rewrite Ea. destruct (backgroundTimeSync (length ts) fuel delay attempts (S n)) as [l o]. cbn in E1. by rewrite E1.
    + intros Hb more. cbn [backgroundTimeSync]. rewrite Ea, E2; [cbn; by rewrite Nat.add_succ_r|].
      intros w'. by rewrite <- (Hb w'), Nat.add_succ_r.
Qed.

Lemma backgroundTimeSync_correct_witness :
  (backgroundTimeSync 2 3 (fun n => 3600 * Z.of_nat n) (fun n w => if decide (w = O) then Ret (Err "timeout") else Ret (Ok (Z.of_nat n))) 1).1 =
  [SyncWait 3600; SyncSet 1; SyncWait 7200; SyncSet 2].
Proof.
  apply (proj1 (backgroundTimeSync_correct 3 (fun n => 3600 * Z.of_nat n)
    (fun n w => if decide (w = O) then Ret (Err "timeout") else Ret (Ok (Z.of_nat n))) [1; 2] 1
    ltac:(intros [|[|k]] t Ht; cbn in Ht; simplify_eq; exists 1%nat; (split; [lia|]); (split; [reflexivity|]);
          intros v Hv; replace v with O by lia; by eexists))).
Defined.
