(* ===== verification/Logger.v ===== *)
(** * The logger (pkg/logger/logger.go)

    [logContainer] with its two [sync.Once] guards, the cores it builds, and the log file.
    Several programs log to the same file, each through its own open file with its own offset;
    zap's encoders are a parameter. *)

From S2P Require Import Prelude GoMonad.
#[local] Open Scope string_scope.
#[local] Open Scope list_scope.
#[local] Open Scope Z_scope.

(** ** The log file *)

Definition log_path : string := "/tmp/u-bmc.log".

(** The content of the log file, the offsets of the open files (by descriptor), and what went to
    the standard outputs. *)
Record logs : Type := mk_logs { content : list Z; offsets : list nat; console : list (list Z) }.

(** Writing at an offset: a gap reads as zeros. *)
Definition write_at (off : nat) (b old : list Z) : list Z :=
  take off old ++ replicate (off - length old) 0 ++ b ++ drop (off + length b) old.

(** [f.Write]. *)
Definition write (fd : nat) (b : list Z) (g : logs) : logs :=
  let off := default O (offsets g !! fd) in
  mk_logs (write_at off b (content g)) (<[fd := (off + length b)%nat]> (offsets g)) (console g).

(** [os.Create]: the file is emptied; the new file starts at its beginning. *)
Definition Create (g : logs) : nat * logs :=
  (length (offsets g), mk_logs [] (offsets g ++ [O]) (console g)).

(** ** Cores *)

Inductive level : Type := DebugLevel | InfoLevel | WarnLevel | ErrorLevel | FatalLevel.
Definition level_num (l : level) : Z :=
  match l with DebugLevel => -1 | InfoLevel => 0 | WarnLevel => 1 | ErrorLevel => 2 | FatalLevel => 5 end.

Inductive time_encoder : Type := ISO8601TimeEncoder | EpochTimeEncoder.
Inductive level_encoder : Type := CapitalColorLevelEncoder | CapitalLevelEncoder.
Inductive format : Type := NewConsoleEncoder | NewJSONEncoder.
Record encoder : Type := mk_encoder { e_format : format; EncodeTime : time_encoder; EncodeLevel : level_encoder }.

Inductive writer : Type := Stdout | LogFile (fd : nat).
Record core : Type := mk_core { c_encoder : encoder; c_writer : writer; c_level : level }.

Definition getConsoleEncoder : encoder := mk_encoder NewConsoleEncoder ISO8601TimeEncoder CapitalColorLevelEncoder.
Definition getJsonEncoder : encoder := mk_encoder NewConsoleEncoder EpochTimeEncoder CapitalLevelEncoder.

Definition getConsoleCore : core := mk_core getConsoleEncoder Stdout InfoLevel.

(** A program: the files and consoles, and its container with the state of the guards. *)
Record logContainer : Type := mk_container { logger : option (list core); simpleLogger : option (list core) }.
Definition empty_container : logContainer := mk_container None None.

Section Logger.
(** Whether the log file can be created. *)
Context (create_error : option error).
Context {entry : Type} (entry_level : entry -> level) (encode : encoder -> entry -> list Z).

Notation G := (M (logContainer * logs)).

Definition getLogWriter : G nat := fun s =>
  match create_error with
  | Some _ => (Exit, s)
  | None => let (fd, g) := Create s.2 in (Ret fd, (s.1, g))
  end.

Definition getJsonCore : G core := fd ← getLogWriter; mret (mk_core getJsonEncoder (LogFile fd) InfoLevel).
Definition getCombinedCore : G (list core) := j ← getJsonCore; mret [getConsoleCore; j].

(** [loggerInit.Do(...); return l.logger]: the guard has run when the logger is there. *)
Definition GetLogger : G (list core) := fun s =>
  match logger s.1 with
  | Some l => (Ret l, s)
  | None => (l ← getCombinedCore; _ ← modify (fun s => (mk_container (Some l) (simpleLogger s.1), s.2)); mret l) s
  end.

Definition GetSimpleLogger : G (list core) := fun s =>
  match simpleLogger s.1 with
  | Some l => (Ret l, s)
  | None => (l ← getCombinedCore; _ ← modify (fun s => (mk_container (logger s.1) (Some l), s.2)); mret l) s
  end.

(** One entry through the tee: every core that lets its level pass encodes and writes it. *)
Definition core_write (e : entry) (g : logs) (c : core) : logs :=
  if decide (level_num (c_level c) <= level_num (entry_level e)) then
    match c_writer c with
    | Stdout => mk_logs (content g) (offsets g) (console g ++ [encode (c_encoder c) e])
    | LogFile fd => write fd (encode (c_encoder c) e) g
    end
  else g.
Definition log_entry (l : list core) (e : entry) (g : logs) : logs := foldl (core_write e) g l.
End Logger.

(** ** One program *)

Section Facts.
Context {entry : Type} (entry_level : entry -> level) (encode : encoder -> entry -> list Z).

Notation log1 := (log_entry entry_level encode).

Definition passes (e : entry) : bool := bool_decide (level_num InfoLevel <= level_num (entry_level e)).

(** What the entries that pass add to the file and to the console. *)
Definition lines (enc : encoder) (es : list entry) : list (list Z) := encode enc <$> filter (fun e => passes e = true) es.

Lemma log_lines_cons enc e es : lines enc (e :: es) = (if passes e then [encode enc e] else []) ++ lines enc es.
Proof.
  unfold lines. destruct (passes e) eqn:He; [by rewrite filter_cons_True by done|].
  by rewrite filter_cons_False by congruence.
Qed.

Lemma lines_split enc e es : lines enc (e :: es) = lines enc [e] ++ lines enc es.
Proof. rewrite !log_lines_cons. by destruct (passes e). Qed.

Definition cores (fd : nat) : list core := [getConsoleCore; mk_core getJsonEncoder (LogFile fd) InfoLevel].

Lemma write_at_end b old : write_at (length old) b old = old ++ b.
Proof.
  unfold write_at. rewrite firstn_all, Nat.sub_diag, drop_ge by lia. cbn. by rewrite app_nil_r.
Qed.

Lemma write_end fd b g :
  offsets g !! fd = Some (length (content g)) ->
  write fd b g = mk_logs (content g ++ b) (<[fd := length (content g ++ b)]> (offsets g)) (console g).
Proof. intros Hfd. unfold write. rewrite Hfd. change (default O (Some ?x)) with x. by rewrite write_at_end, length_app. Qed.

(** An entry, through a file that is positioned at the end. *)
Lemma log_entry_at_end fd e g :
  offsets g !! fd = Some (length (content g)) ->
  log1 (cores fd) e g =
    mk_logs (content g ++ concat (lines getJsonEncoder [e]))
      (<[fd := length (content g ++ concat (lines getJsonEncoder [e]))]> (offsets g))
      (console g ++ lines getConsoleEncoder [e]).
Proof.
  intros Hfd. rewrite !log_lines_cons. unfold log_entry, cores, passes. cbn [foldl]. unfold core_write. cbn [c_level c_writer c_encoder getConsoleCore].
  case_decide as Hl; rewrite ?bool_decide_true, ?bool_decide_false by done; cbn [app].
  - rewrite (write_end fd) by done. cbn. by rewrite !app_nil_r.
  - rewrite !app_nil_r. rewrite list_insert_id by done. by destruct g.
Qed.

Lemma log_entries_at_end fd es g :
  offsets g !! fd = Some (length (content g)) ->
  let g' := foldl (fun g e => log1 (cores fd) e g) g es in
  content g' = content g ++ concat (lines getJsonEncoder es) /\ console g' = console g ++ lines getConsoleEncoder es /\
  offsets g' !! fd = Some (length (content g')).
Proof.
  revert g. induction es as [|e es IH]; intros g Hfd; cbn [foldl]; [cbv zeta; unfold lines; cbn; by rewrite !app_nil_r|].
  rewrite (log_entry_at_end fd e g Hfd).
  destruct (IH (mk_logs (content g ++ concat (lines getJsonEncoder [e]))
      (<[fd := length (content g ++ concat (lines getJsonEncoder [e]))]> (offsets g)) (console g ++ lines getConsoleEncoder [e]))) as (Hc & Ho & Hf).
  { cbn. apply list_lookup_insert_eq. by eapply lookup_lt_Some. }
  cbn [content console] in Hc, Ho. rewrite Hf, Hc, Ho.
  by rewrite !(lines_split _ e es), concat_app, <- !app_assoc.
Qed.

(** The first call of a program makes its logger, later ones return the same. *)
Lemma GetSimpleLogger_first g :
  GetSimpleLogger None (empty_container, g) =
    (Ret (cores (length (offsets g))),
     (mk_container None (Some (cores (length (offsets g)))), mk_logs [] (offsets g ++ [O]) (console g))).
Proof. done. Qed.

(** A program that gets the simple logger any number of times logs everything: every call gives the same
    logger, the file holds exactly the encodings of the entries of level Info and above, in order,
    and so does the console. *)
Theorem logger_complete (g : logs) (es : list entry) :
  exists l s, GetSimpleLogger None (empty_container, g) = (Ret l, s) /\
    GetSimpleLogger None s = (Ret l, s) /\
    let g' := foldl (fun g e => log1 l e g) s.2 es in
    content g' = concat (lines getJsonEncoder es) /\ console g' = console g ++ lines getConsoleEncoder es.
Proof.
  eexists _, _. split; [apply GetSimpleLogger_first|]. split; [done|].
  destruct (log_entries_at_end (length (offsets g)) es (mk_logs [] (offsets g ++ [O]) (console g))) as (Hc & Ho & _);
    [cbn; by rewrite lookup_app_r, Nat.sub_diag|]. by split.
Qed.

(** Another program that starts: the file is emptied, and the next entry of the first one
    leaves zeros where its earlier entries were. *)
Theorem logger_second_program (g : logs) (es : list entry) (e : entry) l s s2 l2 :
  passes e = true ->
  GetSimpleLogger None (empty_container, g) = (Ret l, s) ->
  let g1 := foldl (fun g e => log1 l e g) s.2 es in
  GetSimpleLogger None (empty_container, g1) = (Ret l2, s2) ->
  content s2.2 = [] /\
  content (log1 l e s2.2) = replicate (length (concat (lines getJsonEncoder es))) 0 ++ encode getJsonEncoder e.
Proof.
  intros He H1 g1 H2. injection H1 as <- <-. injection H2 as <- <-. split; [done|]. set (fd := length (offsets g)).
  destruct (log_entries_at_end fd es (mk_logs [] (offsets g ++ [O]) (console g))) as (Hc & _ & Ho);
    [cbn; by rewrite lookup_app_r, Nat.sub_diag|]. change (foldl _ _ es) with g1 in Hc, Ho.
  clearbody g1. cbn [content app] in Hc. rewrite Hc in Ho.
  unfold log_entry, cores. cbn [foldl]. unfold passes in He. apply bool_decide_eq_true in He.
  unfold core_write. cbn [c_level c_writer c_encoder getConsoleCore]. rewrite !decide_True by done.
  unfold write. cbn [snd offsets content].
  rewrite lookup_app_l, Ho by (by eapply lookup_lt_Some). change (default O (Some ?x)) with x.
  unfold write_at. by rewrite take_nil, drop_nil, app_nil_r, Nat.sub_0_r.
Qed.
End Facts.
