(* ===== verification/Ubmcctl.v ===== *)
(** * The command line client (cmd/ubmcctl/main.go)

    Where it connects to, the request data it hands to the RPC library, and the
    description of messages that it prints.  The RPC and reflection libraries are
    parameters: a descriptor source finds messages and enumerations by their names. *)

From S2P Require Import Prelude GoMonad GoStrings Encoding.
#[local] Open Scope string_scope.
#[local] Open Scope list_scope.
#[local] Open Scope Z_scope.

Definition service : string := "bmc.ManagementService".

(** ** Connection *)

(** [strings.Contains(s, c)] for one character. *)
Fixpoint contains (c : Ascii.ascii) (s : string) : bool :=
  match s with
  | EmptyString => false
  | String d s => bool_decide (d = c) || contains c s
  end.

(** The target of [main] and whether the connection is encrypted. *)
Definition dial_target (host : string) : string * bool :=
  if decide (host = "localhost") then ("[::1]:80", false)
  else (if contains (byte_chr 58) host then host else host +:+ ":443", true).

(** ** Request data *)

(** [bufio.NewReader(os.Stdin).ReadString] up to a newline: what each further read of standard
    input returns is an argument; the bytes that the reader has buffered after the newline are lost
    with it. *)
Fixpoint ReadString (reads : list (list Z)) : result (list Z) * list (list Z) :=
  match reads with
  | [] => (Err "EOF", [])
  | r :: reads =>
      match list_find (eq 10) r with
      | Some (i, _) => (Ok (take (S i) r), reads)
      | None =>
          let '(l, reads) := ReadString reads in
          (match l with Ok l => Ok (r ++ l) | Err e => Err e end, reads)
      end
  end.

Section Call.
Context {T : Type} (UnmarshalText : list Z -> result T).

(** The variables of [call] that [rd] uses. *)
Record rd_state : Type := mk_rd { sent : bool; stdin : list (list Z) }.

(** The request of the closure [rd], for the text of the command line. *)
Definition rd (text : list Z) : M rd_state (result T) := fun s =>
  if decide (text = [45]) then
    let '(l, stdin) := ReadString (stdin s) in
    (Ret match l with Err e => Err e | Ok l => UnmarshalText l end, mk_rd (sent s) stdin)
  else if sent s then (Ret (Err "EOF"), s)
  else if decide (text = []) then (Ret (Err "EOF"), s)
  else (Ret (UnmarshalText text), mk_rd true (stdin s)).

(** The requests until the end of the input or an error. *)
Fixpoint requests (n : nat) (text : list Z) : M rd_state (list T) :=
  match n with
  | O => mret []
  | S n =>
      r ← rd text;
      match r with
      | Err _ => mret []
      | Ok m => ms ← requests n text; mret (m :: ms)
      end
  end.
End Call.

(** The exit of [call]: fatal when the invocation fails or the status is not OK. *)
Definition call_exit {S} (invoked : result unit) (code : Z) : M S unit :=
  match invoked with
  | Err _ => go_fatal
  | Ok _ => if decide (code = 0) then mret tt else go_fatal
  end.

(** ** Messages *)

Inductive field_type : Type :=
| TYPE_MESSAGE (m : string) | TYPE_ENUM (e : string) | TYPE_UINT32 | TYPE_INT32 | TYPE_STRING | TYPE_BYTES | TYPE_OTHER.

Record field : Type := mk_field { f_name : string; f_type : field_type }.

(** A descriptor source: the fields of the messages and the values of the enumerations. *)
Record source : Type := mk_source {
  messages : string -> option (list field);
  enums : string -> option (list (string * Z));
}.

Fixpoint Repeat (s : string) (n : nat) : string := match n with O => "" | S n => s +:+ Repeat s n end.

(** The verb [%-ns]. *)
Definition pad_right (n : nat) (s : string) : string := s +:+ Repeat " " (n - String.length s).

Fixpoint Join (l : list string) (sep : string) : string :=
  match l with
  | [] => ""
  | [s] => s
  | s :: l => s +:+ sep +:+ Join l sep
  end.

Section Print.
Context (ds : source).

(** The lines printed so far. *)
Definition out (l : string) : M (list string) unit := modify (fun ls => ls ++ [l]).

(** The text of an enumeration: its names but the one of value 0. *)
Definition enum_text (vs : list (string * Z)) : string :=
  "[" +:+ Join (map fst (filter (fun v => v.2 <> 0) vs)) " | " +:+ "]".

Definition max_name (fs : list field) : nat := foldr (fun f n => Nat.max n (String.length (f_name f))) O fs.

Definition basic_text (t : field_type) : string :=
  match t with
  | TYPE_UINT32 => "[number (>= 0)]"
  | TYPE_INT32 => "[number (positive or negative)]"
  | TYPE_STRING => "[string]"
  | TYPE_BYTES => "[bytes]"
  | _ => "[unknown type :(]"
  end.

(** [printMessage(ds, md, depth)], nested at most [fuel] deep. *)
Fixpoint printMessage (fuel : nat) (md : string) (depth : nat) : M (list string) unit :=
  match fuel with
  | O => fun ls => (Blocked, ls)
  | S fuel =>
      match messages ds md with
      | None => go_fatal
      | Some fs =>
          let ml := max_name fs in
          let pad := Repeat "  " depth in
          _ ← for_each fs (fun f =>
            match f_type f with
            | TYPE_MESSAGE m =>
                _ ← out (pad +:+ f_name f +:+ " {");
                _ ← printMessage fuel m (S depth);
                out (pad +:+ "}")
            | TYPE_ENUM e =>
                match enums ds e with
                | None => _ ← out (pad +:+ pad_right ml (f_name f) +:+ ": "); go_fatal
                | Some vs => out (pad +:+ pad_right ml (f_name f) +:+ ": " +:+ enum_text vs)
                end
            | t => out (pad +:+ pad_right ml (f_name f) +:+ ": " +:+ basic_text t)
            end);
          match fs with [] => out (pad +:+ "(empty)") | _ => mret tt end
      end
  end.

(** [usage(ds)] over the methods of the service, each with its request and response. *)
Definition usage (fuel : nat) (methods : list (string * (string * string))) : M (list string) unit :=
  for_each methods (fun m =>
    _ ← out ("Method: " +:+ m.1);
    _ ← out " Request:";
    _ ← printMessage fuel m.2.1 1;
    _ ← out "";
    _ ← out " Response:";
    _ ← printMessage fuel m.2.2 1;
    out "").
End Print.

(** ** The program *)

(** The libraries: TLS credentials, the connection to a target, the methods of a service with
    their messages, and the invocation of a method with the requests it reads, which gives the texts
    of the responses, the status of the trailers, and its error. *)
Class Rpc (T : Type) : Type := {
  ClientTransportCredentials : result unit;
  BlockingDial : string -> bool -> result unit;
  ListMethods : string -> result (list string);
  FindMethod : string -> result (string * string);
  InvokeRPC : string -> list T -> list string * option Z * result unit }.

(** The variables of [rd] and the printed lines. *)
Record client : Type := mk_client { c_rd : rd_state; c_out : list string }.

Section Program.
Context {T : Type} `{Rpc T} (UnmarshalText : list Z -> result T) (ds : source).

Definition or_exit {S A} (r : result A) : M S A := match r with Ok a => mret a | Err _ => go_fatal end.

Definition on_rd {A} (m : M rd_state A) : M client A := fun s =>
  let (o, r) := m (c_rd s) in (o, mk_client r (c_out s)).
Definition on_out {A} (m : M (list string) A) : M client A := fun s =>
  let (o, ls) := m (c_out s) in (o, mk_client (c_rd s) ls).

(** [OnReceiveResponse]: a response without text is not printed. *)
Definition OnReceiveResponse (t : string) : M (list string) unit := if decide (t = "") then mret tt else out t.

(** [call]; no more requests are asked for than there are reads of standard input and one. A
    status that never came counts as OK. *)
Definition call (method text : string) : M client unit :=
  n ← gets (fun s => S (S (length (stdin (c_rd s)))));
  ms ← on_rd (requests UnmarshalText n (str_bytes text));
  let '(responses, stat, invoked) := InvokeRPC (service +:+ "." +:+ method) ms in
  _ ← on_out (for_each responses OnReceiveResponse);
  call_exit invoked (default 0 stat).

Definition usage_main (fuel : nat) : M (list string) unit :=
  methods ← or_exit (ListMethods service);
  for_each methods (fun m => io ← or_exit (FindMethod m); usage ds fuel [(m, io)]).

Definition ubmcctl_main (fuel : nat) (host : string) (args : list string) : M client unit :=
  let '(target, encrypted) := dial_target host in
  _ ← (if (encrypted : bool) then or_exit ClientTransportCredentials else mret tt);
  _ ← or_exit (BlockingDial target encrypted);
  match args with
  | [] => on_out (usage_main fuel)
  | method :: rest => call method (Join rest " ")
  end.
End Program.

(** ** Requests from standard input *)

Lemma ReadString_line l extra reads : 10 ∉ l -> ReadString ((l ++ 10 :: extra) :: reads) = (Ok (l ++ [10]), reads).
Proof.
  intros Hl. cbn. assert (E : list_find (eq 10) (l ++ 10 :: extra) = Some (length l, 10)).
  { apply list_find_Some. split_and!; [by rewrite lookup_app_r, Nat.sub_diag by lia|done|].
    intros j y Hj Hlt <-. rewrite lookup_app_l in Hj by done. apply Hl. by eapply list_elem_of_lookup_2. }
  rewrite E. f_equal. f_equal. replace (S (length l)) with (length (l ++ [10])) by (rewrite length_app; cbn; lia).
  replace (l ++ 10 :: extra) with ((l ++ [10]) ++ extra) by (by rewrite <- app_assoc). by rewrite take_app_length.
Qed.

(** With "-" as its text the client sends one request per read of standard input, made of the
    first line of what was read; the rest of each read is lost with the buffered
    reader, so a script piped into it in one piece sends its first line only.  With a
    text it sends exactly that request. *)
Theorem ubmcctl_requests {T} (UnmarshalText : list Z -> result T) (lines : list (list Z * list Z * T)) (n : nat) (text : list Z) (m : T) :
  Forall (fun '(l, extra, m) => 10 ∉ l /\ UnmarshalText (l ++ [10]) = Ok m) lines ->
  text <> [45] -> text <> [] -> UnmarshalText text = Ok m -> (length lines < n)%nat ->
  (requests UnmarshalText n [45] (mk_rd false (map (fun '(l, extra, _) => l ++ 10 :: extra) lines))).1 =
    Ret (map snd lines) /\
  ((1 < n)%nat -> forall reads, (requests UnmarshalText n text (mk_rd false reads)).1 = Ret [m]).
Proof.
  intros Hl Ht1 Ht2 Hm Hn. split.
  - clear Ht1 Ht2 Hm. revert n Hn. induction Hl as [|[[l extra] x] lines [Hnl Hx] _ IH]; intros [|n] Hn; cbn in Hn; try lia; [done|].
    cbn [requests map]. unfold mbind, M_bind, rd. rewrite decide_True by done. cbn [stdin sent].
    rewrite ReadString_line by done. rewrite Hx. specialize (IH n ltac:(lia)).
    destruct (requests UnmarshalText n [45] _) as [o s']. cbn in IH. by subst o.
  - intros Hn1 reads. destruct n as [|[|n]]; try lia. cbn [requests]. unfold mbind, M_bind, rd.
    rewrite decide_False by done. cbn. rewrite decide_False, Hm by done. cbn [requests]. unfold mbind, M_bind.
    by rewrite decide_False by done.
Qed.

Lemma ubmcctl_requests_witness :
  (requests (fun l => Ok (length l)) 3 [45] (mk_rd false [[65; 10; 66; 10]; [67; 68; 10]])).1 = Ret [2%nat; 3%nat].
Proof.
  apply (proj1 (ubmcctl_requests (fun l => Ok (length l)) [([65], [66; 10], 2%nat); ([67; 68], [], 3%nat)] 3 [65] 1%nat
    ltac:(repeat constructor; rewrite !not_elem_of_cons; repeat split; try lia; apply not_elem_of_nil)
    ltac:(discriminate) ltac:(discriminate) ltac:(reflexivity) ltac:(cbn; lia))).
Defined.

(** ** A call of the program *)

Lemma responses_printed l ls : for_each l OnReceiveResponse ls = (Ret tt, ls ++ filter (fun t => t <> "") l).
Proof.
  revert ls. induction l as [|t l IH]; intros ls; [cbn; by rewrite app_nil_r|]. cbn [for_each]. unfold mbind, M_bind, OnReceiveResponse.
  case_decide as Ht.
  - rewrite filter_cons_False by tauto. apply IH.
  - rewrite filter_cons_True by done. unfold out, modify. rewrite IH. by rewrite <- app_assoc.
Qed.

(** A call with a request on the command line: it is sent to a plain connection of the machine itself or to
    an encrypted one of another, once, the texts of the responses are printed, and the program
    ends well exactly when credentials, connection and invocation worked and the status is OK. *)
Theorem ubmcctl_call {T} `{Rpc T} (UnmarshalText : list Z -> result T) ds fuel host method arg args m s :
  str_bytes (Join (arg :: args) " ") <> [] -> str_bytes (Join (arg :: args) " ") <> [45] ->
  UnmarshalText (str_bytes (Join (arg :: args) " ")) = Ok m -> sent (c_rd s) = false ->
  let '(target, encrypted) := dial_target host in
  let '(responses, stat, invoked) := InvokeRPC (service +:+ "." +:+ method) [m] in
  let connected := (encrypted = true -> ClientTransportCredentials = Ok tt) /\ BlockingDial target encrypted = Ok tt in
  let run := ubmcctl_main UnmarshalText ds fuel host (method :: arg :: args) s in
  (run.1 = Ret tt <-> connected /\ invoked = Ok tt /\ default 0 stat = 0) /\
  (connected -> c_out run.2 = c_out s ++ filter (fun t => t <> "") responses) /\
  (run.1 = Ret tt \/ run.1 = Exit) /\ (encrypted = false <-> host = "localhost").
Proof.
  intros Hne Hdash Hm Hs. destruct (dial_target host) as [target encrypted] eqn:Ed.
  destruct (InvokeRPC _ [m]) as [[responses stat] invoked] eqn:Ei. intros connected run.
  assert (Henc : encrypted = false <-> host = "localhost") by (unfold dial_target in Ed; case_decide; naive_solver).
  assert (Hcall : forall n, requests UnmarshalText (S (S n)) (str_bytes (Join (arg :: args) " ")) (c_rd s) = (Ret [m], mk_rd true (stdin (c_rd s)))).
  { intros n. cbn [requests]. unfold mbind, M_bind, rd. rewrite decide_False by done. rewrite Hs. rewrite decide_False, Hm by done.
    rewrite decide_False by done. done. }
  assert (Hc : call UnmarshalText method (Join (arg :: args) " ") s =
    call_exit invoked (default 0 stat) (mk_client (mk_rd true (stdin (c_rd s))) (c_out s ++ filter (fun t => t <> "") responses))).
  { unfold call, mbind, M_bind, gets, on_rd, on_out. rewrite Hcall, Ei. cbn [c_out]. by rewrite responses_printed. }
  unfold run, connected, ubmcctl_main, mbind, M_bind. rewrite Ed. clear run connected.
  cbv beta iota. revert Hc. generalize (call UnmarshalText method (Join (arg :: args) " ")) as c. intros c Hc.
  destruct encrypted; [destruct ClientTransportCredentials as [|[]]|]; cbn;
    (destruct (BlockingDial target _) as [|[]]; cbn; [naive_solver|]) || naive_solver;
    rewrite ?Hc; unfold call_exit; destruct invoked as [|[]]; try case_decide; cbn; naive_solver.
Qed.

(** ** Printing ends *)

Section Ranked.
Context (ds : source) (rank : string -> nat).

(** Messages do not contain themselves, and every name is found. *)
Definition ranked : Prop := forall m fs f, messages ds m = Some fs -> f ∈ fs ->
  match f_type f with
  | TYPE_MESSAGE m' => (rank m' < rank m)%nat /\ messages ds m' <> None
  | TYPE_ENUM e => enums ds e <> None
  | _ => True
  end.

(** The field loop appends lines, and ends. *)
Lemma fields_print (body : field -> M (list string) unit) fs :
  (forall f ls, f ∈ fs -> exists l, body f ls = (Ret tt, ls ++ l) /\ l <> []) ->
  forall ls, exists l, for_each fs body ls = (Ret tt, ls ++ l) /\ (length fs <= length l)%nat.
Proof.
  induction fs as [|f fs IH]; intros Hb ls; [exists []; by rewrite app_nil_r|]. cbn [for_each]. unfold mbind, M_bind.
  destruct (Hb f ls ltac:(by left)) as (l1 & -> & Hne). destruct (IH (fun g ls' Hg => Hb g ls' ltac:(by right)) (ls ++ l1)) as (l2 & -> & Hl).
  exists (l1 ++ l2). split; [by rewrite app_assoc|]. destruct l1; [done|]. cbn in *. rewrite length_app. lia.
Qed.

Lemma printMessage_ends : ranked -> forall fuel m depth ls, (rank m < fuel)%nat -> messages ds m <> None ->
  exists l, printMessage ds fuel m depth ls = (Ret tt, ls ++ l) /\ l <> [] /\
    forall fs, messages ds m = Some fs -> (length fs <= length l)%nat.
Proof.
  intros Hr fuel. induction fuel as [|fuel IH]; intros m depth ls Hm Hk; [lia|]. cbn [printMessage].
  destruct (messages ds m) as [fs|] eqn:Efs; [|done]. unfold mbind, M_bind.
  match goal with |- context [for_each fs ?b] => destruct (fields_print b fs) with (ls := ls) as (l & -> & Hl) end.
  - intros f ls' Hf. specialize (Hr m fs f Efs Hf). destruct (f_type f) as [m'|e| | | | |] eqn:Et;
      try (eexists; split; [reflexivity|done]).
    + destruct Hr as [Hlt Hk']. unfold mbind, M_bind, out, modify.
      destruct (IH m' (S depth) (ls' ++ [Repeat "  " depth +:+ f_name f +:+ " {"]) ltac:(lia) Hk') as (l' & -> & _).
      eexists. rewrite <- !app_assoc. split; [reflexivity|]. done.
    + destruct (enums ds e) as [vs|]; [|done]. eexists. split; [reflexivity|done].
  - destruct fs as [|f fs].
    + exists (l ++ [Repeat "  " depth +:+ "(empty)"]). cbn. unfold out, modify. split; [by rewrite app_assoc|].
      split; [by destruct l|]. intros fs [= <-]. cbn. lia.
    + exists l. split; [done|]. split; [destruct l; [cbn in Hl; lia|done]|]. intros fs' [= <-]. done.
Qed.
End Ranked.

(** The description of a message always ends when messages do not contain themselves and all names are
    found: with a depth greater than the nesting of the message it prints at least
    one line per field and the lines before stay.  A message whose first field is
    of its own type is printed for ever. *)
Theorem printMessage_terminates (ds : source) (rank : string -> nat) (m : string) (depth : nat) (ls : list string) :
  (ranked ds rank -> messages ds m <> None -> forall fuel, (rank m < fuel)%nat ->
     exists l, printMessage ds fuel m depth ls = (Ret tt, ls ++ l) /\
       forall fs, messages ds m = Some fs -> (1 <= length l /\ length fs <= length l)%nat) /\
  (forall n fs, messages ds m = Some (mk_field n (TYPE_MESSAGE m) :: fs) -> forall fuel, (printMessage ds fuel m depth ls).1 = Blocked).
Proof.
  split.
  - intros Hr Hk fuel Hf. destruct (printMessage_ends ds rank Hr fuel m depth ls Hf Hk) as (l & E & Hne & Hl).
    exists l. split; [done|]. intros fs Hfs. split; [by destruct l; [|cbn; lia]|by apply Hl].
  - intros n fs Hm fuel. revert depth ls. induction fuel as [|fuel IH]; intros depth ls; [done|]. cbn [printMessage]. rewrite Hm.
    cbn [for_each]. unfold mbind, M_bind, out, modify. cbn [f_type f_name]. specialize (IH (S depth) (ls ++ [Repeat "  " depth +:+ n +:+ " {"])).
    destruct (printMessage ds fuel m (S depth) _) as [o ls']. cbn in IH. by subst o.
Qed.

Module SimSource.
Definition buttons : source := mk_source
  (fun m => if decide (m = "bmc.ButtonPressRequest") then Some [mk_field "button" (TYPE_ENUM "bmc.Button"); mk_field "duration_ms" TYPE_UINT32] else None)
  (fun e => if decide (e = "bmc.Button") then Some [("BUTTON_UNSPEC", 0); ("BUTTON_POWER", 1); ("BUTTON_RESET", 2)] else None).

Lemma buttons_ranked : ranked buttons (fun _ => O).
Proof.
  intros m fs f Hm Hf. cbn in Hm. destruct (decide (m = "bmc.ButtonPressRequest")); [|done]. injection Hm as <-.
  apply elem_of_cons in Hf as [-> |Hf]; [done|]. apply list_elem_of_singleton in Hf as ->. done.
Qed.
End SimSource.
Import SimSource.

Lemma printMessage_terminates_witness :
  (exists l, printMessage buttons 1 "bmc.ButtonPressRequest" 1 [] = (Ret tt, [] ++ l) /\
    forall fs, messages buttons "bmc.ButtonPressRequest" = Some fs -> (1 <= length l /\ length fs <= length l)%nat) /\
  printMessage buttons 1 "bmc.ButtonPressRequest" 1 [] =
    (Ret tt, ["  button     : [BUTTON_POWER | BUTTON_RESET]"; "  duration_ms: [number (>= 0)]"]).
Proof.
  split; [|by vm_compute]. apply (proj1 (printMessage_terminates buttons (fun _ => O) "bmc.ButtonPressRequest" 1 []));
    [apply buttons_ranked|discriminate|lia].
Defined.
