(* ===== verification/Programs.v ===== *)
(** * The programs (platform/*/cmd/uinit, cmd/login)

    The first process of a board opens its platform, starts the system ([System]) and runs one shell ([Shell])
    after the other.  The shell is the program login, which waits for a line on the console before it
    becomes the shell of the user. *)

From S2P Require Import Prelude GoMonad System Shell Ubmcctl.
#[local] Open Scope string_scope.
#[local] Open Scope list_scope.
#[local] Open Scope Z_scope.

(** ** uinit *)

(** The boards: two with an ASPEED SoC, and two virtual ones. *)
Inductive board : Type := Quanta | Ast2500evb | QemuA15 | QemuA72.

Definition has_aspeed (b : board) : bool := match b with Quanta | Ast2500evb => true | QemuA15 | QemuA72 => false end.

(** What the main functions do with an error of the startup: [log.Fatal] or [log.Error]. *)
Definition startup_fatal (b : board) : bool := match b with Ast2500evb | QemuA15 => true | Quanta | QemuA72 => false end.

#[export] Instance event_eq_dec : EqDecision event.
Proof. solve_decision. Defined.

(** The device nodes, and what was started. *)
Record prog : Type := mk_prog { nodes : gset string; events : list event }.

Definition dev_mem : string := "/dev/mem".

(** [openHostMemory] panics when the device cannot be opened, as it is when its node is missing. *)
Definition openHostMemory : M prog unit := fun p => if decide (dev_mem ∈ nodes p) then (Ret tt, p) else (Panic, p).

(** [aspeed.Open]: [soc] is the result of [ModelName] ([Scu.Open]). *)
Definition aspeed_Open {A} (soc : result A) : M prog unit :=
  _ ← openHostMemory;
  match soc with Ok _ => mret tt | Err _ => go_panic end.

(** [Platform()] of the boards. *)
Definition Platform {A} (b : board) (soc : result A) : M prog unit :=
  if has_aspeed b then aspeed_Open soc else mret tt.

(** [bmc.Startup(p)] with the device node it makes: [unix.Mknod] when it is reached and succeeds. *)
Definition Startup (E : env) : M prog (result unit) := fun p =>
  let '(r, t) := StartupWithConfig E (events p) in
  (r, mk_prog (if decide (Mknod ∈ t) then match mknod E with Ok _ => {[dev_mem]} ∪ nodes p | Err _ => nodes p end else nodes p) t).

(** The loop of shells: those that have returned, and the one that runs.  The channels that
    its handlers have registered stay registered in the process. *)
Record loop : Type := mk_loop { returned : nat; cur : sh }.

Definition shell_from (n : nat) : sh := mk_sh NotStarted InRun BeforeNotify false n 0.
Definition loop_start : loop := mk_loop 0 (shell_from 0).

(** [main], up to its endless loop. *)
Definition uinit_main {A} (b : board) (soc : result A) (E : env) : M prog loop :=
  _ ← Platform b soc;
  r ← Startup E;
  match r with
  | Err _ => if startup_fatal b then go_fatal else mret loop_start
  | Ok _ => mret loop_start
  end.

(** The four boards. *)
Definition quanta_main {A} (soc : result A) (E : env) : M prog loop := uinit_main Quanta soc E.
Definition ast2500evb_main {A} (soc : result A) (E : env) : M prog loop := uinit_main Ast2500evb soc E.
Definition qemu_a15_main (E : env) : M prog loop := uinit_main QemuA15 (Ok tt) E.
Definition qemu_a72_main (E : env) : M prog loop := uinit_main QemuA72 (Ok tt) E.

Inductive loop_act : Type := InShell (a : act) | Again.

Definition fire_loop (s : loop) (a : loop_act) : option loop :=
  match a with
  | InShell a => c ← fire (cur s) a; Some (mk_loop (returned s) c)
  | Again =>
      match shell (cur s) with
      | ShellReturned => Some (mk_loop (S (returned s)) (shell_from (channels (cur s))))
      | _ => None
      end
  end.

Fixpoint loop_runs (s : loop) (l : list loop_act) : option loop :=
  match l with
  | [] => Some s
  | a :: l => s ← fire_loop s a; loop_runs s l
  end.

(** Every shell that returned and every interrupt that was forwarded has left a channel behind. *)
Definition loop_ok (s : loop) : Prop :=
  ok (cur s) /\ (returned s + forwarded (cur s) <= channels (cur s))%nat /\
  (handler (cur s) <> BeforeNotify -> handler (cur s) <> Killed -> (returned s + forwarded (cur s) < channels (cur s))%nat).

Lemma shell_from_ok n : ok (shell_from n).
Proof. split; cbn; try done; repeat split; try done; lia. Qed.

Lemma fire_loop_ok s a s' : loop_ok s -> fire_loop s a = Some s' -> loop_ok s'.
Proof.
  intros (Ho & H1 & H2) H. destruct a as [a|].
  - apply bind_Some in H as (c & Hc & [= <-]). split; [by eapply fire_ok|]. cbn.
    destruct s as [k [ch sh h p n f]]. cbn in *. clear Ho.
    destruct a, h, sh, ch, p; cbn in Hc; try case_decide; simplify_eq; cbn; split; try (intros ?); try done; try lia;
      first [specialize (H2 ltac:(done) ltac:(done)); lia|idtac].
  - cbn in H. destruct (shell (cur s)) eqn:Es; try done. injection H as <-. split; [apply shell_from_ok|]. cbn.
    assert (handler (cur s) = HandlerReturned) as Hh by (by apply (ok_return _ Ho)).
    split; [|done]. specialize (H2 ltac:(by rewrite Hh) ltac:(by rewrite Hh)). lia.
Qed.

Lemma loop_runs_ok l s s' : loop_ok s -> loop_runs s l = Some s' -> loop_ok s'.
Proof.
  revert s. induction l as [|a l IH]; intros s Ho H; [by injection H as <-|].
  apply bind_Some in H as (s1 & Ha & H). eapply IH; [|exact H]. by eapply fire_loop_ok.
Qed.

(** What is left until the next shell, when the child ends as soon as it runs. *)
Definition next_shell (s : sh) : list loop_act :=
  (InShell <$> (match shell s, child s with
    | InRun, NotStarted => [StartOk; ChildExit]
    | InRun, _ => [ChildExit]
    | _, _ => []
    end ++
    match shell s, handler s with
    | ShellReturned, _ => []
    | _, BeforeNotify => [Notify; SendDone]
    | _, _ => [SendDone]
    end)) ++ [Again].

Lemma next_shell_runs s : loop_ok s -> handler (cur s) <> Panicked -> handler (cur s) <> Killed ->
  exists s', loop_runs s (next_shell (cur s)) = Some s' /\ returned s' = S (returned s) /\ cur s' = shell_from (channels (cur s')).
Proof.
  intros ([H1 H2 _ _ _] & _) Hp Hk. destruct s as [k [ch sh h p n f]]. cbn in *.
  destruct sh, ch, h; cbn in *; try done; try (by specialize (H2 eq_refl)); try (by eexists); naive_solver.
Qed.

(** The startup comes back, without an error exactly when no required component failed, unless there is no seed. *)
Lemma startup_returns E t :
  match seed E with
  | Err _ => StartupWithConfig E t = (Exit, t ++ [SeedRandom])
  | Ok _ => exists r t', StartupWithConfig E t = (Ret r, t') /\ System.ok r = can_start E
  end.
Proof.
  unfold StartupWithConfig, seedRandomGenerator, can_start. destruct E as [sd ini gp fn [tty baud] ua net cr mk dbg sh me gr dn ak].
  cbn [seed init_system gpio fan host_uart uart network create mknod debug_ssh ssh metrics grpc dns acme_key].
  destruct sd as [e|u]; [done|]. unfold must, start, mbind, M_bind, modify.
  destruct ini; [by eexists _, _|]. destruct gp; [by eexists _, _|]. destruct fn; [by eexists _, _|]. destruct ua; [by eexists _, _|].
  destruct net; [by eexists _, _|]. destruct dbg; (destruct me; [by eexists _, _|]; destruct gr; [by eexists _, _|];
    destruct dn; [by eexists _, _|]; destruct ak; by eexists _, _).
Qed.

(** The board's memory can be opened and is that of a supported SoC. *)
Definition opens {A} (b : board) (soc : result A) (p : prog) : bool :=
  negb (has_aspeed b) || (bool_decide (dev_mem ∈ nodes p) && match soc with Ok _ => true | Err _ => false end).


(** Two shells on a board whose network does not come up, the second with an interrupt. *)
Definition no_network : env :=
  mk_env (Ok tt) (Ok tt) (Ok tt) (Ok tt) ("/dev/ttyS2", 57600) (Ok tt) (Err "no link") (fun _ => Ok tt) (Ok tt) true (Ok tt) (Ok tt) (Ok tt) (Ok tt) (Ok tt).


(** ** login *)

(** How the program ends: it becomes another one, with the arguments, the environment and what
    is left on standard input; or it ends with an error. *)
Inductive login_end : Type :=
| Became (path : string) (argv env : list string) (stdin : list (list Z))
| Fatal (message : string).

Definition login_env : list string := ["TZ=UTC"; "HOME=/root"; "USER=root"; "PATH=/bin"].

(** [main], with the flag [shell], the reads of standard input, and the error of [unix.Exec], which does not return
    otherwise. *)
Definition login_main (shell : string) (reads : list (list Z)) (exec : option error) : login_end :=
  match ReadString reads with
  | (Err e, _) => Fatal ("unable to read from terminal: " +:+ e)
  | (Ok _, rest) =>
      match exec with
      | None => Became shell [shell] login_env rest
      | Some e => Fatal ("failed to exec: " +:+ e)
      end
  end.

Lemma ReadString_find reads : 
  (Forall (fun r => 10 ∉ r) reads -> (ReadString reads).1 = Err "EOF") /\
  (forall pre r post, reads = pre ++ r :: post -> Forall (fun r => 10 ∉ r) pre -> 10 ∈ r ->
     exists l, ReadString reads = (Ok l, post)).
Proof.
  induction reads as [|r reads [IH1 IH2]]; [split; [done|by intros []]|]. split.
  - intros [Hr Hreads]%Forall_cons. cbn. rewrite (proj2 (list_find_None (eq 10) r)).
    { destruct (ReadString reads) as [l rest]. cbn in *. by rewrite IH1. }
    apply Forall_forall. intros x Hx <-. done.
  - intros [|r' pre] r0 post E Hpre H10; cbn in E; injection E as -> E.
    + subst. cbn. destruct (list_find (eq 10) r0) as [[i x]|] eqn:Ef; [by eexists|].
      apply list_find_None in Ef. rewrite Forall_forall in Ef. by destruct (Ef 10 H10).
    + apply Forall_cons in Hpre as [Hr Hpre]. destruct (IH2 pre r0 post E Hpre H10) as [l El]. cbn.
      rewrite (proj2 (list_find_None (eq 10) r')), El by (apply Forall_forall; intros x Hx <-; done). by eexists.
Qed.

(** The user's shell is started exactly when a line was entered on the console: without one it is
    never started, and with one it is, with the fixed environment.  It reads on after the read that held the line's end, so
    what was typed ahead in the same read is lost. *)
Theorem login_waits_for_line (shell : string) (reads : list (list Z)) :
  (Forall (fun r => 10 ∉ r) reads -> forall exec, exists m, login_main shell reads exec = Fatal m) /\
  (forall pre r post, reads = pre ++ r :: post -> Forall (fun r => 10 ∉ r) pre -> 10 ∈ r ->
     login_main shell reads None = Became shell [shell] login_env post).
Proof.
  destruct (ReadString_find reads) as [H1 H2]. unfold login_main. split.
  - intros Hno exec. specialize (H1 Hno). destruct (ReadString reads) as [l rest]. cbn in H1. subst. by eexists.
  - intros pre r post E Hpre H10. by destruct (H2 pre r post E Hpre H10) as [l ->].
Qed.
