(* ===== verification/BuildRoot.v ===== *)
(** * Building the root file system (u-bmc.go)

    [Main] builds one binary of all commands, links every command name to it and creates
    the directories.  The busybox builder and glob expansion are parameters; of the
    file system, what [os.RemoveAll], [os.Symlink] and [os.MkdirAll] do. *)

From S2P Require Import Prelude GoMonad GoStrings.
#[local] Open Scope string_scope.
#[local] Open Scope list_scope.
#[local] Open Scope Z_scope.

(** The commands of u-root that are built in. *)
Definition urootWhitelist : list string :=
  [ "backoff"; "basename"; "bind"; "blkid"; "cat"; "chmod"; "cmp"; "comm"; "cp"; "date"; "dd"; "df"; "dirname"; "dmesg";
    "echo"; "elvish"; "false"; "find"; "free"; "grep"; "hexdump"; "hostname"; "hwclock"; "id"; "init"; "io"; "ip"; "kill";
    "ln"; "losetup"; "ls"; "lsmod"; "man"; "md5sum"; "mkdir"; "mkfifo"; "mknod"; "mktemp"; "more"; "mount"; "mv"; "netcat";
    "pci"; "printenv"; "ps"; "pwd"; "readlink"; "rm"; "scp"; "seq"; "shasum"; "shutdown"; "sleep"; "sort"; "sshd"; "strace";
    "strings"; "stty"; "sync"; "tail"; "tar"; "tee"; "time"; "tr"; "true"; "truncate"; "ts"; "umount"; "unshare"; "uptime";
    "watchdog"; "watchdogd"; "wc"; "wget"; "which"; "yes" ].

Definition directories : list string := ["dev"; "proc"; "sys"; "usr/lib"; "var/log"; "tmp"; "etc"; "boot"; "config"].

(** ** The file system *)

Inductive node : Type := Link (target : string) | Dir | File.

Notation tree := (gmap string node).

(** [p] itself or something below it. *)
Definition under (p q : string) : Prop := q = p \/ HasPrefix q (p +:+ "/") = true.
#[export] Instance under_dec p q : Decision (under p q).
Proof. unfold under. apply _. Defined.

Definition RemoveAll (p : string) (t : tree) : tree := filter (fun kv => ~ under p kv.1) t.

(** The directories on the way to [p], and [p]. *)
Fixpoint prefixes (done p : string) : list string :=
  match p with
  | EmptyString => [done]
  | String c p =>
      (if decide (c = byte_chr 47) then [done] else []) ++ prefixes (done +:+ String c EmptyString) p
  end.

Definition mkdir (t : tree) (p : string) : tree := match t !! p with None => <[p := Dir]> t | Some _ => t end.

(** [filepath.Base]: what follows the last slash (trailing slashes do not occur in globbed
    paths). *)
Fixpoint Base_from (cur p : string) : string :=
  match p with
  | EmptyString => cur
  | String c p => if decide (c = byte_chr 47) then Base_from "" p else Base_from (cur +:+ String c EmptyString) p
  end.
Definition Base (p : string) : string := Base_from "" p.

(** ** Main *)

Section Main.
Context (Abs : string -> string) (Glob : string -> result (list string)) (Getwd : result string).
Context (BuildBusybox : list string -> M tree (result unit)).
(** Errors of the file system that do not come from the tree. *)
Context (link_error mkdir_error : string -> option error).
(** Whether a link leads to a directory. *)
Context (leads_to_dir : string -> bool).

Definition urootAbsEach (l : list string) : list string := map (fun s => Abs ("../../u-root/cmds/core/" +:+ s)) l.

Definition Symlink (target p : string) : M tree (result unit) := fun t =>
  match link_error p, t !! p with
  | Some e, _ => (Ret (Err e), t)
  | None, Some _ => (Ret (Err "file exists"), t)
  | None, None => (Ret (Ok tt), <[p := Link target]> t)
  end.

Definition dir_node (n : node) : bool :=
  match n with Dir => true | Link target => leads_to_dir target | File => false end.

(** [os.MkdirAll]: what exists on the way has to be a directory. *)
Definition MkdirAll (p : string) : M tree (result unit) := fun t =>
  match mkdir_error p with
  | Some e => (Ret (Err e), t)
  | None =>
      if forallb (fun q => match t !! q with Some n => dir_node n | None => true end) (prefixes "" p)
      then (Ret (Ok tt), foldl mkdir t (prefixes "" p))
      else (Ret (Err "not a directory"), t)
  end.

(** [for ... { if err := body(x); err != nil { return err } }; k]. *)
Fixpoint each (l : list string) (body : string -> M tree (result unit)) (k : M tree (result unit)) : M tree (result unit) :=
  match l with
  | [] => k
  | x :: l => r ← body x; match r with Err e => mret (Err e) | Ok _ => each l body k end
  end.

(** The link of a command. *)
Definition link_command (cmd : string) : M tree (result unit) :=
  _ ← modify (RemoveAll ("rootfs/bin/" +:+ Base cmd));
  Symlink "bb" ("rootfs/bin/" +:+ Base cmd).

(** The paths of the commands; patterns of the command line that do not parse are
    skipped. *)
Definition command_paths (args : list string) : result (list string) :=
  match Glob "../cmd/*" with
  | Err e => Err e
  | Ok bmccmds =>
      let extracmds := concat (omap (fun a => match Glob a with Ok l => Some l | Err _ => None end) args) in
      Ok (bmccmds ++ urootAbsEach urootWhitelist ++ extracmds)
  end.

Definition Main (args : list string) : M tree (result unit) :=
  match command_paths args with
  | Err e => mret (Err e)
  | Ok commands =>
      match Getwd with
      | Err e => mret (Err e)
      | Ok pwd =>
          r ← BuildBusybox commands;
          match r with
          | Err e => mret (Err e)
          | Ok _ =>
              each commands link_command (
                _ ← modify (RemoveAll "rootfs/bin/sh");
                r ← Symlink "elvish" "rootfs/bin/sh";
                match r with
                | Err e => mret (Err e)
                | Ok _ => each directories (fun d => MkdirAll ("rootfs/" +:+ d)) (mret (Ok tt))
                end)
          end
      end
  end.
End Main.

(** ** Names *)

Fixpoint no_slash (s : string) : bool :=
  match s with EmptyString => true | String c s => negb (bool_decide (c = byte_chr 47)) && no_slash s end.

Lemma no_slash_app a b : no_slash (a +:+ b) = no_slash a && no_slash b.
Proof. induction a as [|c a IH]; [done|]. change (String c a +:+ b) with (String c (a +:+ b)). cbn [no_slash]. by rewrite IH, andb_assoc. Qed.

Lemma Base_no_slash p : no_slash (Base p) = true.
Proof.
  unfold Base. assert (H : forall cur, no_slash cur = true -> no_slash (Base_from cur p) = true); [|by apply H].
  induction p as [|c p IH]; intros cur Hc; [done|]. cbn. case_decide as Hd; [by apply IH|].
  apply IH. rewrite no_slash_app, Hc. cbn. by rewrite bool_decide_eq_false_2.
Qed.

Lemma prefix_no_slash a b : no_slash b = true -> String.prefix (a +:+ "/") b = false.
Proof.
  revert a. induction b as [|c b IH]; intros a Hb; [by destruct a|]. cbn in Hb. apply andb_true_iff in Hb as [Hc Hb].
  destruct a as [|d a].
  - change ("" +:+ "/") with "/". cbn. case_match; [|done]. subst c. by rewrite bool_decide_eq_true_2 in Hc.
  - change (String d a +:+ "/") with (String d (a +:+ "/")). cbn. case_match; [|done]. by apply (IH a).
Qed.

Lemma prefix_app_same p a b : String.prefix (p +:+ a) (p +:+ b) = String.prefix a b.
Proof.
  induction p as [|c p IH]; [done|]. change (String c p +:+ ?x) with (String c (p +:+ x)).
  cbn. case_match; [exact IH|done].
Qed.

Lemma append_inj p a b : p +:+ a = p +:+ b -> a = b.
Proof. induction p as [|c p IH]; [done|]. intros [= E]. by apply IH. Qed.

Definition bin (name : string) : string := "rootfs/bin/" +:+ name.

Lemma under_bin a b : no_slash b = true -> under (bin a) (bin b) -> a = b.
Proof.
  intros Hb [E|E]; [symmetry; by apply (append_inj "rootfs/bin/")|]. unfold HasPrefix, bin in E.
  replace (("rootfs/bin/" +:+ a) +:+ "/") with ("rootfs/bin/" +:+ (a +:+ "/")) in E by done.
  rewrite prefix_app_same, prefix_no_slash in E by done. done.
Qed.

Lemma RemoveAll_bin a b (t : tree) : no_slash b = true -> a <> b -> RemoveAll (bin a) t !! bin b = t !! bin b.
Proof.
  intros Hb Hne. unfold RemoveAll. destruct (t !! bin b) as [n|] eqn:E.
  - apply map_lookup_filter_Some. split; [done|]. cbn. intros Hu. by apply Hne, under_bin.
  - apply map_lookup_filter_None. by left.
Qed.

(** ** The result *)

Section Result.
Context (link_error mkdir_error : string -> option error) (leads_to_dir : string -> bool).

(** A link that was made, and the others. *)
Lemma Symlink_ok target p t t' : Symlink link_error target p t = (Ret (Ok tt), t') -> t' = <[p := Link target]> t.
Proof. unfold Symlink. destruct (link_error p); [done|]. destruct (t !! p); [done|]. by intros [= <-]. Qed.

Lemma each_links cmds k t t' : each cmds (link_command link_error) k t = (Ret (Ok tt), t') ->
  exists t1, k t1 = (Ret (Ok tt), t') /\
    forall b, no_slash b = true -> (b ∈ map Base cmds \/ t !! bin b = Some (Link "bb")) -> t1 !! bin b = Some (Link "bb").
Proof.
  revert t. induction cmds as [|c cmds IH]; intros t E; cbn [each] in E.
  { exists t. split; [done|]. intros b _ [Hin|Hb]; [by apply elem_of_nil in Hin|done]. }
  unfold mbind, M_bind in E. unfold link_command, mbind, M_bind, modify in E.
  destruct (Symlink _ _ _ _) as [[[e|[]]| | |] t2] eqn:E2; try done. apply Symlink_ok in E2. fold (bin (Base c)) in E2.
  destruct (IH t2 E) as (t1 & Ek & H1). exists t1. split; [done|]. intros b Hb Hor. apply H1; [done|].
  destruct (decide (Base c = b)) as [Eb|Hne].
  - right. rewrite E2, Eb. by rewrite lookup_insert_eq.
  - destruct Hor as [Hin|Hor]; [left; apply elem_of_cons in Hin as [->|Hin]; [done|exact Hin]|right].
    rewrite E2, lookup_insert_ne by (intros E'; by apply Hne, (append_inj "rootfs/bin/")).
    fold (bin (Base c)). by rewrite RemoveAll_bin.
Qed.

Lemma mkdir_keeps ps (t : tree) p n : t !! p = Some n -> foldl mkdir t ps !! p = Some n.
Proof.
  revert t. induction ps as [|q ps IH]; intros t E; [done|]. cbn. apply IH. unfold mkdir. destruct (t !! q) eqn:Eq; [done|].
  rewrite lookup_insert_ne; [done|]. intros ->. congruence.
Qed.

Lemma mkdir_makes ps p (t : tree) : p ∈ ps -> foldl mkdir t ps !! p = Some (default Dir (t !! p)).
Proof.
  intros Hp. destruct (t !! p) as [n|] eqn:E; [by apply mkdir_keeps|]. cbn. revert t E.
  induction ps as [|q ps IH]; intros t E; [by apply elem_of_nil in Hp|]. cbn. destruct (decide (q = p)) as [->|Hne].
  - apply mkdir_keeps. unfold mkdir. by rewrite E, lookup_insert_eq.
  - apply elem_of_cons in Hp as [->|Hp]; [done|]. apply IH; [done|]. unfold mkdir. case_match; [done|].
    by rewrite lookup_insert_ne.
Qed.

Lemma prefixes_last done p : (done +:+ p) ∈ prefixes done p.
Proof.
  revert done. induction p as [|c p IH]; intros done; cbn.
  - assert (done +:+ "" = done) as -> by (induction done as [|x d IH]; [done|exact (f_equal (String x) IH)]). by left.
  - apply elem_of_app. right. specialize (IH (done +:+ String c "")).
    assert (E : (done +:+ String c "") +:+ p = done +:+ String c p) by (clear; induction done as [|x d IH]; [done|exact (f_equal (String x) IH)]).
    by rewrite E in IH.
Qed.

Lemma each_mkdirs ds t t' :
  each ds (fun d => MkdirAll mkdir_error leads_to_dir ("rootfs/" +:+ d)) (mret (Ok tt)) t = (Ret (Ok tt), t') ->
  (forall p n, t !! p = Some n -> t' !! p = Some n) /\
  forall d, d ∈ ds -> exists n, t' !! ("rootfs/" +:+ d) = Some n /\ dir_node leads_to_dir n = true.
Proof.
  revert t. induction ds as [|d ds IH]; intros t E; cbn [each] in E.
  { injection E as <-. split; [done|]. by intros d ?%elem_of_nil. }
  unfold mbind, M_bind, MkdirAll in E. destruct (mkdir_error _); [done|]. destruct (forallb _ _) eqn:Ef; [|done].
  destruct (IH _ E) as [H1 H2]. split.
  - intros p n Hp. apply H1. by apply mkdir_keeps.
  - intros d' [->|Hin]%elem_of_cons; [|by apply H2]. pose proof (prefixes_last "" ("rootfs/" +:+ d)) as Hp.
    eexists. split; [apply H1, mkdir_makes, Hp|]. apply list_elem_of_In in Hp.
    pose proof (proj1 (forallb_forall _ _) Ef _ Hp) as Hd. cbn beta in Hd.
    change ("" +:+ "rootfs/" +:+ d) with ("rootfs/" +:+ d) in Hd. by destruct (t !! _).
Qed.
End Result.

(** When the build succeeds, every command is a link to the one binary, also when
    several paths have the same base name or the name existed before, except that sh is
    always elvish; and all directories exist. *)
Theorem build_root_links (Abs : string -> string) (Glob : string -> result (list string)) (Getwd : result string)
    (BuildBusybox : list string -> M tree (result unit)) (link_error mkdir_error : string -> option error)
    (leads_to_dir : string -> bool) (args cmds : list string) (t t' : tree) :
  command_paths Abs Glob args = Ok cmds ->
  Main Abs Glob Getwd BuildBusybox link_error mkdir_error leads_to_dir args t = (Ret (Ok tt), t') ->
  (forall c, c ∈ cmds -> t' !! ("rootfs/bin/" +:+ Base c) = Some (Link (if decide (Base c = "sh") then "elvish" else "bb"))) /\
  t' !! "rootfs/bin/sh" = Some (Link "elvish") /\
  (forall d, d ∈ directories -> exists n, t' !! ("rootfs/" +:+ d) = Some n /\ dir_node leads_to_dir n = true).
Proof.
  intros Ec. unfold Main. rewrite Ec. destruct Getwd as [e|pwd]; [done|]. unfold mbind at 1, M_bind at 1.
  destruct (BuildBusybox cmds t) as [[[e|[]]| | |] t0]; try done. intros (t1 & E & Hlinks)%each_links.
  unfold mbind, M_bind, modify in E. destruct (Symlink link_error "elvish" "rootfs/bin/sh" _) as [[[e|[]]| | |] t2] eqn:Es; try done.
  apply Symlink_ok in Es. apply each_mkdirs in E as [Hkeep Hdirs].
  assert (Hsh : t' !! "rootfs/bin/sh" = Some (Link "elvish")).
  { apply Hkeep. rewrite Es. by rewrite lookup_insert_eq. }
  split_and!; [|done|done]. intros c Hc. case_decide as Hb; [by rewrite Hb|].
  apply Hkeep. rewrite Es. fold (bin (Base c)). change "rootfs/bin/sh" with (bin "sh").
  rewrite lookup_insert_ne by (intros E'; apply Hb; symmetry; by apply (append_inj "rootfs/bin/")).
  rewrite RemoveAll_bin; [|apply Base_no_slash|done]. apply Hlinks; [apply Base_no_slash|].
  left. apply list_elem_of_In, in_map, list_elem_of_In, Hc.
Qed.

Module SimBuild.
Definition glob (p : string) : result (list string) :=
  if decide (p = "../cmd/*") then Ok ["../cmd/login"; "../cmd/fan"] else Ok ["extra/fan"].
Definition busybox (_ : list string) : M tree (result unit) := fun t => (Ret (Ok tt), <["rootfs/bin/bb" := File]> t).
Definition build : outcome (result unit) * tree :=
  Main (fun s => s) glob (Ok "/src") busybox (fun _ => None) (fun _ => None) (fun _ => false) ["extra/*"] ∅.
Definition built : tree := build.2.

Lemma build_ok : build = (Ret (Ok tt), built).
Proof. rewrite (surjective_pairing build). apply (f_equal (fun o => (o, built))). by vm_compute. Qed.
End SimBuild.
Import SimBuild.

Lemma build_root_links_witness :
  built !! "rootfs/bin/fan" = Some (Link "bb") /\ built !! "rootfs/bin/sh" = Some (Link "elvish") /\ built !! "rootfs/usr/lib" = Some Dir.
Proof.
  destruct (build_root_links (fun s => s) glob (Ok "/src") busybox (fun _ => None) (fun _ => None) (fun _ => false) ["extra/*"]
    (["../cmd/login"; "../cmd/fan"] ++ urootAbsEach (fun s => s) urootWhitelist ++ ["extra/fan"]) ∅ built) as (H1 & H2 & H3);
    [by vm_compute|exact build_ok|].
  split; [|split; [exact H2|]].
  - apply (H1 "../cmd/fan"). right. by left.
  - destruct (H3 "usr/lib" ltac:(do 3 right; by left)) as (n & Hn & Hd).
    change ("rootfs/" +:+ "usr/lib") with "rootfs/usr/lib" in Hn. rewrite Hn. by destruct n.
Defined.
