(* ===== verification/Loader.v ===== *)
(** * The boot loader (boot/loader/main.go) and the layout tools
    (platform/cmd/boot-config, platform/cmd/flash-layout)

    The loader as a computation that logs what it does to the system and ends with
    the process when [log.Fatal] is called.  The files, the OpenPGP packages and
    the system calls are the environment. *)

From S2P Require Import Prelude GoMonad.
#[local] Open Scope string_scope.
#[local] Open Scope list_scope.
#[local] Open Scope Z_scope.

(** ** The loader *)

Definition pubKeyPath : string := "/u-bmc.pub".
Definition kernelPath : string := "/ro/boot/zImage".
Definition dtbPath : string := "/ro/boot/platform.dtb".
Definition initPath : string := "/ro/bin/init".

Definition verify : list string := [initPath; kernelPath; dtbPath].

(** The UUID of the root file system, and where erofs keeps it. *)
Definition uuid : list Z :=
  [0x26; 0xab; 0x04; 0x01; 0x3f; 0x49; 0x4f; 0xc2; 0xa1; 0x72; 0xc8; 0xaa; 0x02; 0xac; 0xea; 0xf3].
Definition uuid_offset : Z := 1072.

(** An OpenPGP packet, as far as the loader tells them apart. *)
Inductive pgp_packet (key sig : Type) : Type :=
| PublicKey (k : key)
| Signature (s : sig)
| SignatureV3 (s : sig)
| OtherPacket.
Arguments PublicKey {key sig} k.
Arguments Signature {key sig} s.
Arguments SignatureV3 {key sig} s.
Arguments OtherPacket {key sig}.

Record flags : Type := mk_flags { kload : bool; swroot : bool; mtd : bool; blk : bool; ast : bool }.

(** What the loader does to the system. *)
Inductive event : Type :=
| LoadModule (file : string)
| MkdirAll (dir : string)
| Mount (source target fstype : string) (readonly : bool) (data : string)
| SwitchRoot (root init : string)
| KexecFileLoad (kernel : list Z)
| ImageLoad (kernel : string)
| KexecReboot.

#[export] Instance event_eq_dec : EqDecision event.
Proof. solve_decision. Defined.

(** The environment: the content of files that can be opened, the first packet of
    a stream, the signature checks (over the hash of the content), and the results
    of the system calls. *)
Record env (key sig : Type) : Type := mk_env {
  file : string -> result (list Z);
  next_packet : list Z -> result (pgp_packet key sig);
  VerifySignature : key -> list Z -> sig -> result unit;
  VerifySignatureV3 : key -> list Z -> sig -> result unit;
  block_devices : list string;
  open_device : string -> result unit;
  device_uuid : string -> result (list Z);
  syscall : event -> result unit;
}.
Arguments file {key sig} _ _.
Arguments next_packet {key sig} _ _.
Arguments VerifySignature {key sig} _ _ _ _.
Arguments VerifySignatureV3 {key sig} _ _ _ _.
Arguments block_devices {key sig} _.
Arguments open_device {key sig} _ _.
Arguments device_uuid {key sig} _ _.
Arguments syscall {key sig} _ _.
Arguments mk_env {key sig} _ _ _ _ _ _ _ _.

Section Loader.
Context {key sig : Type} (E : env key sig).

Definition L (A : Type) : Type := M (list event) A.

(** A system call. *)
Definition sys (e : event) : L (result unit) :=
  _ ← modify (fun t => t ++ [e]); mret (syscall E e).

(** [v, err := f(); if err != nil { log.Fatalf(...) }]. *)
Definition or_fatal {A} (r : result A) : L A :=
  match r with Ok a => mret a | Err _ => go_fatal end.

Definition sys_or_fatal (e : event) : L unit := r ← sys e; or_fatal r.

(** [mount(fs)]; a name it does not know does nothing. *)
Definition mount (fs : string) : L unit :=
  if decide (fs = "proc") then sys_or_fatal (Mount fs "/proc" fs false "")
  else if decide (fs = "sysfs") then sys_or_fatal (Mount fs "/sys" fs false "")
  else if decide (fs = "devtmpfs") then sys_or_fatal (Mount fs "/dev" fs false "")
  else if decide (fs = "devpts") then
    sys_or_fatal (Mount fs "/dev/pts" fs false "newinstance,ptmxmode=666,gid=5,mode=620")
  else if decide (fs = "tmpfs") then sys_or_fatal (Mount fs "/tmp" fs false "")
  else if decide (fs = "overlayfs") then
    sys_or_fatal (Mount fs "/mnt" "overlay" false "lowerdir=/ro,upperdir=/tmp/upper,workdir=/tmp/work")
  else mret tt.

Definition createBasicHirarchy : L unit :=
  _ ← for_each ["/mnt"; "/ro"; "/tmp"; "/proc"; "/sys"; "/dev"] (fun dir => sys_or_fatal (MkdirAll dir));
  _ ← for_each ["sysfs"; "proc"; "devtmpfs"; "tmpfs"] mount;
  _ ← sys_or_fatal (MkdirAll "/dev/pts");
  mount "devpts".

Definition mountMtd : L unit := sys_or_fatal (Mount "ubi0:root" "/ro" "ubifs" true "").

Definition mountBlk : L unit :=
  for_each (block_devices E) (fun dev =>
    let dev := "/dev/" +:+ dev in
    _ ← or_fatal (open_device E dev);
    match device_uuid E dev with
    | Ok data => if decide (data = uuid) then sys_or_fatal (Mount dev "/ro" "erofs" true "") else mret tt
    | Err _ => mret tt
    end).

Definition mountOverlay : L unit :=
  _ ← for_each ["/tmp/upper"; "/tmp/work"] (fun dir => sys_or_fatal (MkdirAll dir));
  mount "overlayfs".

Definition readPublicSigningKey (keyf : list Z) : result key :=
  match next_packet E keyf with
  | Err e => Err e
  | Ok (PublicKey k) => Ok k
  | Ok _ => Err "expected first packet to be PublicKey"
  end.

(** The seeks and the copy of an opened file into the hash do not fail here, and the hash function is linked in;
    in the source an error of them is returned, and a missing hash function panics, so neither accepts a file. *)
Definition verifyDetachedSignature (content sigf : list Z) (k : key) : result unit :=
  match next_packet E sigf with
  | Err e => Err e
  | Ok (Signature s) => VerifySignature E k content s
  | Ok (SignatureV3 s) => VerifySignatureV3 E k content s
  | Ok _ => Err "unrecognized signature"
  end.

(** The content of the file, when its signature is good. *)
Definition openAndVerify (path : string) (k : key) : result (list Z) :=
  match file E (path +:+ ".gpg") with
  | Err e => Err e
  | Ok sigf =>
      match file E path with
      | Err e => Err e
      | Ok contentf =>
          match verifyDetachedSignature contentf sigf k with
          | Err e => Err e
          | Ok _ => Ok contentf
          end
      end
  end.

Definition loadModule (fp : string) : L (result unit) :=
  match file E fp with
  | Err e => mret (Err e)
  | Ok _ => sys (LoadModule fp)
  end.

Definition mount_root (fl : flags) : L unit :=
  _ ← (if mtd fl then mountMtd else mret tt);
  if blk fl then mountBlk else mret tt.

Definition mountAndSwitchRoot (fl : flags) : L unit :=
  _ ← createBasicHirarchy;
  _ ← mount_root fl;
  _ ← mountOverlay;
  sys_or_fatal (SwitchRoot "/mnt" "/bin/init").

Definition loadAndExec (fl : flags) : L unit :=
  keyf ← or_fatal (file E pubKeyPath);
  k ← or_fatal (readPublicSigningKey keyf);
  _ ← createBasicHirarchy;
  _ ← mount_root fl;
  _ ← for_each verify (fun path => _ ← or_fatal (openAndVerify path k); mret tt);
  kernel ← or_fatal (file E kernelPath);
  _ ← sys_or_fatal (KexecFileLoad kernel);
  _ ← sys_or_fatal (ImageLoad kernelPath);
  sys_or_fatal KexecReboot.

Definition loader_main (fl : flags) : L unit :=
  if mtd fl && blk fl then go_fatal
  else if negb (mtd fl) && negb (blk fl) then go_fatal
  else if kload fl && swroot fl then go_fatal
  else if negb (kload fl) && negb (swroot fl) then go_fatal
  else
    _ ← (if ast fl then r ← loadModule "/bootlock.ko"; or_fatal r else mret tt);
    _ ← (if kload fl then loadAndExec fl else mret tt);
    if swroot fl then mountAndSwitchRoot fl else mret tt.
End Loader.

(** ** Layout tools *)

(** The computation of flash-layout: where the second partition starts, for the
    sizes of the files and the extra bytes. *)
Definition flash_layout_split (extra : Z) (sizes : list Z) : Z :=
  let size := foldl (fun size s => sint 64 (size + s)) extra sizes in
  sint 64 (Z.land size (Z.lnot (Z.shiftl 1 16 - 1)) + 64 * 1024).

Record boot_layout : Type := mk_layout {
  initrdStart : Z; initrdEnd : Z; dtbStart : Z; ramStart : Z; ramSize : Z; ramEnd : Z }.

(** The computation of boot-config. *)
Definition boot_config (start size dtb initrd : Z) : boot_layout :=
  let ramEnd := sint 64 (start + size) in
  let dtbStart := Z.land (sint 64 (ramEnd - dtb)) (Z.lnot 0x3) in
  let initrdEnd := sint 64 (dtbStart - 64 * 1024) in
  let initrdStart := Z.land (sint 64 (initrdEnd - initrd)) (Z.lnot (64 * 1024 - 1)) in
  let initrdEnd := sint 64 (initrdStart + initrd) in
  mk_layout initrdStart initrdEnd dtbStart start size ramEnd.

(** ** What a computation adds to the log *)

Section Emits.
Context {key sig : Type} (E : env key sig).

(** [m] can return [a]. *)
Definition returns {A} (m : L A) (a : A) : Prop := exists t t', m t = (Ret a, t').

(** Every event [m] logs satisfies [P]. *)
Definition logs {A} (P : event -> Prop) (m : L A) : Prop :=
  forall t o t', m t = (o, t') -> exists l, t' = t ++ l /\ Forall P l.

Lemma logs_ret {A} P (a : A) : logs P (mret a : L A).
Proof. intros t o t' [= _ <-]. exists []. by rewrite app_nil_r. Qed.

Lemma logs_fatal {A} P : logs P (go_fatal : L A).
Proof. intros t o t' [= _ <-]. exists []. by rewrite app_nil_r. Qed.

Lemma logs_or_fatal {A} P (r : result A) : logs P (or_fatal r).
Proof. destruct r; [apply logs_fatal|apply logs_ret]. Qed.

Lemma logs_bind {A B} P (m : L A) (f : A -> L B) :
  logs P m -> (forall a, returns m a -> logs P (f a)) -> logs P (m ≫= f).
Proof.
  intros Hm Hf t o t'. unfold mbind, M_bind. destruct (m t) as [om tm] eqn:E1.
  destruct (Hm _ _ _ E1) as (l1 & -> & H1). destruct om as [a| | |].
  - intros E2. destruct (Hf a ltac:(by eexists _, _) _ _ _ E2) as (l2 & -> & H2).
    exists (l1 ++ l2). split; [by rewrite app_assoc|by apply Forall_app].
  - intros [= _ <-]. eauto.
  - intros [= _ <-]. eauto.
  - intros [= _ <-]. eauto.
Qed.

Lemma logs_sys (P : event -> Prop) e : P e -> logs P (sys E e).
Proof. intros He t o t' [= _ <-]. exists [e]. by split; [|constructor]. Qed.

Lemma logs_sys_or_fatal (P : event -> Prop) e : P e -> logs P (sys_or_fatal E e).
Proof. intros He. apply logs_bind; [by apply logs_sys|]. intros r _. apply logs_or_fatal. Qed.

Lemma logs_for_each {A} P (l : list A) body :
  (forall x, x ∈ l -> logs P (body x)) -> logs P (for_each l body).
Proof.
  induction l as [|x l IH]; intros Hb; [apply logs_ret|]. cbn [for_each].
  apply logs_bind; [apply Hb; by left|]. intros _ _. apply IH. intros y Hy. apply Hb. by right.
Qed.

Lemma logs_mono {A} (P Q : event -> Prop) (m : L A) : (forall e, P e -> Q e) -> logs P m -> logs Q m.
Proof.
  intros HPQ Hm t o t' Hr. destruct (Hm t o t' Hr) as (l & -> & Hl). exists l. split; [done|].
  by eapply Forall_impl.
Qed.

Lemma returns_or_fatal {A} (r : result A) a : returns (or_fatal r) a -> r = Ok a.
Proof. intros (t & t' & Hr). destruct r; [done|]. by injection Hr as <-. Qed.

Lemma returns_bind {A B} (m : L A) (f : A -> L B) b :
  returns (m ≫= f) b -> exists a, returns m a /\ returns (f a) b.
Proof.
  intros (t & t' & Hr). unfold mbind, M_bind in Hr. destruct (m t) as [[a| | |] tm] eqn:E1; try done.
  exists a. split; by eexists _, _.
Qed.

Lemma returns_for_each {A} (l : list A) body u :
  returns (for_each l body) u -> forall x, x ∈ l -> exists v, returns (body x) v.
Proof.
  revert u. induction l as [|y l IH]; intros u Hr x Hx; [by apply not_elem_of_nil in Hx|].
  cbn [for_each] in Hr. destruct (returns_bind _ _ _ Hr) as (v & Hv & Hrest).
  apply elem_of_cons in Hx as [->|Hx]; [eauto|]. by apply (IH u).
Qed.
End Emits.

(** Events that do not run anything from the root file system. *)
Definition prepares (e : event) : Prop :=
  match e with MkdirAll _ | Mount _ _ _ _ _ => True | _ => False end.

Section Prepare.
Context {key sig : Type} (E : env key sig).

Lemma mount_prepares fs : logs prepares (mount E fs).
Proof. unfold mount. repeat case_decide; first [by apply logs_sys_or_fatal|apply logs_ret]. Qed.

Lemma createBasicHirarchy_prepares : logs prepares (createBasicHirarchy E).
Proof.
  apply logs_bind; [apply logs_for_each; intros dir _; by apply logs_sys_or_fatal|]. intros _ _.
  apply logs_bind; [apply logs_for_each; intros fs _; apply mount_prepares|]. intros _ _.
  apply logs_bind; [by apply logs_sys_or_fatal|]. intros _ _. apply mount_prepares.
Qed.

Lemma mount_root_prepares fl : logs prepares (mount_root E fl).
Proof.
  apply logs_bind.
  - destruct (mtd fl); [by apply logs_sys_or_fatal|apply logs_ret].
  - intros _ _. destruct (blk fl); [|apply logs_ret]. apply logs_for_each. intros dev _.
    apply logs_bind; [apply logs_or_fatal|]. intros _ _.
    destruct (device_uuid E _); [apply logs_ret|]. case_decide; [by apply logs_sys_or_fatal|apply logs_ret].
Qed.

Lemma mountOverlay_prepares : logs prepares (mountOverlay E).
Proof.
  apply logs_bind; [apply logs_for_each; intros dir _; by apply logs_sys_or_fatal|].
  intros _ _. apply mount_prepares.
Qed.

(** The root file system was verified with the key of the loader. *)
Definition verified (k : key) : Prop :=
  (exists keyf, file E pubKeyPath = Ok keyf /\ readPublicSigningKey E keyf = Ok k) /\
  forall path, path ∈ verify -> exists c s, file E path = Ok c /\ file E (path +:+ ".gpg") = Ok s /\
    verifyDetachedSignature E c s k = Ok tt.

(** A kernel may be started only when everything was verified; nothing else is run
    in kexec mode. *)
Definition allowed (e : event) : Prop :=
  match e with
  | KexecFileLoad kernel => exists k, verified k /\ file E kernelPath = Ok kernel
  | ImageLoad p => p = kernelPath /\ (exists k, verified k) /\
      exists kernel, file E kernelPath = Ok kernel /\ syscall E (KexecFileLoad kernel) = Ok tt
  | KexecReboot => syscall E (ImageLoad kernelPath) = Ok tt
  | SwitchRoot _ _ => False
  | LoadModule p => p = "/bootlock.ko"
  | _ => True
  end.

Lemma prepares_allowed e : prepares e -> allowed e.
Proof. by destruct e. Qed.

Lemma openAndVerify_ok path k c :
  openAndVerify E path k = Ok c ->
  exists s, file E path = Ok c /\ file E (path +:+ ".gpg") = Ok s /\ verifyDetachedSignature E c s k = Ok tt.
Proof.
  unfold openAndVerify. destruct (file E (path +:+ ".gpg")) as [e|s]; [done|].
  destruct (file E path) as [e|c']; [done|]. destruct (verifyDetachedSignature E c' s k) as [e|[]] eqn:Ev; [done|].
  intros [= <-]. eauto.
Qed.

Lemma returns_sys_or_fatal e u : returns (sys_or_fatal E e) u -> syscall E e = Ok tt.
Proof.
  intros (r & (t & t' & Hs) & Hr)%returns_bind. apply returns_or_fatal in Hr as ->.
  injection Hs as Hs _. rewrite Hs. by destruct u.
Qed.

Lemma loadAndExec_allowed fl : logs allowed (loadAndExec E fl).
Proof.
  apply logs_bind; [apply logs_or_fatal|]. intros keyf Hkeyf%returns_or_fatal.
  apply logs_bind; [apply logs_or_fatal|]. intros k Hk%returns_or_fatal.
  apply logs_bind; [eapply logs_mono, createBasicHirarchy_prepares; apply prepares_allowed|]. intros _ _.
  apply logs_bind; [eapply logs_mono, mount_root_prepares; apply prepares_allowed|]. intros _ _.
  apply logs_bind.
  { apply logs_for_each. intros path _. apply logs_bind; [apply logs_or_fatal|]. intros _ _. apply logs_ret. }
  intros u Hall. assert (Hver : verified k).
  { split; [eauto|]. intros path Hp. destruct (returns_for_each _ _ _ Hall path Hp) as (v & Hv).
    apply returns_bind in Hv as (c & Hc%returns_or_fatal & _). exists c. by apply openAndVerify_ok. }
  apply logs_bind; [apply logs_or_fatal|]. intros kernel Hkernel%returns_or_fatal.
  apply logs_bind; [apply logs_sys_or_fatal; exists k; by split|]. intros _ H1%returns_sys_or_fatal.
  apply logs_bind; [apply logs_sys_or_fatal; split_and!; eauto|]. intros _ H2%returns_sys_or_fatal.
  by apply logs_sys_or_fatal.
Qed.

Lemma loader_kexec_allowed fl : kload fl = true -> logs allowed (loader_main E fl).
Proof.
  intros Hk. unfold loader_main. rewrite Hk. cbn [negb andb].
  destruct (mtd fl && blk fl); [apply logs_fatal|].
  destruct (negb (mtd fl) && negb (blk fl)); [apply logs_fatal|].
  destruct (swroot fl); [apply logs_fatal|].
  apply logs_bind.
  { destruct (ast fl); [|apply logs_ret]. apply logs_bind; [|intros r _; apply logs_or_fatal].
    unfold loadModule. destruct (file E "/bootlock.ko"); [apply logs_ret|by apply logs_sys]. }
  intros _ _. apply logs_bind; [apply loadAndExec_allowed|]. intros _ _. apply logs_ret.
Qed.
End Prepare.

(** ** The loader's guarantee *)

(** C2:  Verified boot: in kexec mode a kernel is handed to the system only after
    init, kernel and device tree were all found with a good signature of the key in
    /u-bmc.pub, and it is the content of the verified kernel file; the root is not
    switched to, and besides bootlock.ko nothing else is run.  The contents are
    those at verification: the root file system is mounted read-only. *)
Theorem loader_kexec_verified {key sig} (E : env key sig) (fl : flags) o t :
  kload fl = true -> loader_main E fl [] = (o, t) ->
  (forall kernel, KexecFileLoad kernel ∈ t -> exists k, verified E k /\ file E kernelPath = Ok kernel) /\
  (forall p, ImageLoad p ∈ t -> p = kernelPath /\ exists k, verified E k) /\
  (forall root init, SwitchRoot root init ∉ t) /\
  (forall f, LoadModule f ∈ t -> f = "/bootlock.ko").
Proof.
  intros Hk Hrun.
  pose proof (loader_kexec_allowed E fl Hk) as Hemits.
  destruct (Hemits [] o t Hrun) as (l & -> & Hall). cbn [app]. rewrite Forall_forall in Hall.
  split_and!.
  - intros kernel Hin. exact (Hall _ Hin).
  - intros p Hin. destruct (Hall _ Hin) as (-> & Hv & _). by split.
  - intros root init Hin. exact (Hall _ Hin).
  - intros f Hin. exact (Hall _ Hin).
Qed.

(** The documented fallback does not happen: when kexec_file_load fails the
    process ends, and kexec_load is tried only after kexec_file_load succeeded. *)
Theorem loader_no_fallback {key sig} (E : env key sig) (fl : flags) o t :
  loader_main E fl [] = (o, t) ->
  (forall kernel, file E kernelPath = Ok kernel -> exists e, syscall E (KexecFileLoad kernel) = Err e) ->
  kload fl = true -> forall p, ImageLoad p ∉ t.
Proof.
  intros Hrun Hfail Hk p Hin.
  pose proof (loader_kexec_allowed E fl Hk) as Hemits.
  destruct (Hemits [] o t Hrun) as (l & -> & Hall). rewrite Forall_forall in Hall.
  destruct (Hall _ Hin) as (_ & _ & kernel & Hf & Hs). destruct (Hfail kernel Hf) as [e He]. congruence.
Qed.

(** ** The layouts *)

Lemma align_down x k : 0 <= k -> Z.land x (Z.lnot (Z.ones k)) = x / 2 ^ k * 2 ^ k.
Proof.
  intros Hk. rewrite <- Z.ldiff_land, Z.ldiff_ones_r by done.
  by rewrite Z.shiftl_mul_pow2, Z.shiftr_div_pow2 by done.
Qed.

(** The boot layout: when device tree, initrd and the gap between them fit in
    the RAM, initrd and device tree lie in the RAM without overlapping, at least
    64 KiB apart, the initrd starts at a multiple of 64 KiB and the device tree at a
    multiple of 4 that leaves room for it before the end of the RAM. *)
Theorem boot_config_layout (start size dtb initrd : Z) :
  0 <= start -> 0 <= dtb -> 0 <= initrd -> start + size < 2 ^ 63 ->
  dtb + initrd + 2 * 65536 + 3 <= size ->
  let b := boot_config start size dtb initrd in
  start <= initrdStart b /\ (65536 | initrdStart b) /\ initrdEnd b = initrdStart b + initrd /\
  initrdEnd b + 65536 <= dtbStart b /\ (4 | dtbStart b) /\ dtbStart b + dtb <= ramEnd b /\
  ramEnd b = start + size.
Proof.
  intros Hs Hd Hi Hend Hfit. unfold boot_config. cbn [initrdStart initrdEnd dtbStart ramEnd].
  change (64 * 1024 - 1) with 65535. change (64 * 1024) with 65536.
  rewrite (sint_id 64 (start + size)) by (unfold is_sint; lia).
  rewrite (sint_id 64 (start + size - dtb)) by (unfold is_sint; lia).
  change (Z.lnot 3) with (Z.lnot (Z.ones 2)). rewrite align_down by lia.
  set (D := (start + size - dtb) / 2 ^ 2 * 2 ^ 2).
  assert (HD : start + size - dtb - 3 <= D <= start + size - dtb).
  { unfold D. pose proof (Z.div_mod (start + size - dtb) (2 ^ 2) ltac:(lia)).
    pose proof (Z.mod_pos_bound (start + size - dtb) (2 ^ 2) ltac:(lia)). lia. }
  rewrite (sint_id 64 (D - 65536)) by (unfold is_sint; lia).
  rewrite (sint_id 64 (D - 65536 - initrd)) by (unfold is_sint; lia).
  change (Z.lnot 65535) with (Z.lnot (Z.ones 16)). rewrite align_down by lia.
  set (I := (D - 65536 - initrd) / 2 ^ 16 * 2 ^ 16).
  assert (HI : D - 65536 - initrd - 65535 <= I <= D - 65536 - initrd).
  { unfold I. pose proof (Z.div_mod (D - 65536 - initrd) (2 ^ 16) ltac:(lia)).
    pose proof (Z.mod_pos_bound (D - 65536 - initrd) (2 ^ 16) ltac:(lia)). lia. }
  rewrite (sint_id 64 (I + initrd)) by (unfold is_sint; lia).
  split_and!; try lia.
  - exists ((D - 65536 - initrd) / 2 ^ 16). unfold I. lia.
  - exists ((start + size - dtb) / 2 ^ 2). unfold D. lia.
Qed.

(** The flash layout: the second partition starts at a multiple of 64 KiB
    after everything in the first one, at most 64 KiB later. *)
Theorem flash_layout_split_correct (extra : Z) (sizes : list Z) :
  0 <= extra -> Forall (fun s => 0 <= s) sizes -> foldr Z.add extra sizes < 2 ^ 63 - 65536 ->
  let total := foldr Z.add extra sizes in
  let split := flash_layout_split extra sizes in
  (65536 | split) /\ total < split <= total + 65536.
Proof.
  intros He Hs Hlt total split.
  assert (Hsum : forall l acc, 0 <= acc -> Forall (fun s => 0 <= s) l -> foldr Z.add acc l < 2 ^ 63 ->
    foldl (fun size s => sint 64 (size + s)) acc l = foldr Z.add acc l /\ acc <= foldr Z.add acc l).
  { clear. induction l as [|s l IH]; intros acc Ha Hl Hlt; [by split|].
    apply Forall_cons in Hl as [Hs Hl]. cbn [foldl foldr] in *.
    assert (Hacc : foldr Z.add (acc + s) l = s + foldr Z.add acc l).
    { clear. induction l as [|x l IH]; simpl; lia. }
    assert (acc <= foldr Z.add acc l).
    { clear -Hl. induction l as [|x l IH]; simpl; [lia|]. apply Forall_cons in Hl as [Hx Hl]. specialize (IH Hl). lia. }
    rewrite sint_id by (unfold is_sint; lia).
    destruct (IH (acc + s)) as [-> _]; [lia|done|lia|]. split; lia. }
  destruct (Hsum sizes extra He Hs ltac:(lia)) as [Hf Hge].
  assert (Hsplit : split = total / 65536 * 65536 + 65536).
  { unfold split, flash_layout_split. rewrite Hf. fold total.
    change (Z.lnot (1 ≪ 16 - 1)) with (Z.lnot (Z.ones 16)). rewrite align_down by lia.
    change (2 ^ 16) with 65536. apply sint_id; [lia|]. unfold is_sint.
    pose proof (Z.div_mod total 65536 ltac:(lia)). pose proof (Z.mod_pos_bound total 65536 ltac:(lia)).
    assert (0 <= total / 65536) by (apply Z.div_pos; unfold total in *; lia). unfold total in *. lia. }
  rewrite Hsplit. pose proof (Z.div_mod total 65536 ltac:(lia)). pose proof (Z.mod_pos_bound total 65536 ltac:(lia)).
  split; [exists (total / 65536 + 1); lia|lia].
Qed.

(** ** A concrete machine *)

Module SimBoot.
(** A signature is the sum of the bytes it signs; keys are numbers. *)
Definition sim_file (f : string) : result (list Z) :=
  if decide (f = pubKeyPath) then Ok [0; 7]
  else if decide (f ∈ verify) then Ok [1; 2; 3]
  else if decide (f ∈ (fun p => p +:+ ".gpg") <$> verify) then Ok [1; 13]
  else Err "no such file".

Definition sim_packet (b : list Z) : result (pgp_packet Z Z) :=
  match b with
  | [0; k] => Ok (PublicKey k)
  | [1; s] => Ok (Signature s)
  | _ => Err "EOF"
  end.

Definition sim_verify (k : Z) (c : list Z) (s : Z) : result unit :=
  if decide (foldr Z.add k c = s) then Ok tt else Err "signature failure".

Definition machine (call : event -> result unit) : env Z Z :=
  mk_env sim_file sim_packet sim_verify sim_verify ["sda"] (fun _ => Ok tt) (fun _ => Ok uuid) call.

Definition kexec_blk : flags := mk_flags true false false true false.

Definition boot (call : event -> result unit) : outcome unit * list event :=
  loader_main (machine call) kexec_blk [].

Definition no_file_load (e : event) : result unit :=
  match e with KexecFileLoad _ => Err "ENOSYS" | _ => Ok tt end.

(** A machine on which every call works boots, and what it loads was verified. *)
Lemma loader_kexec_verified_witness :
  (boot (fun _ => Ok tt)).1 = Ret tt /\
  KexecFileLoad [1; 2; 3] ∈ (boot (fun _ => Ok tt)).2 /\
  exists k, verified (machine (fun _ => Ok tt)) k /\ file (machine (fun _ => Ok tt)) kernelPath = Ok [1; 2; 3].
Proof.
  assert (Hin : KexecFileLoad [1; 2; 3] ∈ (boot (fun _ => Ok tt)).2)
    by (apply (bool_decide_eq_true_1 _); vm_compute; reflexivity).
  split; [vm_compute; reflexivity|]. split; [exact Hin|].
  destruct (loader_kexec_verified (machine (fun _ => Ok tt)) kexec_blk (boot (fun _ => Ok tt)).1
    (boot (fun _ => Ok tt)).2 eq_refl (surjective_pairing _)) as [Hk _].
  exact (Hk _ Hin).
Defined.

Lemma loader_no_fallback_witness :
  (boot no_file_load).1 = Exit /\ forall p, ImageLoad p ∉ (boot no_file_load).2.
Proof.
  split; [vm_compute; reflexivity|].
  apply (loader_no_fallback (machine no_file_load) kexec_blk (boot no_file_load).1 (boot no_file_load).2).
  - apply surjective_pairing.
  - intros kernel _. eexists. reflexivity.
  - reflexivity.
Defined.
End SimBoot.

Lemma boot_config_layout_witness :
  let b := boot_config 0x40000000 0x8000000 20000 5000000 in
  0x40000000 <= initrdStart b /\ initrdEnd b + 65536 <= dtbStart b /\ dtbStart b + 20000 <= ramEnd b.
Proof.
  destruct (boot_config_layout 0x40000000 0x8000000 20000 5000000) as (H1 & _ & _ & H2 & _ & H3 & _);
    [lia|lia|lia|lia|lia|]. split; [exact H1|]. split; [exact H2|exact H3].
Defined.

Lemma flash_layout_split_correct_witness :
  (65536 | flash_layout_split 100 [500000; 20000]) /\ 520100 < flash_layout_split 100 [500000; 20000] <= 520100 + 65536.
Proof.
  apply (flash_layout_split_correct 100 [500000; 20000]).
  - lia.
  - repeat constructor; lia.
  - simpl. lia.
Defined.
