(* ===== verification/BootImage.v ===== *)
(** * The boot image tools (boot/signer/main.go, boot/cpio/main.go) and the loader

    The signer signs its standard input with an RSA key and writes the public key once; cpio
    packs the initramfs the loader runs in.  Both are modelled over a host with files, the
    OpenPGP and initramfs packages being interfaces with the laws the image depends on.  The
    theorems join them with [Loader]: what the signer signed is what the loader accepts. *)

From S2P Require Import Prelude GoMonad GoStrings Loader.
#[local] Open Scope string_scope.
#[local] Open Scope list_scope.
#[local] Open Scope Z_scope.

(** ** Paths (path/filepath on Unix) *)

Definition slash : Ascii.ascii := byte_chr 47.

(** The elements of a path, the last one first: empty elements and dots are dropped,
    and two dots remove the element before them. *)
Definition clean_step (rooted : bool) (stack : list string) (elem : string) : list string :=
  if decide (elem = "" \/ elem = ".") then stack
  else if decide (elem = "..") then
    match stack with
    | top :: rest => if decide (top = "..") then elem :: stack else rest
    | [] => if rooted then [] else [elem]
    end
  else elem :: stack.

Fixpoint with_slashes (l : list string) : string :=
  match l with [] => "" | [e] => e | e :: l => e +:+ ("/" +:+ with_slashes l) end.

Definition Clean (p : string) : string :=
  let rooted := HasPrefix p "/" in
  let elems := with_slashes (rev (foldl (clean_step rooted) [] (Split slash p))) in
  if rooted then "/" +:+ elems else if decide (elems = "") then "." else elems.

(** [filepath.Join(a, b)]: empty arguments are ignored. *)
Definition Join (a b : string) : string :=
  if decide (a = "") then if decide (b = "") then "" else Clean b
  else if decide (b = "") then Clean a else Clean (a +:+ ("/" +:+ b)).

(** [filepath.Dir]: without the last element. *)
Definition Dir (p : string) : string :=
  let dir := with_slashes (rev (tail (rev (Split slash p)))) in
  if decide (dir = "" /\ HasPrefix p "/" = true) then "/" else Clean dir.

(** [filepath.Base]: the last element. *)
Definition Base (p : string) : string :=
  if decide (p = "") then "." else default "/" (last (filter (fun e => e <> "") (Split slash p))).

(** ** The OpenPGP packages *)

(** [packet.Signature], the fields the signer sets. *)
Record signature_template : Type := mk_template {
  CreationTime : Z; FlagCertify : bool; FlagSign : bool; FlagEncryptCommunications : bool; FlagEncryptStorage : bool;
  FlagsValid : bool; Hash : Z; IsPrimaryId : option bool; IssuerKeyId : option Z; KeyLifetimeSecs : option Z;
  PreferredHash : list Z; PubKeyAlgo : Z; SigType : Z }.

Record user_id : Type := mk_user { uid_Id : string; uid_Name : string }.
Record identity : Type := mk_identity { id_Name : string; id_UserId : user_id; SelfSignature : signature_template }.
Record subkey (key private : Type) : Type := mk_subkey { sub_PublicKey : key; sub_PrivateKey : private; Sig : signature_template }.
Arguments mk_subkey {key private} _ _ _.

(** [openpgp.Entity]. *)
Record entity (key private : Type) : Type := mk_entity {
  PrimaryKey : key; PrivateKey : private; Identities : gmap string identity; Subkeys : list (subkey key private) }.
Arguments mk_entity {key private} _ _ _ _.
Arguments PrimaryKey {key private} _.
Arguments PrivateKey {key private} _.
Arguments Identities {key private} _.
Arguments Subkeys {key private} _.

(** The operations of crypto/x509, encoding/pem and golang.org/x/crypto/openpgp the signer
    calls; [DetachSign] gives what it wrote and its error. *)
Class OpenPgp (rsa rsa_public key private : Type) : Type := {
  pem_Decode : list Z -> option (list Z);
  ParsePKCS1PrivateKey : list Z -> result rsa;
  Public : rsa -> rsa_public;
  NewUserId : string -> string -> string -> option user_id;
  NewRSAPublicKey : Z -> rsa_public -> key;
  NewRSAPrivateKey : Z -> rsa -> private;
  KeyId : key -> Z;
  config_Hash : Z -> Z;
  HashToHashId : Z -> option Z;
  Serialize : key -> list Z;
  DetachSign : entity key private -> list Z -> list Z * result unit }.

Definition SHA256 : Z := 5.
Definition PubKeyAlgoRSA : Z := 1.
Definition SigTypePositiveCert : Z := 0x13.
Definition SigTypeSubkeyBinding : Z := 0x18.
Definition keyLifetimeSecs : Z := 86400 * 365 * 100.

(** ** The signer *)

(** The files of the build host, and what a run wrote to its standard output. *)
Record host : Type := mk_host { h_files : gmap string (list Z); stdout : list Z }.

(** Errors of the host other than a missing file. *)
Record host_errors : Type := mk_errors { read_error : string -> option error; stat_error : string -> option error;
  create_error : string -> option error }.

Section Signer.
Context {rsa rsa_public key private : Type} `{OpenPgp rsa rsa_public key private} (X : host_errors).

Definition fatal_on {S A} (r : result A) : M S A := match r with Ok a => mret a | Err _ => go_fatal end.

(** [ioutil.ReadFile]. *)
Definition ReadFile (p : string) : M host (result (list Z)) := gets (fun h =>
  match read_error X p, h_files h !! p with
  | Some e, _ => Err e
  | None, None => Err "no such file or directory"
  | None, Some b => Ok b
  end).

(** [_, err := os.Stat(p); os.IsNotExist(err)]. *)
Definition is_not_exist (p : string) : M host bool := gets (fun h =>
  match stat_error X p with Some _ => false | None => bool_decide (h_files h !! p = None) end).

(** [os.OpenFile(p, os.O_WRONLY|os.O_CREATE, 0644)]. *)
Definition open_create (p : string) : M host (result unit) :=
  match create_error X p with
  | Some e => mret (Err e)
  | None => _ ← modify (fun h => mk_host (<[p := default [] (h_files h !! p)]> (h_files h)) (stdout h)); mret (Ok tt)
  end.

(** Writing at the start of an opened file. *)
Definition write_at_start (p : string) (b : list Z) : M host unit := modify (fun h =>
  mk_host (alter (fun old => b ++ drop (length b) old) p (h_files h)) (stdout h)).

(** The entity of the builder for a key created at [ct]. *)
Definition builder_entity (ct : Z) (privKey : rsa) (uid : user_id) (hid : Z) : entity key private :=
  let pubKey := NewRSAPublicKey ct (Public privKey) in
  mk_entity pubKey (NewRSAPrivateKey ct privKey)
    {[ uid_Id uid := mk_identity (uid_Name uid) uid
         (mk_template ct true true false false true (config_Hash SHA256) (Some true) (Some (KeyId pubKey)) None []
            PubKeyAlgoRSA SigTypePositiveCert) ]}
    [ mk_subkey pubKey (NewRSAPrivateKey ct privKey)
        (mk_template ct false false true true true (config_Hash SHA256) None (Some (KeyId pubKey)) (Some keyLifetimeSecs)
           [hid] PubKeyAlgoRSA SigTypeSubkeyBinding) ].

Definition privateKeyPath (arg0 : string) : string := Join (Dir arg0) "./keys/u-bmc.key".
Definition publicKeyPath (arg0 : string) : string := Join (Dir arg0) "./keys/u-bmc.pub".

(** [main], run as [arg0] at [now] with [stdin]. *)
Definition signer_main (arg0 : string) (now : Z) (stdin : list Z) : M host unit :=
  rd ← ReadFile (privateKeyPath arg0);
  pkData ← fatal_on rd;
  match pem_Decode pkData with
  | None => go_panic
  | Some pkPem =>
      privKey ← fatal_on (ParsePKCS1PrivateKey pkPem);
      match NewUserId "u-bmc builder" "" "" with
      | None => go_panic
      | Some uid =>
          match HashToHashId SHA256 with
          | None => go_fatal
          | Some hid =>
              let e := builder_entity now privKey uid hid in
              missing ← is_not_exist (publicKeyPath arg0);
              _ ← (if (missing : bool) then
                     o ← open_create (publicKeyPath arg0);
                     _ ← fatal_on o;
                     write_at_start (publicKeyPath arg0) (Serialize (PrimaryKey e))
                   else mret tt);
              _ ← modify (fun h => mk_host (h_files h) (stdout h ++ (DetachSign e stdin).1));
              fatal_on (DetachSign e stdin).2
          end
      end
  end.
End Signer.

(** ** The initramfs packer *)

(** [cpio.Record], as the packer makes them. *)
Inductive record : Type :=
| Directory (name : string) (mode : Z)
| CharDev (name : string) (mode major minor : Z).

(** [initramfs.Opts]. *)
Record opts (files archive writer : Type) : Type := mk_opts {
  Files : files; BaseArchive : archive; OutputFile : writer; UseExistingInit : bool }.
Arguments mk_opts {files archive writer} _ _ _ _.
Arguments Files {files archive writer} _.
Arguments BaseArchive {files archive writer} _.

(** The initramfs and cpio packages of u-root; [Glob] is the host's, with the empty list for
    no match and for a bad pattern. *)
Class Initramfs (files archive archiver writer : Type) : Type := {
  GetArchiver : string -> result archiver;
  OpenWriter : archiver -> string -> result writer;
  NewFiles : files;
  AddFile : files -> string -> string -> result files;
  MakeAllReproducible : list record -> list record;
  ArchiveFromRecords : list record -> archive;
  Write : opts files archive writer -> result unit;
  Glob : string -> list string }.

(** What [AddFile] promises: the file is in, and what was in stays.  [added fs d s]: the
    archive path [d] is the host file [s]. *)
Class InitramfsLaws {files archive archiver writer} `{Initramfs files archive archiver writer}
    (added : files -> string -> string -> Prop) : Prop := {
  added_new : forall fs s d fs', AddFile fs s d = Ok fs' -> added fs' d s;
  added_old : forall fs s d fs' s' d', AddFile fs s d = Ok fs' -> added fs d' s' -> added fs' d' s' }.

(** An octal mode. *)
Definition perm (u g o : Z) : Z := u * 64 + g * 8 + o.

Definition base_records : list record :=
  [ Directory "ro" (perm 7 5 5); Directory "mnt" (perm 7 5 5); Directory "tmp" (perm 7 5 5); Directory "proc" (perm 5 5 5); Directory "sys" (perm 5 5 5);
    Directory "dev" (perm 7 7 7); CharDev "dev/console" (perm 6 0 0) 5 1; CharDev "dev/tty" (perm 6 6 6) 5 0; CharDev "dev/null" (perm 6 6 6) 1 3;
    CharDev "dev/port" (perm 6 4 0) 1 4; CharDev "dev/urandom" (perm 6 6 6) 1 9 ].

Section Cpio.
Context {files archive archiver writer : Type} `{Initramfs files archive archiver writer}.

(** The calls of [initramfs.Write], in order. *)
Notation C := (M (list (opts files archive writer))).

Fixpoint add_files (fs : files) (l : list string) : C files :=
  match l with
  | [] => mret fs
  | f :: l => fs ← fatal_on (AddFile fs f (Base f)); add_files fs l
  end.

Fixpoint add_args (fs : files) (args : list string) : C files :=
  match args with
  | [] => mret fs
  | arg :: args =>
      match Glob arg with
      | [] => go_fatal
      | extraFiles => fs ← add_files fs extraFiles; add_args fs args
      end
  end.

Definition cpio_main (outPath : string) (args : list string) : C unit :=
  a ← fatal_on (GetArchiver "cpio");
  w ← fatal_on (OpenWriter a outPath);
  fs ← add_args NewFiles args;
  let o := mk_opts fs (ArchiveFromRecords (MakeAllReproducible base_records)) w false in
  _ ← modify (fun t => t ++ [o]);
  fatal_on (Write o).
End Cpio.

(** ** The paths of the keys *)

Lemma str_app_assoc (a b c : string) : a +:+ (b +:+ c) = (a +:+ b) +:+ c.
Proof. induction a as [|x a IH]; [done|]. apply (f_equal (String x) IH). Qed.

Lemma Split_nonempty s : Split slash s <> [].
Proof. destruct s as [|c s]; [done|]. cbn [Split]. case_decide; [done|]. by destruct (Split slash s). Qed.

Lemma Split_app_slash a b : Split slash (a +:+ String slash b) = Split slash a ++ Split slash b.
Proof.
  induction a as [|c a IH]; [reflexivity|]. change (String c a +:+ ?x) with (String c (a +:+ x)).
  cbn [Split]. rewrite IH.
  case_decide; [done|]. destruct (Split slash a) as [|w ws] eqn:E; [|done].
  by destruct (Split_nonempty a).
Qed.

Fixpoint last_char (s : string) : option Ascii.ascii :=
  match s with EmptyString => None | String c s => match last_char s with Some d => Some d | None => Some c end end.

Lemma last_char_app a b c : last_char b = Some c -> last_char (a +:+ b) = Some c.
Proof.
  intros Hb. induction a as [|x a IH]; [done|]. change (String x a +:+ b) with (String x (a +:+ b)).
  cbn [last_char]. by rewrite IH.
Qed.

Lemma last_char_slashes l e c : last_char e = Some c -> last_char (with_slashes (l ++ [e])) = Some c.
Proof.
  intros He. induction l as [|x l IH]; [done|]. cbn [app with_slashes].
  destruct (l ++ [e]) eqn:El; [by destruct l|]. rewrite <- El in *. by do 2 apply last_char_app.
Qed.

Lemma clean_step_name rooted stack x : x <> "" -> x <> "." -> x <> ".." -> clean_step rooted stack x = x :: stack.
Proof. intros H0 H1 H2. unfold clean_step. case_decide; [naive_solver|]. by case_decide. Qed.

(** A path whose last element is a name ends like the name. *)
Lemma last_char_Clean a x c :
  x <> "" -> x <> "." -> x <> ".." -> Split slash x = [x] -> last_char x = Some c ->
  last_char (Clean (a +:+ String slash x)) = Some c.
Proof.
  intros H0 H1 H2 Hx Hc. unfold Clean. rewrite Split_app_slash, Hx, foldl_app. cbn [foldl].
  rewrite clean_step_name by done. cbn [rev].
  set (l := rev _). pose proof (last_char_slashes l x c Hc) as Hl.
  destruct (HasPrefix _ "/"); [by apply last_char_app|]. case_decide as Hd; [|done]. by rewrite Hd in Hl.
Qed.

Lemma Clean_nonempty p : Clean p <> "".
Proof. unfold Clean. by destruct (HasPrefix p "/"); [|case_decide]. Qed.

Lemma Dir_nonempty p : Dir p <> "".
Proof. unfold Dir. case_decide; [done|]. apply Clean_nonempty. Qed.

Lemma key_paths_differ arg0 : privateKeyPath arg0 <> publicKeyPath arg0.
Proof.
  unfold privateKeyPath, publicKeyPath, Join. intros Heq. rewrite !decide_False in Heq by first [apply Dir_nonempty|discriminate]. apply (f_equal last_char) in Heq.
  change ("/" +:+ "./keys/u-bmc.key") with ("/./keys" +:+ String slash "u-bmc.key") in Heq.
  change ("/" +:+ "./keys/u-bmc.pub") with ("/./keys" +:+ String slash "u-bmc.pub") in Heq.
  rewrite !str_app_assoc in Heq.
  by rewrite (last_char_Clean _ "u-bmc.key" (byte_chr 121)), (last_char_Clean _ "u-bmc.pub" (byte_chr 98)) in Heq.
Qed.

(** ** One run of the signer *)

Section SignerFacts.
Context {rsa rsa_public key private : Type} `{OpenPgp rsa rsa_public key private} (X : host_errors) (arg0 : string).

Notation priv := (privateKeyPath arg0).
Notation pub := (publicKeyPath arg0).

(** The host has the key [k] and the libraries know what the signer asks for. *)
Definition can_sign (k : rsa) (h : host) : Prop :=
  read_error X priv = None /\
  (exists b p, h_files h !! priv = Some b /\ pem_Decode b = Some p /\ ParsePKCS1PrivateKey p = Ok k) /\
  is_Some (NewUserId "u-bmc builder" "" "") /\ is_Some (HashToHashId SHA256).

(** The entity of the runs for [k]. *)
Definition is_entity (k : rsa) (now : Z) (e : entity key private) : Prop :=
  PrimaryKey e = NewRSAPublicKey now (Public k) /\ PrivateKey e = NewRSAPrivateKey now k.

(** A run with a public key in place leaves every file alone, however it ends. *)
Lemma signer_keeps_files now stdin h :
  is_Some (h_files h !! pub) -> h_files (signer_main X arg0 now stdin h).2 = h_files h.
Proof.
  intros [b Hb]. unfold signer_main, mbind, M_bind, ReadFile, gets. cbn.
  destruct (read_error X priv); [done|]. destruct (h_files h !! priv) as [d|]; [|done]. cbn.
  destruct (pem_Decode d) as [p|]; [|done]. destruct (ParsePKCS1PrivateKey p) as [|k]; [done|]. cbn.
  destruct (NewUserId _ _ _) as [u|]; [|done]. destruct (HashToHashId SHA256); [|done]. cbn.
  destruct (stat_error X pub); [|rewrite Hb, bool_decide_false by done]; cbn;
    by destruct (DetachSign _ stdin) as [out [|]].
Qed.

(** A run that can sign: the public key is written when there was none, and the output is
    the signature of the input. *)
Lemma signer_signs k now stdin h :
  can_sign k h -> stat_error X pub = None -> create_error X pub = None ->
  exists e, is_entity k now e /\
    let h' := mk_host (match h_files h !! pub with
                       | Some _ => h_files h
                       | None => <[pub := Serialize (NewRSAPublicKey now (Public k))]> (h_files h) end)
                (stdout h ++ (DetachSign e stdin).1) in
    signer_main X arg0 now stdin h =
      (match (DetachSign e stdin).2 with Ok _ => Ret tt | Err _ => Exit end, h').
Proof.
  intros (Hr & (b & p & Hb & Hp & Hk) & [u Hu] & [hid Hh]) Hs Hc.
  exists (builder_entity now k u hid). split; [done|].
  unfold signer_main, mbind, M_bind, ReadFile, gets. cbn. rewrite Hr, Hb. cbn. rewrite Hp. cbn. rewrite Hk. cbn.
  rewrite Hu, Hh. cbn. rewrite Hs. unfold open_create. rewrite Hc. destruct (h_files h !! pub) as [old|] eqn:Eo; cbn.
  - by destruct (DetachSign _ stdin) as [out [|[]]].
  - unfold mbind, M_bind. cbn. rewrite Eo. cbn. rewrite alter_insert_eq, drop_nil, app_nil_r.
    by destruct (DetachSign _ stdin) as [out [|[]]].
Qed.

Lemma can_sign_pub k h b : can_sign k h -> can_sign k (mk_host (<[pub := b]> (h_files h)) (stdout h)).
Proof.
  intros (Hr & Hk & Hu & Hh). split_and!; try done. cbn.
  rewrite lookup_insert_ne by (apply not_eq_sym, key_paths_differ). done.
Qed.
End SignerFacts.

(** ** Signing an image *)

Section Image.
Context {rsa rsa_public key private : Type} `{OpenPgp rsa rsa_public key private} (X : host_errors) (arg0 : string).

Notation pub := (publicKeyPath arg0).

(** One file of the root: [cp], and [signer < file > file.gpg] at a time. *)
Definition sign_file (now : Z) (path : string) (content : list Z) (img : gmap string (list Z)) : M host (gmap string (list Z)) :=
  _ ← modify (fun h => mk_host (h_files h) []);
  _ ← signer_main X arg0 now content;
  out ← gets stdout;
  mret (<[path +:+ ".gpg" := out]> (<[path := content]> img)).

Fixpoint sign_image (jobs : list (Z * (string * list Z))) (img : gmap string (list Z)) : M host (gmap string (list Z)) :=
  match jobs with
  | [] => mret img
  | (now, (path, content)) :: jobs => img ← sign_file now path content img; sign_image jobs img
  end.

(** The signer works on this host: it has the key, and signing with it does not fail. *)
Record signing_host (k : rsa) (h : host) : Prop := {
  host_can_sign : can_sign X arg0 k h;
  host_stat : stat_error X pub = None;
  host_create : create_error X pub = None;
  host_signs : forall now e m, is_entity k now e -> (DetachSign e m).2 = Ok tt }.

(** A host whose public key is that of [k], made at [t0]. *)
Definition published (k : rsa) (t0 : Z) (h : host) : Prop :=
  h_files h !! pub = Some (Serialize (NewRSAPublicKey t0 (Public k))).

(** A file of the image with its signature by [k]. *)
Definition signed (k : rsa) (img : gmap string (list Z)) (path : string) (content : list Z) : Prop :=
  img !! path = Some content /\
  exists now e, is_entity k now e /\ img !! (path +:+ ".gpg") = Some (DetachSign e content).1.

Lemma signing_host_files k h h' : h_files h = h_files h' -> signing_host k h -> signing_host k h'.
Proof. intros Hf [Hc Hs Hr Hd]. split; [|done..]. unfold can_sign in *. by rewrite <- Hf. Qed.

(** The first run publishes the key of the host, later ones change nothing. *)
Lemma first_run k now stdin h :
  signing_host k h -> h_files h !! pub = None ->
  exists h', signer_main X arg0 now stdin h = (Ret tt, h') /\ published k now h' /\ signing_host k h'.
Proof.
  intros [Hc Hs Hr Hd] Hp. destruct (signer_signs X arg0 k now stdin h Hc Hs Hr) as (e & He & Hrun). cbn in Hrun.
  rewrite Hp, (Hd now e) in Hrun by done. eexists. split; [exact Hrun|]. split; [apply lookup_insert_eq|].
  split; [|done..]. pose proof (can_sign_pub X arg0 k h (Serialize (NewRSAPublicKey now (Public k))) Hc). done.
Qed.

Lemma sign_file_ok k t0 now path content img h :
  signing_host k h -> published k t0 h ->
  exists e h', is_entity k now e /\
    sign_file now path content img h = (Ret (<[path +:+ ".gpg" := (DetachSign e content).1]> (<[path := content]> img)), h') /\
    h_files h' = h_files h.
Proof.
  intros Hh Hp. set (h0 := mk_host (h_files h) []).
  assert (H0 : signing_host k h0) by by apply (signing_host_files k h). destruct H0 as [Hc Hs Hr Hd].
  destruct (signer_signs X arg0 k now content h0 Hc Hs Hr) as (e & He & Hrun). cbn in Hrun.
  unfold published in Hp. rewrite Hp, (Hd now e) in Hrun by done. exists e. eexists. split; [done|].
  unfold sign_file, mbind, M_bind, modify. cbn. unfold h0 in Hrun. rewrite Hrun. by split.
Qed.

(** An image is signed whole: the files of the jobs are there with their signatures, when
    no path is that of another file's signature. *)
Lemma sign_image_ok k t0 jobs img h :
  signing_host k h -> published k t0 h ->
  NoDup (jobs.*2.*1 ++ ((fun p => p +:+ ".gpg") <$> jobs.*2.*1)) ->
  exists img' h', sign_image jobs img h = (Ret img', h') /\ h_files h' = h_files h /\
    (forall now path content, (now, (path, content)) ∈ jobs -> signed k img' path content) /\
    (forall f, f ∉ jobs.*2.*1 -> f ∉ ((fun p => p +:+ ".gpg") <$> jobs.*2.*1) -> img' !! f = img !! f).
Proof.
  revert img h. induction jobs as [|[now [path content]] jobs IH]; intros img h Hh Hp Hnd.
  { exists img, h. split_and!; try done. intros ? ? ? ?%elem_of_nil. done. }
  destruct (sign_file_ok k t0 now path content img h Hh Hp) as (e & h1 & He & Hrun & Hf1).
  cbn in Hnd. apply NoDup_cons in Hnd as [Hpath Hnd]. rewrite <- Permutation_middle in Hnd.
  apply NoDup_cons in Hnd as [Hgpg Hnd].
  rewrite elem_of_app, elem_of_cons in Hpath. rewrite elem_of_app in Hgpg.
  destruct (IH (<[path +:+ ".gpg" := (DetachSign e content).1]> (<[path := content]> img)) h1) as (img' & h' & Hr & Hf & Hin & Hout);
    [by eapply signing_host_files|unfold published in *; by rewrite Hf1|done|].
  exists img', h'. split; [cbn [sign_image]; unfold mbind, M_bind; by rewrite Hrun|]. split; [congruence|]. split.
  - intros now' path' content' [[= -> -> ->]|Hjob]%elem_of_cons; [|by eapply Hin].
    split; [|exists now, e; split; [done|]]; rewrite Hout by tauto; [|by rewrite lookup_insert_eq].
    rewrite lookup_insert_ne, lookup_insert_eq by (intros Heq; apply Hpath; auto). done.
  - intros f Hf1' Hf2'. cbn in Hf1', Hf2'. rewrite not_elem_of_cons in Hf1', Hf2'. rewrite Hout by tauto.
    rewrite !lookup_insert_ne by naive_solver. done.
Qed.
End Image.

(** ** The loader on a machine that works *)

Section Completes.
Context {key sig : Type} (E : env key sig).

(** [m] returns [a], and what it does satisfies [P]. *)
Definition completes {A} (P : event -> Prop) (m : L A) (a : A) : Prop :=
  forall t, exists l, m t = (Ret a, t ++ l) /\ Forall P l.

Lemma completes_ret {A} P (a : A) : completes P (mret a) a.
Proof. intros t. exists []. by rewrite app_nil_r. Qed.

Lemma completes_bind {A B} P (m : L A) (f : A -> L B) a b :
  completes P m a -> completes P (f a) b -> completes P (m ≫= f) b.
Proof.
  intros Hm Hf t. destruct (Hm t) as (l1 & E1 & H1). destruct (Hf (t ++ l1)) as (l2 & E2 & H2).
  exists (l1 ++ l2). unfold mbind, M_bind. rewrite E1, E2, app_assoc. split; [done|by apply Forall_app].
Qed.

Lemma completes_or_fatal {A} P (r : result A) a : r = Ok a -> completes P (or_fatal r) a.
Proof. intros ->. apply completes_ret. Qed.

Lemma completes_for_each {A} P (l : list A) body :
  (forall x, x ∈ l -> completes P (body x) tt) -> completes P (for_each l body) tt.
Proof.
  induction l as [|x l IH]; intros Hb; [apply completes_ret|]. cbn [for_each].
  apply (completes_bind _ _ _ tt); [apply Hb; by left|]. apply IH. intros y Hy. apply Hb. by right.
Qed.

Lemma completes_sys (P : event -> Prop) e : syscall E e = Ok tt -> P e -> completes P (sys_or_fatal E e) tt.
Proof. intros Hs He t. exists [e]. unfold sys_or_fatal, sys, mbind, M_bind, modify. cbn. rewrite Hs. auto. Qed.

(** Every call succeeds and the block devices open. *)
Context (Hsys : forall e, syscall E e = Ok tt) (Hdev : forall dev, dev ∈ block_devices E -> open_device E ("/dev/" +:+ dev) = Ok tt).

Lemma mount_completes fs : completes prepares (mount E fs) tt.
Proof. unfold mount. repeat case_decide; first [by apply completes_sys|apply completes_ret]. Qed.

Lemma createBasicHirarchy_completes : completes prepares (createBasicHirarchy E) tt.
Proof.
  apply (completes_bind _ _ _ tt); [apply completes_for_each; intros dir _; by apply completes_sys|].
  apply (completes_bind _ _ _ tt); [apply completes_for_each; intros fs _; apply mount_completes|].
  apply (completes_bind _ _ _ tt); [by apply completes_sys|]. apply mount_completes.
Qed.

Lemma mount_root_completes fl : completes prepares (mount_root E fl) tt.
Proof.
  apply (completes_bind _ _ _ tt).
  - destruct (mtd fl); [by apply completes_sys|apply completes_ret].
  - destruct (blk fl); [|apply completes_ret]. apply completes_for_each. intros dev Hd.
    apply (completes_bind _ _ _ tt); [by apply completes_or_fatal, Hdev|].
    destruct (device_uuid E _); [apply completes_ret|]. case_decide; [by apply completes_sys|apply completes_ret].
Qed.

Lemma openAndVerify_verified k path :
  verified E k -> path ∈ verify -> exists c, openAndVerify E path k = Ok c.
Proof.
  intros [_ Hv] Hp. destruct (Hv path Hp) as (c & s & Hc & Hs & Hok). exists c.
  unfold openAndVerify. by rewrite Hs, Hc, Hok.
Qed.

Lemma bind_run {A B} (m : L A) (f : A -> L B) t a t' : m t = (Ret a, t') -> (m ≫= f) t = f a t'.
Proof. intros Hm. unfold mbind, M_bind. by rewrite Hm. Qed.

Lemma or_fatal_run {A} (r : result A) a t : r = Ok a -> or_fatal r t = (Ret a, t).
Proof. by intros ->. Qed.

Lemma sys_runs e t : sys_or_fatal E e t = (Ret tt, t ++ [e]).
Proof. unfold sys_or_fatal, sys, mbind, M_bind, modify. cbn. by rewrite Hsys. Qed.

(** What a boot does before it hands over to the kernel. *)
Definition before_kexec (e : event) : Prop := prepares e \/ e = LoadModule "/bootlock.ko".

(** A root file system that verifies is booted. *)
Lemma verified_boots k kernel fl :
  verified E k -> file E kernelPath = Ok kernel ->
  kload fl = true -> swroot fl = false -> mtd fl = negb (blk fl) -> (ast fl = true -> exists ko, file E "/bootlock.ko" = Ok ko) ->
  exists l, loader_main E fl [] = (Ret tt, l ++ [KexecFileLoad kernel; ImageLoad kernelPath; KexecReboot]) /\
    Forall before_kexec l.
Proof.
  intros Hv Hkernel Hk Hs Hm Hast.
  assert (Hpre : completes before_kexec (if ast fl then r ← loadModule E "/bootlock.ko"; or_fatal r else mret tt) tt).
  { destruct (ast fl); [|apply completes_ret]. unfold loadModule. destruct (Hast eq_refl) as [ko ->]. apply completes_sys; [done|by right]. }
  assert (Hprep : forall m, completes prepares m tt -> completes before_kexec m tt).
  { intros m Hc t. destruct (Hc t) as (l & Hl & HP). exists l. split; [done|]. eapply Forall_impl; [exact HP|]. by left. }
  destruct (Hpre []) as (l0 & E0 & H0).
  destruct (Hprep _ createBasicHirarchy_completes l0) as (l1 & E1 & H1).
  destruct (Hprep _ (mount_root_completes fl) (l0 ++ l1)) as (l2 & E2 & H2).
  assert (Hver : completes before_kexec (for_each verify (fun path => _ ← or_fatal (openAndVerify E path k); mret tt)) tt).
  { apply completes_for_each. intros path Hp. destruct (openAndVerify_verified k path Hv Hp) as [c Hc].
    apply (completes_bind _ _ _ c); [by apply completes_or_fatal|apply completes_ret]. }
  destruct (Hver ((l0 ++ l1) ++ l2)) as (l3 & E3 & H3).
  destruct Hv as [(keyf & Hf & Hr) _].
  exists (((l0 ++ l1) ++ l2) ++ l3). split; [|by rewrite !Forall_app].
  assert (Hload : loadAndExec E fl l0 =
    (Ret tt, (((l0 ++ l1) ++ l2) ++ l3) ++ [KexecFileLoad kernel; ImageLoad kernelPath; KexecReboot])).
  { unfold loadAndExec. rewrite (bind_run _ _ _ _ _ (or_fatal_run _ _ _ Hf)), (bind_run _ _ _ _ _ (or_fatal_run _ _ _ Hr)).
    rewrite (bind_run _ _ _ _ _ E1), (bind_run _ _ _ _ _ E2), (bind_run _ _ _ _ _ E3).
    rewrite (bind_run _ _ _ _ _ (or_fatal_run _ _ _ Hkernel)), !(bind_run _ _ _ _ _ (sys_runs _ _)), sys_runs.
    by rewrite <- !app_assoc. }
  unfold loader_main. rewrite Hk, Hs, Hm. destruct (blk fl); cbn [negb andb];
    rewrite (bind_run _ _ _ _ _ E0); exact (bind_run _ (fun _ => mret tt) _ _ _ Hload).
Qed.
End Completes.

(** ** What the packer packs *)

Section CpioFacts.
Context {files archive archiver writer : Type} `{!Initramfs files archive archiver writer}.
Context {added : files -> string -> string -> Prop} `{!InitramfsLaws added}.

Lemma add_files_added l fs t fs' t' :
  add_files (archive := archive) (writer := writer) fs l t = (Ret fs', t') ->
  t' = t /\ (forall f, f ∈ l -> added fs' (Base f) f) /\ (forall d s, added fs d s -> added fs' d s).
Proof.
  revert fs. induction l as [|f l IH]; intros fs; cbn [add_files].
  { intros [= -> ->]. split_and!; [done|by intros ? ?%elem_of_nil|done]. }
  unfold mbind, M_bind. destruct (AddFile fs f (Base f)) as [e|fs1] eqn:Ea; [done|]. cbn.
  intros (-> & Hin & Hold)%IH. split_and!; [done| |].
  - intros g [->|Hg]%elem_of_cons; [|by apply Hin]. eapply Hold, added_new, Ea.
  - intros d s Hd. eapply Hold, added_old; eauto.
Qed.

Lemma add_args_added args fs t fs' t' :
  add_args (archive := archive) (writer := writer) fs args t = (Ret fs', t') ->
  t' = t /\ (forall arg f, arg ∈ args -> f ∈ Glob arg -> added fs' (Base f) f) /\
  (forall arg, arg ∈ args -> Glob arg <> []) /\ (forall d s, added fs d s -> added fs' d s).
Proof.
  revert fs. induction args as [|arg args IH]; intros fs; cbn [add_args].
  { intros [= -> ->]. split_and!; [done|by intros ? ? ?%elem_of_nil|by intros ? ?%elem_of_nil|done]. }
  destruct (Glob arg) as [|g gs] eqn:Eg; [done|]. unfold mbind, M_bind.
  destruct (add_files fs (g :: gs) t) as [[fs1| | |] t1] eqn:Ea; try done.
  apply add_files_added in Ea as (-> & Hin1 & Hold1). intros (-> & Hin & Hne & Hold)%IH. split_and!; [done| | |auto].
  - intros a f [->|Ha]%elem_of_cons Hf; [|by eapply Hin]. rewrite Eg in Hf. auto.
  - intros a [->|Ha]%elem_of_cons; [by rewrite Eg|auto].
Qed.

(** A packer that ends well wrote one archive: every file its arguments match is in it under
    its base name, no argument matched nothing, and the base archive is that of the records. *)
Lemma cpio_packs outPath args t :
  cpio_main outPath args [] = (Ret tt, t) ->
  exists o : opts files archive writer, t = [o] /\ Write o = Ok tt /\
    BaseArchive o = ArchiveFromRecords (MakeAllReproducible base_records) /\
    (forall arg, arg ∈ args -> Glob arg <> []) /\
    forall arg f, arg ∈ args -> f ∈ Glob arg -> added (Files o) (Base f) f.
Proof.
  unfold cpio_main, mbind, M_bind. destruct (GetArchiver "cpio") as [|a]; [done|]. cbn.
  destruct (OpenWriter a outPath) as [|w]; [done|]. cbn.
  destruct (add_args NewFiles args []) as [[fs| | |] t1] eqn:Ea; try done.
  apply add_args_added in Ea as (-> & Hin & Hne & _). cbn. destruct (Write _) as [|[]] eqn:Ew; [done|]. intros [= <-].
  eexists. split_and!; [reflexivity|done..].
Qed.
End CpioFacts.

(** Every directory the loader mounts on is in the base archive. *)
Lemma base_records_mount_points dir :
  dir ∈ ["/mnt"; "/ro"; "/tmp"; "/proc"; "/sys"; "/dev"] -> exists d mode, dir = "/" +:+ d /\ Directory d mode ∈ base_records.
Proof.
  intros Hd. repeat (apply elem_of_cons in Hd as [->|Hd]); [..|by apply elem_of_nil in Hd];
    (eexists _, _; split; [reflexivity|unfold base_records; repeat constructor]).
Qed.

Lemma with_slashes_last l x : with_slashes (l ++ [x]) = x \/ exists y, with_slashes (l ++ [x]) = y +:+ String slash x.
Proof.
  induction l as [|e l IH]; [by left|]. right. cbn [app with_slashes]. destruct (l ++ [x]) eqn:El; [by destruct l|].
  rewrite <- El in *. destruct IH as [->|[y ->]]; [by exists e|]. exists (e +:+ ("/" +:+ y)).
  by rewrite !str_app_assoc.
Qed.

Lemma Base_slash y x : x <> "" -> Split slash x = [x] -> Base (y +:+ String slash x) = x.
Proof.
  intros Hx Hs. unfold Base. case_decide as Hd; [by destruct y|]. rewrite Split_app_slash, Hs, filter_app.
  rewrite (filter_cons_True _ x []), filter_nil by done. by rewrite last_snoc.
Qed.

Lemma Base_name x : x <> "" -> Split slash x = [x] -> Base x = x.
Proof.
  intros Hx Hs. unfold Base. rewrite decide_False, Hs by done.
  by rewrite (filter_cons_True _ x []), filter_nil by done.
Qed.

(** The public key is packed as the file the loader reads. *)
Lemma Base_publicKeyPath arg0 : "/" +:+ Base (publicKeyPath arg0) = pubKeyPath.
Proof.
  enough (Base (publicKeyPath arg0) = "u-bmc.pub") as -> by done.
  unfold publicKeyPath, Join. rewrite !decide_False by first [apply Dir_nonempty|discriminate].
  change ("/" +:+ "./keys/u-bmc.pub") with ("/./keys" +:+ String slash "u-bmc.pub"). rewrite str_app_assoc.
  set (a := Dir arg0 +:+ "/./keys"). unfold Clean.
  rewrite Split_app_slash, foldl_app. set (st := foldl _ _ (Split slash a)).
  change (Split slash "u-bmc.pub") with ["u-bmc.pub"]. cbn [foldl]. rewrite clean_step_name by done. cbn [rev].
  destruct (with_slashes_last (rev st) "u-bmc.pub") as [Hw|[y Hw]]; rewrite Hw;
    (destruct (HasPrefix _ "/"); [|case_decide as Hd; [by try destruct y|]]).
  - by apply (Base_slash "").
  - by apply Base_name.
  - change ("/" +:+ (y +:+ ?x)) with (("/" +:+ y) +:+ x). by apply Base_slash.
  - by apply Base_slash.
Qed.

(** ** Signed images boot *)

(** What the packet reader of the loader and the signer's library have in common: a serialised
    public key reads back, the signature of an RSA key verifies under its public key whatever
    the creation times, and the first packet does not depend on what follows. *)
Class PgpLaws {rsa rsa_public key private sig : Type} `{OpenPgp rsa rsa_public key private} (E : env key sig) : Prop := {
  key_read : forall t p, next_packet E (Serialize (NewRSAPublicKey t p)) = Ok (PublicKey (NewRSAPublicKey t p));
  signature_read : forall e t t' k m, is_entity k t e -> (DetachSign e m).2 = Ok tt ->
    exists s, next_packet E (DetachSign e m).1 = Ok (Signature s) /\
      VerifySignature E (NewRSAPublicKey t' (Public k)) m s = Ok tt;
  first_packet : forall b b' p, next_packet E b = Ok p -> next_packet E (b ++ b') = Ok p }.

Section Boots.
Context {rsa rsa_public key private sig : Type} `{!OpenPgp rsa rsa_public key private}.
Context (E : env key sig) `{!PgpLaws E} (X : host_errors) (arg0 : string).

(** A root file system whose files are [img]'s verifies with the published key. *)
Lemma signed_verified k t0 h h' img :
  signing_host X arg0 k h -> published arg0 k t0 h' ->
  (forall path, path ∈ verify -> exists c, signed k img path c) ->
  (forall f b, img !! f = Some b -> file E f = Ok b) ->
  (forall b, h_files h' !! publicKeyPath arg0 = Some b -> file E pubKeyPath = Ok b) ->
  verified E (NewRSAPublicKey t0 (Public k)).
Proof.
  intros [_ _ _ Hd] Hp Hall Himg Hpub. split.
  - eexists. split; [by apply Hpub|]. unfold readPublicSigningKey. by rewrite key_read.
  - intros path (c & Hc & now & e & He & Hg)%Hall. exists c. eexists. split; [by apply Himg|].
    split; [by apply Himg|]. unfold verifyDetachedSignature.
    destruct (signature_read e now t0 k c He (Hd _ _ _ He)) as (s & -> & ->). done.
Qed.
End Boots.

(** C8: Signed images boot: on a host with a key and no public key yet, a first run of the
    signer and one for each file succeed, and when the initramfs packed with the public key
    and the signed files are what the loader finds, in kexec mode it verifies them and hands the
    signed kernel over, having done nothing but mounting before (and loading bootlock.ko). *)
Theorem signed_image_boots {rsa rsa_public key private sig files archive archiver writer : Type}
    `{!OpenPgp rsa rsa_public key private} (E : env key sig) `{!PgpLaws E}
    `{!Initramfs files archive archiver writer} {added} `{!InitramfsLaws added}
    (X : host_errors) (arg0 outPath : string) (args : list string) (k : rsa) (t0 tk : Z) (h : host) kernel jobs fl t :
  signing_host X arg0 k h -> h_files h !! publicKeyPath arg0 = None ->
  NoDup (jobs.*2.*1 ++ ((fun p => p +:+ ".gpg") <$> jobs.*2.*1)) ->
  (forall path, path ∈ verify -> exists now c, (now, (path, c)) ∈ jobs) -> (tk, (kernelPath, kernel)) ∈ jobs ->
  cpio_main outPath args [] = (Ret tt, t) -> (exists arg, arg ∈ args /\ publicKeyPath arg0 ∈ Glob arg) ->
  (forall e, syscall E e = Ok tt) ->
  (forall dev, dev ∈ block_devices E -> open_device E ("/dev/" +:+ dev) = Ok tt) ->
  kload fl = true -> swroot fl = false -> mtd fl = negb (blk fl) ->
  (ast fl = true -> exists ko, file E "/bootlock.ko" = Ok ko) ->
  exists img h' (o : opts files archive writer), t = [o] /\
    (_ ← signer_main X arg0 t0 [10]; sign_image X arg0 jobs ∅) h = (Ret img, h') /\
    ((forall d s b, added (Files o) d s -> h_files h' !! s = Some b -> file E ("/" +:+ d) = Ok b) ->
     (forall f b, img !! f = Some b -> file E f = Ok b) ->
     exists l, loader_main E fl [] = (Ret tt, l ++ [KexecFileLoad kernel; ImageLoad kernelPath; KexecReboot]) /\
       Forall before_kexec l).
Proof.
  intros Hh Hnone Hnd Hcover Hkernel Hpack (arg & Harg & Hglob) Hsys Hdev Hk Hsw Hm Hast.
  destruct (first_run X arg0 k t0 [10] h Hh Hnone) as (h1 & Hrun & Hpub & Hh1).
  destruct (sign_image_ok X arg0 k t0 jobs ∅ h1 Hh1 Hpub Hnd) as (img & h' & Hsign & Hf & Hin & _).
  destruct (cpio_packs outPath args t Hpack) as (o & -> & _ & _ & _ & Hadd).
  exists img, h', o. split; [done|]. split; [unfold mbind, M_bind; by rewrite Hrun|]. intros Hinit Himg.
  assert (Hpub' : published arg0 k t0 h') by (unfold published; rewrite Hf; exact Hpub).
  apply (verified_boots E Hsys Hdev (NewRSAPublicKey t0 (Public k))); try done.
  - apply (signed_verified E X arg0 k t0 h1 h' img); try done.
    + intros path Hp. destruct (Hcover path Hp) as (now & c & Hj). exists c. by eapply Hin.
    + intros b Hb. rewrite <- (Base_publicKeyPath arg0). eapply Hinit; [by eapply Hadd|done].
  - apply Himg. by destruct (Hin _ _ _ Hkernel).
Qed.

(** A signature file that grows, as that of the kernel does when the image is built again
    under the same version ([>>] in taskfiles/Image.yml): the loader looks at the first signature
    only, so the new kernel is refused when the old signature is not one of it. *)
Theorem stale_signature_refused {rsa rsa_public key private sig : Type} `{!OpenPgp rsa rsa_public key private}
    (E : env key sig) `{!PgpLaws E} (k : rsa) (e e' : entity key private) (now now' t0 : Z) old new :
  is_entity k now e -> is_entity k now' e' ->
  (forall m, (DetachSign e m).2 = Ok tt) ->
  file E kernelPath = Ok new -> file E (kernelPath +:+ ".gpg") = Ok ((DetachSign e old).1 ++ (DetachSign e' new).1) ->
  (forall s, next_packet E (DetachSign e old).1 = Ok (Signature s) ->
     exists err, VerifySignature E (NewRSAPublicKey t0 (Public k)) new s = Err err) ->
  exists err, openAndVerify E kernelPath (NewRSAPublicKey t0 (Public k)) = Err err.
Proof.
  intros He He' Hok Hnew Hsig Hbad. destruct (signature_read e now t0 k old He (Hok old)) as (s & Hs & _).
  destruct (Hbad s Hs) as [err Herr]. exists err. unfold openAndVerify. rewrite Hsig, Hnew.
  unfold verifyDetachedSignature. rewrite (first_packet _ _ _ Hs), Herr. done.
Qed.

(** ** A concrete build *)

Module SimImage.
(** Keys are numbers, a signature is the sum of what it signs with the key; a packet starts
    with its kind and has two bytes. *)
#[local] Instance sim_pgp : OpenPgp Z Z Z Z := {|
  pem_Decode b := match b with 45 :: b => Some b | _ => None end;
  ParsePKCS1PrivateKey b := match b with [k] => Ok k | _ => Err "asn1" end;
  Public k := k; NewUserId name _ _ := Some (mk_user name name);
  NewRSAPublicKey _ p := p; NewRSAPrivateKey _ k := k; KeyId k := k; config_Hash h := h; HashToHashId _ := Some 8;
  Serialize k := [0; k]; DetachSign e m := ([1; foldr Z.add (PrivateKey e) m], Ok tt) |}.

Definition sim_next (b : list Z) : result (pgp_packet Z Z) :=
  match b with 0 :: k :: _ => Ok (PublicKey k) | 1 :: s :: _ => Ok (Signature s) | _ => Err "EOF" end.

Definition sim_env (f : string -> result (list Z)) : env Z Z :=
  mk_env f sim_next SimBoot.sim_verify SimBoot.sim_verify ["sda"] (fun _ => Ok tt) (fun _ => Ok uuid) (fun _ => Ok tt).

#[local] Instance sim_laws f : PgpLaws (sim_env f).
Proof.
  split.
  - done.
  - intros e t t' k m [_ Hp] _. eexists. split; [done|]. cbn. rewrite Hp. unfold SimBoot.sim_verify. by rewrite decide_True.
  - intros b b' p. cbn. destruct b as [|[|[]|] [|y b]]; naive_solver.
Qed.

#[local] Instance sim_initramfs : Initramfs (gmap string string) (list record) unit unit := {|
  GetArchiver _ := Ok tt; OpenWriter _ _ := Ok tt; NewFiles := ∅;
  AddFile fs s d := match fs !! d with Some _ => Err "exists" | None => Ok (<[d := s]> fs) end;
  MakeAllReproducible l := l; ArchiveFromRecords l := l; Write _ := Ok tt; Glob p := [p] |}.

Definition sim_added (fs : gmap string string) (d s : string) : Prop := fs !! d = Some s.

#[local] Instance sim_initramfs_laws : InitramfsLaws sim_added.
Proof.
  split; intros *; cbn; unfold sim_added.
  - destruct (fs !! d) eqn:Hd; [done|]. intros [= <-]. by rewrite lookup_insert_eq.
  - destruct (fs !! d) eqn:Hd; [done|]. intros [= <-] Hs. rewrite lookup_insert_ne by congruence. done.
Qed.

Definition no_errors : host_errors := mk_errors (fun _ => None) (fun _ => None) (fun _ => None).
Definition sim_host : host := mk_host {["build/boot/keys/u-bmc.key" := [45; 7]]} [].
Definition sim_jobs : list (Z * (string * list Z)) :=
  [(101, (kernelPath, [1; 2; 3])); (102, (dtbPath, [])); (103, (initPath, [9]))].
Definition sim_args : list string := ["build/boot/loader"; "build/boot/keys/u-bmc.pub"].

Definition built : outcome (gmap string (list Z)) * host :=
  (_ ← signer_main no_errors "build/boot/signer" 100 [10]; sign_image no_errors "build/boot/signer" sim_jobs ∅) sim_host.

(** The files the loader finds: the key of the build host and the image. *)
Definition sim_root (f : string) : result (list Z) :=
  if decide (f = pubKeyPath) then
    match h_files built.2 !! "build/boot/keys/u-bmc.pub" with Some b => Ok b | None => Err "missing" end
  else match built.1 with Ret img => match img !! f with Some b => Ok b | None => Err "missing" end | _ => Err "no image" end.

Lemma sim_signing_host : signing_host no_errors "build/boot/signer" 7 sim_host.
Proof.
  split; [|done..]. split; [done|]. split; [|by eauto].
  exists [45; 7], [7]. split_and!; vm_compute; reflexivity.
Qed.

Lemma sim_initramfs_files o d s b :
  (cpio_main (files := gmap string string) (archive := list record) (archiver := unit) (writer := unit) "bootldr.cpio" sim_args []).2 = [o] ->
  sim_added (Files o) d s -> h_files built.2 !! s = Some b -> sim_root ("/" +:+ d) = Ok b.
Proof.
  intros Ho Hd Hs. assert (Hf : Files o = <["u-bmc.pub" := "build/boot/keys/u-bmc.pub"]> {["loader" := "build/boot/loader"]})
    by (vm_compute in Ho; injection Ho as <-; vm_compute; reflexivity).
  unfold sim_added in Hd. rewrite Hf in Hd.
  apply lookup_insert_Some in Hd as [[<- <-]|[_ Hd]].
  - unfold sim_root. rewrite decide_True by done. by rewrite Hs.
  - apply lookup_singleton_Some in Hd as [<- <-]. vm_compute in Hs. discriminate.
Qed.

Lemma sim_image_files img f b : built.1 = Ret img -> img !! f = Some b -> sim_root f = Ok b.
Proof.
  intros Hb Hf. unfold sim_root. rewrite Hb, Hf. case_decide as Hp; [|done]. subst f.
  assert (Hn : match built.1 with Ret i => i !! pubKeyPath | _ => None end = None) by (vm_compute; reflexivity).
  rewrite Hb in Hn. congruence.
Qed.

(** The build of this host and its boot. *)
Lemma signed_image_boots_witness :
  exists l, loader_main (sim_env sim_root) SimBoot.kexec_blk [] =
    (Ret tt, l ++ [KexecFileLoad [1; 2; 3]; ImageLoad kernelPath; KexecReboot]) /\ Forall before_kexec l.
Proof.
  destruct (signed_image_boots (sim_env sim_root) (added := sim_added) no_errors "build/boot/signer" "bootldr.cpio" sim_args 7 100 101
    sim_host [1; 2; 3] sim_jobs SimBoot.kexec_blk
    (cpio_main (files := gmap string string) (archive := list record) (archiver := unit) (writer := unit) "bootldr.cpio" sim_args []).2)
    as (img & h' & o & Ho & Hrun & Hboot).
  - exact sim_signing_host.
  - vm_compute; reflexivity.
  - apply (bool_decide_eq_true_1 _). vm_compute; reflexivity.
  - intros path Hp. repeat (apply elem_of_cons in Hp as [->|Hp]); [..|by apply elem_of_nil in Hp];
      eexists _, _; unfold sim_jobs; repeat constructor.
  - by left.
  - vm_compute; reflexivity.
  - exists "build/boot/keys/u-bmc.pub". split; [by right; left|]. apply (bool_decide_eq_true_1 _). vm_compute; reflexivity.
  - reflexivity.
  - reflexivity.
  - reflexivity.
  - reflexivity.
  - reflexivity.
  - discriminate.
  - apply Hboot; clear Hboot.
    + intros d s b Hd. pose proof (f_equal snd Hrun) as Hh. cbn [snd] in Hh. rewrite <- Hh. by apply (sim_initramfs_files o).
    + intros f b Hf. pose proof (f_equal fst Hrun) as Hi. cbn [fst] in Hi. by apply (sim_image_files img).
Defined.
End SimImage.
