(* ===== verification/IntegrationTests.v ===== *)
(** * The integration tests that run on the machine (integration/testcmd, integration/utils)

    The programs that are the first process of a test machine: each sets something up, checks it and reports the
    verdict on the console before it switches the machine off.  What they check is modelled in
    [System], [GpioReg] and [Network]; the theorems say when they pass.  The test of the certificates is in [AcmeTest]. *)

From S2P Require Import Prelude GoMonad GoStrings Encoding Network GpioReg Gpio Quanta.
#[local] Open Scope string_scope.
#[local] Open Scope list_scope.
#[local] Open Scope Z_scope.

(** ** Reports (utils/test.go) *)

(** What was printed, whether the machine is off, the milliseconds slept, and the rest of the machine. *)
Record tst (X : Type) : Type := mk_tst { out : list string; off : bool; slept : Z; ext : X }.
Arguments mk_tst {X} _ _ _ _.
Arguments out {X} _.
Arguments off {X} _.
Arguments slept {X} _.
Arguments ext {X} _.

Section Reports.
Context {X : Type}.

Definition say (s : string) : M (tst X) unit := modify (fun t => mk_tst (out t ++ [s]) (off t) (slept t) (ext t)).
Definition power_off : M (tst X) unit := modify (fun t => mk_tst (out t) true (slept t) (ext t)).
Definition Sleep (ms : Z) : M (tst X) unit := modify (fun t => mk_tst (out t) (off t) (slept t + ms) (ext t)).
Definition on_ext {A} (m : M X A) : M (tst X) A := fun t =>
  let '(r, x) := m (ext t) in (r, mk_tst (out t) (off t) (slept t) x).

Definition FailTest (err : error) : M (tst X) unit :=
  _ ← say "TEST_FAIL";
  _ ← power_off;
  go_fatal.

Definition PassTest : M (tst X) unit :=
  _ ← say "TEST_OK";
  _ ← power_off;
  go_fatal.

(** [main] of the tests with a [uinit] function. *)
Definition test_main (uinit : M (tst X) (result unit)) : M (tst X) unit :=
  r ← uinit;
  match r with
  | Err e => FailTest e
  | Ok _ => PassTest
  end.

(** [if err != nil { return ... }]. *)
Definition checked {A B} (m : M (tst X) (result A)) (k : A -> M (tst X) (result B)) : M (tst X) (result B) :=
  r ← m;
  match r with Err e => mret (Err e) | Ok a => k a end.

(** An endless loop: [n] turns of it. *)
Fixpoint forever (n : nat) (body : M (tst X) unit) {A} : M (tst X) A :=
  match n with
  | O => fun t => (Blocked, t)
  | S n => _ ← body; forever n body
  end.
End Reports.

(** ** Network helpers (utils/network.go) *)

Section Helpers.
Context {E : Type} `{Netlink E}.

Definition wrap (what : string) (r : result unit) : result unit :=
  match r with Err e => Err (what +:+ ": " +:+ e) | Ok _ => Ok tt end.

Definition AddIP (cidr iface : string) : M (net E) (result unit) :=
  l ← ask (LinkByName iface);
  match l with
  | Err e => mret (Err ("Unable to get interface " +:+ iface +:+ ": " +:+ e))
  | Ok _ =>
      match ParseAddr cidr with
      | Err e => mret (Err ("netlink.ParseAddr " +:+ cidr +:+ ": " +:+ e))
      | Ok addr =>
          h ← open_handle;
          match h with
          | Err e => mret (Err ("netlink.NewHandle: " +:+ e))
          | Ok _ => deferring Delete (r ← act (CAddr iface addr) (AddrReplace iface addr); mret (wrap "AddrReplace" r))
          end
      end
  end.

Definition SetLinkUp (iface : string) : M (net E) (result unit) :=
  l ← ask (LinkByName iface);
  match l with
  | Err e => mret (Err ("Unable to get interface " +:+ iface +:+ ": " +:+ e))
  | Ok _ =>
      h ← open_handle;
      match h with
      | Err e => mret (Err ("netlink.NewHandle: " +:+ e))
      | Ok _ => deferring Delete (r ← act (CUp iface) (LinkSetUp iface); mret (wrap "handle.LinkSetUp" r))
      end
  end.

(** ** Metrics (testcmd/metrics-native) *)

(** [strings.Contains]. *)
Fixpoint bytes_contain (sub b : list Z) : bool :=
  bool_decide (sub `prefix_of` b) || match b with [] => false | _ :: b => bytes_contain sub b end.

(** The answer of [http.Get]: the status and what reading the body returns. *)
Definition page : Type := result (Z * result (list Z)).

Definition metric : list Z := str_bytes "ubmc_system_version".

Definition testMetrics (p : page) : result unit :=
  match p with
  | Err e => Err e
  | Ok (status, body) =>
      if decide (status <> 200) then Err "non-200 HTTP status"
      else match body with
           | Err e => Err e
           | Ok b => if bytes_contain metric b then Ok tt else Err "Could not find metric ubmc_system_version among the metrics"
           end
  end.

Definition url4 : string := "http://10.0.2.15:9370/metrics".
Definition url6 : string := "http://[fe80::c00:00ff:fe00:0000%25eth0]:9370/metrics".

(** The loop over the delays; [get n u] is the answer to the request of turn [n]. *)
Fixpoint metrics_loop (get : nat -> string -> page) (n : nat) (delays : list Z) : M (tst (net E)) (result unit) :=
  match delays with
  | [] => mret (Ok tt)
  | i :: delays =>
      if decide (i = -1) then mret (Err "Timed out fetching metrics")
      else
        _ ← Sleep i;
        match testMetrics (get n url4) with
        | Err _ => metrics_loop get (S n) delays
        | Ok _ =>
            match testMetrics (get n url6) with
            | Err _ => metrics_loop get (S n) delays
            | Ok _ => mret (Ok tt)
            end
        end
  end.

Definition metrics_uinit (get : nat -> string -> page) : M (tst (net E)) (result unit) :=
  checked (r ← on_ext (AddIP "10.0.2.1/24" "eth0"); mret (wrap "Error adding IPv4 interface" r)) (fun _ =>
  checked (r ← on_ext (SetLinkUp "eth0"); mret (wrap "Error setting link up on interface" r)) (fun _ =>
  metrics_loop get 0 [100; 500; 5000; 15000; -1])).

Definition metrics_main (get : nat -> string -> page) : M (tst (net E)) unit := test_main (metrics_uinit get).
End Helpers.

(** ** Temperatures (testcmd/tempsensor) *)

(** [strings.TrimSpace] of ASCII text. *)
Definition is_space (c : Z) : bool := bool_decide (c ∈ [9; 10; 11; 12; 13; 32]).
Fixpoint trim_front (b : list Z) : list Z :=
  match b with
  | [] => []
  | c :: b' => if is_space c then trim_front b' else b
  end.
Definition TrimSpace (b : list Z) : list Z := reverse (trim_front (reverse (trim_front b))).

(** [math.Abs(float64(x)) > 3000]: the conversion keeps the order, and 3000 is a float64. *)
Definition too_far (x : Z) : bool := bool_decide (Z.abs x > 3000).

(** [verifyTemperature(p, i, celcius)] with an [int] of [w] bits; a missing key is the empty path. *)
Definition verifyTemperature (w : Z) (ThermometerMap : gmap Z string) (ReadFile : string -> result (list Z)) (i celcius : Z) : result unit :=
  match ReadFile (default "" (ThermometerMap !! i)) with
  | Err e => Err e
  | Ok b =>
      match Atoi w (bytes_str (TrimSpace b)) with
      | Err e => Err e
      | Ok millitemp =>
          if too_far (sint w (millitemp - sint w (celcius * 1000))) then Err "Expected temperature to be +/- 3 C" else Ok tt
      end
  end.

Section Programs.
Context {X : Type}.

(** [p := platform.Platform(); defer p.Close()]: it panics when the platform cannot be opened. *)
Definition with_platform {A} (opened : bool) (m : M (tst X) A) : M (tst X) A := if opened then m else go_panic.

(** [uinit]; [read k] are the files after the [k]-th message to the host, which sets the temperature. *)
Definition temp_uinit (w : Z) (opened : bool) (Startup : result unit) (read : nat -> string -> result (list Z)) : M (tst X) (result unit) :=
  with_platform opened (
  checked (mret Startup) (fun _ =>
  _ ← say "TEST_SET_NORMAL_TEMP";
  _ ← Sleep 3000;
  checked (mret (verifyTemperature w Quanta.ThermometerMap (read 0%nat) 0 23)) (fun _ =>
  _ ← say "TEST_SET_HIGH_TEMP";
  _ ← Sleep 3000;
  checked (mret (verifyTemperature w Quanta.ThermometerMap (read 1%nat) 0 100)) (fun _ =>
  _ ← say "TEST_SET_LOW_TEMP";
  _ ← Sleep 3000;
  checked (mret (verifyTemperature w Quanta.ThermometerMap (read 2%nat) 0 0)) (fun _ =>
  mret (Ok tt)))))).

(** ** Boot and an idle system (testcmd/boot, testcmd/noop) *)

(** [main] of the boot test over the registers [s] it finds after the startup; [n] is how often its
    endless loop is followed. *)
Definition boot_main (n : nat) (opened : bool) (Startup : result unit) (dirs : list (Z * gpioReg)) (s : GpioReg.State) : M (tst X) unit :=
  with_platform opened (
  _ ← match Startup with
      | Err e => say ("TEST_FAILED: " +:+ e)
      | Ok _ =>
          _ ← Sleep 3000;
          let port := default 0 (GpioNameToPort mk_Gpio "BMC_PWR_BTN_OUT_N") in
          match PortDirection 32 dirs s port with
          | None => go_panic
          | Some false => say "TEST_FAILED: BMC_PWR_BTN_OUT_N not output"
          | Some true => forever n (say "TEST_OK")
          end
      end;
  power_off).

(** [uinit] of the idle test: [sr] is what arrives on the channel of the startup. *)
Definition noop_uinit (n : nat) (opened : bool) (Startup : result unit) (sr : outcome (result unit)) : M (tst X) (result unit) :=
  with_platform opened (
  checked (mret Startup) (fun _ =>
  checked (fun t => (sr, t)) (fun _ =>
  forever n (Sleep 10000)))).

Definition temp_main (w : Z) (opened : bool) (Startup : result unit) (read : nat -> string -> result (list Z)) : M (tst X) unit :=
  test_main (temp_uinit w opened Startup read).
Definition noop_main (n : nat) (opened : bool) (Startup : result unit) (sr : outcome (result unit)) : M (tst X) unit :=
  test_main (noop_uinit n opened Startup sr).
End Programs.

(** ** When the tests pass *)

(** A call that comes back and leaves as many netlink handles open as before. *)
Definition tidy {E A} (m : M (net E) A) : Prop := forall e, exists r e', m e = (Ret r, e') /\ handles e' = handles e.

Section Metrics.
Context {E : Type} `{Netlink E}.

Lemma tidy_act c f (what : string) : forall e : net E, exists r e', 
  deferring Delete (r ← act c f; mret (wrap what r)) e = (Ret r, e') /\ handles e' = handles e - 1.
Proof.
  intros e. unfold deferring, act, mbind, M_bind. cbn. destruct (f (env e)) as [r x]. cbn. by eexists _, _.
Qed.

Lemma tidy_AddIP cidr iface : tidy (AddIP cidr iface).
Proof.
  intros e. unfold AddIP, mbind at 1, M_bind at 1. cbn. destruct (LinkByName iface (env e)); [by eexists _, _|].
  destruct (ParseAddr cidr); [by eexists _, _|]. unfold mbind at 1, M_bind at 1, open_handle. destruct (NewHandle (env e)); [by eexists _, _|].
  destruct (tidy_act (CAddr iface a0) (AddrReplace iface a0) "AddrReplace" (mk_net (env e) (calls e) (handles e + 1))) as (r & e' & E1 & E2).
  eexists r, e'. split; [exact E1|]. rewrite E2. cbn. lia.
Qed.

Lemma tidy_SetLinkUp iface : tidy (SetLinkUp iface).
Proof.
  intros e. unfold SetLinkUp, mbind at 1, M_bind at 1. cbn. destruct (LinkByName iface (env e)); [by eexists _, _|].
  unfold mbind at 1, M_bind at 1, open_handle. destruct (NewHandle (env e)); [by eexists _, _|].
  destruct (tidy_act (CUp iface) (LinkSetUp iface) "handle.LinkSetUp" (mk_net (env e) (calls e) (handles e + 1))) as (r & e' & E1 & E2).
  eexists r, e'. split; [exact E1|]. rewrite E2. cbn. lia.
Qed.

(** The interface of the test machine comes up. *)
Definition network_up (e : net E) : Prop :=
  exists e1 e2, AddIP "10.0.2.1/24" "eth0" e = (Ret (Ok tt), e1) /\ SetLinkUp "eth0" e1 = (Ret (Ok tt), e2).

(** Both addresses show the metrics in turn [n]. *)
Definition shows_metrics (get : nat -> string -> page) (n : nat) : Prop :=
  testMetrics (get n url4) = Ok tt /\ testMetrics (get n url6) = Ok tt.

Lemma metrics_loop_spec get delays : Forall (Z.le 0) delays -> forall n (t : tst (net E)), exists r t',
  metrics_loop get n (delays ++ [-1]) t = (Ret r, t') /\ out t' = out t /\ off t' = off t /\ ext t' = ext t /\
  slept t' <= slept t + foldr Z.add 0 delays /\
  (r = Ok tt <-> exists k, (n <= k < n + length delays)%nat /\ shows_metrics get k).
Proof.
  induction 1 as [|i delays Hi Hd IH]; intros n t.
  { eexists _, _. split; [reflexivity|]. cbn. split_and!; [done..|lia|]. split; [done|]. intros (k & Hk & _). lia. }
  cbn [app metrics_loop]. rewrite decide_False by lia. unfold mbind, M_bind, Sleep, modify.
  set (t1 := mk_tst _ _ _ _). destruct (IH (S n) t1) as (r & t' & E1 & H1 & H2 & H3 & H4 & H5). cbn [foldr length].
  assert (Hsum : 0 <= foldr Z.add 0 delays) by (clear -Hd; induction Hd; cbn; lia).
  assert (Hlater : ~ shows_metrics get n -> exists r t', metrics_loop get (S n) (delays ++ [-1]) t1 = (Ret r, t') /\ out t' = out t /\ off t' = off t /\ ext t' = ext t /\
    slept t' <= slept t + (i + foldr Z.add 0 delays) /\ (r = Ok tt <-> exists k, (n <= k < n + S (length delays))%nat /\ shows_metrics get k)).
  { intros Hn. exists r, t'. unfold t1 in H1, H2, H3, H4. cbn in H1, H2, H3, H4. split_and!; [exact E1|exact H1|exact H2|exact H3|lia|]. rewrite H5. split; intros (k & Hk & Hs); exists k; split; try done; [lia|].
    destruct (decide (k = n)) as [->|]; [done|lia]. }
  unfold shows_metrics in Hlater. destruct (testMetrics (get n url4)) as [e4|[]] eqn:E4; [apply Hlater; by intros [? _]|].
  destruct (testMetrics (get n url6)) as [e6|[]] eqn:E6; [apply Hlater; by intros [_ ?]|].
  eexists _, _. split; [reflexivity|]. cbn. split_and!; [done..|lia|]. split; [|done]. intros _. exists n. split; [lia|done].
Qed.

(** The metrics test always reports and switches the machine off, and it passes exactly when its
    interface came up and one of its four attempts found the metrics over both IPv4 and IPv6; it waits
    at most 20.6 seconds and leaves no netlink handle open. *)
Theorem metrics_test_verdict (get : nat -> string -> page) (e : net E) :
  exists t', metrics_main get (mk_tst [] false 0 e) = (Exit, t') /\ off t' = true /\
    (out t' = ["TEST_OK"] \/ out t' = ["TEST_FAIL"]) /\ slept t' <= 20600 /\ handles (ext t') = handles e /\
    (out t' = ["TEST_OK"] <-> network_up e /\ exists n, (n < 4)%nat /\ shows_metrics get n).
Proof.
  unfold metrics_main, test_main, metrics_uinit, checked, network_up. destruct (tidy_AddIP "10.0.2.1/24" "eth0" e) as (r1 & e1 & E1 & Hh1).
  destruct (tidy_SetLinkUp "eth0" e1) as (r2 & e2 & E2 & Hh2). unfold mbind, M_bind, on_ext. cbn [ext]. rewrite E1.
  destruct r1 as [x1|[]]; cbn [wrap mret M_ret].
  { eexists. split; [reflexivity|]. cbn. split_and!; [done|by right|lia|done|]. split; [done|]. intros [(? & ? & [= ] & _) _]. }
  cbn [ext]. rewrite E2. destruct r2 as [x2|[]]; cbn [wrap mret M_ret].
  { eexists. split; [reflexivity|]. cbn. split_and!; [done|by right|lia|congruence|]. split; [done|]. intros [(? & ? & [= <-] & Hu) _]. congruence. }
  destruct (metrics_loop_spec get [100; 500; 5000; 15000] ltac:(by repeat constructor) 0%nat
    (mk_tst [] false 0 e2)) as (r & t' & El & Ho & Hf & Hx & Hs & Hr). cbn [app] in El. cbn [out off slept ext] in *. rewrite El.
  assert (Hup : network_up e) by (by exists e1, e2). unfold network_up in Hup. cbn in Hs.
  assert (Hex : (exists k, (0 <= k < 4)%nat /\ shows_metrics get k) <-> exists n, (n < 4)%nat /\ shows_metrics get n).
  { split; intros (k & Hk & Hsk); exists k; split; try done; lia. }
  cbn [length] in Hr. rewrite Hex in Hr.
  destruct r as [x|[]]; (eexists; split; [reflexivity|]); cbn [out off slept ext]; rewrite Ho, Hx; cbn [app]; split_and!; try done; try lia; try congruence; auto.
  - split; [done|]. intros [_ Hn]. by apply Hr in Hn.
  - split; [|done]. intros _. split; [by exists e1, e2|]. by apply Hr.
Qed.
End Metrics.

(** ** Temperatures *)

(** The sensor shows [celcius] degrees up to three. *)
Definition shows_temperature (w : Z) (read : string -> result (list Z)) (celcius : Z) : Prop :=
  exists b m, read "/sys/class/hwmon/hwmon1/temp1_input" = Ok b /\ Atoi w (bytes_str (TrimSpace b)) = Ok m /\
    Z.abs (m - celcius * 1000) <= 3000.

Lemma Atoi_sint w s m : Atoi w s = Ok m -> is_sint w m.
Proof.
  unfold Atoi. intros H. destruct s as [|c s]; repeat (case_decide; try done); repeat case_match; try done; simplify_eq;
    repeat (case_decide; try done); by simplify_eq.
Qed.

(** The difference may wrap around, and is then far from zero. *)
Lemma too_far_wraps w m c : w = 32 \/ w = 64 -> is_sint w m -> 0 <= c <= 100 ->
  too_far (sint w (m - sint w (c * 1000))) = bool_decide (Z.abs (m - c * 1000) > 3000).
Proof.
  intros Hw Hm Hc. assert (Ec : sint w (c * 1000) = c * 1000) by (apply sint_id; destruct Hw; subst; unfold is_sint; lia).
  unfold too_far. rewrite Ec. apply bool_decide_ext. unfold is_sint in Hm. unfold sint. destruct Hw as [-> | ->].
  - change (2 ^ (32 - 1)) with 2147483648 in *. change (2 ^ 32) with 4294967296 in *. Z.to_euclidean_division_equations; lia.
  - change (2 ^ (64 - 1)) with 9223372036854775808 in *. change (2 ^ 64) with 18446744073709551616 in *. Z.to_euclidean_division_equations; lia.
Qed.

Lemma verifyTemperature_spec w read c : w = 32 \/ w = 64 -> 0 <= c <= 100 ->
  verifyTemperature w Quanta.ThermometerMap read 0 c = Ok tt <-> shows_temperature w read c.
Proof.
  intros Hw Hc. unfold verifyTemperature, shows_temperature. change (default "" (Quanta.ThermometerMap !! 0)) with "/sys/class/hwmon/hwmon1/temp1_input".
  destruct (read _) as [e|b]; [split; [done|by intros (? & ? & ? & _)]|].
  destruct (Atoi w (bytes_str (TrimSpace b))) as [e|m] eqn:Em; [split; [done|intros (? & ? & [= <-] & ? & _); congruence]|].
  rewrite too_far_wraps by (done || by eapply Atoi_sint). case_bool_decide as Hd.
  - split; [done|]. intros (b' & m' & [= <-] & Em' & Hm'). rewrite Em in Em'. injection Em' as <-. lia.
  - split; [|done]. intros _. exists b, m. split_and!; [done..|lia].
Qed.

(** The temperature test passes exactly when the board starts and its first sensor follows the host to 23, 100 and 0
    degrees; overflow of a 32-bit [int] does not make a wrong value pass. *)
Theorem temp_test_verdict (w : Z) (Startup : result unit) (read : nat -> string -> result (list Z)) :
  w = 32 \/ w = 64 ->
  exists t', temp_main (X:=unit) w true Startup read (mk_tst [] false 0 tt) = (Exit, t') /\ off t' = true /\
    ("TEST_OK" ∈ out t' <-> Startup = Ok tt /\ shows_temperature w (read 0%nat) 23 /\ shows_temperature w (read 1%nat) 100 /\
       shows_temperature w (read 2%nat) 0).
Proof.
  intros Hw. setoid_rewrite <- (verifyTemperature_spec w (read 0%nat) 23 Hw ltac:(lia)).
  setoid_rewrite <- (verifyTemperature_spec w (read 1%nat) 100 Hw ltac:(lia)).
  setoid_rewrite <- (verifyTemperature_spec w (read 2%nat) 0 Hw ltac:(lia)). unfold temp_main, test_main, temp_uinit, with_platform, checked, mbind, M_bind, mret, M_ret.
  destruct Startup as [e|[]]; [eexists; split; [reflexivity|]; cbn; set_solver|].
  destruct (verifyTemperature w _ (read 0%nat) 0 23) as [e|[]]; [eexists; split; [reflexivity|]; cbn; set_solver|].
  destruct (verifyTemperature w _ (read 1%nat) 0 100) as [e|[]]; [eexists; split; [reflexivity|]; cbn; set_solver|].
  destruct (verifyTemperature w _ (read 2%nat) 0 0) as [e|[]]; (eexists; split; [reflexivity|]; cbn; set_solver).
Qed.

Lemma forever_sleeps {X A} n ms (t : tst X) : exists t', forever n (Sleep ms) (A:=A) t = (Blocked, t') /\ out t' = out t /\ ext t' = ext t /\ off t' = off t.
Proof.
  revert t. induction n as [|n IH]; intros t; [by exists t|]. cbn. unfold mbind, M_bind. cbn.
  destruct (IH (mk_tst (out t) (off t) (slept t + ms) (ext t))) as (t' & E & H'). exists t'. by rewrite E.
Qed.

(** The test of an idle system never passes by itself: it runs on, and it fails exactly when the startup, or
    what comes over its channel, fails. *)
Lemma noop_test_verdict n (Startup : result unit) (sr : result unit) (t : tst unit) : out t = [] ->
  let '(o, t') := noop_main n true Startup (Ret sr) t in
  match Startup, sr with
  | Ok _, Ok _ => o = Blocked /\ out t' = []
  | _, _ => o = Exit /\ out t' = ["TEST_FAIL"] /\ off t' = true
  end.
Proof.
  intros Ht. unfold noop_main, test_main, noop_uinit, with_platform, checked, mbind, M_bind, mret, M_ret.
  destruct t as [o f sl x]. cbn [out] in Ht. subst o. destruct Startup as [e|u]; [done|]. destruct sr as [e|u']; [done|].
  destruct (forever_sleeps (A:=result unit) n 10000 (mk_tst [] f sl x)) as (t' & -> & Ho & _). by rewrite Ho.
Qed.

(** ** Boot *)

Lemma forever_says n (s : string) (t : tst unit) :
  forever n (say s) (A:=unit) t = (Blocked, mk_tst (out t ++ replicate n s) (off t) (slept t) (ext t)).
Proof.
  revert t. induction n as [|n IH]; intros [o f sl x]; cbn; [by rewrite app_nil_r|].
  unfold mbind, M_bind. cbn. rewrite IH. cbn. by rewrite <- app_assoc.
Qed.

(** The line of the power button is the fourth pin of the group D. *)
Lemma power_button_direction dirs s : dirs ≡ₚ gpioDirRegs ->
  PortDirection 32 dirs s (default 0 (GpioNameToPort mk_Gpio "BMC_PWR_BTN_OUT_N")) = Some (Z.testbit (at_ (GpioReg.Gpio s) 0x004) 27).
Proof.
  intros Hd. assert (Ep : default 0 (GpioNameToPort mk_Gpio "BMC_PWR_BTN_OUT_N") = 27) by (by vm_compute). rewrite Ep.
  rewrite PortDirection_perm by (done || lia). change (PortDirection 32 gpioDirRegs s 27) with (Some (bit_set s 0x004 (uint 32 (24 + 3)))).
  f_equal. unfold bit_set. by rewrite <- (bool_decide_land_pow2_ne _ 27) by lia.
Qed.

(** The boot test keeps printing that it passed exactly when the board started and the direction
    register says that the line of the power button is an output, whatever the order in which the registers are looked up; then
    it never switches the machine off.  Otherwise it prints the failure once and switches it off. *)
Theorem boot_test_verdict (n : nat) (Startup : result unit) (dirs : list (Z * gpioReg)) (s : GpioReg.State) :
  dirs ≡ₚ gpioDirRegs ->
  let '(o, t') := boot_main n true Startup dirs s (mk_tst [] false 0 tt) in
  if bool_decide (Startup = Ok tt) && Z.testbit (at_ (GpioReg.Gpio s) 0x004) 27
  then o = Blocked /\ out t' = replicate n "TEST_OK" /\ off t' = false
  else o = Ret tt /\ off t' = true /\ exists why, out t' = ["TEST_FAILED: " +:+ why].
Proof.
  intros Hd. unfold boot_main, with_platform. destruct Startup as [e|[]].
  { cbn. split_and!; [done..|by exists e]. }
  rewrite bool_decide_eq_true_2 by done. cbn [andb]. unfold mbind at 1, M_bind at 1. unfold mbind at 1, M_bind at 1. cbn [Sleep modify].
  rewrite (power_button_direction dirs s Hd). destruct (Z.testbit _ 27).
  - rewrite forever_says. by cbn.
  - cbn. split_and!; [done..|]. by exists "BMC_PWR_BTN_OUT_N not output".
Qed.

(** ** Runs of the tests *)

Module SimTests.
(** A kernel that has the interface, and one that does not. *)
#[export] Instance netlink : Netlink bool := {
  LinkByName _ up := if up then Ok (mk_link true []) else Err "no such link";
  ParseAddr _ := Ok [10; 0; 2; 1];
  NewHandle _ := Ok tt;
  AddrList _ _ := Ok [];
  AddrReplace _ _ e := (Ok tt, e);
  LinkSetUp _ e := (Ok tt, e);
  LinkSetDown _ e := (Ok tt, e);
  Sethostname _ e := (Ok tt, e);
}.

(** The metrics can be read from the second turn on. *)
Definition get (n : nat) (u : string) : page :=
  if decide (n = O) then Err "connection refused" else Ok (200, Ok (str_bytes "# HELP ubmc_system_version u-bmc version metric")).

Definition run (up : bool) := metrics_main get (mk_tst [] false 0 (mk_net up [] 0)).

Lemma run_passes : (run true).2 = mk_tst ["TEST_OK"] true 600 (mk_net true [CAddr "eth0" [10; 0; 2; 1]; CUp "eth0"] 0).
Proof. by vm_compute. Qed.
Lemma run_fails : (run false).2 = mk_tst ["TEST_FAIL"] true 0 (mk_net false [] 0).
Proof. by vm_compute. Qed.

(** Sensor files as the kernel prints them. *)
Definition sensor (n : nat) (f : string) : result (list Z) :=
  Ok (str_bytes (match n with O => "23125" | S O => "99875" | _ => "-500" end) ++ [10]).
End SimTests.
Import SimTests.

Lemma temp_test_verdict_witness :
  exists t', temp_main (X:=unit) 32 true (Ok tt) sensor (mk_tst [] false 0 tt) = (Exit, t') /\ "TEST_OK" ∈ out t'.
Proof.
  destruct (temp_test_verdict 32 (Ok tt) sensor ltac:(by left)) as (t' & E & _ & H). exists t'. split; [exact E|]. apply H.
  split_and!; [done|exists (str_bytes "23125" ++ [10]), 23125|exists (str_bytes "99875" ++ [10]), 99875|exists (str_bytes "-500" ++ [10]), (-500)]; by vm_compute.
Defined.

Lemma boot_test_verdict_witness :
  (boot_main 2 true (Ok tt) gpioDirRegs (mk_state {[ 0x004 := 0x08000000 ]} ∅) (mk_tst [] false 0 tt)).1 = Blocked.
Proof.
  pose proof (boot_test_verdict 2 (Ok tt) gpioDirRegs (mk_state {[ 0x004 := 0x08000000 ]} ∅) ltac:(done)) as H.
  destruct (boot_main 2 true (Ok tt) gpioDirRegs _ _) as [o t']. change (_ && _) with true in H. apply H.
Defined.
