(* ===== verification/AcmeTest.v ===== *)
(** * The certificate test (integration/utils/acme.go, integration/testcmd/acme)

    A machine that is its own certificate authority and time server, and starts the system with a
    configuration that points to them.  The authority is the pebble package behind a TLS listener; X.509 and PEM are
    interfaces.  The theorems say that the system trusts the authority the test makes, and what it means that the test
    reports SYSTEM_BOOTED. *)

From S2P Require Import Prelude GoMonad GoStrings Encoding Time Config Cert System Dns Json AcmeTypes Jws Acme AcmeFacts AcmeSpec AcmeRenew Server Boot IntegrationTests.
#[local] Open Scope string_scope.
#[local] Open Scope list_scope.
#[local] Open Scope Z_scope.

(** ** The authority (utils/acme.go) *)

(** [x509.Certificate] as far as [genCert] fills it; times are seconds of the Unix epoch. *)
Record template : Type := mk_template {
  SerialNumber : Z; Organization : list string; t_NotBefore : Z; t_NotAfter : Z;
  KeyUsage : list string; ExtKeyUsage : list string; BasicConstraintsValid : bool; IPAddresses : list string }.

(** The packages: ECDSA keys, random numbers below a limit, self-signed certificates, PEM, and the check of
    a server certificate against roots, a host and the time. *)
Class CaLib (K : Type) : Type := {
  ca_GenerateKey : result K;
  rand_Int : Z -> result Z;
  CreateSelfSigned : template -> K -> result (list Z);
  pem_EncodeToMemory : string -> list Z -> string;
  pem_roots : string -> list (list Z);
  Verify : list (list Z) -> list Z -> string -> Z -> bool;
}.

(** PEM reads back, and a self-signed certificate among the roots is good for the hosts it names, for servers, while it is
    valid. *)
Class CaLaws (K : Type) `{CaLib K} : Prop := {
  self_signed_bytes : forall t k der, CreateSelfSigned t k = Ok der -> bytes_ok der;
  roots_encoded : forall der, bytes_ok der -> pem_roots (pem_EncodeToMemory "CERTIFICATE" der) = [der];
  verify_root : forall t k der roots host now, CreateSelfSigned t k = Ok der -> der ∈ roots -> host ∈ IPAddresses t ->
    "serverAuth" ∈ ExtKeyUsage t -> t_NotBefore t <= now <= t_NotAfter t -> Verify roots der host now = true;
}.

Record CAServer (K : Type) : Type := mk_ca { ca_APICA : string; ca_Directory : string; ca_cert : list Z; ca_key : K }.
Arguments mk_ca {K} _ _ _ _.
Arguments ca_APICA {K} _.
Arguments ca_Directory {K} _.
Arguments ca_cert {K} _.
Arguments ca_key {K} _.

Section Ca.
Context {K : Type} `{CaLib K}.

Definition loopback : string := "::1".

Definition ca_template (serial notBefore : Z) : template :=
  mk_template serial ["u-bmc Integration Test Company"] notBefore (Z.shiftl 1 31 - 1)
    ["KeyEncipherment"; "DigitalSignature"] ["serverAuth"] true [loopback].

(** [genCert] at the time [now]. *)
Definition genCert (now : Z) : outcome (list Z * K) :=
  match ca_GenerateKey with
  | Err _ => Exit
  | Ok priv =>
      match rand_Int (Z.shiftl 1 128) with
      | Err _ => Exit
      | Ok serial =>
          match CreateSelfSigned (ca_template serial now) priv with
          | Err _ => Exit
          | Ok der => Ret (der, priv)
          end
      end
  end.

(** [NewTestCA]; the resolver and the handler of pebble are left out. *)
Definition NewTestCA (now : Z) : outcome (CAServer K) :=
  match genCert now with
  | Ret (der, priv) => Ret (mk_ca (pem_EncodeToMemory "CERTIFICATE" der) "https://[::1]:14000/dir" der priv)
  | Panic => Panic
  | Exit => Exit
  | Blocked => Blocked
  end.

(** [Run]: the address and the certificate it serves with; it ends the process when it cannot listen
    or when serving ends. *)
Definition ca_Run (c : CAServer K) (listen : result unit) (served : option (result unit)) : outcome unit * option (string * list Z) :=
  match listen with
  | Err _ => (Exit, None)
  | Ok _ =>
      (match served with
       | None => Blocked
       | Some (Err _) => Exit
       | Some (Ok _) => Ret tt
       end, Some (":14000", ca_cert c))
  end.

(** The authority of the test is trusted by the system it starts: a client whose roots are the configured
    PEM text accepts the certificate that the authority presents on the loopback address of its directory, at every time from
    the start of the machine, whose clock is not set yet, to January 2038. *)
Theorem test_ca_trusted `{!CaLaws K} (start now : Z) (ca : CAServer K) :
  NewTestCA start = Ret ca -> start <= now < 2 ^ 31 ->
  ca_Directory ca = "https://[" +:+ loopback +:+ "]:14000/dir" /\
  exists addr cert, (ca_Run ca (Ok tt) None).2 = Some (addr, cert) /\ Verify (pem_roots (ca_APICA ca)) cert loopback now = true.
Proof.
  unfold NewTestCA, genCert. intros E Hnow. destruct ca_GenerateKey as [|priv]; [done|]. destruct (rand_Int _) as [|serial]; [done|].
  destruct (CreateSelfSigned _ _) as [|der] eqn:Ec; [done|]. injection E as <-. split; [done|]. eexists _, _. split; [reflexivity|].
  cbn [ca_APICA ca_cert]. rewrite roots_encoded by (by eapply self_signed_bytes). eapply verify_root; [exact Ec|set_solver..|]. cbn [ca_template t_NotBefore t_NotAfter]. change (Z.shiftl 1 31) with (2 ^ 31). lia.
Qed.
End Ca.

(** ** The test (testcmd/acme) *)

(** The default configuration with the servers of the test.  The test changes the shared default itself, which
    nothing else reads. *)
Definition test_config {K} (c : Config.Config) (ca : CAServer K) (rt : TestServer) : Config.Config :=
  Config.mk_config [ts_Config rt] [] (StartDebugSshServer c) (DebugSshServerKeys c) (c_Version c)
    (mk_acme (ca_Directory ca) (Config.Contact (c_ACME c)) true (ca_APICA ca)).

(** [&c.ACME] for the certificate manager. *)
Definition acme_of (a : ACME) : ACMEConfig :=
  AcmeRenew.mk_config (Config.APICA a) (a_Directory a) (Config.Contact a) (Config.TermsAgreed a).

Section Test.
Context {W P K message : Type} `{AcmeEnv W} `{AcmeLib} `{Signing W P} `{RenewEnv W K} `{Crypto K} `{KeyPairs K} `{CaLib K} `{Roughtimes message}.
Context (write_error : string -> option error) (signer : K -> Signer P) (w : Z) (rounds fuel : nat) (now : nat -> Z).

(** The attempts to get the time: what [AcquireTime] returns when the servers [rs] answer [Get] in turn, without NTP servers. *)
Definition time_attempts (Get : nat -> RoughtimeServer -> list Z -> result Roughtime) (rs : list RoughtimeServer) (n : nat) : outcome (result Z) :=
  AcquireTime rs (contacted StdDecodeString (Get n) rs) [].

(** [uinit]: [start] is the clock of the machine, which reads [year], [Get] are the answers of time servers over [tries] attempts,
    [attempts] how often a certificate is tried for, [n] how often the last loop is followed. *)
Definition acme_uinit (n attempts : nat) (opened : bool) (start year : Z) (c : Config.Config) (tries : nat)
    (Get : nat -> RoughtimeServer -> list Z -> result Roughtime) (listen : result unit) (E : boot_env K) : M (tst (machine W K)) (result unit) :=
  with_platform opened
  match NewTestCA (K:=K) start with
  | Ret ca =>
      match NewTestRoughtimeServer (message:=message) with
      | Ret rt =>
          let c := test_config c ca rt in
          checked (on_ext (startup (P:=P) write_error signer (acme_of (c_ACME c)) E)) (fun m =>
          checked (on_ext (async_startup write_error w rounds fuel now attempts year tries (time_attempts Get (RoughtimeServers c)) listen m)) (fun _ =>
          _ ← say "SYSTEM_BOOTED";
          forever n (Sleep 10000)))
      | _ => go_fatal
      end
  | _ => go_fatal
  end.

Definition acme_main (n attempts : nat) (opened : bool) (start year : Z) (c : Config.Config) (tries : nat)
    (Get : nat -> RoughtimeServer -> list Z -> result Roughtime) (listen : result unit) (E : boot_env K) : M (tst (machine W K)) unit :=
  test_main (acme_uinit n attempts opened start year c tries Get listen E).

(** An attempt with one server that gives a time has decoded its key and got its answer. *)
Lemma time_attempts_one Get r k t : time_attempts Get [r] k = Ret (Ok t) ->
  exists pk rt, StdDecodeString (Time.PublicKey r) = Ok pk /\ Get k r pk = Ok rt /\ t = Midpoint rt.
Proof.
  unfold time_attempts, contacted. cbn -[StdDecodeString]. destruct (StdDecodeString (Time.PublicKey r)) as [e|pk]; [done|].
  destruct (Get k r pk) as [e|rt] eqn:Eg; [done|]. intros [= <-]. eauto.
Qed.

(** C14: The test of the certificates never reports success by itself: it prints SYSTEM_BOOTED and goes
    on, or it fails.  When it has printed that, the platform was opened, the port was free, the clock read a year past 2018 or the roughtime server
    of the test was asked with its key and answered, and the system it started, which was configured with the
    authority of the test and agreed to its terms, serves on the remote port, encrypted, with a certificate that was in the files and valid, or that a renewal
    returned after its challenge was answered. *)
Theorem acme_test_booted (n attempts : nat) (opened : bool) (start year : Z) (c : Config.Config) (tries : nat)
    (Get : nat -> RoughtimeServer -> list Z -> result Roughtime)
    (listen : result unit) (E : boot_env K) (s0 : machine W K) (o : outcome (result unit)) (t' : tst (machine W K)) :
  m_srv s0 = no_servers -> acme_uinit n attempts opened start year c tries Get listen E (mk_tst [] false 0 s0) = (o, t') ->
  o <> Ret (Ok tt) /\ (out t' = [] \/ out t' = ["SYSTEM_BOOTED"] /\ o = Blocked) /\
  (out t' = ["SYSTEM_BOOTED"] -> opened = true /\ listen = Ok tt /\
     exists ca rt m s1 crt, NewTestCA start = Ret ca /\ NewTestRoughtimeServer (message:=message) = Ret rt /\
       (year > 2018 \/ exists k pk ans, (k < tries)%nat /\ StdDecodeString (Time.PublicKey (ts_Config rt)) = Ok pk /\ Get k (ts_Config rt) pk = Ok ans) /\
       Config m = AcmeRenew.mk_config (ca_APICA ca) (ca_Directory ca) (Config.Contact (c_ACME c)) true /\
       startup (P:=P) write_error signer (Config m) E s0 = (Ret (Ok m), s1) /\
       servers (m_srv (ext t')) = local_servers ++ [remote_server crt] /\
       certified w rounds fuel now m (m_files s1) (ext t') crt).
Proof.
  intros H0' Eu. unfold acme_uinit, with_platform in Eu. destruct opened; [|by injection Eu as <- <-; split; [done|]; split; [by left|]].
  destruct (NewTestCA start) as [ca| | |]; try (injection Eu as <- <-; split; [done|]; split; [by left|done]).
  destruct NewTestRoughtimeServer as [rt| | |]; try (injection Eu as <- <-; split; [done|]; split; [by left|done]).
  cbv zeta in Eu. set (cfg := acme_of _) in Eu. unfold checked, mbind, M_bind, on_ext in Eu. cbn [ext] in Eu.
  destruct (startup write_error signer cfg E s0) as [os s1] eqn:Es.
  destruct os as [[e|m]| | |]; try (injection Eu as <- <-; split; [done|]; split; [by left|done]).
  cbn [ext out off slept] in Eu. destruct (async_startup _ _ _ _ _ _ _ _ _ _ m s1) as [oa s2] eqn:Ea.
  destruct oa as [[e|u]| | |]; try (injection Eu as <- <-; split; [done|]; split; [by left|done]).
  destruct (forever_sleeps (A:=result unit) n 10000 (mk_tst ["SYSTEM_BOOTED"] false 0 s2)) as (t1 & Ef & Ho & Hx & _).
  change (forever n (Sleep 10000) (mk_tst ["SYSTEM_BOOTED"] false 0 s2) = (o, t')) in Eu. rewrite Ef in Eu. injection Eu as <- <-.
  split; [done|]. split; [by right|]. intros _. split; [done|].
  pose proof Es as Est. apply startup_started in Est as [_ Hm]. destruct (Hm m eq_refl) as (_ & Hh & Hcfg & Hd & Hsrv).
  destruct (async_startup_eq _ _ _ _ _ _ _ _ _ _ _ _ _ _ Ea Hh ltac:(by rewrite Hd)) as [(_ & _ & Hn)|(Ht & crt & r & Hc & _ & _ & Hs2)]; [by destruct (Hn (Ok u))|].
  destruct listen as [e|[]]; [by destruct Hs2|]. destruct Hs2 as [_ Hs2]. split; [done|].
  exists ca, rt, m, s1, crt. split_and!; [done..| |by rewrite Hcfg|by rewrite Hcfg| |].
  - destruct Ht as [Hy|(k & t & Hk & Et)]; [by left|right]. apply time_attempts_one in Et as (pk & ans & Hpk & Hg & _). by exists k, pk, ans.
  - rewrite Hx. cbn [ext]. rewrite Hs2, Hsrv, H0'. done.
  - by rewrite Hx.
Qed.
End Test.

(** ** A run of the test

    Certificates that are their two times, for the loopback address; a roughtime package whose keys are four bytes. *)
Import SimAcme SimRenew SimBoot.

Module SimCa.
Definition self_signed (t : template) : result (list Z) :=
  if decide (IPAddresses t = [loopback] /\ is_uint 64 (t_NotBefore t) /\ is_uint 64 (t_NotAfter t))
  then Ok (le_bytes 8 (t_NotBefore t) ++ le_bytes 8 (t_NotAfter t)) else Err "x509: unsupported".

Lemma self_signed_eq t der : self_signed t = Ok der ->
  der = le_bytes 8 (t_NotBefore t) ++ le_bytes 8 (t_NotAfter t) /\ IPAddresses t = [loopback] /\ is_uint 64 (t_NotBefore t) /\ is_uint 64 (t_NotAfter t).
Proof. unfold self_signed. case_decide; [|done]. intros E. split; [congruence|done]. Qed.

#[export] Instance ca_lib : CaLib Z := {
  ca_GenerateKey := Ok 5;
  rand_Int limit := Ok (limit - 1);
  CreateSelfSigned t _ := self_signed t;
  pem_EncodeToMemory _ der := bytes_str der;
  pem_roots s := [str_bytes s];
  Verify roots der host now := bool_decide (der ∈ roots /\ host = loopback /\ le_int (take 8 der) <= now <= le_int (drop 8 der));
}.

#[export] Instance ca_laws : CaLaws Z.
Proof.
  split; cbn.
  - intros t _ der (-> & _)%self_signed_eq. apply Forall_app. split; apply le_bytes_range.
  - intros der Hb. by rewrite str_bytes_str.
  - intros t _ der roots host now (-> & Hip & Hb & Ha)%self_signed_eq Hin Hh _ Hn.
    rewrite Hip in Hh. apply bool_decide_eq_true_2. split; [done|]. split; [set_solver|].
    rewrite take_app_length', drop_app_length', !le_int_le_bytes by (by rewrite length_le_bytes). by rewrite !uint_id.
Qed.

#[export] Instance roughtimes : Roughtimes unit := {
  Config.GenerateKey n := Ok ([1; 2; 3; Z.of_nat n], [Z.of_nat n]);
  CreateCertificate _ _ pk _ := Ok pk;
  Decode _ := Ok tt;
  TagNonce _ := None;
  CreateReplies _ _ _ _ _ := Err "";
}.

(** The clock is not set; the server of the test does not answer at once. *)
Definition time_answer (n : nat) (r : RoughtimeServer) (pk : list Z) : result Roughtime :=
  if decide (n = 1%nat /\ Address r = "[::1]:2002") then Ok (mk_roughtime hour 1) else Err "timeout".

Definition test (n : nat) : outcome (result unit) * tst (machine SimAcme.script Z) :=
  acme_uinit (P:=unit) (message:=unit) SimBoot.no_errors (fun _ => SimAcme.key) 32 2 1 (fun _ => hour) n 1 true 100 1970 SimConfig.sim_config
    2 time_answer (Ok tt) (SimBoot.boot "bmc") (mk_tst [] false 0 SimBoot.off).
Definition tested : machine SimAcme.script Z := ext (test 1).2.
End SimCa.
Import SimCa.

Lemma test_ca_trusted_witness :
  exists ca : CAServer Z, NewTestCA 100 = Ret ca /\ Verify (pem_roots (ca_APICA ca)) (ca_cert ca) loopback 1700000000 = true.
Proof.
  eexists. split; [reflexivity|].
  destruct (test_ca_trusted 100 1700000000 (mk_ca (bytes_str (le_bytes 8 100 ++ le_bytes 8 2147483647)) "https://[::1]:14000/dir"
    (le_bytes 8 100 ++ le_bytes 8 2147483647) 5) ltac:(by vm_compute) ltac:(lia)) as (_ & addr & cert & [= <- <-] & Hv). exact Hv.
Defined.

Lemma acme_test_booted_witness : servers (m_srv tested) = local_servers ++ [remote_server served].
Proof.
  destruct (acme_test_booted (P:=unit) (message:=unit) SimBoot.no_errors (fun _ => SimAcme.key) 32 2 1 (fun _ => hour) 1 1 true 100 1970 SimConfig.sim_config
    2 time_answer (Ok tt) (SimBoot.boot "bmc") SimBoot.off Blocked (test 1).2) as (_ & _ & Hb);
    [done|fold (test 1); apply SimBoot.run_outcome; by vm_compute|].
  destruct Hb as (_ & _ & ca & rt & m & s1 & crt & _ & _ & _ & _ & _ & Hs & _); [by vm_compute|].
  fold tested in Hs. assert (crt = served) as -> by (revert Hs; vm_compute; by intros [= <-]). exact Hs.
Defined.
